(* ===== verification/_CoqProject ===== *)
-Q . S2P
Prelude.v
Utf8.v
GoStd.v
FlbLex.v
FlbParse.v
GoJson.v
GoUrl.v
GoPath.v
Types.v
RingGrowing.v
Cache.v
DeltaFifo.v
SharedInformer.v
Listers.v
InformerFactory.v
Reflector.v
InformerSystem.v
InformerKinds.v
InformerSide.v
ApiServer.v
RestRequest.v
Pager.v
RestConfig.v
TypedClients.v
Clientset.v
Scheme.v
ObjectTracker.v
FakeClients.v
FakeWatch.v
SinkConfig.v
SinkController.v
SinkSystem.v
SinkLiveness.v
MetricConfig.v
KubeApi.v
MetricController.v
MetricSystem.v
EventController.v
Webhook.v
WebhookServer.v
EnvStruct.v
Startup.v
InformerRequests.v
SinkMain.v
SinkInformers.v
SinkEndToEnd.v
SinkCluster.v
MetricInformers.v
MetricMain.v
MetricEndToEnd.v
MetricCluster.v
EventMain.v
EventInformers.v
EventCluster.v
ValidatorMain.v
