(* ===== verification/Prelude.v ===== *)
(** * Knative observability: a verification library

    The repository runs four programs beside a Kubernetes cluster.  Users
    describe where logs and metrics go with four custom resources ([LogSink],
    [ClusterLogSink], [MetricSink], [ClusterMetricSink]); the programs turn
    these into configuration files of the agents that do the forwarding.

    - [cmd/sink-controller] watches the two kinds of log sink, keeps them in a
      [Config], and writes the fluent-bit outputs of all of them into the
      config map of the fluent-bit pods, which it then restarts.
    - [cmd/metric-controller] runs one telegraf deployment per metric sink and
      keeps the configuration of the cluster's own telegraf for the cluster
      metric sinks.
    - [cmd/event-controller] forwards Kubernetes events to fluent-bit.
    - [cmd/validator] is the admission webhook that accepts or refuses sinks
      before the API server stores them.

    ** Files

    Source names are relative to [src/].  A Go method [(r *T) M] is the
    definition [M], or [T_M] where [M] alone would be ambiguous, with the
    receiver as an argument; a method that changes its receiver returns it.

    - [Prelude]: results of fallible code, strings, lists, finite maps.
    - [Utf8], [GoStd], [GoUrl], [GoJson]: what the sources use of Go's standard
      library, as of Go 1.11: decoding of UTF-8, [fmt.Sprintf], [range] over
      a map, [sort.Slice], [url.Parse], [json.Marshal].
    - [FlbLex], [FlbParse]: [pkg/sink/flbconfig/lex.go] and [parse.go], the
      reader of fluent-bit configuration files.
    - [Types]: [pkg/apis/sink/v1alpha1], the resources and their deep copies.
    - [Cache]: the store of an informer (client-go's [tools/cache], vendored):
      the class [Indexer] the listers read through, and the indexed store that
      meets its laws.
    - [RingGrowing], [DeltaFifo], [SharedInformer], [Reflector]: a running
      informer (client-go's [util/buffer] and [tools/cache], vendored): the ring
      buffer of a listener, the queue of changes, the distribution to handlers,
      and the reflector that lists and watches.  Its state is the record
      [Reflector.running]; the rounds of its goroutines are the steps [act].
      [InformerSystem]: what its handler is told in a run, and that it is
      told everything; [InformerKinds]: the objects of one kind behind an
      informer; [InformerSide]: informers with handlers at work on shared state.
    - [ApiServer]: the API server behind the informers: histories of changes,
      what it may answer to lists and watches, and a program beside it.
    - [Listers]: [pkg/client/listers/sink/v1alpha1], the four listers.
    - [InformerFactory]: [pkg/client/informers/externalversions], the factory
      that shares one informer per kind.
    - [GoPath], [RestRequest], [RestConfig]: package path and client-go's [rest]
      (vendored): paths, requests built step by step, and the way from a
      configuration to a client with its base address and rate limiter;
      [Pager]: [tools/pager] (vendored), lists in pages.
    - [TypedClients]: [pkg/client/clientset/versioned/typed/sink/v1alpha1], the
      clients of the four kinds and of the group; [Clientset]:
      [versioned/clientset.go], the group's client with a discovery client;
      [InformerRequests]: what the reflector of an informer asks the typed
      clients for, and what they send.
    - [Scheme]: the [register.go] files, over the type registry of apimachinery.
    - [ObjectTracker], [FakeClients]: the object tracker of client-go's
      [testing] (vendored), and the fakes of [typed/sink/v1alpha1/fake] and
      [versioned/fake], which answer from it; [FakeWatch]: what its watches
      receive.
    - [SinkConfig]: [pkg/sink/config.go], the fluent-bit outputs of a set of
      sinks.  Its state is the record [Config], the two maps of the struct.
    - [SinkController]: [pkg/sink/controller.go], [cluster_controller.go],
      [common.go] and [cluster_config.go].  The state of a handler is the
      [Config], the world of the Kubernetes client and the log.
    - [SinkSystem]: the controllers of [cmd/sink-controller/main.go] at work:
      histories of objects in the API server with what the informers report
      of them, and the two informer goroutines as a step relation;
      [SinkLiveness]: that they come to rest; [SinkInformers]: the goroutines
      with the informers that feed them; [SinkEndToEnd]: the program from its
      start on; [SinkCluster]: the program beside an API server.
    - [MetricConfig]: [pkg/metric/cluster_config.go], with Go slices as
      arrays in a heap, because [append] may write into a shared array.
    - [KubeApi], [MetricController]: Kubernetes objects and requests, and
      [pkg/metric/controller.go] and [cluster_controller.go]; [MetricSystem]:
      the two controllers after histories of their objects;
      [MetricInformers]: the handlers request by request, with the informers that
      feed them; [MetricEndToEnd]: the program from its start on;
      [MetricCluster]: the program beside an API server.
    - [EventController]: [pkg/event/controller.go]; [EventInformers]: the program
      with the informer of all events that feeds it; [EventCluster]: the program
      beside an API server.
    - [Webhook], [WebhookServer]: [pkg/webhook/server.go] and [error.go]: the
      decisions and answers of the handlers, and the life of the server.
    - [EnvStruct]: go-envstruct (vendored), settings from the environment.
    - [Startup], [SinkMain], [MetricMain], [EventMain], [ValidatorMain]: the
      [main] functions under [cmd], as computations that end with the running
      program or with the error that stopped it.

    ** What the theorems show

    Reading fluent-bit configurations.  The lexer stops on every input without
    an out-of-range slice ([Run_terminates]) and produces the tokens of a
    reference machine on the remaining text ([Run_equivalent]); its token
    streams have a shape ([Run_token_stream]) that leaves the parser four
    possible errors ([Parse_errors]); a printed file parses back to itself
    ([Parse_print]).

    Writing them.  The parser serves as the meaning of a configuration text:
    [Config_String_sections] says that the text the controllers write parses
    to one output section per sink, with the values of the sink's spec.
    For a configuration as the handlers make it, with at most one webhook of
    each kind, the text does not depend on the order of map iteration
    ([Config_String_deterministic]; with more it does), and without any sink it
    is the null output ([Config_String_null]).

    Keeping them up to date.  [handler_calls] states the API calls of every
    handler whatever the server answers; [outputs_follow_config] that the
    config map holds the text of the current configuration unless an error was
    logged; [controllers_refine_api] that the configuration mirrors the
    objects of the API server after every history of creations, changes and
    deletions; [outputs_follow_cluster] puts the three together.  With the
    two goroutines interleaved, the outputs are a text of the configuration in
    some state the run has gone through, or those of its start
    ([outputs_never_mixed]), but can stay out of date
    ([race_leaves_stale_outputs]), and no resync repairs them
    ([resync_repairs_nothing]); a deletion the watch missed is ignored
    ([missed_deletion_keeps_outputs]).  Every report is handled in the end
    ([every_report_handled]).

    Informers.  Whatever the API server lists and sends and however the
    goroutines of an informer interleave, its handler is told a history of its
    store, and the store comes to be what the server said last
    ([informer_mirrors], [informer_catches_up]) if the last list was clean: a
    list that arrives while changes are queued can lose one
    ([list_can_lose_objects]).  The ring buffer is a queue ([ring_is_queue]).

    From the API server to the agents.  [informer_follows_server] is about any
    handler behind an informer of any kind, beside an API server with a history:
    what the informer was told is a past state of the server, its store is the
    server's when it has caught up, and it can always catch up.
    [outputs_mirror_api_server], [telegraf_mirrors_api_server] and
    [events_mirror_api_server] are the three controllers from the start of
    [main], in the same cluster, and from every state a server that only
    answers can bring the program to rest.  At rest, after clean lists, with no
    deletion missed and the informers up to date: the log configuration is that
    of the log sinks that exist, and fluent-bit's outputs are too if since some
    state with both handlers idle a report changed the configuration, no call
    failed and the handlers did not overlap, which the program leaves to chance;
    if nothing was logged, telegraf's objects are there for every metric sink
    that exists, and objects of no existing sink are as they were at the start;
    and the keys of the events that exist have been posted once more than they
    were reported deleted.  They rest on
    [outputs_after_start], [telegraf_after_start] and [events_reach_fluent],
    which hold whatever the server answers and speak of the objects it has told
    of; [configuration_mirrors_server] is about every state in between.

    Lists over the wire.  [informers_ask_server] says which requests the informers
    make, and that a server whose lists are states of its history gives the
    reflector the answers the cluster theorems assume; [pager_lists_all] that
    the list in pages comes to an end with everything in it, or with the error
    of a page, or, after an expired token, with what a request for the whole
    list gives.
    [sink_informers_served] and [metric_informers_served] connect them with the
    programs.

    Starting.  [sink_controller_starts] is the start of the sink controller with
    all its ways to fail, and ties it to the informers, the clients and their
    requests; [start_keeps_outputs] that it leaves the outputs alone.
    [metric_controller_starts], [event_controller_starts] and
    [validator_starts] are the other programs.

    Metrics.  [ClusterConfig_String_tables] gives the tables the TOML encoder
    receives, [ClusterConfig_String_repeatable] that the default inputs
    survive the in-place appends, and what two calls with different orders of
    the sinks have in common.  The handlers send their requests in order, stop at
    the first error, and log it and what the encoder may log
    ([metric_handler_requests]); the objects of a sink fit together
    ([sink_objects_fit]).  After any history without a failed call the API
    server has telegraf's objects for every metric sink that exists and
    otherwise what it had ([metric_sinks_refine_api]), and the cluster's telegraf
    the text of exactly the cluster metric sinks
    ([cluster_metrics_refine_api]).

    Events.  Every reported addition is posted once ([events_posted]); the
    counters are exact modulo 2^64 ([counters_exact]).  With its informer the
    program posts an event once for each time it is reported as added, whatever
    updates, resyncs and new lists follow ([events_reach_fluent]).

    The client library.  A lister lists exactly the objects its selector
    matches ([listers_exact]); [listers_get] says what looking up a name gives.
    The factory gives everybody the same informer ([informers_shared]) and
    starts it once ([Start_starts_once]).  Each method of a typed client is one
    request ([client_requests]), but with the clients of the cluster-scoped
    kinds nothing reaches an object except a patch
    ([cluster_clients_only_patch]); the fakes answer like maps, but for
    [DeleteCollection] and a [Patch] of what is not there ([fakes_are_maps],
    [simple_clientset_holds]), and hide this ([fakes_hide_cluster_clients]);
    their watches receive each event once, and those of the cluster-scoped kinds
    twice ([fake_watch_events]).
    The registry makes objects of the registered types
    ([registration_typed], [sinks_registered]).  [clientset_rates] says which
    clients share a rate limiter.

    The webhook.  [log_sink_decision] and [metric_sink_decision] say exactly
    which sinks are accepted; [accepted_sinks_encrypted] connects this with
    the sections of the text the controllers write, for names, hosts and paths
    without newlines ([newline_defeats_tls] is why); [Close_reports] is about
    stopping the server in each phase of its start.

    ** Bounds and fuel

    The loops of the lexer's state functions read at least one byte a round,
    so [loop_fuel], one more than the bytes left, is enough; [Run] makes at
    most four transitions per byte and [run_fuel] is four per byte plus
    four.  [Run_terminates] is the proof that neither runs out, so [FlbLex.Run]
    and [Parse] are the functions of the source on every input.
    The JSON string encoder and decoder have as much fuel as there are bytes,
    and every round consumes one.  The pager asks for another page only when the
    last one had an object, so one more than the objects is enough
    ([pager_lists_all]).  Everything else is structural.  The counters of the event controller are
    integers modulo 2^64 in two's complement; ports are unbounded integers
    until the webhook has checked them, as the code only compares and prints
    them.

    ** Interfaces

    What the sources call and do not contain is a class, and its laws are the
    documented behaviour that a theorem needs, each with an instance:
    the order of map iteration ([MapRange]; the handlers draw it anew for each
    text they take, with [draw_order] of [KubeWorld], while the ranges of an
    informer, and those of a metric sink's own configuration, whose order does
    not show, keep one order for a run), the sort ([SliceSort]),
    the growth of arrays ([SliceGrow]), Unicode tables beyond Latin-1
    ([UnicodeTables]), the copy functions of apimachinery ([MetaCopy]), the
    Kubernetes client ([KubeWorld], [PatchServer]; [KubeAPI], [KubeStore]),
    the informers' store ([Indexer], [IndexerLaws]), the encoding and the
    transport of requests ([Codec], [Transport]), TLS and serializers
    ([ClientLibrary]), selectors and patches of the fakes, the fluent forwarder
    ([Forwarder]), the machine that runs telegraf ([Machine], [Telegraf]), the
    network ([Net], [NetLaws]) and the machine a program starts on
    ([Platform], [PlatformLaws]).  The TOML encoder and the decoding of
    admission reviews are arguments of the definitions that use them.
    [ClientKind] and [FakeKind] are what the code generators fill in for each
    kind: one definition serves the four kinds.  [ObjectKind] is what a handler
    makes of an informer's untyped objects, with five instances, and [handler]
    (a record with laws) what a listener needs of a handler: the theorems about
    running informers are proved once against these.  [Revisions] are the
    resource versions of the API server, opaque texts that differ; [answers] and
    [pages] are what its documentation says of lists, watches and pages;
    [Served] says that the calls of an informer reach the client of its kind.  [MetricWorld] says that
    the requests of the two metric controllers are about different objects.

    ** Steps

    A step of an informer is a round of one of its goroutines, up to the next
    point where others can be noticed: a list with the queue it fills, an
    event, a change of the queue with the reports it distributes, a resync, the
    handing over of one report.  Beside an API server there is one more step, a
    change that the server commits; the answers in the informers' steps are then
    restricted to those of its history ([side_step_on]).  The timer of a resync and the round it starts
    are one step, and the resync goroutine of an earlier list is gone when the
    next list is made.  The steps of the sink handlers are the locked sections
    of [Config] and the two calls; those of the metric handlers are single
    requests, each with the encoder's log line before it, if any, and that of
    its error after it.  Handlers of different informers overlap in any way:
    the programs are the steps with [alone] false, and the steps with [alone]
    true are the runs, of those, in which no handler starts while the other is
    at work.  [Controller_OnAdd] of the
    metric sinks also writes the default type into the object it was given,
    which is the one in the informer's store; the stores of [MetricInformers]
    keep the object as it came, since no handler reads the type of an old or
    deleted object, and one that is reported as new is a new object or, after a
    resync, has the same spec.

    ** Not modelled

    Stopping an informer, handlers that panic, the metrics and the mutation
    detector of informers, retries, backoff and the waiting for rate limiters,
    the events of a watch on the wire (the answers of [ApiServer] are what the
    reflector reads from the channel), the discovery client's requests, which
    no program makes, conversion and defaulting functions of a scheme (the group
    has none), and signals.  Of the informers' cache only the index by namespace
    is modelled, and of the settings from the environment only strings, booleans
    and integers; no program has others.  The requests of the event informer go
    through client-go's client of the core group, which is an interface, like
    the Kubernetes client.  Fresh memory is not represented in the deep copies: a
    copy is the value it holds.  Logs are lists of lines without time stamps. *)

From stdpp Require Import base gmap strings list sorting pretty.
From Stdlib Require Import Ascii ZArith.

#[global] Open Scope string_scope.
#[global] Open Scope list_scope.
#[global] Open Scope Z_scope.
#[global] Open Scope nat_scope.

(** ** Results of fallible Go code *)

Inductive res (E A : Type) : Type :=
| Ok (a : A)
| Err (e : E).
Arguments Ok {E A} a.
Arguments Err {E A} e.

Definition res_bind {E A B} (m : res E A) (k : A -> res E B) : res E B :=
  match m with
  | Ok a => k a
  | Err e => Err e
  end.

Declare Scope go_scope.
Delimit Scope go_scope with go.
#[global] Open Scope go_scope.

Notation "'let!' x := m 'in' k" := (res_bind m (fun x => k))
  (at level 10, x pattern, m at level 100, k at level 200)
  : go_scope.

#[global] Instance res_eq_dec {E A} `{EqDecision E} `{EqDecision A} : EqDecision (res E A).
Proof. solve_decision. Defined.

Lemma res_bind_ok {E A B} (m : res E A) (k : A -> res E B) b :
  res_bind m k = Ok b <-> exists a, m = Ok a /\ k a = Ok b.
Proof. destruct m; cbn; split; [eauto | by intros (? & [= ->] & ?) | done | by intros (? & ? & _)]. Qed.

Lemma res_bind_err {E A B} (m : res E A) (k : A -> res E B) e :
  res_bind m k = Err e <-> m = Err e \/ exists a, m = Ok a /\ k a = Err e.
Proof.
  destruct m; cbn; split.
  - eauto.
  - by intros [? | (? & [= ->] & ?)].
  - intros [= ->]; auto.
  - by intros [[= ->] | (? & ? & _)].
Qed.

(** ** Automation *)

Create HintDb gostr.
Create Rewrite HintDb gostr.

(** Case analysis on the scrutinee of the first [match] or [if] of the goal or
    of a hypothesis, keeping the equation. *)
Ltac case_scrutinee :=
  match goal with
  | |- context [match ?x with _ => _ end] => destruct x eqn:?
  | H : context [match ?x with _ => _ end] |- _ => destruct x eqn:?
  end.

(** Turn the boolean comparisons of the context and the goal into
    propositions that [lia] reads. *)
Ltac boolify :=
  repeat match goal with
  | H : _ && _ = true |- _ => apply andb_true_iff in H; destruct H
  | H : _ && _ = false |- _ => apply andb_false_iff in H
  | H : _ || _ = false |- _ => apply orb_false_iff in H; destruct H
  | H : _ || _ = true |- _ => apply orb_true_iff in H
  | H : negb _ = true |- _ => apply negb_true_iff in H
  | H : negb _ = false |- _ => apply negb_false_iff in H
  | H : Z.ltb _ _ = true |- _ => apply Z.ltb_lt in H
  | H : Z.ltb _ _ = false |- _ => apply Z.ltb_ge in H
  | H : Z.leb _ _ = true |- _ => apply Z.leb_le in H
  | H : Z.leb _ _ = false |- _ => apply Z.leb_gt in H
  | H : Z.eqb _ _ = true |- _ => apply Z.eqb_eq in H
  | H : Z.eqb _ _ = false |- _ => apply Z.eqb_neq in H
  | H : Nat.eqb _ _ = true |- _ => apply Nat.eqb_eq in H
  | H : Nat.eqb _ _ = false |- _ => apply Nat.eqb_neq in H
  | H : Nat.leb _ _ = true |- _ => apply Nat.leb_le in H
  | H : Nat.leb _ _ = false |- _ => apply Nat.leb_gt in H
  | H : Nat.ltb _ _ = true |- _ => apply Nat.ltb_lt in H
  | H : Nat.ltb _ _ = false |- _ => apply Nat.ltb_ge in H
  end.

(** ** Go strings

    A Go string is a sequence of bytes; it is modelled by [string], whose
    characters are the 256 values of [ascii]. *)

Definition byte_of (c : ascii) : Z := Z.of_N (N_of_ascii c).

Definition chr (z : Z) : ascii := ascii_of_N (Z.to_N z).

Lemma byte_of_range c : (0 <= byte_of c < 256)%Z.
Proof. unfold byte_of. pose proof (N_ascii_bounded c). lia. Qed.

Lemma chr_byte_of c : chr (byte_of c) = c.
Proof. unfold chr, byte_of. rewrite N2Z.id. apply ascii_N_embedding. Qed.

Lemma byte_of_chr z : (0 <= z < 256)%Z -> byte_of (chr z) = z.
Proof. intros H. unfold chr, byte_of. rewrite N_ascii_embedding by lia. lia. Qed.

Lemma byte_of_inj c d : byte_of c = byte_of d -> c = d.
Proof. intros H. rewrite <- (chr_byte_of c), <- (chr_byte_of d). by rewrite H. Qed.

Definition chr_nl : ascii := "010".
Definition chr_tab : ascii := "009".
Definition chr_sp : ascii := "032".
Definition chr_dq : ascii := "034".

Definition nl : string := String chr_nl EmptyString.
Definition dq : string := String chr_dq EmptyString.

Fixpoint str_take (n : nat) (s : string) : string :=
  match n, s with
  | S n', String c s' => String c (str_take n' s')
  | _, _ => EmptyString
  end.

Fixpoint str_drop (n : nat) (s : string) : string :=
  match n, s with
  | S n', String _ s' => str_drop n' s'
  | 0, _ => s
  | _, EmptyString => EmptyString
  end.

(** [s[i:j]] when the bounds are legal. *)
Definition str_slice (s : string) (i j : nat) : string :=
  str_take (j - i) (str_drop i s).

Fixpoint str_forall (p : ascii -> bool) (s : string) : bool :=
  match s with
  | EmptyString => true
  | String c s' => p c && str_forall p s'
  end.

#[global] Arguments String.append !_ _ / : simpl nomatch.

Lemma str_app_nil_r s : s +:+ EmptyString = s.
Proof. induction s; cbn; congruence. Qed.

Lemma str_app_assoc s1 s2 s3 : (s1 +:+ s2) +:+ s3 = s1 +:+ (s2 +:+ s3).
Proof. induction s1; cbn; congruence. Qed.

Lemma str_app_cons c s1 s2 : String c s1 +:+ s2 = String c (s1 +:+ s2).
Proof. reflexivity. Qed.

Lemma str_length_app s1 s2 : String.length (s1 +:+ s2) = String.length s1 + String.length s2.
Proof. induction s1; cbn; congruence. Qed.

Lemma str_drop_app s1 s2 : str_drop (String.length s1) (s1 +:+ s2) = s2.
Proof. induction s1; cbn; auto. Qed.

Lemma str_take_app s1 s2 : str_take (String.length s1) (s1 +:+ s2) = s1.
Proof. induction s1; cbn; [by destruct s2 | congruence]. Qed.

Lemma str_take_drop n s : str_take n s +:+ str_drop n s = s.
Proof. revert s; induction n as [|n IH]; intros [|c s]; cbn; congruence. Qed.

Lemma str_length_take n s : n <= String.length s -> String.length (str_take n s) = n.
Proof. revert s; induction n as [|n IH]; intros [|c s]; cbn; intros; auto with lia. Qed.

Lemma str_length_drop n s : String.length (str_drop n s) = String.length s - n.
Proof. revert s; induction n as [|n IH]; intros [|c s]; cbn; auto. Qed.

Lemma str_slice_app s1 s2 s3 :
  str_slice (s1 +:+ (s2 +:+ s3)) (String.length s1) (String.length s1 + String.length s2) = s2.
Proof.
  unfold str_slice. rewrite str_drop_app.
  replace (_ + _ - _) with (String.length s2) by lia. apply str_take_app.
Qed.

Lemma str_forall_app p s1 s2 : str_forall p (s1 +:+ s2) = str_forall p s1 && str_forall p s2.
Proof. induction s1; cbn; [done|]. rewrite IHs1. by rewrite andb_assoc. Qed.

Lemma str_forall_impl (p q : ascii -> bool) s :
  (forall c, p c = true -> q c = true) -> str_forall p s = true -> str_forall q s = true.
Proof. intros Hpq. induction s; cbn; [done|]. intros; boolify. rewrite Hpq by done. auto. Qed.

(** ** Lists *)

(** Lists of at most one element have one order. *)
Lemma short_perm {A} (l1 l2 : list A) : l1 ≡ₚ l2 -> List.length l1 <= 1 -> l1 = l2.
Proof.
  intros Hp Hl. destruct l1 as [|x [|]]; cbn in Hl; try lia.
  - by apply Permutation_nil in Hp.
  - by apply Permutation_length_1_inv in Hp.
Qed.

(** ** Strings joined by a separator *)

Definition not_char (sep c : ascii) : bool := negb (Ascii.eqb c sep).

Lemma sep_split sep a1 a2 b1 b2 :
  str_forall (not_char sep) a1 = true -> str_forall (not_char sep) a2 = true ->
  a1 +:+ String sep b1 = a2 +:+ String sep b2 -> a1 = a2 /\ b1 = b2.
Proof.
  assert (not_char sep sep = false) as Hs by (unfold not_char; by rewrite Ascii.eqb_refl).
  revert a2. induction a1 as [|c a1 IH]; intros [|d a2]; cbn; intros H1 H2 E; simplify_eq; try done.
  - by rewrite Hs in H2.
  - by rewrite Hs in H1.
  - apply andb_true_iff in H1 as [_ H1], H2 as [_ H2]. by destruct (IH a2 H1 H2 ltac:(assumption)) as [-> ->].
Qed.

Lemma sep_free_no_sep sep a b : str_forall (not_char sep) (a +:+ String sep b) = false.
Proof.
  rewrite str_forall_app. cbn. unfold not_char at 2. rewrite Ascii.eqb_refl. cbn. apply andb_false_r.
Qed.

#[export] Hint Rewrite str_app_nil_r str_app_assoc str_length_app str_forall_app : gostr.
