(* ===== verification/Utf8.v ===== *)
(** * UTF-8 decoding and the Latin-1 part of package unicode

    The parts of the Go standard library that [pkg/sink/flbconfig/lex.go] and
    [encoding/json] rely on: [utf8.DecodeRuneInString], [unicode.IsLetter] and
    [unicode.IsNumber].  The category tables beyond Latin-1 are data of the
    Go release; they are the fields of the class [UnicodeTables], and every
    theorem holds for any tables. *)

From S2P Require Import Prelude.
From stdpp Require Import base strings list.
From Stdlib Require Import Ascii ZArith.

Definition RuneError : Z := 0xFFFD.
Definition MaxLatin1 : Z := 0xFF.

(** The range of the second byte and the size announced by a first byte
    (the tables [first] and [acceptRanges] of unicode/utf8). *)
Definition first_info (b : Z) : option (nat * Z * Z) :=
  (if b <? 0xC2 then None
   else if b <? 0xE0 then Some (2%nat, 0x80, 0xBF)
   else if b =? 0xE0 then Some (3%nat, 0xA0, 0xBF)
   else if b =? 0xED then Some (3%nat, 0x80, 0x9F)
   else if b <? 0xF0 then Some (3%nat, 0x80, 0xBF)
   else if b =? 0xF0 then Some (4%nat, 0x90, 0xBF)
   else if b <? 0xF4 then Some (4%nat, 0x80, 0xBF)
   else if b =? 0xF4 then Some (4%nat, 0x80, 0x8F)
   else None)%Z.

Definition in_range (lo hi b : Z) : bool := (lo <=? b)%Z && (b <=? hi)%Z.

Definition cont6 (b : Z) : Z := Z.land b 0x3F.

(** [utf8.DecodeRuneInString]: the rune at the head of [s] and its width;
    an invalid sequence is [(RuneError, 1)], the empty string
    [(RuneError, 0)]. *)
Definition DecodeRuneInString (s : string) : Z * nat :=
  match s with
  | EmptyString => (RuneError, 0)
  | String c0 s1 =>
      let b0 := byte_of c0 in
      if (b0 <? 0x80)%Z then (b0, 1)
      else
        match first_info b0, s1 with
        | Some (2, lo, hi), String c1 _ =>
            let b1 := byte_of c1 in
            if in_range lo hi b1
            then (Z.lor (Z.shiftl (Z.land b0 0x1F) 6) (cont6 b1), 2)
            else (RuneError, 1)
        | Some (3, lo, hi), String c1 (String c2 _) =>
            let b1 := byte_of c1 in
            let b2 := byte_of c2 in
            if in_range lo hi b1 && in_range 0x80 0xBF b2
            then (Z.lor (Z.lor (Z.shiftl (Z.land b0 0x0F) 12) (Z.shiftl (cont6 b1) 6))
                        (cont6 b2), 3)
            else (RuneError, 1)
        | Some (4, lo, hi), String c1 (String c2 (String c3 _)) =>
            let b1 := byte_of c1 in
            let b2 := byte_of c2 in
            let b3 := byte_of c3 in
            if in_range lo hi b1 && in_range 0x80 0xBF b2 && in_range 0x80 0xBF b3
            then (Z.lor (Z.lor (Z.lor (Z.shiftl (Z.land b0 0x07) 18) (Z.shiftl (cont6 b1) 12))
                               (Z.shiftl (cont6 b2) 6))
                        (cont6 b3), 4)
            else (RuneError, 1)
        | _, _ => (RuneError, 1)
        end
  end.

Class UnicodeTables := {
  table_letter : Z -> bool;
  table_number : Z -> bool;
}.

(** [unicode.IsLetter] and [unicode.IsNumber]. *)
Definition IsLetter `{UnicodeTables} (r : Z) : bool :=
  if (r <=? MaxLatin1)%Z then
    in_range 0x41 0x5A r || in_range 0x61 0x7A r || (r =? 0xAA)%Z || (r =? 0xB5)%Z
    || (r =? 0xBA)%Z || in_range 0xC0 0xD6 r || in_range 0xD8 0xF6 r || in_range 0xF8 0xFF r
  else table_letter r.

Definition IsNumber `{UnicodeTables} (r : Z) : bool :=
  if (r <=? MaxLatin1)%Z then
    in_range 0x30 0x39 r || (r =? 0xB2)%Z || (r =? 0xB3)%Z || (r =? 0xB9)%Z
    || in_range 0xBC 0xBE r
  else table_number r.

(** Tables for evaluating the definitions on ASCII and Latin-1 inputs. *)
Definition latin1_tables : UnicodeTables :=
  {| table_letter := fun _ => false; table_number := fun _ => false |}.

(** ** Facts *)

Definition is_high (c : ascii) : bool := (0x80 <=? byte_of c)%Z.

Lemma decode_ascii c s : (byte_of c < 0x80)%Z -> DecodeRuneInString (String c s) = (byte_of c, 1).
Proof. intros H. cbn [DecodeRuneInString]. apply Z.ltb_lt in H. by rewrite H. Qed.

Lemma decode_width s r w : DecodeRuneInString s = (r, w) -> w <= String.length s.
Proof.
  destruct s as [|c0 s]; cbn [DecodeRuneInString]; intros H.
  - by simplify_eq.
  - repeat case_scrutinee; simplify_eq; cbn; lia.
Qed.

Lemma decode_width_pos c s r w : DecodeRuneInString (String c s) = (r, w) -> 1 <= w.
Proof. cbn [DecodeRuneInString]; intros H. repeat case_scrutinee; simplify_eq; lia. Qed.

(** The bit operations of the decoder, as arithmetic. *)
Lemma lor_shiftl_add y x n :
  (0 <= n)%Z -> (0 <= x < 2 ^ n)%Z -> Z.lor (Z.shiftl y n) x = (y * 2 ^ n + x)%Z.
Proof.
  intros Hn Hx. rewrite Z.shiftl_mul_pow2 by done.
  assert (Z.land (y * 2 ^ n) x = 0)%Z as Hd.
  { apply Z.bits_inj'. intros i Hi. rewrite Z.land_spec, Z.bits_0.
    destruct (decide (i < n)%Z).
    - by rewrite Z.mul_pow2_bits_low.
    - rewrite andb_comm. destruct (decide (x = 0)%Z) as [->|]; [by rewrite Z.bits_0|].
      rewrite (Z.bits_above_log2 x i); [done|lia|].
      assert (Z.log2 x < n)%Z by (apply Z.log2_lt_pow2; lia). lia. }
  pose proof (Z.add_lor_land (y * 2 ^ n) x). lia.
Qed.

Lemma land_ones_sub b k v :
  (0 <= k)%Z -> (0 <= b - v * 2 ^ k < 2 ^ k)%Z -> Z.land b (Z.ones k) = (b - v * 2 ^ k)%Z.
Proof.
  intros Hk Hb. rewrite Z.land_ones by done. symmetry. apply Zmod_unique with v; lia.
Qed.

Lemma cont6_sub b : in_range 0x80 0xBF b = true -> cont6 b = (b - 128)%Z.
Proof.
  intros Hb. unfold in_range in Hb. boolify. unfold cont6. change 0x3F%Z with (Z.ones 6).
  rewrite (land_ones_sub b 6 2); lia.
Qed.

Lemma rune2_value b0 b1 :
  (0xC0 <= b0 < 0xE0)%Z -> in_range 0x80 0xBF b1 = true ->
  Z.lor (Z.shiftl (Z.land b0 0x1F) 6) (cont6 b1) = ((b0 - 192) * 64 + (b1 - 128))%Z.
Proof.
  intros H0 H1. rewrite cont6_sub by done. unfold in_range in H1. boolify.
  change 0x1F%Z with (Z.ones 5). rewrite (land_ones_sub b0 5 6) by lia.
  rewrite lor_shiftl_add; lia.
Qed.

Lemma rune3_value b0 b1 b2 :
  (0xE0 <= b0 < 0xF0)%Z -> in_range 0x80 0xBF b1 = true -> in_range 0x80 0xBF b2 = true ->
  Z.lor (Z.lor (Z.shiftl (Z.land b0 0x0F) 12) (Z.shiftl (cont6 b1) 6)) (cont6 b2)
  = ((b0 - 224) * 4096 + (b1 - 128) * 64 + (b2 - 128))%Z.
Proof.
  intros H0 H1 H2. rewrite !cont6_sub by done. unfold in_range in *. boolify.
  change 0x0F%Z with (Z.ones 4). rewrite (land_ones_sub b0 4 14) by lia.
  rewrite <- Z.lor_assoc. rewrite (lor_shiftl_add (b1 - 128)) by lia.
  rewrite lor_shiftl_add; lia.
Qed.

Lemma rune4_value b0 b1 b2 b3 :
  (0xF0 <= b0 < 0xF8)%Z -> in_range 0x80 0xBF b1 = true -> in_range 0x80 0xBF b2 = true ->
  in_range 0x80 0xBF b3 = true ->
  Z.lor (Z.lor (Z.lor (Z.shiftl (Z.land b0 0x07) 18) (Z.shiftl (cont6 b1) 12))
               (Z.shiftl (cont6 b2) 6)) (cont6 b3)
  = ((b0 - 240) * 262144 + (b1 - 128) * 4096 + (b2 - 128) * 64 + (b3 - 128))%Z.
Proof.
  intros H0 H1 H2 H3. rewrite !cont6_sub by done. unfold in_range in *. boolify.
  change 0x07%Z with (Z.ones 3). rewrite (land_ones_sub b0 3 30) by lia.
  rewrite <- !Z.lor_assoc. rewrite (lor_shiftl_add (b2 - 128)) by lia.
  rewrite (lor_shiftl_add (b1 - 128)) by lia. rewrite lor_shiftl_add; lia.
Qed.

Lemma first_info_spec b n lo hi :
  first_info b = Some (n, lo, hi) ->
  (0x80 <= lo)%Z /\ (hi <= 0xBF)%Z
  /\ ((n = 2%nat /\ 0xC2 <= b < 0xE0)
      \/ (n = 3%nat /\ 0xE0 <= b < 0xF0 /\ (b = 0xE0 -> lo = 0xA0))
      \/ (n = 4%nat /\ 0xF0 <= b < 0xF5 /\ (b = 0xF0 -> lo = 0x90)))%Z.
Proof.
  unfold first_info. intros H. repeat case_scrutinee; simplify_eq; boolify; lia.
Qed.

Definition cont_byte (c : ascii) : bool := in_range 0x80 0xBF (byte_of c).

(** The rune and width of a text whose head byte is outside ASCII: an error,
    or a sequence of two, three or four bytes and its value. *)
Inductive decoded (c0 : ascii) : string -> Z -> nat -> Prop :=
| decoded_error s : decoded c0 s RuneError 1
| decoded_2 c1 s :
    (0xC2 <= byte_of c0 < 0xE0)%Z -> cont_byte c1 = true ->
    decoded c0 (String c1 s) ((byte_of c0 - 192) * 64 + (byte_of c1 - 128)) 2
| decoded_3 c1 c2 s :
    (0xE0 <= byte_of c0 < 0xF0)%Z -> cont_byte c1 = true -> cont_byte c2 = true ->
    (byte_of c0 = 0xE0 -> 0xA0 <= byte_of c1)%Z ->
    decoded c0 (String c1 (String c2 s))
      ((byte_of c0 - 224) * 4096 + (byte_of c1 - 128) * 64 + (byte_of c2 - 128)) 3
| decoded_4 c1 c2 c3 s :
    (0xF0 <= byte_of c0 < 0xF5)%Z -> cont_byte c1 = true -> cont_byte c2 = true ->
    cont_byte c3 = true -> (byte_of c0 = 0xF0 -> 0x90 <= byte_of c1)%Z ->
    decoded c0 (String c1 (String c2 (String c3 s)))
      ((byte_of c0 - 240) * 262144 + (byte_of c1 - 128) * 4096 + (byte_of c2 - 128) * 64
       + (byte_of c3 - 128)) 4.

Lemma decode_spec c s r w :
  is_high c = true -> DecodeRuneInString (String c s) = (r, w) -> decoded c s r w.
Proof.
  intros Hc H. cbn [DecodeRuneInString] in H.
  assert ((byte_of c <? 0x80)%Z = false) as Hf by (unfold is_high in Hc; boolify; lia).
  rewrite Hf in H.
  destruct (first_info (byte_of c)) as [[[n lo] hi]|] eqn:Hfi; [|simplify_eq; constructor].
  apply first_info_spec in Hfi as (Hlo & Hhi & Hcase).
  assert (forall d, in_range lo hi (byte_of d) = true -> cont_byte d = true /\ (lo <= byte_of d)%Z) as Hr1.
  { intros d Hd. unfold cont_byte, in_range in *. boolify. split; [|done].
    apply andb_true_iff. by split; apply Z.leb_le; lia. }
  destruct Hcase as [(-> & Hb)|[(-> & Hb & Hv)|(-> & Hb & Hv)]].
  - destruct s as [|c1 s]; [simplify_eq; constructor|].
    destruct (in_range lo hi (byte_of c1)) eqn:R1; simplify_eq; [|constructor].
    destruct (Hr1 _ R1) as (R1' & _). rewrite rune2_value by first [done | lia]. by constructor.
  - destruct s as [|c1 [|c2 s]]; try (simplify_eq; constructor).
    destruct (in_range lo hi (byte_of c1)) eqn:R1; cbn [andb] in H; [|simplify_eq; constructor].
    destruct (in_range _ _ (byte_of c2)) eqn:R2; simplify_eq; [|constructor].
    destruct (Hr1 _ R1) as (R1' & Hl). rewrite rune3_value by (done || lia).
    constructor; try done. intros E. rewrite <- (Hv E). done.
  - destruct s as [|c1 [|c2 [|c3 s]]]; try (simplify_eq; constructor).
    destruct (in_range lo hi (byte_of c1)) eqn:R1; cbn [andb] in H; [|simplify_eq; constructor].
    destruct (in_range _ _ (byte_of c2)) eqn:R2; cbn [andb] in H; [|simplify_eq; constructor].
    destruct (in_range _ _ (byte_of c3)) eqn:R3; simplify_eq; [|constructor].
    destruct (Hr1 _ R1) as (R1' & Hl). rewrite rune4_value by first [done | lia].
    constructor; try done. intros E. rewrite <- (Hv E). done.
Qed.

Lemma cont_byte_high c : cont_byte c = true -> is_high c = true.
Proof. unfold cont_byte, in_range, is_high. intros. boolify. apply Z.leb_le. lia. Qed.

Lemma cont_byte_range c : cont_byte c = true -> (0x80 <= byte_of c <= 0xBF)%Z.
Proof. unfold cont_byte, in_range. intros. by boolify. Qed.

#[export] Hint Resolve cont_byte_high : gostr.

(** A head byte outside ASCII decodes to a rune outside ASCII, and every byte
    it consumes is outside ASCII. *)
Lemma decode_high c s r w :
  is_high c = true -> DecodeRuneInString (String c s) = (r, w) ->
  (0x80 <= r)%Z /\ str_forall is_high (str_take w (String c s)) = true.
Proof.
  intros Hc Hd. destruct (decode_spec _ _ _ _ Hc Hd); cbn;
    repeat match goal with
    | H : cont_byte ?d = true |- _ =>
        pose proof (cont_byte_range d H); rewrite ?(cont_byte_high d H); clear H
    end; rewrite Hc; (split; [unfold RuneError; lia|done]).
Qed.

(** Decoding reads no byte after the rune. *)
Lemma decode_prefix c s r w t :
  is_high c = true -> DecodeRuneInString (String c s) = (r, w) ->
  (r =? RuneError)%Z && (w =? 1)%nat = false ->
  DecodeRuneInString (str_take w (String c s) +:+ t) = (r, w).
Proof.
  intros Hc Hd He. pose proof (decode_spec _ _ _ _ Hc Hd) as Hs.
  destruct Hs; [done|..]; clear He; revert Hd; cbn [str_take String.append DecodeRuneInString];
    (destruct (byte_of _ <? 0x80)%Z; [done|]);
    destruct (first_info _) as [[[[|[|[|[|[|n]]]]] lo] hi]|]; try done;
    repeat match goal with |- context [in_range ?a ?b ?x] => destruct (in_range a b x) end;
    cbn [andb]; try done; intros Hd; by repeat case_match; simplify_eq.
Qed.

#[export] Hint Resolve decode_width_pos : gostr.
