(* ===== verification/GoStd.v ===== *)
(** * Pieces of the Go language and standard library

    [fmt.Sprintf] for the verbs the repository uses, map iteration, and
    [sort.Slice].  A [range] loop over a map visits the keys in an order the
    language leaves open: [MapRange] is an arbitrary choice of that order,
    which may differ from one loop to the next.  [sort.Slice] is not stable:
    [SliceSort] is any sort that meets its documentation. *)

From S2P Require Import Prelude.
From stdpp Require Import base gmap strings list sorting pretty.
From Stdlib Require Import Ascii ZArith Lia.

(** ** fmt.Sprintf *)

Inductive farg : Type :=
| FStr (s : string)
| FInt (z : Z).

Definition chr_percent : ascii := "037".

Definition farg_text (a : farg) : string :=
  match a with FStr s => s | FInt z => pretty z end.

(** An argument that does not fit the verb, printed as [%!v(type=text)]. *)
Definition bad_verb (v : ascii) (a : farg) : string :=
  "%!" +:+ String v EmptyString +:+ "("
  +:+ (match a with FStr _ => "string=" | FInt _ => "int=" end) +:+ farg_text a +:+ ")".

Definition fits (v : ascii) (a : farg) : bool :=
  match a with
  | FStr _ => Ascii.eqb v "s"
  | FInt _ => Ascii.eqb v "d"
  end.

Definition extra_args (args : list farg) : string :=
  match args with
  | [] => EmptyString
  | _ => "%!(EXTRA "
         +:+ String.concat ", " (map (fun a => (match a with FStr _ => "string=" | FInt _ => "int=" end)
                                               +:+ farg_text a) args)
         +:+ ")"
  end.

Fixpoint Sprintf (fmt : string) (args : list farg) : string :=
  match fmt with
  | EmptyString => extra_args args
  | String c rest =>
      if Ascii.eqb c chr_percent then
        match rest with
        | EmptyString => "%!(NOVERB)" +:+ extra_args args
        | String v rest' =>
            if Ascii.eqb v chr_percent then String v (Sprintf rest' args)
            else match args with
                 | [] => "%!" +:+ String v EmptyString +:+ "(MISSING)" +:+ Sprintf rest' []
                 | a :: args' =>
                     (if fits v a then farg_text a else bad_verb v a) +:+ Sprintf rest' args'
                 end
        end
      else String c (Sprintf rest args)
  end.

(** ** strings *)

Fixpoint HasPrefix (s prefix : string) : bool :=
  match prefix, s with
  | EmptyString, _ => true
  | String p prefix', String c s' => Ascii.eqb p c && HasPrefix s' prefix'
  | String _ _, EmptyString => false
  end.

(** [strings.HasSuffix] and [strings.TrimSuffix] *)
Definition HasSuffix (s suffix : string) : bool :=
  (String.length suffix <=? String.length s)%nat
  && String.eqb (String.substring (String.length s - String.length suffix) (String.length suffix) s) suffix.

Definition TrimSuffix (s suffix : string) : string :=
  if HasSuffix s suffix then String.substring 0 (String.length s - String.length suffix) s else s.

(** [strings.Join] *)
Definition strings_Join (ss : list string) (sep : string) : string := String.concat sep ss.

(** ** Map iteration *)

Class MapRange := {
  range : forall {A : Type}, nat -> gmap string A -> list (string * A);
  range_perm : forall {A : Type} n (m : gmap string A), range n m ≡ₚ map_to_list m;
}.

(** One legal order, for evaluating the definitions. *)
Definition map_order : MapRange :=
  {| range := fun A _ m => map_to_list m; range_perm := fun A n m => reflexivity _ |}.

Definition reverse_order : MapRange :=
  {| range := fun A _ m => reverse (map_to_list m);
     range_perm := fun A n m => reverse_Permutation _ |}.

(** ** sort.Slice *)

(** A strict weak order, as a Go [less] function has to be. *)
Record strict_weak {A} (less : A -> A -> bool) : Prop := {
  sw_irrefl : forall x, less x x = false;
  sw_trans : forall x y z, less x y = true -> less y z = true -> less x z = true;
  sw_incomp : forall x y z, less x y = false -> less y z = false -> less x z = false;
}.

Definition not_after {A} (less : A -> A -> bool) (x y : A) : Prop := less y x = false.

Class SliceSort := {
  sort_slice : forall {A : Type}, (A -> A -> bool) -> list A -> list A;
  sort_perm : forall {A} (less : A -> A -> bool) l, sort_slice less l ≡ₚ l;
  sort_sorted : forall {A} (less : A -> A -> bool) l,
    strict_weak less -> Sorted (not_after less) (sort_slice less l);
}.

Fixpoint insert_sorted {A} (less : A -> A -> bool) (x : A) (l : list A) : list A :=
  match l with
  | [] => [x]
  | y :: l' => if less y x then y :: insert_sorted less x l' else x :: y :: l'
  end.

Definition insertion_sort {A} (less : A -> A -> bool) (l : list A) : list A :=
  foldr (insert_sorted less) [] l.

Section Sorting.
Context {A : Type} (less : A -> A -> bool).

Lemma insert_sorted_perm x l : insert_sorted less x l ≡ₚ x :: l.
Proof.
  induction l as [|y l IH]; cbn; [done|]. destruct (less y x); [|done].
  rewrite IH. apply Permutation_swap.
Qed.

Lemma insertion_sort_perm l : insertion_sort less l ≡ₚ l.
Proof. induction l as [|x l IH]; cbn; [done|]. by rewrite insert_sorted_perm, IH. Qed.

Lemma insert_sorted_sorted (Hw : strict_weak less) x l :
  Sorted (not_after less) l -> Sorted (not_after less) (insert_sorted less x l).
Proof.
  induction 1 as [|y l Hs IH Hd]; cbn; [by repeat constructor|].
  destruct (less y x) eqn:E.
  - constructor; [done|]. destruct Hd as [|z l Hyz]; cbn.
    + constructor. unfold not_after. destruct (less x y) eqn:E2; [|done].
      pose proof (sw_trans _ Hw _ _ _ E E2). pose proof (sw_irrefl _ Hw y). congruence.
    + destruct (less z x); constructor; [done|]. unfold not_after.
      destruct (less x y) eqn:E2; [|done].
      pose proof (sw_trans _ Hw _ _ _ E E2). pose proof (sw_irrefl _ Hw y). congruence.
  - by repeat constructor.
Qed.

Lemma insertion_sort_sorted (Hw : strict_weak less) l :
  Sorted (not_after less) (insertion_sort less l).
Proof. induction l as [|x l IH]; cbn; [constructor|]. by apply insert_sorted_sorted. Qed.

End Sorting.

Definition insertion_slice_sort : SliceSort :=
  {| sort_slice := @insertion_sort;
     sort_perm := @insertion_sort_perm;
     sort_sorted := fun A less l Hw => insertion_sort_sorted less Hw l |}.

(** Two sorts agree on a list whose distinct elements are ordered by [less]. *)
Lemma sort_slice_unique {A} (S1 S2 : SliceSort) (less : A -> A -> bool) (l1 l2 : list A) :
  strict_weak less -> l1 ≡ₚ l2 ->
  (forall x y, x ∈ l1 -> y ∈ l1 -> less x y = false -> less y x = false -> x = y) ->
  @sort_slice S1 A less l1 = @sort_slice S2 A less l2.
Proof.
  intros Hw Hp Hd.
  assert (Transitive (not_after less)) by (intros x y z; unfold not_after; intros; by eapply (sw_incomp _ Hw)).
  apply (Sorted_unique_strong (not_after less)).
  - intros x y Hx Hy Hxy Hyx. rewrite sort_perm in Hx. rewrite sort_perm in Hy.
    rewrite <- Hp in Hy. by apply Hd.
  - by apply sort_sorted.
  - by apply sort_sorted.
  - by rewrite !sort_perm.
Qed.

(** ** Ordering of strings: Go's [<] compares bytes *)

Definition str_less (s t : string) : bool :=
  match String.compare s t with Lt => true | _ => false end.

Lemma str_less_trans s t u : str_less s t = true -> str_less t u = true -> str_less s u = true.
Proof.
  unfold str_less. revert t u.
  induction s as [|a s IH]; intros [|b t] [|c u]; cbn; try done.
  unfold Ascii.compare. intros H1 H2.
  destruct (N.compare_spec (N_of_ascii a) (N_of_ascii b)) as [E1|E1|E1]; [|clear H1|done];
    destruct (N.compare_spec (N_of_ascii b) (N_of_ascii c)) as [E2|E2|E2]; try done;
    destruct (N.compare_spec (N_of_ascii a) (N_of_ascii c)); try lia; try done.
  by apply (IH t).
Qed.

Lemma str_compare_refl s : String.compare s s = Eq.
Proof. induction s as [|a s IH]; cbn; [done|]. unfold Ascii.compare. by rewrite N.compare_refl. Qed.

Lemma str_less_irrefl s : str_less s s = false.
Proof. unfold str_less. by rewrite str_compare_refl. Qed.

Lemma str_less_total s t : str_less s t = false -> str_less t s = false -> s = t.
Proof.
  unfold str_less. rewrite (String.compare_antisym t s).
  destruct (String.compare s t) eqn:E; cbn; try done. by intros; apply String.compare_eq_iff.
Qed.

Lemma str_less_asym s t : str_less s t = true -> str_less t s = false.
Proof.
  intros H. destruct (str_less t s) eqn:E; [|done].
  pose proof (str_less_trans _ _ _ H E). by rewrite str_less_irrefl in *.
Qed.

Lemma str_less_incomp s t u : str_less s t = false -> str_less t u = false -> str_less s u = false.
Proof.
  intros H1 H2. destruct (str_less s u) eqn:E; [|done].
  destruct (str_less t s) eqn:E1.
  - by rewrite (str_less_trans t s u) in H2.
  - rewrite (str_less_total s t H1 E1) in E. congruence.
Qed.

(** ** Decimal text *)

Definition digit_char (c : ascii) : bool :=
  (48 <=? byte_of c)%Z && (byte_of c <=? 57)%Z.

Definition decimal_char (c : ascii) : bool := digit_char c || Ascii.eqb c "-".

Lemma pretty_N_char_digit x : (x < 10)%N -> digit_char (pretty_N_char x) = true.
Proof.
  intros Hx. assert (x = 0 \/ x = 1 \/ x = 2 \/ x = 3 \/ x = 4 \/ x = 5 \/ x = 6 \/ x = 7 \/ x = 8 \/ x = 9)%N
    as Hc by lia.
  repeat (destruct Hc as [->|Hc]; [done|]). by subst.
Qed.

Lemma pretty_N_go_digits x s :
  str_forall digit_char s = true -> str_forall digit_char (pretty_N_go x s) = true.
Proof.
  revert s. induction (N.lt_wf_0 x) as [x _ IH]. intros s Hs.
  destruct (decide (x = 0%N)) as [->|Hx]; [by rewrite pretty_N_go_0|].
  rewrite pretty_N_go_step by lia. apply IH; [apply N.div_lt; lia|].
  cbn [str_forall]. rewrite Hs, pretty_N_char_digit; [done|]. apply N.mod_lt. lia.
Qed.

Lemma pretty_Z_decimal (z : Z) : str_forall decimal_char (pretty z) = true.
Proof.
  assert (forall n : N, str_forall decimal_char (pretty n) = true) as HN.
  { intros n. eapply (str_forall_impl digit_char); [intros c; unfold decimal_char; by intros ->|].
    unfold pretty, pretty_N. destruct (decide _); [done|]. by apply pretty_N_go_digits. }
  destruct z as [|p|p]; cbn [pretty pretty_Z]; [done|apply HN|].
  cbn [String.append str_forall]. apply andb_true_iff. split; [done|apply HN].
Qed.

(** ** Loops that rebuild a map

    [for k, v := range m { if ... { out[k] = ... } }]: the result does not
    depend on the order of iteration. *)

Definition map_loop {A B} (f : string -> A -> option B) (l : list (string * A)) : gmap string B :=
  foldl (fun out '(k, v) => match f k v with Some w => <[k:=w]> out | None => out end) ∅ l.

Lemma map_loop_from {A B} (f : string -> A -> option B) (l : list (string * A)) (out : gmap string B) k :
  NoDup l.*1 ->
  foldl (fun out '(k, v) => match f k v with Some w => <[k:=w]> out | None => out end) out l !! k =
  match (list_to_map l : gmap string A) !! k ≫= f k with Some w => Some w | None => out !! k end.
Proof.
  revert out. induction l as [|[k' v] l IH]; intros out Hnd; cbn [foldl list_to_map foldr fmap list_fmap fst snd] in *.
  - by rewrite lookup_empty.
  - apply NoDup_cons in Hnd as [Hk' Hnd]. rewrite IH by done. cbn.
    destruct (decide (k = k')) as [->|Hne].
    + rewrite lookup_insert_eq, not_elem_of_list_to_map_1 by done. cbn.
      destruct (f k' v); [by rewrite lookup_insert_eq|done].
    + rewrite lookup_insert_ne by done. destruct (_ ≫= _); [done|].
      destruct (f k' v); [by rewrite lookup_insert_ne|done].
Qed.

Section Ranges.
Context `{MapRange}.

Lemma range_nodup {A} n (m : gmap string A) : NoDup (range n m).*1.
Proof. rewrite range_perm. apply NoDup_fst_map_to_list. Qed.

Lemma range_map {A} n (m : gmap string A) : list_to_map (range n m) = m.
Proof.
  rewrite <- (list_to_map_to_list m) at 2. apply list_to_map_proper; [apply range_nodup|apply range_perm].
Qed.

Lemma range_elem {A} n (m : gmap string A) k v : (k, v) ∈ range n m <-> m !! k = Some v.
Proof. rewrite range_perm. apply elem_of_map_to_list. Qed.

Lemma map_loop_range {A B} (f : string -> A -> option B) n (m : gmap string A) k :
  map_loop f (range n m) !! k = m !! k ≫= f k.
Proof.
  unfold map_loop. rewrite map_loop_from by apply range_nodup. rewrite range_map, lookup_empty.
  by destruct (m !! k ≫= f k).
Qed.

End Ranges.

(** ** 64-bit integers *)

(** The value of an int64 after wrapping around. *)
Definition int64 (z : Z) : Z := (Z.modulo (z + 2 ^ 63) (2 ^ 64) - 2 ^ 63)%Z.

Lemma int64_mod z : (Z.modulo (int64 z) (2 ^ 64) = Z.modulo z (2 ^ 64))%Z.
Proof.
  unfold int64. rewrite Zminus_mod_idemp_l. f_equal. lia.
Qed.

Lemma int64_id z : (- 2 ^ 63 <= z < 2 ^ 63)%Z -> int64 z = z.
Proof. intros Hz. unfold int64. rewrite Z.mod_small; lia. Qed.

Lemma int64_congr a b : (Z.modulo a (2 ^ 64) = Z.modulo b (2 ^ 64))%Z -> int64 a = int64 b.
Proof. intros E. unfold int64. f_equal. rewrite <- (Zplus_mod_idemp_l a), <- (Zplus_mod_idemp_l b). by rewrite E. Qed.

Lemma int64_add z d : int64 (int64 z + d) = int64 (z + d).
Proof.
  apply int64_congr. rewrite <- (Zplus_mod_idemp_l (int64 z)), int64_mod. by rewrite Zplus_mod_idemp_l.
Qed.

Lemma int64_sum a b c : int64 (a + b + c) = int64 (int64 a + int64 b + int64 c).
Proof.
  assert (forall x y, int64 (x + int64 y) = int64 (x + y)) as Hr.
  { intros x y. by rewrite Z.add_comm, int64_add, Z.add_comm. }
  rewrite Hr, <- (int64_add (int64 a + int64 b) c), Hr, (int64_add a b), int64_add. done.
Qed.
