(* ===== verification/FlbLex.v ===== *)
(** * The fluent-bit configuration lexer ([pkg/sink/flbconfig/lex.go])

    [Lexer] is the Go struct, with its two indices into the input; the state
    functions are the Go functions of the same names and return the next
    state function, [None] for [nil].  An out-of-range slice expression is
    the error [Panic]; the loops carry fuel, and running out of it is
    [OutOfFuel].  [Run_refines] relates the lexer to a reference machine on
    input suffixes, from which the facts about the token stream are proved. *)

From S2P Require Import Prelude Utf8.
From stdpp Require Import base strings list.
From Stdlib Require Import Ascii ZArith.

Inductive TokenType : Type :=
| TokenError | TokenEOF | TokenNewLine
| TokenLeftBracket | TokenRightBracket
| TokenSection | TokenKey | TokenValue.

#[global] Instance TokenType_eq_dec : EqDecision TokenType.
Proof. solve_decision. Defined.

Record Token : Type := MkToken { TType : TokenType; TValue : string }.

#[global] Instance Token_eq_dec : EqDecision Token.
Proof. solve_decision. Defined.

Definition RuneTab : Z := 9.
Definition RuneSpace : Z := 32.
Definition RuneLeftBracket : Z := 91.
Definition RuneRightBracket : Z := 93.
Definition RuneNewLine : Z := 10.
Definition RuneDot : Z := 46.

(** The Go state functions, as values. *)
Inductive StateFunc : Type :=
| FLexStart | FLexEOF | FLexGlobalWhiteSpace | FLexKeyWhiteSpace | FLexNewLine
| FLexLeftBracket | FLexSection | FLexRightBracket | FLexKey | FLexValue.

Record Lexer : Type := MkLexer {
  Input : string;
  Tokens : list Token;
  State : option StateFunc;
  Start : nat;
  Pos : nat;
}.

Inductive fault : Type := Panic | OutOfFuel.

Definition NewLexer (input : string) : Lexer :=
  {| Input := input; Tokens := []; State := Some FLexStart; Start := 0; Pos := 0 |}.

Definition with_pos (p : nat) (l : Lexer) : Lexer :=
  {| Input := Input l; Tokens := Tokens l; State := State l; Start := Start l; Pos := p |}.

Definition with_start (s : nat) (l : Lexer) : Lexer :=
  {| Input := Input l; Tokens := Tokens l; State := State l; Start := s; Pos := Pos l |}.

Definition with_state (st : option StateFunc) (l : Lexer) : Lexer :=
  {| Input := Input l; Tokens := Tokens l; State := st; Start := Start l; Pos := Pos l |}.

Definition add_token (t : Token) (l : Lexer) : Lexer :=
  {| Input := Input l; Tokens := Tokens l ++ [t]; State := State l; Start := Start l; Pos := Pos l |}.

Definition Emit (ty : TokenType) (l : Lexer) : res fault Lexer :=
  if (Start l <=? Pos l)%nat && (Pos l <=? String.length (Input l))%nat
  then Ok (with_start (Pos l) (add_token (MkToken ty (str_slice (Input l) (Start l) (Pos l))) l))
  else Err Panic.

Definition Errorf (msg : string) (l : Lexer) : Lexer * option StateFunc :=
  (add_token (MkToken TokenError msg) l, None).

(** [l.Input[l.Pos:]] *)
Definition remaining (l : Lexer) : res fault string :=
  if (Pos l <=? String.length (Input l))%nat then Ok (str_drop (Pos l) (Input l)) else Err Panic.

Definition Next (l : Lexer) : res fault (Z * Lexer) :=
  let! s := remaining l in
  let '(result, width) := DecodeRuneInString s in
  Ok (result, with_pos (Pos l + width) l).

Definition PeekNext (l : Lexer) : res fault Z :=
  let! s := remaining l in Ok (fst (DecodeRuneInString s)).

Definition EOF (l : Lexer) : bool := (String.length (Input l) <=? Pos l)%nat.

Definition state_result : Type := res fault (Lexer * option StateFunc).

Section Lexing.
Context `{UnicodeTables}.

Definition LexStart (l : Lexer) : state_result :=
  if EOF l then Ok (l, Some FLexEOF)
  else
    let! next := PeekNext l in
    Ok (l, Some (if (next =? RuneTab)%Z || (next =? RuneSpace)%Z then FLexGlobalWhiteSpace
                 else if (next =? RuneNewLine)%Z then FLexNewLine
                 else if (next =? RuneLeftBracket)%Z then FLexLeftBracket
                 else FLexKey)).

Definition LexEOF (l : Lexer) : state_result :=
  let! l := Emit TokenEOF l in Ok (l, None).

Definition LexGlobalWhiteSpace (l : Lexer) : state_result :=
  let! (_, l) := Next l in
  Ok (with_start (Pos l) l, Some FLexStart).

Definition LexKeyWhiteSpace (l : Lexer) : state_result :=
  let! (_, l) := Next l in
  let l := with_start (Pos l) l in
  let! next := PeekNext l in
  Ok (l, Some (if (next =? RuneTab)%Z || (next =? RuneSpace)%Z then FLexKeyWhiteSpace
               else FLexValue)).

Definition LexNewLine (l : Lexer) : state_result :=
  let! l := Emit TokenNewLine (with_pos (Pos l + 1) l) in Ok (l, Some FLexStart).

Definition LexLeftBracket (l : Lexer) : state_result :=
  let! l := Emit TokenLeftBracket (with_pos (Pos l + 1) l) in Ok (l, Some FLexSection).

Definition LexRightBracket (l : Lexer) : state_result :=
  let! l := Emit TokenRightBracket (with_pos (Pos l + 1) l) in Ok (l, Some FLexStart).

Fixpoint LexSection_loop (fuel : nat) (l : Lexer) : state_result :=
  match fuel with
  | 0 => Err OutOfFuel
  | S fuel' =>
      if EOF l then Ok (Errorf "unexpected EOF" l)
      else
        let! next := PeekNext l in
        if negb (IsLetter next) && negb (IsNumber next) then
          if (next =? RuneRightBracket)%Z
          then let! l := Emit TokenSection l in Ok (l, Some FLexRightBracket)
          else Ok (Errorf "missing right bracket" l)
        else
          let! (_, l) := Next l in LexSection_loop fuel' l
  end.

Fixpoint LexKey_loop (fuel : nat) (l : Lexer) : state_result :=
  match fuel with
  | 0 => Err OutOfFuel
  | S fuel' =>
      if EOF l then Ok (Errorf "unexpected EOF" l)
      else
        let! next := PeekNext l in
        if negb (IsLetter next) && negb (IsNumber next) && negb (next =? RuneDot)%Z then
          if (next =? RuneTab)%Z || (next =? RuneSpace)%Z
          then let! l := Emit TokenKey l in Ok (l, Some FLexKeyWhiteSpace)
          else Ok (Errorf "invalid key" l)
        else
          let! (_, l) := Next l in LexKey_loop fuel' l
  end.

Fixpoint LexValue_loop (fuel : nat) (l : Lexer) : state_result :=
  match fuel with
  | 0 => Err OutOfFuel
  | S fuel' =>
      if EOF l then Ok (Errorf "unexpected EOF" l)
      else
        let! r := PeekNext l in
        if (r =? RuneNewLine)%Z
        then let! l := Emit TokenValue l in Ok (l, Some FLexStart)
        else
          let! (_, l) := Next l in LexValue_loop fuel' l
  end.

(** Each iteration of a loop consumes a rune, so one more than the number of
    bytes left is enough fuel. *)
Definition loop_fuel (l : Lexer) : nat := S (String.length (Input l) - Pos l).

Definition LexSection (l : Lexer) : state_result := LexSection_loop (loop_fuel l) l.
Definition LexKey (l : Lexer) : state_result := LexKey_loop (loop_fuel l) l.
Definition LexValue (l : Lexer) : state_result := LexValue_loop (loop_fuel l) l.

Definition apply_state (sf : StateFunc) : Lexer -> state_result :=
  match sf with
  | FLexStart => LexStart
  | FLexEOF => LexEOF
  | FLexGlobalWhiteSpace => LexGlobalWhiteSpace
  | FLexKeyWhiteSpace => LexKeyWhiteSpace
  | FLexNewLine => LexNewLine
  | FLexLeftBracket => LexLeftBracket
  | FLexSection => LexSection
  | FLexRightBracket => LexRightBracket
  | FLexKey => LexKey
  | FLexValue => LexValue
  end.

Fixpoint Run_fuel (fuel : nat) (l : Lexer) : res fault Lexer :=
  match State l with
  | None => Ok l
  | Some sf =>
      match fuel with
      | 0 => Err OutOfFuel
      | S fuel' =>
          let! (l', st) := apply_state sf l in Run_fuel fuel' (with_state st l')
      end
  end.

(** [Run]: [run_fuel] state transitions are enough ([Run_refines]). *)
Definition run_fuel (l : Lexer) : nat := 4 * String.length (Input l) + 4.

Definition Run (l : Lexer) : res fault Lexer := Run_fuel (run_fuel l) l.

(** ** The reference machine

    It works on the text [cur] of the token being read and the text [rem]
    still to be read. *)

(** Consume runes while [p] holds. *)
Fixpoint span_fuel (p : Z -> bool) (fuel : nat) (s : string) : string * string :=
  match fuel, s with
  | S fuel', String _ _ =>
      let '(r, w) := DecodeRuneInString s in
      if p r then
        let '(a, b) := span_fuel p fuel' (str_drop w s) in (str_take w s +:+ a, b)
      else (EmptyString, s)
  | _, _ => (EmptyString, s)
  end.

Definition span (p : Z -> bool) (s : string) : string * string := span_fuel p (String.length s) s.

Definition section_rune (r : Z) : bool := IsLetter r || IsNumber r.
Definition key_rune (r : Z) : bool := IsLetter r || IsNumber r || (r =? RuneDot)%Z.
Definition value_rune (r : Z) : bool := negb (r =? RuneNewLine)%Z.
Definition blank_rune (r : Z) : bool := (r =? RuneTab)%Z || (r =? RuneSpace)%Z.

Definition peek (s : string) : Z := fst (DecodeRuneInString s).

(** One state transition: the emitted tokens, the new [cur] and [rem], and
    the next state. *)
Definition ref_step (sf : StateFunc) (cur rem : string)
    : list Token * string * string * option StateFunc :=
  let one := str_take 1 rem in
  let rest := str_drop 1 rem in
  let width := snd (DecodeRuneInString rem) in
  match sf with
  | FLexStart =>
      ([], cur, rem,
       Some (match rem with
             | EmptyString => FLexEOF
             | _ => if blank_rune (peek rem) then FLexGlobalWhiteSpace
                    else if (peek rem =? RuneNewLine)%Z then FLexNewLine
                    else if (peek rem =? RuneLeftBracket)%Z then FLexLeftBracket
                    else FLexKey
             end))
  | FLexEOF => ([MkToken TokenEOF cur], EmptyString, rem, None)
  | FLexGlobalWhiteSpace => ([], EmptyString, str_drop width rem, Some FLexStart)
  | FLexKeyWhiteSpace =>
      ([], EmptyString, str_drop width rem,
       Some (if blank_rune (peek (str_drop width rem)) then FLexKeyWhiteSpace else FLexValue))
  | FLexNewLine => ([MkToken TokenNewLine (cur +:+ one)], EmptyString, rest, Some FLexStart)
  | FLexLeftBracket => ([MkToken TokenLeftBracket (cur +:+ one)], EmptyString, rest, Some FLexSection)
  | FLexRightBracket => ([MkToken TokenRightBracket (cur +:+ one)], EmptyString, rest, Some FLexStart)
  | FLexSection =>
      let '(a, b) := span section_rune rem in
      match b with
      | EmptyString => ([MkToken TokenError "unexpected EOF"], cur +:+ a, b, None)
      | _ => if (peek b =? RuneRightBracket)%Z
             then ([MkToken TokenSection (cur +:+ a)], EmptyString, b, Some FLexRightBracket)
             else ([MkToken TokenError "missing right bracket"], cur +:+ a, b, None)
      end
  | FLexKey =>
      let '(a, b) := span key_rune rem in
      match b with
      | EmptyString => ([MkToken TokenError "unexpected EOF"], cur +:+ a, b, None)
      | _ => if blank_rune (peek b)
             then ([MkToken TokenKey (cur +:+ a)], EmptyString, b, Some FLexKeyWhiteSpace)
             else ([MkToken TokenError "invalid key"], cur +:+ a, b, None)
      end
  | FLexValue =>
      let '(a, b) := span value_rune rem in
      match b with
      | EmptyString => ([MkToken TokenError "unexpected EOF"], cur +:+ a, b, None)
      | _ => ([MkToken TokenValue (cur +:+ a)], EmptyString, b, Some FLexStart)
      end
  end.

Fixpoint ref_run (fuel : nat) (sf : StateFunc) (cur rem : string) : option (list Token) :=
  match fuel with
  | 0 => None
  | S fuel' =>
      let '(toks, cur', rem', st) := ref_step sf cur rem in
      match st with
      | None => Some toks
      | Some sf' => match ref_run fuel' sf' cur' rem' with
                    | Some toks' => Some (toks ++ toks')
                    | None => None
                    end
      end
  end.

(** The tokens of a text, by the reference machine. *)
Definition ref_lex (s : string) : option (list Token) :=
  ref_run (4 * String.length s + 4) FLexStart EmptyString s.

End Lexing.

(** ** The representation relation

    [at_ inp l cur rem]: [l] reads [inp], its indices delimit [cur], and [rem] is the text
    after them. *)

Definition at_ (inp : string) (l : Lexer) (cur rem : string) : Prop :=
  Input l = inp /\ exists pre, inp = pre +:+ (cur +:+ rem)
              /\ Start l = String.length pre
              /\ Pos l = String.length pre + String.length cur.

Lemma at_new s : at_ s (NewLexer s) EmptyString s.
Proof. split; [done|]. by exists EmptyString. Qed.

Lemma at_remaining inp l cur rem : at_ inp l cur rem -> remaining l = Ok rem.
Proof.
  intros (<- & pre & HI & HS & HP). unfold remaining. rewrite HI, HP, !str_length_app.
  rewrite (proj2 (Nat.leb_le _ _)) by lia.
  by rewrite <- str_app_assoc, <- str_length_app, str_drop_app.
Qed.

Lemma at_length inp l cur rem : at_ inp l cur rem -> String.length (Input l) - Pos l = String.length rem.
Proof. intros (<- & pre & HI & HS & HP). rewrite HI, HP, !str_length_app. lia. Qed.

Lemma at_EOF inp l cur rem :
  at_ inp l cur rem -> EOF l = match rem with EmptyString => true | _ => false end.
Proof.
  intros (<- & pre & HI & HS & HP). unfold EOF. rewrite HI, HP, !str_length_app.
  destruct rem; cbn [String.length]; [apply Nat.leb_le | apply Nat.leb_gt]; lia.
Qed.

Lemma at_peek inp l cur rem : at_ inp l cur rem -> PeekNext l = Ok (peek rem).
Proof. intros Hat. unfold PeekNext. by rewrite (at_remaining _ _ _ _ Hat). Qed.

Lemma at_advance inp l cur a b :
  at_ inp l cur (a +:+ b) -> at_ inp (with_pos (Pos l + String.length a) l) (cur +:+ a) b.
Proof.
  intros (<- & pre & HI & HS & HP). split; [done|]. exists pre. cbn [Input Start Pos with_pos].
  rewrite HI, HS, HP, str_length_app, !str_app_assoc. auto with lia.
Qed.

Lemma at_discard inp l cur rem : at_ inp l cur rem -> at_ inp (with_start (Pos l) l) EmptyString rem.
Proof.
  intros (<- & pre & HI & HS & HP). split; [done|]. exists (pre +:+ cur). cbn [Input Start Pos with_start].
  rewrite HI, HP, !str_length_app, !str_app_assoc. cbn. auto with lia.
Qed.

Lemma at_next inp l cur rem :
  at_ inp l cur rem ->
  exists l', Next l = Ok (peek rem, l')
    /\ at_ inp l' (cur +:+ str_take (snd (DecodeRuneInString rem)) rem)
              (str_drop (snd (DecodeRuneInString rem)) rem)
    /\ Tokens l' = Tokens l.
Proof.
  intros Hat. unfold Next, peek. rewrite (at_remaining _ _ _ _ Hat). cbn.
  destruct (DecodeRuneInString rem) as [r w] eqn:Hd. cbn.
  eexists; split; [done|]. split; [|done].
  replace w with (String.length (str_take w rem)) at 1
    by (apply str_length_take; eauto using decode_width).
  apply at_advance. by rewrite str_take_drop.
Qed.

Lemma at_emit inp l cur rem ty :
  at_ inp l cur rem ->
  exists l', Emit ty l = Ok l' /\ at_ inp l' EmptyString rem
    /\ Tokens l' = Tokens l ++ [MkToken ty cur].
Proof.
  intros Hat. exists (with_start (Pos l) (add_token (MkToken ty cur) l)).
  split; [|split; [by apply at_discard in Hat|done]].
  destruct Hat as (<- & pre & HI & HS & HP). unfold Emit.
  rewrite HI, HS, HP, !str_length_app, str_slice_app.
  by rewrite !(proj2 (Nat.leb_le _ _)) by lia.
Qed.

Lemma at_add_token inp l cur rem t : at_ inp l cur rem -> at_ inp (add_token t l) cur rem.
Proof. done. Qed.

Lemma at_with_state inp l cur rem st : at_ inp l cur rem -> at_ inp (with_state st l) cur rem.
Proof. done. Qed.

#[export] Hint Resolve at_advance at_discard at_add_token at_with_state : gostr.

(** ** Facts on [span] *)

Section Proofs.
Context `{UnicodeTables}.

Lemma drop_decode_shorter c s :
  String.length (str_drop (snd (DecodeRuneInString (String c s))) (String c s)) <= String.length s.
Proof.
  destruct (DecodeRuneInString (String c s)) as [r w] eqn:Hd.
  pose proof (decode_width_pos _ _ _ _ Hd). rewrite str_length_drop. cbn. lia.
Qed.

Lemma span_fuel_irrel p n m s :
  String.length s <= n -> String.length s <= m -> span_fuel p n s = span_fuel p m s.
Proof.
  revert m s; induction n as [|n IH]; intros [|m] [|c s] Hn Hm; cbn [String.length] in *; try done; try lia.
  cbn [span_fuel]. pose proof (drop_decode_shorter c s) as Hw.
  destruct (DecodeRuneInString (String c s)) as [r w]; cbn [snd] in Hw.
  destruct (p r); [|done]. by rewrite (IH m) by lia.
Qed.

Lemma span_cons p c s :
  span p (String c s) =
  (let '(r, w) := DecodeRuneInString (String c s) in
   if p r then let '(a, b) := span p (str_drop w (String c s)) in (str_take w (String c s) +:+ a, b)
   else (EmptyString, String c s)).
Proof.
  unfold span. cbn [String.length span_fuel]. pose proof (drop_decode_shorter c s) as Hw.
  destruct (DecodeRuneInString (String c s)) as [r w]; cbn [snd] in Hw.
  destruct (p r); [|done].
  by rewrite (span_fuel_irrel p (String.length s) (String.length (str_drop w (String c s)))).
Qed.

Lemma span_app p s a b : span p s = (a, b) -> a +:+ b = s.
Proof.
  revert a b. induction s as [s IH] using (induction_ltof1 _ String.length); unfold ltof in IH.
  intros a b. destruct s as [|c s]; [by intros [= <- <-]|].
  rewrite span_cons. pose proof (drop_decode_shorter c s) as Hw.
  destruct (DecodeRuneInString (String c s)) as [r w]; cbn [snd] in Hw.
  destruct (p r); [|by intros [= <- <-]].
  destruct (span p (str_drop w (String c s))) as [a' b'] eqn:E. intros [= <- <-].
  rewrite str_app_assoc, (IH (str_drop w (String c s)) ltac:(cbn [String.length]; lia) _ _ E). apply str_take_drop.
Qed.

Lemma span_length p s a b : span p s = (a, b) -> String.length b <= String.length s.
Proof. intros <-%span_app. rewrite str_length_app. lia. Qed.

(** What stops a scan is the end of the text or a rune outside the class. *)
Lemma span_stop p s a b : span p s = (a, b) -> b = EmptyString \/ p (peek b) = false.
Proof.
  revert a b. induction s as [s IH] using (induction_ltof1 _ String.length); unfold ltof in IH.
  intros a b. destruct s as [|c s]; [intros [= <- <-]; auto|].
  rewrite span_cons. pose proof (drop_decode_shorter c s) as Hw.
  destruct (DecodeRuneInString (String c s)) as [r w] eqn:Hd; cbn [snd] in Hw.
  destruct (p r) eqn:Hp.
  - destruct (span p (str_drop w (String c s))) as [a' b'] eqn:E. intros [= <- <-].
    eapply IH; [|done]. cbn [String.length]; lia.
  - intros [= <- <-]. right. unfold peek. by rewrite Hd.
Qed.

(** ** The scanning loops *)

(** The common shape of the three loops of the lexer. *)
Fixpoint scan_loop (p : Z -> bool) (stop : Z -> Lexer -> state_result) (fuel : nat) (l : Lexer)
    : state_result :=
  match fuel with
  | 0 => Err OutOfFuel
  | S fuel' =>
      if EOF l then Ok (Errorf "unexpected EOF" l)
      else
        let! next := PeekNext l in
        if p next then let! (_, l) := Next l in scan_loop p stop fuel' l else stop next l
  end.

Lemma scan_loop_ext (p : Z -> bool) stop (loop : nat -> Lexer -> state_result) :
  loop 0 = scan_loop p stop 0 ->
  (forall fuel l, loop (S fuel) l =
     if EOF l then Ok (Errorf "unexpected EOF" l)
     else let! next := PeekNext l in
          if p next then let! (_, l) := Next l in loop fuel l else stop next l) ->
  forall fuel l, loop fuel l = scan_loop p stop fuel l.
Proof.
  intros H0 HS. induction fuel as [|fuel IH]; intros l; [by rewrite H0|].
  rewrite HS. cbn [scan_loop]. destruct (EOF l); [done|].
  destruct (PeekNext l) as [next|]; cbn; [|done]. destruct (p next); [|done].
  destruct (Next l) as [[r l']|]; cbn; auto.
Qed.

Lemma LexSection_scan fuel l :
  LexSection_loop fuel l =
  scan_loop section_rune (fun next l =>
    if (next =? RuneRightBracket)%Z
    then let! l := Emit TokenSection l in Ok (l, Some FLexRightBracket)
    else Ok (Errorf "missing right bracket" l)) fuel l.
Proof.
  apply scan_loop_ext; [done|]. intros n k. cbn [LexSection_loop]. destruct (EOF k); [done|].
  destruct (PeekNext k) as [next|]; cbn [res_bind]; [|done]. unfold section_rune.
  by destruct (IsLetter next), (IsNumber next).
Qed.

Lemma LexKey_scan fuel l :
  LexKey_loop fuel l =
  scan_loop key_rune (fun next l =>
    if blank_rune next
    then let! l := Emit TokenKey l in Ok (l, Some FLexKeyWhiteSpace)
    else Ok (Errorf "invalid key" l)) fuel l.
Proof.
  apply scan_loop_ext; [done|]. intros n k. cbn [LexKey_loop]. destruct (EOF k); [done|].
  destruct (PeekNext k) as [next|]; cbn [res_bind]; [|done]. unfold key_rune.
  by destruct (IsLetter next), (IsNumber next), (next =? RuneDot)%Z.
Qed.

Lemma LexValue_scan fuel l :
  LexValue_loop fuel l =
  scan_loop value_rune (fun _ l => let! l := Emit TokenValue l in Ok (l, Some FLexStart)) fuel l.
Proof.
  apply scan_loop_ext; [done|]. intros n k. cbn [LexValue_loop]. destruct (EOF k); [done|].
  destruct (PeekNext k) as [next|]; cbn [res_bind]; [|done]. unfold value_rune.
  by destruct (next =? RuneNewLine)%Z.
Qed.

(** A loop stops where [span] says, with everything before it in the token. *)
Lemma scan_loop_at inp p stop fuel l cur rem a b :
  at_ inp l cur rem -> span p rem = (a, b) -> String.length rem < fuel ->
  exists l', at_ inp l' (cur +:+ a) b /\ Tokens l' = Tokens l
    /\ scan_loop p stop fuel l =
       match b with EmptyString => Ok (Errorf "unexpected EOF" l') | _ => stop (peek b) l' end.
Proof.
  revert l cur rem a b. induction fuel as [|fuel IH]; intros l cur rem a b Hat Hsp Hf; [lia|].
  cbn [scan_loop]. rewrite (at_EOF _ _ _ _ Hat). destruct rem as [|c rem].
  - injection Hsp as <- <-. exists l. by rewrite str_app_nil_r.
  - rewrite (at_peek _ _ _ _ Hat). cbn [res_bind]. rewrite span_cons in Hsp.
    destruct (at_next _ _ _ _ Hat) as (l1 & Hn & Hat1 & Ht). revert Hn Hat1.
    pose proof (drop_decode_shorter c rem) as Hw. unfold peek at 1 2.
    destruct (DecodeRuneInString (String c rem)) as [r w] eqn:Hd; cbn [fst snd] in *.
    intros Hn Hat1. destruct (p r).
    + destruct (span p (str_drop w (String c rem))) as [a' b'] eqn:E. injection Hsp as <- <-.
      rewrite Hn. cbn [res_bind]. cbn [String.length] in Hf.
      destruct (IH _ _ _ _ _ Hat1 E ltac:(lia)) as (l2 & Hat2 & Ht2 & ->).
      exists l2. rewrite <- str_app_assoc, Ht2. auto.
    + injection Hsp as <- <-. exists l. rewrite str_app_nil_r. unfold peek. by rewrite Hd.
Qed.

(** ** Refinement of one state transition *)

(** States entered only with text left to read. *)
Definition needs_text (sf : StateFunc) : bool :=
  match sf with
  | FLexGlobalWhiteSpace | FLexKeyWhiteSpace | FLexNewLine | FLexLeftBracket | FLexRightBracket => true
  | _ => false
  end.

Definition ready (sf : StateFunc) (rem : string) : Prop :=
  needs_text sf = true -> rem <> EmptyString.

Lemma at_emit_one inp l cur c rem ty (sf : StateFunc) :
  at_ inp l cur (String c rem) ->
  exists l', (let! l := Emit ty (with_pos (Pos l + 1) l) in Ok (l, Some sf)) = Ok (l', Some sf)
    /\ at_ inp l' EmptyString rem
    /\ Tokens l' = Tokens l ++ [MkToken ty (cur +:+ String c EmptyString)].
Proof.
  intros Hat. pose proof (at_advance inp l cur (String c EmptyString) rem Hat) as Ha.
  destruct (at_emit _ _ _ _ ty Ha) as (l' & He & Hat' & Ht). cbn [String.length] in He.
  rewrite He. exists l'. by cbn.
Qed.

Lemma at_error inp (k l : Lexer) cur rem msg :
  at_ inp l cur rem -> Tokens l = Tokens k ->
  exists l', Ok (E := fault) (Errorf msg l) = Ok (l', None) /\ at_ inp l' cur rem
    /\ Tokens l' = Tokens k ++ [MkToken TokenError msg].
Proof. intros Hat Ht. eexists; split; [done|]. cbn. by rewrite Ht. Qed.

Lemma step_refines inp sf l cur rem toks cur' rem' st :
  at_ inp l cur rem -> ready sf rem -> ref_step sf cur rem = (toks, cur', rem', st) ->
  exists l', apply_state sf l = Ok (l', st) /\ at_ inp l' cur' rem' /\ Tokens l' = Tokens l ++ toks.
Proof.
  intros Hat Hr Hst.
  assert (ready sf rem -> needs_text sf = true -> exists c s, rem = String c s) as Hne.
  { intros Hr' Hn. destruct rem as [|c s]; [by destruct (Hr' Hn)|eauto]. }
  pose proof (at_length _ _ _ _ Hat) as Hlen.
  destruct sf; cbn [ref_step apply_state] in *.
  - (* start *) simplify_eq. unfold LexStart. rewrite (at_EOF _ _ _ _ Hat), (at_peek _ _ _ _ Hat).
    exists l. rewrite app_nil_r. by destruct rem'.
  - (* EOF *) simplify_eq. unfold LexEOF.
    destruct (at_emit _ _ _ _ TokenEOF Hat) as (l' & -> & Hat' & Ht). by exists l'.
  - (* white space between tokens *) simplify_eq. unfold LexGlobalWhiteSpace.
    destruct (at_next _ _ _ _ Hat) as (l' & -> & Hat' & Ht). cbn. eexists; split; [done|].
    rewrite app_nil_r. split; [eauto with gostr|done].
  - (* white space before a value *) simplify_eq. unfold LexKeyWhiteSpace.
    destruct (at_next _ _ _ _ Hat) as (l' & -> & Hat' & Ht). cbn [res_bind].
    rewrite (at_peek _ _ _ _ (at_discard _ _ _ _ Hat')). cbn. eexists; split; [done|].
    rewrite app_nil_r. split; [eauto with gostr|done].
  - (* new line *) destruct (Hne Hr eq_refl) as (c & s & ->).
    cbn [str_take str_drop] in Hst.
    injection Hst as <- <- <- <-. by apply at_emit_one.
  - (* left bracket *) destruct (Hne Hr eq_refl) as (c & s & ->).
    cbn [str_take str_drop] in Hst.
    injection Hst as <- <- <- <-. by apply at_emit_one.
  - (* section *) unfold LexSection, loop_fuel. rewrite LexSection_scan, Hlen.
    destruct (span section_rune rem) as [a b] eqn:E.
    edestruct scan_loop_at as (l' & Hat' & Ht & ->); [done..|lia|].
    destruct b as [|c b]; [simplify_eq; apply at_error; done|].
    destruct (_ =? _)%Z; simplify_eq; [|by apply at_error].
    destruct (at_emit _ _ _ _ TokenSection Hat') as (l2 & -> & Hat2 & Ht2). exists l2.
    by rewrite Ht2, Ht.
  - (* right bracket *) destruct (Hne Hr eq_refl) as (c & s & ->).
    cbn [str_take str_drop] in Hst.
    injection Hst as <- <- <- <-. by apply at_emit_one.
  - (* key *) unfold LexKey, loop_fuel. rewrite LexKey_scan, Hlen.
    destruct (span key_rune rem) as [a b] eqn:E.
    edestruct scan_loop_at as (l' & Hat' & Ht & ->); [done..|lia|].
    destruct b as [|c b]; [simplify_eq; apply at_error; done|].
    destruct (blank_rune _); simplify_eq; [|by apply at_error].
    destruct (at_emit _ _ _ _ TokenKey Hat') as (l2 & -> & Hat2 & Ht2). exists l2.
    by rewrite Ht2, Ht.
  - (* value *) unfold LexValue, loop_fuel. rewrite LexValue_scan, Hlen.
    destruct (span value_rune rem) as [a b] eqn:E.
    edestruct scan_loop_at as (l' & Hat' & Ht & ->); [done..|lia|].
    destruct b as [|c b]; [simplify_eq; apply at_error; done|].
    simplify_eq.
    destruct (at_emit _ _ _ _ TokenValue Hat') as (l2 & -> & Hat2 & Ht2). exists l2.
    by rewrite Ht2, Ht.
Qed.

(** ** Termination *)

Definition rank (sf : StateFunc) : nat :=
  match sf with
  | FLexSection | FLexValue => 3
  | FLexStart => 2
  | FLexKeyWhiteSpace => 0
  | _ => 1
  end.

(** Every transition decreases [measure]. *)
Definition measure (sf : StateFunc) (rem : string) : nat := 4 * String.length rem + rank sf.

Lemma blank_peek_nonempty s : blank_rune (peek s) = true -> s <> EmptyString.
Proof. by destruct s. Qed.

Lemma ref_step_decreases sf cur rem toks cur' rem' sf' :
  ready sf rem -> ref_step sf cur rem = (toks, cur', rem', Some sf') ->
  ready sf' rem' /\ measure sf' rem' < measure sf rem.
Proof.
  intros Hr Hst. unfold measure.
  assert (needs_text sf = true ->
    String.length (str_drop (snd (DecodeRuneInString rem)) rem) < String.length rem
    /\ String.length (str_drop 1 rem) < String.length rem) as Hdrop.
  { intros Hn. destruct rem as [|c s]; [by destruct (Hr Hn)|].
    pose proof (drop_decode_shorter c s). rewrite (str_length_drop 1). cbn [String.length] in *. lia. }
  destruct sf; cbn [ref_step needs_text rank] in *; try (specialize (Hdrop eq_refl)).
  - simplify_eq. destruct rem'; repeat case_match; simplify_eq; (split; [done|cbn; lia]).
  - done.
  - simplify_eq. split; [done|]. cbn [rank]. lia.
  - simplify_eq. destruct (blank_rune _) eqn:Hb; (split; [|cbn [rank]; lia]).
    + intros _. by apply blank_peek_nonempty.
    + done.
  - simplify_eq. split; [done|]. cbn [rank]. lia.
  - simplify_eq. split; [done|]. cbn [rank]. lia.
  - destruct (span section_rune rem) as [a b] eqn:E. pose proof (span_length _ _ _ _ E).
    destruct b; [done|]. destruct (_ =? _)%Z; [|done]. simplify_eq. split; [done|cbn [rank]; lia].
  - simplify_eq. split; [done|]. cbn [rank]. lia.
  - destruct (span key_rune rem) as [a b] eqn:E. pose proof (span_length _ _ _ _ E).
    destruct b; [done|]. destruct (blank_rune _); [|done]. simplify_eq. split; [done|cbn [rank]; lia].
  - destruct (span value_rune rem) as [a b] eqn:E. pose proof (span_length _ _ _ _ E).
    destruct b; [done|]. simplify_eq. split; [done|cbn [rank]; lia].
Qed.

Lemma ref_run_total fuel sf cur rem :
  ready sf rem -> measure sf rem < fuel -> exists toks, ref_run fuel sf cur rem = Some toks.
Proof.
  revert sf cur rem. induction fuel as [|fuel IH]; intros sf cur rem Hr Hm; [lia|].
  cbn [ref_run]. destruct (ref_step sf cur rem) as [[[toks cur'] rem'] [sf'|]] eqn:Hst; [|eauto].
  destruct (ref_step_decreases _ _ _ _ _ _ _ Hr Hst) as (Hr' & Hm').
  destruct (IH sf' cur' rem') as (toks' & ->); [done|lia|eauto].
Qed.

Lemma Run_fuel_refines inp fuel sf l cur rem toks :
  at_ inp l cur rem -> State l = Some sf -> ready sf rem -> ref_run fuel sf cur rem = Some toks ->
  exists l', Run_fuel fuel l = Ok l' /\ State l' = None /\ (exists cur' rem', at_ inp l' cur' rem')
    /\ Tokens l' = Tokens l ++ toks.
Proof.
  revert sf l cur rem toks. induction fuel as [|fuel IH]; intros sf l cur rem toks Hat Hl Hr; [done|].
  cbn [ref_run Run_fuel]. rewrite Hl.
  destruct (ref_step sf cur rem) as [[[toks1 cur'] rem'] st] eqn:Hst.
  destruct (step_refines _ _ _ _ _ _ _ _ _ Hat Hr Hst) as (l1 & -> & Hat1 & Ht1). cbn [res_bind].
  destruct st as [sf'|].
  - destruct (ref_step_decreases _ _ _ _ _ _ _ Hr Hst) as (Hr' & _).
    destruct (ref_run fuel sf' cur' rem') as [toks2|] eqn:E; [|done]. intros [= <-].
    destruct (IH sf' (with_state (Some sf') l1) cur' rem' toks2) as (l2 & -> & Hs & Hat2 & Ht2);
      [eauto with gostr..|]. exists l2. rewrite Ht2. cbn. rewrite Ht1. by rewrite app_assoc.
  - intros [= <-]. exists (with_state None l1). split; [by destruct fuel|].
    split; [done|]. split; [eauto with gostr|done].
Qed.

(** The lexer always stops, without a slice panic, and produces the tokens of
    the reference machine. *)
Lemma Run_refines s :
  exists l toks, Run (NewLexer s) = Ok l /\ State l = None /\ ref_lex s = Some toks
    /\ Tokens l = toks /\ Start l <= Pos l <= String.length s.
Proof.
  destruct (ref_run_total (4 * String.length s + 4) FLexStart EmptyString s) as (toks & Ht);
    [done|unfold measure; cbn [rank]; lia|].
  destruct (Run_fuel_refines s _ _ (NewLexer s) _ _ _ (at_new s) eq_refl ltac:(done) Ht)
    as (l & Hrun & Hst & (cur & rem & <- & pre & HI & HS & HP) & Htk).
  exists l, toks. split_and!; try done; [lia|].
  rewrite HI, HP, !str_length_app. lia.
Qed.

(** ** The text of the tokens *)

Definition not_nl (c : ascii) : bool := negb (Ascii.eqb c chr_nl).

(** Lexing starts every token with an empty [cur]. *)
Lemma ref_step_cur sf rem toks cur' rem' sf' :
  ref_step sf EmptyString rem = (toks, cur', rem', Some sf') -> cur' = EmptyString.
Proof.
  destruct sf; cbn [ref_step]; try (intros; simplify_eq; done);
    destruct (span _ rem) as [a b]; repeat case_match; intros; by simplify_eq.
Qed.

(** A scan over ASCII text. *)
Lemma span_ascii p a b :
  str_forall (fun c => negb (is_high c) && p (byte_of c)) a = true ->
  span p (a +:+ b) = (a +:+ fst (span p b), snd (span p b)).
Proof.
  induction a as [|c a IH]; cbn [str_forall String.append]; intros Ha; [by destruct (span p b)|].
  apply andb_true_iff in Ha as [[Hc Hp]%andb_true_iff Ha].
  rewrite span_cons, decode_ascii by (unfold is_high in *; boolify; lia).
  rewrite Hp. cbn [str_drop]. by rewrite IH.
Qed.

(** A scan whose class holds every rune outside ASCII is a scan on bytes. *)
Fixpoint span_bytes (q : ascii -> bool) (s : string) : string * string :=
  match s with
  | EmptyString => (EmptyString, EmptyString)
  | String c s' =>
      if q c then let '(a, b) := span_bytes q s' in (String c a, b) else (EmptyString, s)
  end.

Lemma span_bytes_app q a b :
  str_forall q a = true ->
  span_bytes q (a +:+ b) = (a +:+ fst (span_bytes q b), snd (span_bytes q b)).
Proof.
  induction a as [|c a IH]; cbn [str_forall String.append]; intros Ha; [by destruct (span_bytes q b)|].
  apply andb_true_iff in Ha as [Hc Ha]. cbn [span_bytes]. by rewrite Hc, IH.
Qed.

Lemma span_as_bytes p s :
  (forall r, 0x80 <= r -> p r = true)%Z ->
  span p s = span_bytes (fun c => is_high c || p (byte_of c)) s.
Proof.
  intros Hp. induction s as [s IH] using (induction_ltof1 _ String.length); unfold ltof in IH.
  destruct s as [|c s]; [done|]. rewrite span_cons.
  destruct (is_high c) eqn:Hc.
  - pose proof (drop_decode_shorter c s) as Hw.
    destruct (DecodeRuneInString (String c s)) as [r w] eqn:Hd; cbn [snd] in Hw.
    destruct (decode_high _ _ _ _ Hc Hd) as (Hr & Htake). rewrite Hp by done.
    rewrite (IH (str_drop w (String c s))) by (cbn [String.length]; lia).
    transitivity (span_bytes (fun d => is_high d || p (byte_of d))
                    (str_take w (String c s) +:+ str_drop w (String c s))); [|by rewrite str_take_drop].
    rewrite span_bytes_app; [by destruct (span_bytes _ (str_drop w (String c s)))|].
    eapply str_forall_impl; [|done]. by intros d ->.
  - rewrite decode_ascii by (unfold is_high in *; boolify; lia). cbn [str_drop].
    rewrite (IH s) by (cbn [String.length]; lia). cbn [span_bytes]. rewrite Hc. cbn [orb].
    destruct (p _); [|done]. cbn [str_take]. by destruct (span_bytes _ s).
Qed.

Lemma span_bytes_ext q1 q2 s : (forall c, q1 c = q2 c) -> span_bytes q1 s = span_bytes q2 s.
Proof. intros Hq. induction s as [|c s IH]; cbn; [done|]. by rewrite Hq, IH. Qed.

Lemma value_span s : span value_rune s = span_bytes not_nl s.
Proof.
  rewrite span_as_bytes; [apply span_bytes_ext|]; unfold value_rune, RuneNewLine.
  - intros c. unfold not_nl, is_high. destruct (Ascii.eqb_spec c chr_nl) as [->|Hc]; [done|].
    destruct (byte_of c =? 10)%Z eqn:E; [|by rewrite orb_true_r].
    boolify. destruct Hc. by apply byte_of_inj.
  - intros r Hr. apply negb_true_iff, Z.eqb_neq. lia.
Qed.

(** A value runs to the first new line. *)
Lemma span_value a b :
  str_forall not_nl a = true -> span value_rune (a +:+ String chr_nl b) = (a, String chr_nl b).
Proof. intros Ha. rewrite value_span, span_bytes_app by done. cbn. by rewrite str_app_nil_r. Qed.

(** ** Big-step reading of the reference machine *)

Inductive steps : StateFunc -> string -> list Token -> StateFunc -> string -> Prop :=
| steps_refl sf rem : steps sf rem [] sf rem
| steps_step sf1 rem1 toks1 sf2 rem2 toks2 sf3 rem3 :
    ref_step sf1 EmptyString rem1 = (toks1, EmptyString, rem2, Some sf2) ->
    steps sf2 rem2 toks2 sf3 rem3 ->
    steps sf1 rem1 (toks1 ++ toks2) sf3 rem3.

Lemma steps_one sf1 rem1 toks sf2 rem2 :
  ref_step sf1 EmptyString rem1 = (toks, EmptyString, rem2, Some sf2) -> steps sf1 rem1 toks sf2 rem2.
Proof. intros Hst. rewrite <- (app_nil_r toks). econstructor; [done|constructor]. Qed.

Lemma steps_trans sf1 rem1 toks1 sf2 rem2 toks2 sf3 rem3 :
  steps sf1 rem1 toks1 sf2 rem2 -> steps sf2 rem2 toks2 sf3 rem3 ->
  steps sf1 rem1 (toks1 ++ toks2) sf3 rem3.
Proof.
  induction 1 as [|??????? ? Hst Hs IH]; intros; [done|]. rewrite <- app_assoc.
  econstructor; [done|auto].
Qed.

Lemma ref_run_mono n m sf cur rem toks :
  n <= m -> ref_run n sf cur rem = Some toks -> ref_run m sf cur rem = Some toks.
Proof.
  revert m sf cur rem toks. induction n as [|n IH]; intros m sf cur rem toks Hm; [done|].
  destruct m as [|m]; [lia|]. cbn [ref_run].
  destruct (ref_step sf cur rem) as [[[t cur'] rem'] [sf'|]]; [|done].
  destruct (ref_run n sf' cur' rem') eqn:E; [|done]. by rewrite (IH m _ _ _ _ ltac:(lia) E).
Qed.

Lemma ref_run_steps sf1 rem1 toks1 sf2 rem2 n toks2 :
  steps sf1 rem1 toks1 sf2 rem2 -> ref_run n sf2 EmptyString rem2 = Some toks2 ->
  exists k, ref_run k sf1 EmptyString rem1 = Some (toks1 ++ toks2).
Proof.
  induction 1 as [sf rem|sf1 rem1 t1 sf2 rem2 t2 sf3 rem3 Hst Hs IH]; [eauto|].
  intros [k Hk]%IH. exists (S k). cbn [ref_run]. by rewrite Hst, Hk, app_assoc.
Qed.

(** The tokens of a text, from a big-step derivation to [FLexEOF]. *)
Lemma ref_lex_steps s toks :
  steps FLexStart s toks FLexEOF EmptyString -> ref_lex s = Some (toks ++ [MkToken TokenEOF EmptyString]).
Proof.
  intros Hs. destruct (ref_run_steps _ _ _ _ _ 1 [MkToken TokenEOF EmptyString] Hs eq_refl) as (k & Hk).
  destruct (ref_run_total (4 * String.length s + 4) FLexStart EmptyString s) as (toks' & Ht);
    [done|unfold measure; cbn [rank]; lia|].
  unfold ref_lex. rewrite Ht. f_equal.
  apply (ref_run_mono _ (Nat.max k (4 * String.length s + 4))) in Hk; [|lia].
  apply (ref_run_mono _ (Nat.max k (4 * String.length s + 4))) in Ht; [|lia].
  congruence.
Qed.

(** ** The shape of the token stream *)

Definition class_text (p : Z -> bool) (s : string) : bool :=
  str_forall (fun c => is_high c || p (byte_of c)) s.

Lemma span_class p s a b : span p s = (a, b) -> class_text p a = true.
Proof.
  revert a b. induction s as [s IH] using (induction_ltof1 _ String.length); unfold ltof in IH.
  intros a b. destruct s as [|c s]; [by intros [= <- <-]|].
  rewrite span_cons. pose proof (drop_decode_shorter c s) as Hw.
  destruct (DecodeRuneInString (String c s)) as [r w] eqn:Hd; cbn [snd] in Hw.
  destruct (p r) eqn:Hp; [|by intros [= <- <-]].
  destruct (span p (str_drop w (String c s))) as [a' b'] eqn:E. intros [= <- <-].
  unfold class_text. rewrite str_forall_app. apply andb_true_iff. split.
  - destruct (is_high c) eqn:Hc.
    + destruct (decode_high _ _ _ _ Hc Hd) as (_ & Ht).
      eapply str_forall_impl; [|done]. by intros d ->.
    + rewrite decode_ascii in Hd by (unfold is_high in *; boolify; lia). simplify_eq.
      cbn. by rewrite Hp, orb_true_r.
  - eapply (IH (str_drop w (String c s))); [cbn [String.length]; lia|done].
Qed.

Lemma peek_ascii s v : peek s = v -> (v < 0x80)%Z -> exists s', s = String (chr v) s'.
Proof.
  intros Hv Hlt. destruct s as [|c s]; [by subst|]. exists s. f_equal.
  destruct (is_high c) eqn:Hc.
  - unfold peek in Hv. destruct (DecodeRuneInString (String c s)) as [r w] eqn:Hd.
    destruct (decode_high _ _ _ _ Hc Hd). cbn in Hv. lia.
  - unfold peek in Hv. rewrite decode_ascii in Hv by (unfold is_high in *; boolify; lia).
    cbn in Hv. by rewrite <- Hv, chr_byte_of.
Qed.

Definition str_nonempty (s : string) : bool :=
  match s with EmptyString => false | _ => true end.

(** A token before the last one: its type and its text agree. *)
Definition interior_ok (t : Token) : bool :=
  match TType t with
  | TokenNewLine => bool_decide (TValue t = nl)
  | TokenLeftBracket => bool_decide (TValue t = "[")
  | TokenRightBracket => bool_decide (TValue t = "]")
  | TokenSection => class_text section_rune (TValue t)
  | TokenKey => class_text key_rune (TValue t) && str_nonempty (TValue t)
  | TokenValue => class_text value_rune (TValue t)
  | TokenError | TokenEOF => false
  end.

Definition lex_errors : list string := ["unexpected EOF"; "missing right bracket"; "invalid key"].

Definition terminal_ok (t : Token) : bool :=
  match TType t with
  | TokenEOF => bool_decide (TValue t = EmptyString)
  | TokenError => bool_decide (TValue t ∈ lex_errors)
  | _ => false
  end.

(** What holds of the text when a state is entered. *)
Definition entry (sf : StateFunc) (rem : string) : Prop :=
  match sf with
  | FLexEOF => rem = EmptyString
  | FLexGlobalWhiteSpace | FLexKeyWhiteSpace => rem <> EmptyString
  | FLexNewLine => exists s, rem = String chr_nl s
  | FLexLeftBracket => exists s, rem = String (chr RuneLeftBracket) s
  | FLexRightBracket => exists s, rem = String (chr RuneRightBracket) s
  | FLexKey => blank_rune (peek rem) = false
  | _ => True
  end.

Lemma entry_ready sf rem : entry sf rem -> ready sf rem.
Proof. destruct sf; unfold ready; cbn; intros He Hn; try done; by destruct He as (s & ->). Qed.

Lemma entry_step sf rem toks cur' rem' st :
  entry sf rem -> ref_step sf EmptyString rem = (toks, cur', rem', st) ->
  match st with
  | Some sf' => entry sf' rem' /\ Forall interior_ok toks
  | None => exists t, toks = [t] /\ terminal_ok t = true
  end.
Proof.
  intros He Hst. destruct sf; cbn [ref_step entry] in *.
  - simplify_eq. destruct rem' as [|c s] eqn:E; [done|].
    destruct (blank_rune _) eqn:Hb; [done|].
    destruct (_ =? RuneNewLine)%Z eqn:Hn; [|destruct (_ =? RuneLeftBracket)%Z eqn:Hl; [|done]];
      boolify; (split; [|done]).
    + exact (peek_ascii _ RuneNewLine Hn eq_refl).
    + exact (peek_ascii _ RuneLeftBracket Hl eq_refl).
  - simplify_eq. eauto.
  - simplify_eq. done.
  - simplify_eq. split; [|done]. destruct (blank_rune _) eqn:Hb; [|done]. by apply blank_peek_nonempty.
  - destruct He as (s & ->). simplify_eq/=. split; [done|]. by repeat constructor.
  - destruct He as (s & ->). simplify_eq/=. split; [done|]. by repeat constructor.
  - destruct (span section_rune rem) as [a b] eqn:E. destruct b as [|c b]; [simplify_eq; by eexists|].
    destruct (_ =? _)%Z eqn:Hr; simplify_eq; [|by eexists]. boolify. split.
    + exact (peek_ascii _ RuneRightBracket Hr eq_refl).
    + constructor; [|done]. unfold interior_ok. cbn [TType TValue String.append]. by rewrite (span_class _ _ _ _ E).
  - destruct He as (s & ->). simplify_eq/=. split; [done|]. by repeat constructor.
  - destruct (span key_rune rem) as [a b] eqn:E. destruct b as [|c b]; [simplify_eq; by eexists|].
    destruct (blank_rune (peek (String c b))) eqn:Hb; simplify_eq; [|by eexists]. split; [done|].
    constructor; [|done]. unfold interior_ok. cbn [TType TValue String.append]. rewrite (span_class _ _ _ _ E).
    destruct a as [|d a]; [|done]. apply span_app in E. cbn [String.append] in E. subst rem. congruence.
  - destruct (span value_rune rem) as [a b] eqn:E. destruct b as [|c b]; [simplify_eq; by eexists|].
    simplify_eq. split; [done|]. constructor; [|done]. unfold interior_ok. cbn [TType TValue String.append]. by rewrite (span_class _ _ _ _ E).
Qed.

Lemma ref_run_shape fuel sf rem toks :
  entry sf rem -> ref_run fuel sf EmptyString rem = Some toks ->
  exists body last, toks = body ++ [last] /\ Forall interior_ok body /\ terminal_ok last = true.
Proof.
  revert sf rem toks. induction fuel as [|fuel IH]; intros sf rem toks He; [done|]. cbn [ref_run].
  destruct (ref_step sf EmptyString rem) as [[[t cur'] rem'] st] eqn:Hst.
  pose proof (entry_step _ _ _ _ _ _ He Hst) as Hs. destruct st as [sf'|].
  - destruct Hs as (He' & Hok). apply ref_step_cur in Hst as ->.
    destruct (ref_run fuel sf' EmptyString rem') as [toks'|] eqn:E; [|done]. intros [= <-].
    destruct (IH _ _ _ He' E) as (body & last & -> & Hb & Hl).
    exists (t ++ body), last. rewrite app_assoc. split_and!; [done|by apply Forall_app|done].
  - destruct Hs as (t' & -> & Ht). intros [= <-]. by exists [], t'.
Qed.

(** C12: [Lexer.Run] terminates on every input, no slice expression panics, and
    the final indices delimit a slice of the input. *)
Theorem Run_terminates s :
  exists l, Run (NewLexer s) = Ok l /\ State l = None /\ Start l <= Pos l <= String.length s.
Proof. destruct (Run_refines s) as (l & toks & ? & ? & ? & ? & ?). eauto. Qed.

(** C11: the position-based lexer produces exactly the tokens of the reference
    machine that works on the remaining text. *)
Theorem Run_equivalent s :
  exists l, Run (NewLexer s) = Ok l /\ ref_lex s = Some (Tokens l).
Proof. destruct (Run_refines s) as (l & toks & ? & ? & ? & <- & ?). eauto. Qed.

(** Every token stream is a sequence of well-formed tokens closed by exactly
    one end token, an EOF or one of the three lexical errors; no error or EOF
    token occurs earlier, and the text of each token fits its type. *)
Lemma Run_token_stream s :
  exists l body last, Run (NewLexer s) = Ok l /\ Tokens l = body ++ [last]
    /\ Forall interior_ok body /\ terminal_ok last = true.
Proof.
  destruct (Run_refines s) as (l & toks & ? & ? & Hr & <- & ?).
  destruct (ref_run_shape _ FLexStart s _ I Hr) as (body & last & ? & ? & ?). eauto 10.
Qed.

End Proofs.
