(* ===== verification/FlbParse.v ===== *)
(** * The fluent-bit configuration parser ([pkg/sink/flbconfig/parse.go])

    [parse_step] is the body of the token loop of [Parse] and [Parse] runs the
    lexer and the loop.  The theorems: the loop never falls through, the only
    errors are the lexical ones and a missing new line, and a rendered
    configuration parses back to the sections it was rendered from
    ([Parse_print]). *)

From S2P Require Import Prelude Utf8 FlbLex.
From stdpp Require Import base strings list sets.
From Stdlib Require Import Ascii ZArith.

Record KeyValue : Type := MkKeyValue { Key : string; Value : string }.

Record Section_ : Type := MkSection { SName : string; KeyValues : list KeyValue }.

Record File : Type := MkFile { FName : string; Sections : list Section_ }.

#[global] Instance KeyValue_eq_dec : EqDecision KeyValue.
Proof. solve_decision. Defined.
#[global] Instance Section_eq_dec : EqDecision Section_.
Proof. solve_decision. Defined.
#[global] Instance File_eq_dec : EqDecision File.
Proof. solve_decision. Defined.

(** [Section{}] *)
Definition Section_zero : Section_ := {| SName := EmptyString; KeyValues := [] |}.

(** The local variables of [Parse]. *)
Record pstate : Type := MkPstate {
  p_sections : list Section_;
  requireNewline : bool;
  processingSection : bool;
  section : Section_;
  processingKV : bool;
  p_key : string;
}.

(** One iteration: go on with new locals, or return. *)
Inductive poutcome : Type :=
| Continue (p : pstate)
| Return (r : res string (list Section_)).

Definition parse_init : pstate :=
  {| p_sections := []; requireNewline := false; processingSection := false;
     section := Section_zero; processingKV := false; p_key := EmptyString |}.

Definition perr (msg : string) : poutcome := Return (Err msg).

Definition parse_step (p : pstate) (t : Token) : poutcome :=
  if requireNewline p then
    match TType t with
    | TokenNewLine =>
        Continue {| p_sections := p_sections p; requireNewline := false;
                    processingSection := processingSection p; section := section p;
                    processingKV := processingKV p; p_key := p_key p |}
    | _ => perr "newline required"
    end
  else
    match TType t with
    | TokenError => perr (TValue t)
    | TokenEOF =>
        if processingKV p || processingSection p then perr "unexpected EOF"
        else Return (Ok (p_sections p ++ [section p]))
    | TokenNewLine =>
        if processingKV p || processingSection p then perr "unexpected newline" else Continue p
    | TokenLeftBracket =>
        if processingKV p || processingSection p then perr "unexpected left bracket"
        else Continue {| p_sections := p_sections p ++ [section p]; requireNewline := requireNewline p;
                         processingSection := true; section := Section_zero;
                         processingKV := processingKV p; p_key := p_key p |}
    | TokenSection =>
        if negb (processingSection p) then perr "unexpected section"
        else Continue {| p_sections := p_sections p; requireNewline := requireNewline p;
                         processingSection := processingSection p;
                         section := {| SName := TValue t; KeyValues := KeyValues (section p) |};
                         processingKV := processingKV p; p_key := p_key p |}
    | TokenRightBracket =>
        if negb (processingSection p) then perr "unexpected right bracket"
        else Continue {| p_sections := p_sections p; requireNewline := true;
                         processingSection := false; section := section p;
                         processingKV := processingKV p; p_key := p_key p |}
    | TokenKey =>
        if processingKV p || processingSection p then perr "unexpected key"
        else Continue {| p_sections := p_sections p; requireNewline := requireNewline p;
                         processingSection := processingSection p; section := section p;
                         processingKV := true; p_key := TValue t |}
    | TokenValue =>
        if negb (processingKV p) then perr "unexpected value"
        else Continue {| p_sections := p_sections p; requireNewline := requireNewline p;
                         processingSection := processingSection p;
                         section := {| SName := SName (section p);
                                       KeyValues := KeyValues (section p)
                                                    ++ [MkKeyValue (p_key p) (TValue t)] |};
                         processingKV := false; p_key := EmptyString |}
    end.

(** The range loop over the tokens; [Continue] at the end is the fall through
    to the last [return f, nil]. *)
Fixpoint parse_tokens (p : pstate) (ts : list Token) : poutcome :=
  match ts with
  | [] => Continue p
  | t :: ts' => match parse_step p t with
                | Continue p' => parse_tokens p' ts'
                | Return r => Return r
                end
  end.

Section Parsing.
Context `{UnicodeTables}.

(** [Parse]; a fault of the lexer (it has none) would be the outer error. *)
Definition Parse (name input : string) : res fault (res string File) :=
  let! l := Run (NewLexer input) in
  Ok (match parse_tokens parse_init (Tokens l) with
      | Return (Ok ss) => Ok {| FName := name; Sections := ss |}
      | Return (Err e) => Err e
      | Continue p => Ok {| FName := name; Sections := p_sections p |}
      end).

(** ** Rendered configurations

    A configuration text is a list of lines: blank lines, section headers and
    key-value lines with any indentation. *)

Inductive line : Type :=
| LBlank (indent : string)
| LHeader (indent name : string)
| LKeyValue (indent key sep value : string).

Definition render_line (ln : line) : string :=
  match ln with
  | LBlank indent => indent +:+ nl
  | LHeader indent name => indent +:+ "[" +:+ name +:+ "]" +:+ nl
  | LKeyValue indent key sep value => indent +:+ key +:+ sep +:+ value +:+ nl
  end.

Fixpoint render (ls : list line) : string :=
  match ls with
  | [] => EmptyString
  | ln :: ls' => render_line ln +:+ render ls'
  end.

Definition blank_char (c : ascii) : bool := blank_rune (byte_of c).

(** Leading white space of a value is not part of it. *)
Fixpoint trim_left (s : string) : string :=
  match s with
  | String c s' => if blank_char c then trim_left s' else s
  | EmptyString => EmptyString
  end.

(** The sections a list of lines describes: [cur] is the section being filled. *)
Fixpoint sections_of (cur : Section_) (ls : list line) : list Section_ :=
  match ls with
  | [] => [cur]
  | LBlank _ :: ls' => sections_of cur ls'
  | LHeader _ name :: ls' => cur :: sections_of {| SName := name; KeyValues := [] |} ls'
  | LKeyValue _ key _ value :: ls' =>
      sections_of {| SName := SName cur;
                     KeyValues := KeyValues cur ++ [MkKeyValue key (trim_left value)] |} ls'
  end.

Definition ascii_class (p : Z -> bool) (s : string) : bool :=
  str_forall (fun c => negb (is_high c) && p (byte_of c)) s.

(** The lines that the lexer accepts. *)
Definition line_ok (ln : line) : bool :=
  match ln with
  | LBlank indent => str_forall blank_char indent
  | LHeader indent name => str_forall blank_char indent && ascii_class section_rune name
  | LKeyValue indent key sep value =>
      str_forall blank_char indent && ascii_class key_rune key && str_nonempty key
      && str_forall blank_char sep && str_nonempty sep && str_forall not_nl value
  end.

(** The tokens of one line. *)
Definition line_tokens (ln : line) : list Token :=
  match ln with
  | LBlank _ => [MkToken TokenNewLine nl]
  | LHeader _ name =>
      [MkToken TokenLeftBracket "["; MkToken TokenSection name;
       MkToken TokenRightBracket "]"; MkToken TokenNewLine nl]
  | LKeyValue _ key _ value =>
      [MkToken TokenKey key; MkToken TokenValue (trim_left value); MkToken TokenNewLine nl]
  end.

(** ** Lexing the lines *)

Lemma blank_char_low c : blank_char c = true -> (byte_of c < 0x80)%Z.
Proof. unfold blank_char, blank_rune, RuneTab, RuneSpace. intros Hb. boolify. lia. Qed.

Lemma peek_low c s : (byte_of c < 0x80)%Z -> peek (String c s) = byte_of c.
Proof. intros Hc. unfold peek. by rewrite decode_ascii. Qed.

Lemma start_step c s :
  (byte_of c < 0x80)%Z ->
  ref_step FLexStart EmptyString (String c s) =
    ([], EmptyString, String c s,
     Some (if blank_char c then FLexGlobalWhiteSpace
           else if (byte_of c =? RuneNewLine)%Z then FLexNewLine
           else if (byte_of c =? RuneLeftBracket)%Z then FLexLeftBracket
           else FLexKey)).
Proof. intros Hc. cbn [ref_step]. by rewrite peek_low. Qed.

Lemma steps_blanks indent rest :
  str_forall blank_char indent = true -> steps FLexStart (indent +:+ rest) [] FLexStart rest.
Proof.
  induction indent as [|c s IH]; cbn [str_forall String.append]; intros Hb; [constructor|].
  apply andb_true_iff in Hb as [Hc Hb]. pose proof (blank_char_low _ Hc).
  apply (steps_step _ _ [] FLexGlobalWhiteSpace (String c (s +:+ rest)) []);
    [rewrite start_step by done; by rewrite Hc|].
  apply (steps_step _ _ [] FLexStart (s +:+ rest) []); [|by apply IH].
  cbn [ref_step]. by rewrite decode_ascii.
Qed.

Lemma steps_newline rest :
  steps FLexStart (nl +:+ rest) [MkToken TokenNewLine nl] FLexStart rest.
Proof.
  apply (steps_step _ _ [] FLexNewLine (nl +:+ rest) [MkToken TokenNewLine nl]); [done|].
  by apply steps_one.
Qed.

Lemma steps_header name rest :
  ascii_class section_rune name = true ->
  steps FLexStart ("[" +:+ name +:+ "]" +:+ rest)
    [MkToken TokenLeftBracket "["; MkToken TokenSection name; MkToken TokenRightBracket "]"]
    FLexStart rest.
Proof.
  intros Hn.
  apply (steps_step _ _ [] FLexLeftBracket ("[" +:+ name +:+ "]" +:+ rest)
           [MkToken TokenLeftBracket "["; MkToken TokenSection name; MkToken TokenRightBracket "]"]);
    [done|].
  apply (steps_step _ _ [MkToken TokenLeftBracket "["] FLexSection (name +:+ "]" +:+ rest)
           [MkToken TokenSection name; MkToken TokenRightBracket "]"]); [done|].
  apply (steps_step _ _ [MkToken TokenSection name] FLexRightBracket ("]" +:+ rest)
           [MkToken TokenRightBracket "]"]); [|by apply steps_one].
  cbn [ref_step]. rewrite span_ascii by done. cbn [String.append].
  rewrite span_cons, decode_ascii by done. cbn. by rewrite str_app_nil_r.
Qed.

Lemma key_not_blank c : key_rune (byte_of c) = true -> is_high c = false -> blank_char c = false
  /\ (byte_of c =? RuneNewLine)%Z = false /\ (byte_of c =? RuneLeftBracket)%Z = false.
Proof.
  unfold blank_char, blank_rune, RuneTab, RuneSpace, RuneNewLine, RuneLeftBracket. intros Hk _.
  assert (forall v, key_rune v = false -> (byte_of c =? v)%Z = false) as Hv.
  { intros v Hv. apply Z.eqb_neq. intros E. congruence. }
  by rewrite !Hv.
Qed.

(** White space before a value, and white space at the head of the value. *)
Lemma steps_key_blanks t rest c :
  blank_char c = true -> str_forall not_nl t = true ->
  steps FLexKeyWhiteSpace (String c t +:+ String chr_nl rest) []
        FLexValue (trim_left t +:+ String chr_nl rest).
Proof.
  revert c. induction t as [|d t IH]; intros c Hc Ht; pose proof (blank_char_low _ Hc).
  - apply steps_one. cbn [ref_step String.append]. by rewrite decode_ascii.
  - cbn [str_forall] in Ht. apply andb_true_iff in Ht as [Hd Ht].
    assert (ref_step FLexKeyWhiteSpace EmptyString (String c (String d t) +:+ String chr_nl rest) =
            ([], EmptyString, String d t +:+ String chr_nl rest,
             Some (if blank_rune (peek (String d t +:+ String chr_nl rest))
                   then FLexKeyWhiteSpace else FLexValue))) as Hst.
    { cbn [ref_step String.append]. by rewrite decode_ascii. }
    assert (blank_rune (peek (String d t +:+ String chr_nl rest)) = blank_char d) as Hp.
    { destruct (is_high d) eqn:Hh.
      - unfold peek. cbn [String.append].
        destruct (DecodeRuneInString (String d (t +:+ String chr_nl rest))) as [r w] eqn:Hdec.
        destruct (decode_high _ _ _ _ Hh Hdec) as (Hr & _). cbn [fst].
        unfold blank_char, blank_rune, RuneTab, RuneSpace, is_high in *. boolify.
        rewrite !(proj2 (Z.eqb_neq _ _)) by lia. done.
      - cbn [String.append]. rewrite peek_low; [done|]. unfold is_high in Hh. by boolify. }
    rewrite Hp in Hst. cbn [trim_left]. destruct (blank_char d) eqn:Hb.
    + apply (steps_step _ _ [] _ _ [] _ _ Hst). by apply IH.
    + by apply steps_one.
Qed.

Lemma trim_left_blanks sep value :
  str_forall blank_char sep = true -> trim_left (sep +:+ value) = trim_left value.
Proof.
  induction sep as [|c s IH]; cbn [str_forall String.append trim_left]; intros Hb; [done|].
  apply andb_true_iff in Hb as [-> Hb]. auto.
Qed.

Lemma blank_not_nl s : str_forall blank_char s = true -> str_forall not_nl s = true.
Proof.
  apply str_forall_impl. intros c Hc. unfold not_nl. by destruct (Ascii.eqb_spec c chr_nl) as [->|].
Qed.

Lemma not_nl_trim s : str_forall not_nl s = true -> str_forall not_nl (trim_left s) = true.
Proof.
  induction s as [|c s IH]; cbn [str_forall trim_left]; [done|]. intros Hs.
  destruct (blank_char c); [|done]. apply andb_true_iff in Hs as [_ Hs]. auto.
Qed.

Lemma steps_key_value key sep value rest :
  ascii_class key_rune key = true -> str_nonempty key = true ->
  str_forall blank_char sep = true -> str_nonempty sep = true -> str_forall not_nl value = true ->
  steps FLexStart (key +:+ sep +:+ value +:+ String chr_nl rest)
    [MkToken TokenKey key; MkToken TokenValue (trim_left value)] FLexStart (String chr_nl rest).
Proof.
  intros Hk Hkn Hs Hsn Hv. destruct sep as [|b sep]; [done|]. destruct key as [|k key]; [done|].
  cbn [str_forall] in Hs. apply andb_true_iff in Hs as [Hb Hs].
  assert (is_high k = false /\ key_rune (byte_of k) = true) as [Hkl Hkr].
  { unfold ascii_class in Hk. cbn [str_forall] in Hk.
    apply andb_true_iff in Hk as [[H1 H2]%andb_true_iff _]. split; [by apply negb_true_iff|done]. }
  destruct (key_not_blank k Hkr Hkl) as (E1 & E2 & E3). pose proof (blank_char_low _ Hb).
  apply (steps_step _ _ [] FLexKey (String k key +:+ String b sep +:+ value +:+ String chr_nl rest)
           [MkToken TokenKey (String k key); MkToken TokenValue (trim_left value)]).
  { cbn [String.append]. rewrite start_step by (unfold is_high in Hkl; by boolify).
    by rewrite E1, E2, E3. }
  apply (steps_step _ _ [MkToken TokenKey (String k key)] FLexKeyWhiteSpace
           (String b sep +:+ value +:+ String chr_nl rest) [MkToken TokenValue (trim_left value)]).
  { cbn [ref_step]. rewrite span_ascii by done.
    assert (key_rune (byte_of b) = false) as Hbk.
    { destruct (key_rune (byte_of b)) eqn:E; [|done].
      destruct (key_not_blank b E) as (? & _); [|congruence]. unfold is_high. apply Z.leb_gt. lia. }
    cbn [String.append]. rewrite span_cons, decode_ascii by done. rewrite Hbk. cbn [fst snd].
    rewrite peek_low by done. unfold blank_char in Hb. rewrite Hb. cbn [String.append].
    by rewrite str_app_nil_r. }
  apply (steps_trans _ _ [] FLexValue (trim_left value +:+ String chr_nl rest)
           [MkToken TokenValue (trim_left value)]).
  - rewrite <- (trim_left_blanks sep value) by done.
    replace (String b sep +:+ value +:+ String chr_nl rest)
      with (String b (sep +:+ value) +:+ String chr_nl rest)
      by (cbn [String.append]; by rewrite str_app_assoc).
    apply steps_key_blanks; [done|]. rewrite str_forall_app, Hv, blank_not_nl; done.
  - apply steps_one. cbn [ref_step]. by rewrite span_value by (by apply not_nl_trim).
Qed.

Lemma steps_line ln rest :
  line_ok ln = true -> steps FLexStart (render_line ln +:+ rest) (line_tokens ln) FLexStart rest.
Proof.
  destruct ln as [indent|indent name|indent key sep value]; cbn [line_ok render_line line_tokens];
    intros Hok; repeat (apply andb_true_iff in Hok as [Hok ?]); rewrite !str_app_assoc.
  - apply (steps_trans _ _ [] FLexStart (nl +:+ rest)); [by apply steps_blanks|apply steps_newline].
  - apply (steps_trans _ _ [] FLexStart ("[" +:+ name +:+ "]" +:+ nl +:+ rest)); [by apply steps_blanks|].
    apply (steps_trans _ _ [_; _; _] FLexStart (nl +:+ rest)); [by apply steps_header|apply steps_newline].
  - apply (steps_trans _ _ [] FLexStart (key +:+ sep +:+ value +:+ nl +:+ rest)); [by apply steps_blanks|].
    apply (steps_trans _ _ [_; _] FLexStart (nl +:+ rest)); [by apply steps_key_value|apply steps_newline].
Qed.

Lemma steps_render ls :
  forallb line_ok ls = true ->
  steps FLexStart (render ls) (flat_map line_tokens ls) FLexEOF EmptyString.
Proof.
  induction ls as [|ln ls IH]; cbn [forallb render flat_map]; intros Hok; [by apply steps_one|].
  apply andb_true_iff in Hok as [Hl Hok]. eapply steps_trans; [by apply steps_line|auto].
Qed.

(** ** Parsing the tokens of lines *)

(** The locals between two lines. *)
Definition idle (ss : list Section_) (cur : Section_) : pstate :=
  {| p_sections := ss; requireNewline := false; processingSection := false;
     section := cur; processingKV := false; p_key := EmptyString |}.

Lemma parse_lines ss cur ls :
  parse_tokens (idle ss cur) (flat_map line_tokens ls ++ [MkToken TokenEOF EmptyString]) =
  Return (Ok (ss ++ sections_of cur ls)).
Proof.
  revert ss cur. induction ls as [|ln ls IH]; intros ss cur; [done|].
  destruct ln as [indent|indent name|indent key sep value].
  - exact (IH ss cur).
  - etransitivity; [exact (IH (ss ++ [cur]) {| SName := name; KeyValues := [] |})|].
    by rewrite <- app_assoc.
  - exact (IH ss {| SName := SName cur;
                    KeyValues := KeyValues cur ++ [MkKeyValue key (trim_left value)] |}).
Qed.

Lemma Parse_ref name s toks r :
  ref_lex s = Some toks -> parse_tokens parse_init toks = Return r ->
  Parse name s = Ok (match r with
                     | Ok ss => Ok {| FName := name; Sections := ss |}
                     | Err e => Err e
                     end).
Proof.
  intros Hr Hp. unfold Parse. destruct (Run_refines s) as (l & toks' & -> & _ & Hr' & Ht & _).
  rewrite Hr in Hr'. simplify_eq. cbn [res_bind]. rewrite Hp. by destruct r.
Qed.

Lemma Parse_lines name ls :
  forallb line_ok ls = true ->
  Parse name (render ls) = Ok (Ok {| FName := name; Sections := sections_of Section_zero ls |}).
Proof.
  intros Hok. rewrite (Parse_ref name _ _ (Ok (sections_of Section_zero ls))
                         (ref_lex_steps _ _ (steps_render _ Hok))); [done|].
  apply (parse_lines [] Section_zero ls).
Qed.

(** ** Printing a file *)

Definition print_key_value (kv : KeyValue) : line := LKeyValue "    " (Key kv) " " (Value kv).

Definition print_section (sc : Section_) : list line :=
  LHeader EmptyString (SName sc) :: map print_key_value (KeyValues sc).

(** The lines of a file whose first section is the unnamed one. *)
Definition print_file (f : File) : list line :=
  match Sections f with
  | [] => []
  | sc :: ss => map print_key_value (KeyValues sc) ++ flat_map print_section ss
  end.

Definition key_value_ok (kv : KeyValue) : bool :=
  ascii_class key_rune (Key kv) && str_nonempty (Key kv)
  && str_forall not_nl (Value kv) && bool_decide (trim_left (Value kv) = Value kv).

Definition section_ok (sc : Section_) : bool :=
  ascii_class section_rune (SName sc) && forallb key_value_ok (KeyValues sc).

Definition file_ok (f : File) : bool :=
  match Sections f with
  | [] => false
  | sc :: ss => bool_decide (SName sc = EmptyString) && forallb section_ok (sc :: ss)
  end.

Lemma sections_of_key_values cur kvs ls :
  forallb key_value_ok kvs = true ->
  sections_of cur (map print_key_value kvs ++ ls) =
  sections_of {| SName := SName cur; KeyValues := KeyValues cur ++ kvs |} ls.
Proof.
  revert cur. induction kvs as [|kv kvs IH]; intros cur Hok; [by destruct cur; cbn; rewrite app_nil_r|].
  cbn [forallb] in Hok. apply andb_true_iff in Hok as [Hkv Hok]. cbn [map app sections_of print_key_value].
  rewrite IH by done. cbn [SName KeyValues]. rewrite <- app_assoc. cbn [app].
  unfold key_value_ok in Hkv. apply andb_true_iff in Hkv as [_ Ht%bool_decide_eq_true_1].
  by destruct kv; cbn in *; rewrite Ht.
Qed.

Lemma sections_of_print cur ss :
  forallb section_ok ss = true -> sections_of cur (flat_map print_section ss) = cur :: ss.
Proof.
  revert cur. induction ss as [|sc ss IH]; intros cur Hok; [done|].
  cbn [forallb] in Hok. apply andb_true_iff in Hok as [Hsc Hok].
  unfold section_ok in Hsc. apply andb_true_iff in Hsc as [_ Hkv].
  cbn [flat_map print_section app sections_of]. f_equal.
  rewrite sections_of_key_values by done. rewrite IH by done. by destruct sc.
Qed.

Lemma print_key_values_ok kvs :
  forallb key_value_ok kvs = true -> forallb line_ok (map print_key_value kvs) = true.
Proof.
  induction kvs as [|kv kvs IH]; cbn [forallb map]; [done|]. intros [Hkv Hok]%andb_true_iff.
  rewrite IH by done. rewrite andb_true_r. unfold key_value_ok in Hkv. cbn [line_ok print_key_value].
  repeat (apply andb_true_iff in Hkv as [Hkv ?]). repeat (apply andb_true_iff; split); done.
Qed.

Lemma print_sections_ok ss :
  forallb section_ok ss = true -> forallb line_ok (flat_map print_section ss) = true.
Proof.
  induction ss as [|sc ss IH]; cbn [forallb flat_map]; [done|]. intros [Hsc Hok]%andb_true_iff.
  unfold section_ok in Hsc. apply andb_true_iff in Hsc as [Hn Hkv].
  rewrite forallb_app. cbn [print_section forallb line_ok str_forall].
  by rewrite Hn, print_key_values_ok, IH.
Qed.

(** ** The parser and the lexer agree on the grammar *)

(** What the parser knows when the lexer enters a state. *)
Definition in_step (sf : StateFunc) (o : poutcome) : Prop :=
  match o with
  | Return r => r = Err "newline required"
  | Continue p =>
      match sf with
      | FLexSection | FLexRightBracket =>
          processingSection p = true /\ processingKV p = false /\ requireNewline p = false
      | FLexKeyWhiteSpace | FLexValue =>
          processingSection p = false /\ processingKV p = true /\ requireNewline p = false
      | _ => processingSection p = false /\ processingKV p = false
      end
  end.

Definition resume (o : poutcome) (ts : list Token) : poutcome :=
  match o with
  | Continue p => parse_tokens p ts
  | Return r => Return r
  end.

Lemma resume_app o ts1 ts2 : resume o (ts1 ++ ts2) = resume (resume o ts1) ts2.
Proof.
  destruct o as [p|r]; [|done]. cbn [resume]. revert p.
  induction ts1 as [|t ts1 IH]; intros p; [done|]. cbn [app parse_tokens].
  destruct (parse_step p t); [apply IH|done].
Qed.

Definition final_ok (o : poutcome) : Prop :=
  match o with
  | Continue _ => False
  | Return (Ok _) => True
  | Return (Err e) => e ∈ "newline required" :: lex_errors
  end.

Lemma final_error p msg :
  msg ∈ lex_errors -> final_ok (resume (Continue p) [MkToken TokenError msg]).
Proof.
  intros Hm. cbn. unfold parse_step. cbn. destruct (requireNewline p); apply elem_of_cons; auto.
Qed.

Lemma in_step_resume sf rem toks cur' rem' st o :
  in_step sf o -> ref_step sf EmptyString rem = (toks, cur', rem', st) ->
  match st with
  | Some sf' => in_step sf' (resume o toks)
  | None => final_ok (resume o toks)
  end.
Proof.
  intros Hin Hst. destruct o as [p|r].
  2:{ cbn in *. subst r. destruct st; [done|]. apply elem_of_cons; auto. }
  destruct p as [ss rn ps sec pk key].
  destruct sf; cbn [ref_step in_step requireNewline processingSection processingKV] in *;
    destruct_and?; subst;
    repeat match type of Hst with context [span ?q ?s] => destruct (span q s) as [a b] eqn:? end;
    repeat match type of Hst with
           | context [match ?x with _ => _ end] => destruct x eqn:?
           end; simplify_eq; try (apply final_error, (bool_decide_unpack _); exact I); try done;
    cbn; unfold parse_step, perr; cbn; repeat case_match; simplify_eq; cbn; try done; try congruence;
    apply elem_of_cons; auto.
Qed.

Lemma ref_run_final fuel sf rem toks o :
  in_step sf o -> ref_run fuel sf EmptyString rem = Some toks -> final_ok (resume o toks).
Proof.
  revert sf rem toks o. induction fuel as [|fuel IH]; intros sf rem toks o Hin; [done|]. cbn [ref_run].
  destruct (ref_step sf EmptyString rem) as [[[t cur'] rem'] st] eqn:Hst.
  pose proof (in_step_resume _ _ _ _ _ _ _ Hin Hst) as Hs. destruct st as [sf'|].
  - apply ref_step_cur in Hst as ->.
    destruct (ref_run fuel sf' EmptyString rem') as [toks'|] eqn:E; [|done]. intros [= <-].
    rewrite resume_app. by eapply IH.
  - by intros [= <-].
Qed.

(** C23: [Parse] is total: on every text it returns a file, or one of four errors,
    a lexical error or a missing new line after a section header; the other
    five error branches of the token loop and its fall through are dead code. *)
Theorem Parse_errors name s :
  exists l r, Run (NewLexer s) = Ok l /\ parse_tokens parse_init (Tokens l) = Return r
    /\ match r with
       | Ok ss => Parse name s = Ok (Ok {| FName := name; Sections := ss |})
       | Err e => Parse name s = Ok (Err e) /\ e ∈ "newline required" :: lex_errors
       end.
Proof.
  destruct (Run_refines s) as (l & toks & Hrun & _ & Hr & <- & _).
  assert (final_ok (resume (Continue parse_init) (Tokens l))) as Hf
    by (eapply (ref_run_final _ FLexStart); [by cbn|exact Hr]).
  cbn [resume] in Hf. destruct (parse_tokens parse_init (Tokens l)) as [|r] eqn:Hp; [done|].
  exists l, r. split_and!; [done|done|].
  rewrite (Parse_ref name s _ r Hr Hp). by destruct r.
Qed.

(** C9: printing a file and parsing the text gives the file back. *)
Theorem Parse_print f :
  file_ok f = true -> Parse (FName f) (render (print_file f)) = Ok (Ok f).
Proof.
  intros Hok. destruct f as [name [|sc ss]]; [done|]. unfold file_ok in Hok. cbn [Sections] in Hok.
  apply andb_true_iff in Hok as [Hn Hok]. apply bool_decide_eq_true_1 in Hn.
  cbn [forallb] in Hok. apply andb_true_iff in Hok as [Hsc Hss].
  unfold section_ok in Hsc. apply andb_true_iff in Hsc as [_ Hkv].
  unfold print_file. cbn [Sections FName]. rewrite Parse_lines.
  - rewrite sections_of_key_values by done. rewrite sections_of_print by done.
    destruct sc as [scn kvs]; cbn in Hn; by subst.
  - rewrite forallb_app. by rewrite print_key_values_ok, print_sections_ok.
Qed.

End Parsing.

(** ** Witnesses *)

Definition sample_file : File :=
  {| FName := "fluent.conf";
     Sections := [Section_zero;
                  {| SName := "OUTPUT";
                     KeyValues := [MkKeyValue "Name" "http"; MkKeyValue "tls.verify" "Off"] |}] |}.

Lemma Parse_print_witness :
  @file_ok latin1_tables sample_file = true
  /\ @Parse latin1_tables "fluent.conf" (render (print_file sample_file)) = Ok (Ok sample_file).
Proof. split; [reflexivity|]. apply (@Parse_print latin1_tables sample_file). reflexivity. Defined.
