(* ===== verification/GoJson.v ===== *)
(** * JSON text ([encoding/json])

    The string encoder of [json.Marshal] (HTML escaping on, as [Marshal] has
    it), the encoding of the JSON Patch documents the controllers send, and a
    decoder for both.  [unmarshal_marshal] shows that the document sent is read
    back as the patch it was built from, invalid UTF-8 being replaced by
    U+FFFD. *)

From S2P Require Import Prelude Utf8 GoStd.
From stdpp Require Import base strings list.
From Stdlib Require Import Ascii ZArith.

(** ** String literals *)

Definition chr_bs : ascii := "092".

Definition hex_digit (v : Z) : ascii :=
  if (v <? 10)%Z then chr (48 + v) else chr (87 + v).

(** The table [htmlSafeSet], for bytes below 0x80. *)
Definition html_safe (c : ascii) : bool :=
  let b := byte_of c in
  (0x20 <=? b)%Z && negb (b =? 34)%Z && negb (b =? 38)%Z && negb (b =? 60)%Z
  && negb (b =? 62)%Z && negb (b =? 92)%Z.

Definition escape_byte (c : ascii) : string :=
  let b := byte_of c in
  if (b =? 92)%Z || (b =? 34)%Z then String chr_bs (String c EmptyString)
  else if (b =? 10)%Z then String chr_bs "n"
  else if (b =? 13)%Z then String chr_bs "r"
  else if (b =? 9)%Z then String chr_bs "t"
  else String chr_bs ("u00" +:+ String (hex_digit (Z.shiftr b 4))
                                       (String (hex_digit (Z.land b 0xF)) EmptyString)).

(** The loop of [encodeState.string], with as much fuel as there are bytes. *)
Fixpoint quote_body (fuel : nat) (s : string) : string :=
  match fuel, s with
  | S fuel', String c s' =>
      if (byte_of c <? 0x80)%Z then
        (if html_safe c then String c EmptyString else escape_byte c) +:+ quote_body fuel' s'
      else
        let '(r, size) := DecodeRuneInString s in
        if (r =? RuneError)%Z && (size =? 1)%nat then
          String chr_bs "ufffd" +:+ quote_body fuel' (str_drop size s)
        else if (r =? 0x2028)%Z || (r =? 0x2029)%Z then
          String chr_bs ("u202" +:+ String (hex_digit (Z.land r 0xF)) EmptyString)
          +:+ quote_body fuel' (str_drop size s)
        else str_take size s +:+ quote_body fuel' (str_drop size s)
  | _, _ => EmptyString
  end.

Definition quote (s : string) : string := dq +:+ quote_body (String.length s) s +:+ dq.

(** ** Reading string literals *)

Definition unhex (c : ascii) : option Z :=
  let b := byte_of c in
  if in_range 48 57 b then Some (b - 48)%Z
  else if in_range 97 102 b then Some (b - 87)%Z
  else if in_range 65 70 b then Some (b - 55)%Z
  else None.

(** [utf8.EncodeRune] for the runes a [\u] escape can denote. *)
Definition encode_rune16 (r : Z) : string :=
  if (r <? 0x80)%Z then String (chr r) EmptyString
  else if (r <? 0x800)%Z then
    String (chr (Z.lor 0xC0 (Z.shiftr r 6)))
      (String (chr (Z.lor 0x80 (Z.land r 0x3F))) EmptyString)
  else
    String (chr (Z.lor 0xE0 (Z.shiftr r 12)))
      (String (chr (Z.lor 0x80 (Z.land (Z.shiftr r 6) 0x3F)))
         (String (chr (Z.lor 0x80 (Z.land r 0x3F))) EmptyString)).

Definition surrogate (r : Z) : bool := in_range 0xD800 0xDFFF r.

Definition replacement : string := encode_rune16 RuneError.

(** The characters of a literal up to its closing quote, and the text after
    it.  Escaped surrogates, which the encoder never writes, are refused. *)
Fixpoint unquote_body (fuel : nat) (s : string) : option (string * string) :=
  match fuel, s with
  | S fuel', String c s' =>
      if Ascii.eqb c chr_dq then Some (EmptyString, s')
      else if Ascii.eqb c chr_bs then
        match s' with
        | String e t =>
            let one (d : ascii) (u : string) :=
              '(v, rest) ← unquote_body fuel' u; Some (String d v, rest) in
            if Ascii.eqb e chr_dq || Ascii.eqb e chr_bs || Ascii.eqb e "/" then one e t
            else if Ascii.eqb e "n" then one "010"%char t
            else if Ascii.eqb e "r" then one "013"%char t
            else if Ascii.eqb e "t" then one "009"%char t
            else if Ascii.eqb e "b" then one "008"%char t
            else if Ascii.eqb e "f" then one "012"%char t
            else if Ascii.eqb e "u" then
              match t with
              | String h3 (String h2 (String h1 (String h0 u))) =>
                  d3 ← unhex h3; d2 ← unhex h2; d1 ← unhex h1; d0 ← unhex h0;
                  let r := (((d3 * 16 + d2) * 16 + d1) * 16 + d0)%Z in
                  if surrogate r then None
                  else '(v, rest) ← unquote_body fuel' u; Some (encode_rune16 r +:+ v, rest)
              | _ => None
              end
            else None
        | EmptyString => None
        end
      else if (byte_of c <? 0x20)%Z then None
      else if (byte_of c <? 0x80)%Z then
        '(v, rest) ← unquote_body fuel' s'; Some (String c v, rest)
      else
        let '(r, size) := DecodeRuneInString s in
        '(v, rest) ← unquote_body fuel' (str_drop size s);
        Some ((if (r =? RuneError)%Z && (size =? 1)%nat then replacement else str_take size s) +:+ v, rest)
  | _, _ => None
  end.

Definition unquote (s : string) : option (string * string) :=
  match s with
  | String c s' => if Ascii.eqb c chr_dq then unquote_body (S (String.length s')) s' else None
  | EmptyString => None
  end.

(** Invalid bytes replaced by U+FFFD. *)
Fixpoint to_valid_fuel (fuel : nat) (s : string) : string :=
  match fuel, s with
  | S fuel', String _ _ =>
      let '(r, size) := DecodeRuneInString s in
      (if (r =? RuneError)%Z && (size =? 1)%nat then replacement else str_take size s)
      +:+ to_valid_fuel fuel' (str_drop size s)
  | _, _ => EmptyString
  end.

Definition to_valid (s : string) : string := to_valid_fuel (String.length s) s.

(** ** JSON Patch documents

    The [patch] struct of [pkg/sink/common.go] and of
    [pkg/metric/cluster_controller.go]. *)

Record patch : Type := MkPatch { Op : string; Path : string; PatchValue : string }.

#[global] Instance patch_eq_dec : EqDecision patch.
Proof. solve_decision. Defined.

Definition field (name : string) : string := dq +:+ name +:+ dq +:+ ":".

Definition marshal_patch (p : patch) : string :=
  "{" +:+ field "op" +:+ quote (Op p) +:+ "," +:+ field "path" +:+ quote (Path p)
  +:+ "," +:+ field "value" +:+ quote (PatchValue p) +:+ "}".

(** [json.Marshal] of a [[]patch]: it cannot fail. *)
Definition marshal_patches (ps : list patch) : string :=
  "[" +:+ strings_Join (map marshal_patch ps) "," +:+ "]".

Fixpoint strip (prefix s : string) : option string :=
  match prefix, s with
  | EmptyString, _ => Some s
  | String p prefix', String c s' => if Ascii.eqb p c then strip prefix' s' else None
  | _, _ => None
  end.

Definition unmarshal_patch (s : string) : option (patch * string) :=
  s ← strip ("{" +:+ field "op") s;
  '(op, s) ← unquote s;
  s ← strip ("," +:+ field "path") s;
  '(path, s) ← unquote s;
  s ← strip ("," +:+ field "value") s;
  '(value, s) ← unquote s;
  s ← strip "}" s;
  Some (MkPatch op path value, s).

(** The elements after the first, each behind a comma, up to the bracket. *)
Fixpoint unmarshal_more (fuel : nat) (s : string) : option (list patch) :=
  match fuel with
  | 0 => None
  | S fuel' =>
      match strip "]" s with
      | Some rest => match rest with EmptyString => Some [] | _ => None end
      | None =>
          s ← strip "," s;
          '(p, s) ← unmarshal_patch s;
          ps ← unmarshal_more fuel' s;
          Some (p :: ps)
      end
  end.

Definition unmarshal_patches (s : string) : option (list patch) :=
  s ← strip "[" s;
  match strip "]" s with
  | Some rest => match rest with EmptyString => Some [] | _ => None end
  | None =>
      '(p, s) ← unmarshal_patch s;
      ps ← unmarshal_more (S (String.length s)) s;
      Some (p :: ps)
  end.

Definition valid_patch (p : patch) : patch :=
  MkPatch (to_valid (Op p)) (to_valid (Path p)) (to_valid (PatchValue p)).

(** ** Facts *)

Lemma strip_app p s : strip p (p +:+ s) = Some s.
Proof. induction p as [|c p IH]; cbn; [by destruct s|]. by rewrite Ascii.eqb_refl. Qed.

(** One character of a literal, with the continuation left symbolic. *)
Definition push (p : string) (k : option (string * string)) : option (string * string) :=
  '(v, rest) ← k; Some (p +:+ v, rest).

Lemma unquote_low f c u :
  is_high c = false ->
  unquote_body (S f) ((if html_safe c then String c EmptyString else escape_byte c) +:+ u)
  = push (String c EmptyString) (unquote_body f u).
Proof.
  destruct c as [[] [] [] [] [] [] [] []]; intros Hc; try discriminate Hc; reflexivity.
Qed.

Lemma unquote_replacement f u :
  unquote_body (S f) (String chr_bs "ufffd" +:+ u) = push replacement (unquote_body f u).
Proof. reflexivity. Qed.

Lemma byte_eq c v : (0 <= v < 256)%Z -> byte_of c = v -> c = chr v.
Proof. intros Hv <-. by rewrite chr_byte_of. Qed.

(** The line and paragraph separators are the only runes that are escaped
    outside ASCII. *)
Lemma decode_separator c s r w :
  is_high c = true -> DecodeRuneInString (String c s) = (r, w) ->
  (r =? 0x2028)%Z || (r =? 0x2029)%Z = true ->
  str_take w (String c s) = encode_rune16 r.
Proof.
  intros Hc Hd Hr. destruct (decode_spec _ _ _ _ Hc Hd) as [s|c1 s|c1 c2 s|c1 c2 c3 s]; [done|..];
    repeat match goal with H : cont_byte _ = true |- _ => apply cont_byte_range in H end;
    assert (0 <= byte_of c)%Z by (pose proof (byte_of_range c); lia).
  - apply orb_true_iff in Hr as [Hr|Hr]; boolify; lia.
  - apply orb_true_iff in Hr. cbn [str_take].
    assert (byte_of c = 0xE2 /\ byte_of c1 = 0x80
            /\ (byte_of c2 = 0xA8 \/ byte_of c2 = 0xA9))%Z as (-> %byte_eq & ->%byte_eq & Hc2);
      [destruct Hr; boolify; lia| |lia|lia].
    destruct Hc2 as [->%byte_eq| ->%byte_eq]; lia || done.
  - apply orb_true_iff in Hr as [Hr|Hr]; boolify; lia.
Qed.

Lemma unquote_separator f u r :
  (r =? 0x2028)%Z || (r =? 0x2029)%Z = true ->
  unquote_body (S f) (String chr_bs ("u202" +:+ String (hex_digit (Z.land r 0xF)) EmptyString) +:+ u)
  = push (encode_rune16 r) (unquote_body f u).
Proof. intros [Hr|Hr]%orb_true_iff; apply Z.eqb_eq in Hr; subst r; reflexivity. Qed.

Lemma high_not_special c :
  is_high c = true -> Ascii.eqb c chr_dq = false /\ Ascii.eqb c chr_bs = false
    /\ (byte_of c <? 0x20)%Z = false /\ (byte_of c <? 0x80)%Z = false.
Proof.
  unfold is_high. intros Hc. boolify. split_and!.
  - by destruct (Ascii.eqb_spec c chr_dq) as [->|].
  - by destruct (Ascii.eqb_spec c chr_bs) as [->|].
  - apply Z.ltb_ge. lia.
  - by apply Z.ltb_ge.
Qed.

Lemma unquote_high f c s u r w :
  is_high c = true -> DecodeRuneInString (String c s) = (r, w) ->
  (r =? RuneError)%Z && (w =? 1)%nat = false ->
  unquote_body (S f) (str_take w (String c s) +:+ u) = push (str_take w (String c s)) (unquote_body f u).
Proof.
  intros Hc Hd He. pose proof (decode_prefix _ _ _ _ u Hc Hd He) as Hd'.
  pose proof (decode_width _ _ _ Hd) as Hw.
  pose proof (decode_width_pos _ _ _ _ Hd). destruct w as [|w]; [lia|].
  set (p := str_take (S w) (String c s)) in *.
  assert (str_drop (S w) (p +:+ u) = u /\ str_take (S w) (p +:+ u) = p) as [Hdrop Htake].
  { replace (S w) with (String.length p) by (apply str_length_take; done).
    by rewrite str_drop_app, str_take_app. }
  assert (exists s', p +:+ u = String c s') as [s' Es'] by (by eexists).
  rewrite Es' in *. destruct (high_not_special c Hc) as (E1 & E2 & E3 & E4).
  cbn [unquote_body]. rewrite E1, E2, E3, E4, Hd', He, Hdrop, Htake. done.
Qed.

Lemma to_valid_fuel_irrel n m s :
  String.length s <= n -> String.length s <= m -> to_valid_fuel n s = to_valid_fuel m s.
Proof.
  revert m s. induction n as [|n IH]; intros [|m] [|c s] Hn Hm; cbn [String.length] in *; try done; try lia.
  cbn [to_valid_fuel].
  destruct (DecodeRuneInString (String c s)) as [r w] eqn:Hd.
  pose proof (decode_width_pos _ _ _ _ Hd).
  rewrite (IH m); [done|rewrite str_length_drop; cbn [String.length]; lia..].
Qed.

Lemma unquote_quote_body f n s rest :
  String.length s <= n -> n < f ->
  unquote_body f (quote_body n s +:+ dq +:+ rest) = Some (to_valid_fuel n s, rest).
Proof.
  revert f s. induction n as [|n IH]; intros [|f] s Hn Hf; try lia.
  { destruct s; [done|cbn in Hn; lia]. }
  destruct s as [|c s]; [done|]. cbn [quote_body to_valid_fuel]. cbn [String.length] in Hn.
  destruct (is_high c) eqn:Hc.
  - destruct (high_not_special c Hc) as (_ & _ & _ & ->).
    destruct (DecodeRuneInString (String c s)) as [r w] eqn:Hd.
    pose proof (decode_width_pos _ _ _ _ Hd).
    assert (String.length (str_drop w (String c s)) <= n) as Hl
      by (rewrite str_length_drop; cbn [String.length]; lia).
    destruct ((r =? RuneError)%Z && (w =? 1)) eqn:He.
    + rewrite str_app_assoc, unquote_replacement, IH by (done || lia). done.
    + destruct ((r =? 0x2028)%Z || (r =? 0x2029)%Z) eqn:Hs.
      * rewrite str_app_assoc, (unquote_separator f _ r Hs), IH by (done || lia).
        by rewrite (decode_separator _ _ _ _ Hc Hd Hs).
      * rewrite str_app_assoc, (unquote_high f _ _ _ r w Hc Hd He), IH by (done || lia). done.
  - assert ((byte_of c <? 0x80)%Z = true) as Hlow by (unfold is_high in Hc; boolify; apply Z.ltb_lt; lia).
    rewrite Hlow, str_app_assoc, unquote_low, IH by (done || lia).
    rewrite decode_ascii by by apply Z.ltb_lt. cbn.
    assert ((byte_of c =? RuneError)%Z = false) as -> by (apply Z.eqb_neq; unfold RuneError; boolify; lia).
    done.
Qed.

Lemma quote_body_length n s : String.length s <= n -> String.length s <= String.length (quote_body n s).
Proof.
  revert s. induction n as [|n IH]; intros [|c s] Hn; cbn [String.length] in *; try lia.
  cbn [quote_body]. destruct (byte_of c <? 0x80)%Z eqn:Hc.
  - rewrite str_length_app. specialize (IH s ltac:(lia)).
    assert (1 <= String.length (if html_safe c then String c EmptyString else escape_byte c)); [|lia].
    destruct (html_safe c); [done|]. unfold escape_byte. repeat case_match; cbn; lia.
  - destruct (DecodeRuneInString (String c s)) as [r w] eqn:Hd.
    assert (is_high c = true) as Hh by (unfold is_high; boolify; by apply Z.leb_le).
    pose proof (decode_width_pos _ _ _ _ Hd). pose proof (decode_width _ _ _ Hd).
    pose proof (str_length_drop w (String c s)) as Hl. cbn [String.length] in *.
    specialize (IH (str_drop w (String c s)) ltac:(lia)).
    destruct ((r =? RuneError)%Z && (w =? 1)) eqn:He; [|destruct (_ || _) eqn:Hs];
      rewrite !str_length_app.
    + boolify. cbn [String.length]. lia.
    + cbn [String.append String.length]. 
      assert (w <= 4) by (destruct (decode_spec _ _ _ _ Hh Hd); lia). lia.
    + rewrite str_length_take by done. lia.
Qed.

Lemma unquote_quote s rest : unquote (quote s +:+ rest) = Some (to_valid s, rest).
Proof.
  unfold quote, dq. cbn [String.append unquote]. rewrite Ascii.eqb_refl, str_app_assoc.
  apply unquote_quote_body; [done|]. rewrite !str_length_app.
  pose proof (quote_body_length (String.length s) s). lia.
Qed.

Lemma unmarshal_marshal_patch p rest :
  unmarshal_patch (marshal_patch p +:+ rest) = Some (valid_patch p, rest).
Proof.
  unfold marshal_patch, unmarshal_patch. rewrite !str_app_assoc.
  rewrite <- (str_app_assoc "{" (field "op")), strip_app. cbn [mbind option_bind].
  rewrite unquote_quote. cbn [mbind option_bind].
  rewrite <- (str_app_assoc "," (field "path")), strip_app. cbn [mbind option_bind].
  rewrite unquote_quote. cbn [mbind option_bind].
  rewrite <- (str_app_assoc "," (field "value")), strip_app. cbn [mbind option_bind].
  rewrite unquote_quote. cbn [mbind option_bind].
  by rewrite strip_app.
Qed.

Lemma unmarshal_more_spec fuel ps :
  List.length ps < fuel ->
  unmarshal_more fuel (foldr (fun p acc => "," +:+ marshal_patch p +:+ acc) "]" ps)
  = Some (map valid_patch ps).
Proof.
  revert ps. induction fuel as [|fuel IH]; intros ps Hl; [lia|].
  destruct ps as [|p ps]; [done|]. cbn [foldr map unmarshal_more List.length] in *.
  replace (strip "]" _) with (@None string) by done.
  rewrite strip_app. cbn [mbind option_bind]. rewrite unmarshal_marshal_patch. cbn [mbind option_bind].
  by rewrite IH by lia.
Qed.

Lemma join_marshal p ps :
  strings_Join (map marshal_patch (p :: ps)) "," +:+ "]"
  = marshal_patch p +:+ foldr (fun q acc => "," +:+ marshal_patch q +:+ acc) "]" ps.
Proof.
  unfold strings_Join. revert p. induction ps as [|q ps IH]; intros p; [done|].
  cbn [map String.concat foldr]. rewrite !str_app_assoc. f_equal. f_equal. apply (IH q).
Qed.

(** The document the controllers send decodes to the patches, with invalid
    UTF-8 replaced. *)
Lemma unmarshal_marshal_patches ps :
  unmarshal_patches (marshal_patches ps) = Some (map valid_patch ps).
Proof.
  unfold unmarshal_patches, marshal_patches. rewrite strip_app. cbn [mbind option_bind].
  destruct ps as [|p ps]; [done|]. rewrite join_marshal.
  replace (strip "]" _) with (@None string) by done.
  rewrite unmarshal_marshal_patch. cbn [mbind option_bind].
  rewrite unmarshal_more_spec; [done|]. apply le_n_S.
  induction ps as [|q ps IH]; cbn [foldr List.length]; [lia|].
  rewrite !str_length_app. cbn [String.length]. lia.
Qed.

(** ** Valid UTF-8 is left alone *)

Fixpoint valid_utf8_fuel (fuel : nat) (s : string) : bool :=
  match fuel, s with
  | S fuel', String _ _ =>
      let '(r, size) := DecodeRuneInString s in
      negb ((r =? RuneError)%Z && (size =? 1)%nat) && valid_utf8_fuel fuel' (str_drop size s)
  | _, _ => true
  end.

(** [utf8.ValidString] *)
Definition valid_utf8 (s : string) : bool := valid_utf8_fuel (String.length s) s.

Lemma to_valid_id s : valid_utf8 s = true -> to_valid s = s.
Proof.
  unfold valid_utf8, to_valid. generalize (le_n (String.length s)).
  generalize (String.length s) at 2 3 4. intros n. revert s.
  induction n as [|n IH]; intros [|c s] Hn Hv; cbn [String.length] in *; try done; try lia.
  cbn [to_valid_fuel valid_utf8_fuel] in *.
  destruct (DecodeRuneInString (String c s)) as [r w] eqn:Hd.
  pose proof (decode_width_pos _ _ _ _ Hd).
  apply andb_true_iff in Hv as [He%negb_true_iff Hv]. rewrite He, IH; [apply str_take_drop| |done].
  rewrite str_length_drop. cbn [String.length]. lia.
Qed.

Lemma valid_utf8_ascii s : str_forall (fun c => negb (is_high c)) s = true -> valid_utf8 s = true.
Proof.
  unfold valid_utf8. generalize (String.length s). intros n. revert s.
  induction n as [|n IH]; intros [|c s] Hs; try done. cbn [valid_utf8_fuel].
  cbn [str_forall] in Hs. apply andb_true_iff in Hs as [Hc%negb_true_iff Hs].
  unfold is_high in Hc. boolify. rewrite decode_ascii by done. cbn [str_drop].
  rewrite IH by done. rewrite andb_true_r. apply negb_true_iff, andb_false_iff. left.
  apply Z.eqb_neq. unfold RuneError. lia.
Qed.
