(* ===== verification/GoUrl.v ===== *)
(** * URL parsing ([net/url])

    [Parse] and the accessors [Hostname] and [Port] of package net/url, as in
    Go 1.11, the release the repository's images are built with.  Only whether
    parsing fails matters to the callers, so errors carry no text. *)

From S2P Require Import Prelude Utf8 GoStd.
From stdpp Require Import base strings list.
From Stdlib Require Import Ascii ZArith.

(** ** Searching strings *)

Fixpoint IndexByte (s : string) (b : ascii) : option nat :=
  match s with
  | EmptyString => None
  | String c s' => if Ascii.eqb c b then Some 0 else S <$> IndexByte s' b
  end.

Fixpoint LastIndexByte (s : string) (b : ascii) : option nat :=
  match s with
  | EmptyString => None
  | String c s' =>
      match LastIndexByte s' b with
      | Some i => Some (S i)
      | None => if Ascii.eqb c b then Some 0 else None
      end
  end.

(** [strings.Index] *)
Fixpoint Index (s sub : string) : option nat :=
  if HasPrefix s sub then Some 0
  else match s with
       | EmptyString => None
       | String _ s' => S <$> Index s' sub
       end.

Definition Contains (s sub : string) : bool := match Index s sub with Some _ => true | None => false end.

Fixpoint CountByte (s : string) (b : ascii) : nat :=
  match s with
  | EmptyString => 0
  | String c s' => (if Ascii.eqb c b then 1 else 0) + CountByte s' b
  end.

Fixpoint HasSuffixByte (s : string) (b : ascii) : bool :=
  match s with
  | EmptyString => false
  | String c EmptyString => Ascii.eqb c b
  | String _ s' => HasSuffixByte s' b
  end.

Definition to_lower (c : ascii) : ascii :=
  if in_range 65 90 (byte_of c) then chr (byte_of c + 32) else c.

Fixpoint ToLower (s : string) : string :=
  match s with
  | EmptyString => EmptyString
  | String c s' => String (to_lower c) (ToLower s')
  end.

(** [split(s, c, cutc)] *)
Definition split (s : string) (c : ascii) (cutc : bool) : string * string :=
  match IndexByte s c with
  | None => (s, EmptyString)
  | Some i => (str_take i s, str_drop (if cutc then S i else i) s)
  end.

(** ** Escapes *)

Inductive encoding : Type :=
| encodePath | encodeHost | encodeZone | encodeUserPassword | encodeFragment.

#[global] Instance encoding_eq_dec : EqDecision encoding.
Proof. solve_decision. Defined.

Definition is_alpha (c : ascii) : bool := in_range 65 90 (byte_of c) || in_range 97 122 (byte_of c).
Definition is_digit (c : ascii) : bool := in_range 48 57 (byte_of c).

Fixpoint str_mem (c : ascii) (s : string) : bool :=
  match s with
  | EmptyString => false
  | String d s' => Ascii.eqb c d || str_mem c s'
  end.

(** Bytes a host may hold as they are: those [shouldEscape] lets through in
    the modes [encodeHost] and [encodeZone]. *)
Definition host_safe (c : ascii) : bool :=
  is_alpha c || is_digit c || str_mem c "!$&'()*+,;=:[]<>-_.~" || Ascii.eqb c chr_dq.

Definition ishex (c : ascii) : bool := is_digit c || in_range 97 102 (byte_of c) || in_range 65 70 (byte_of c).

Definition unhex (c : ascii) : Z :=
  let b := byte_of c in
  if in_range 48 57 b then (b - 48)%Z
  else if in_range 97 102 b then (b - 97 + 10)%Z
  else if in_range 65 70 b then (b - 65 + 10)%Z
  else 0%Z.

Definition is_host_mode (mode : encoding) : bool :=
  match mode with encodeHost | encodeZone => true | _ => false end.

(** [unescape]: [None] on a malformed or forbidden escape. *)
Fixpoint unescape (s : string) (mode : encoding) : option string :=
  match s with
  | EmptyString => Some EmptyString
  | String c s' =>
      if Ascii.eqb c chr_percent then
        match s' with
        | String h1 (String h2 s'') =>
            let v := (unhex h1 * 16 + unhex h2)%Z in
            let is25 := Ascii.eqb h1 "2" && Ascii.eqb h2 "5" in
            if negb (ishex h1 && ishex h2) then None
            else if bool_decide (mode = encodeHost) && (unhex h1 <? 8)%Z && negb is25 then None
            else if bool_decide (mode = encodeZone) && negb is25 && negb (v =? 32)%Z
                    && negb (host_safe (chr v)) then None
            else String (chr v) <$> unescape s'' mode
        | _ => None
        end
      else if is_host_mode mode && (byte_of c <? 0x80)%Z && negb (host_safe c) then None
      else String c <$> unescape s' mode
  end.

(** ** URLs *)

Record URL : Type := MkURL {
  Scheme : string;
  Opaque : string;
  Host : string;
  UPath : string;
  RawQuery : string;
}.

Definition scheme_char (c : ascii) : bool := is_alpha c || is_digit c || str_mem c "+-.".

(** [getscheme]: the loop at position [i] of [rawurl], where [s] is
    [rawurl[i:]]. *)
Fixpoint getscheme_from (rawurl : string) (i : nat) (s : string) : option (string * string) :=
  match s with
  | EmptyString => Some (EmptyString, rawurl)
  | String c s' =>
      if is_alpha c then getscheme_from rawurl (S i) s'
      else if is_digit c || str_mem c "+-." then
        if (i =? 0)%nat then Some (EmptyString, rawurl) else getscheme_from rawurl (S i) s'
      else if Ascii.eqb c ":" then
        if (i =? 0)%nat then None else Some (str_take i rawurl, s')
      else Some (EmptyString, rawurl)
  end.

Definition getscheme (rawurl : string) : option (string * string) := getscheme_from rawurl 0 rawurl.

Definition validOptionalPort (port : string) : bool :=
  match port with
  | EmptyString => true
  | String c s => Ascii.eqb c ":" && str_forall is_digit s
  end.

(** [parseHost] *)
Definition parseHost (host : string) : option string :=
  if HasPrefix host "[" then
    match LastIndexByte host "]" with
    | None => None
    | Some i =>
        if negb (validOptionalPort (str_drop (S i) host)) then None
        else match Index (str_take i host) "%25" with
             | Some zone =>
                 host1 ← unescape (str_take zone host) encodeHost;
                 host2 ← unescape (str_slice host zone i) encodeZone;
                 host3 ← unescape (str_drop i host) encodeHost;
                 Some (host1 +:+ host2 +:+ host3)
             | None => unescape host encodeHost
             end
    end
  else unescape host encodeHost.

Definition validUserinfo (s : string) : bool :=
  str_forall (fun c => is_alpha c || is_digit c || str_mem c "-._:~!$&'()*+,;=%@") s.

(** [parseAuthority]: the host; of the user information only its validity
    matters. *)
Definition parseAuthority (authority : string) : option string :=
  match LastIndexByte authority "@" with
  | None => parseHost authority
  | Some i =>
      host ← parseHost (str_drop (S i) authority);
      let userinfo := str_take i authority in
      if negb (validUserinfo userinfo) then None
      else if negb (Contains userinfo ":") then
        _ ← unescape userinfo encodeUserPassword; Some host
      else
        let '(username, password) := split userinfo ":" true in
        _ ← unescape username encodeUserPassword;
        _ ← unescape password encodeUserPassword;
        Some host
  end.

Definition empty_url : URL :=
  {| Scheme := EmptyString; Opaque := EmptyString; Host := EmptyString;
     UPath := EmptyString; RawQuery := EmptyString |}.

(** The query part and what is before it. *)
Definition cut_query (rest : string) : string * string :=
  if HasSuffixByte rest "?" && (CountByte rest "?" =? 1)%nat
  then (str_take (String.length rest - 1) rest, EmptyString)
  else split rest "?" true.

(** A relative reference whose first segment has a colon is refused. *)
Definition colon_in_first_segment (rest : string) : bool :=
  match IndexByte rest ":", IndexByte rest "/" with
  | Some colon, Some slash => (colon <? slash)%nat
  | Some _, None => true
  | None, _ => false
  end.

(** [parse(rawurl, false)] *)
Definition parse_nofrag (rawurl : string) : option URL :=
  if String.eqb rawurl "*" then
    Some {| Scheme := EmptyString; Opaque := EmptyString; Host := EmptyString;
            UPath := "*"; RawQuery := EmptyString |}
  else
    '(scheme, rest) ← getscheme rawurl;
    let scheme := ToLower scheme in
    let '(rest, query) := cut_query rest in
    if negb (HasPrefix rest "/") && negb (String.eqb scheme EmptyString) then
      Some {| Scheme := scheme; Opaque := rest; Host := EmptyString;
              UPath := EmptyString; RawQuery := query |}
    else if negb (HasPrefix rest "/") && colon_in_first_segment rest then None
    else
      '(host, rest) ←
        (if (negb (String.eqb scheme EmptyString) || negb (HasPrefix rest "///")) && HasPrefix rest "//"
         then let '(authority, rest) := split (str_drop 2 rest) "/" false in
              host ← parseAuthority authority; Some (host, rest)
         else Some (EmptyString, rest));
      path ← unescape rest encodePath;
      Some {| Scheme := scheme; Opaque := EmptyString; Host := host; UPath := path; RawQuery := query |}.

(** [url.Parse] *)
Definition url_Parse (rawurl : string) : option URL :=
  let '(u, frag) := split rawurl "#" true in
  url ← parse_nofrag u;
  if String.eqb frag EmptyString then Some url
  else _ ← unescape frag encodeFragment; Some url.

(** [URL.Hostname], through [stripPort] *)
Definition Hostname (u : URL) : string :=
  match IndexByte (Host u) ":" with
  | None => Host u
  | Some colon =>
      match IndexByte (Host u) "]" with
      | Some i => let h := str_take i (Host u) in
                  if HasPrefix h "[" then str_drop 1 h else h
      | None => str_take colon (Host u)
      end
  end.

(** [URL.Port], through [portOnly] *)
Definition Port (u : URL) : string :=
  match IndexByte (Host u) ":" with
  | None => EmptyString
  | Some colon =>
      match Index (Host u) "]:" with
      | Some i => str_drop (i + 2) (Host u)
      | None => if Contains (Host u) "]" then EmptyString else str_drop (S colon) (Host u)
      end
  end.

(** ** Facts *)

(** What a parsed host is made of: no control character in particular. *)
Definition host_byte (c : ascii) : bool := (32 <=? byte_of c)%Z.

Lemma host_safe_byte c : host_safe c = true -> host_byte c = true.
Proof. by destruct c as [[] [] [] [] [] [] [] []]. Qed.

Lemma str_forall_take p n s : str_forall p s = true -> str_forall p (str_take n s) = true.
Proof.
  revert s; induction n as [|n IH]; intros [|c s]; cbn; try done.
  intros [-> Hs]%andb_true_iff. by apply IH.
Qed.

Lemma str_forall_drop p n s : str_forall p s = true -> str_forall p (str_drop n s) = true.
Proof.
  revert s; induction n as [|n IH]; intros [|c s]; cbn; try done.
  intros [_ Hs]%andb_true_iff. by apply IH.
Qed.

Lemma unhex_range c : ishex c = true -> (0 <= unhex c < 16)%Z.
Proof. unfold ishex, is_digit, unhex, in_range. intros. repeat case_scrutinee; boolify; lia. Qed.

Lemma host_escape_byte h1 h2 mode :
  is_host_mode mode = true -> ishex h1 = true -> ishex h2 = true ->
  bool_decide (mode = encodeHost) && (unhex h1 <? 8)%Z
    && negb (Ascii.eqb h1 "2" && Ascii.eqb h2 "5") = false ->
  bool_decide (mode = encodeZone) && negb (Ascii.eqb h1 "2" && Ascii.eqb h2 "5")
    && negb (unhex h1 * 16 + unhex h2 =? 32)%Z
    && negb (host_safe (chr (unhex h1 * 16 + unhex h2))) = false ->
  host_byte (chr (unhex h1 * 16 + unhex h2)) = true.
Proof.
  intros Hm H1 H2 Hh Hz. pose proof (unhex_range h1 H1). pose proof (unhex_range h2 H2).
  destruct (Ascii.eqb h1 "2" && Ascii.eqb h2 "5") eqn:E.
  { apply andb_true_iff in E as [->%Ascii.eqb_eq ->%Ascii.eqb_eq]. done. }
  destruct mode; try done.
  - change (bool_decide (encodeHost = encodeHost)) with true in Hh. cbn [andb negb] in Hh.
    rewrite andb_true_r in Hh. boolify. unfold host_byte. rewrite byte_of_chr by lia. apply Z.leb_le. lia.
  - change (bool_decide (encodeZone = encodeZone)) with true in Hz. cbn [andb negb] in Hz.
    destruct (unhex h1 * 16 + unhex h2 =? 32)%Z eqn:E2.
    + boolify. by rewrite E2.
    + cbn [andb negb] in Hz. apply negb_false_iff in Hz. by apply host_safe_byte.
Qed.

Lemma unescape_host_byte s mode t :
  is_host_mode mode = true -> unescape s mode = Some t -> str_forall host_byte t = true.
Proof.
  intros Hm. revert t. induction s as [s IH] using (induction_ltof1 _ String.length).
  unfold ltof in IH. destruct s as [|c s]; intros t; cbn [unescape]; [by intros [= <-]|].
  destruct (Ascii.eqb c chr_percent).
  - destruct s as [|h1 [|h2 s]]; try done. cbn zeta.
    destruct (negb (ishex h1 && ishex h2)) eqn:Ex; [done|].
    apply negb_false_iff, andb_true_iff in Ex as [E1 E2].
    destruct (bool_decide (mode = encodeHost) && _ && _) eqn:Eh; [done|].
    destruct (bool_decide (mode = encodeZone) && _ && _ && _) eqn:Ez; [done|].
    intros (u & Hu & ->)%fmap_Some. cbn [str_forall].
    rewrite (IH s ltac:(cbn; lia) u Hu), andb_true_r. by apply (host_escape_byte h1 h2 mode).
  - destruct (is_host_mode mode && _ && _) eqn:Es; [done|].
    intros (u & Hu & ->)%fmap_Some. cbn [str_forall].
    rewrite (IH s ltac:(cbn; lia) u Hu), andb_true_r. rewrite Hm in Es. cbn [andb] in Es.
    destruct (byte_of c <? 0x80)%Z eqn:Eb; cbn [andb] in Es.
    + apply negb_false_iff in Es. by apply host_safe_byte.
    + unfold host_byte. boolify. apply Z.leb_le. lia.
Qed.

Lemma parseHost_bytes h t : parseHost h = Some t -> str_forall host_byte t = true.
Proof.
  unfold parseHost. intros H. destruct (HasPrefix h "["); [|by eapply unescape_host_byte in H].
  destruct (LastIndexByte h "]") as [i|]; [|done].
  destruct (negb (validOptionalPort _)); [done|].
  destruct (Index _ _) as [zone|]; [|by eapply unescape_host_byte in H].
  apply bind_Some in H as (h1 & H1 & (h2 & H2 & (h3 & H3 & [= <-])%bind_Some)%bind_Some).
  rewrite !str_forall_app.
  apply unescape_host_byte in H1 as ->; [|done]. apply unescape_host_byte in H2 as ->; [|done].
  by apply unescape_host_byte in H3 as ->.
Qed.

Lemma parseAuthority_bytes a t : parseAuthority a = Some t -> str_forall host_byte t = true.
Proof.
  unfold parseAuthority. destruct (LastIndexByte a "@") as [i|]; [|apply parseHost_bytes].
  intros (host & Hh & H)%bind_Some. assert (host = t) as <-; [|by eapply parseHost_bytes].
  destruct (negb (validUserinfo _)); [done|]. destruct (negb (Contains _ _)).
  - by apply bind_Some in H as (? & _ & [= <-]).
  - destruct (split _ _ _) as [us pw]. by apply bind_Some in H as (? & _ & (? & _ & [= <-])%bind_Some).
Qed.

(** The host of a parsed URL holds no control character. *)
Lemma url_Parse_host s u : url_Parse s = Some u -> str_forall host_byte (Host u) = true.
Proof.
  unfold url_Parse. destruct (split s "#" true) as [v frag]. intros (w & Hw & H)%bind_Some.
  assert (w = u) as <-.
  { destruct (String.eqb frag EmptyString); [by simplify_eq|].
    by apply bind_Some in H as (? & _ & [= <-]). }
  clear H. unfold parse_nofrag in Hw. destruct (String.eqb v "*"); [by simplify_eq|].
  apply bind_Some in Hw as ([scheme rest] & _ & Hw). destruct (cut_query rest) as [rest' query].
  destruct (negb _ && negb _); [by simplify_eq|]. destruct (negb _ && _); [done|].
  apply bind_Some in Hw as ([host rest2] & Hauth & (path & _ & [= <-])%bind_Some). cbn [Host].
  destruct (_ && HasPrefix rest' "//"); [|by simplify_eq].
  destruct (split _ _ _) as [authority rest3].
  apply bind_Some in Hauth as (h & Ha & [= <- <-]). by eapply parseAuthority_bytes.
Qed.

Lemma Hostname_bytes u : str_forall host_byte (Host u) = true -> str_forall host_byte (Hostname u) = true.
Proof.
  intros H. unfold Hostname. repeat case_match; auto using str_forall_take, str_forall_drop.
Qed.

Lemma Port_bytes u : str_forall host_byte (Host u) = true -> str_forall host_byte (Port u) = true.
Proof. intros H. unfold Port. repeat case_match; auto using str_forall_drop. Qed.
