(* ===== verification/GoPath.v ===== *)
(** * Slash-separated paths (package [path])

    [path.Clean] and [path.Join], which client-go builds the paths of its
    requests with.  A path is cut into segments at its slashes; [clean_segs]
    is the stack of segments [Clean] keeps. *)

From stdpp Require Import base strings list.
From Stdlib Require Import Ascii Lia.
From S2P Require Import Prelude GoStd.

(** ** Segments *)

Fixpoint split_at (sep : ascii) (s : string) : list string :=
  match s with
  | EmptyString => [EmptyString]
  | String c s' =>
      if Ascii.eqb c sep then EmptyString :: split_at sep s'
      else match split_at sep s' with
           | seg :: segs => String c seg :: segs
           | [] => [String c EmptyString]
           end
  end.

Definition segments (s : string) : list string := split_at "/" s.

(** One segment of the path, against the segments kept so far (last first). *)
Definition clean_seg (rooted : bool) (kept : list string) (seg : string) : list string :=
  if String.eqb seg EmptyString || String.eqb seg "." then kept
  else if String.eqb seg ".." then
    match kept with
    | k :: kept' => if String.eqb k ".." then seg :: kept else kept'
    | [] => if rooted then [] else [seg]
    end
  else seg :: kept.

Definition clean_segs (rooted : bool) (segs : list string) : list string :=
  rev (foldl (clean_seg rooted) [] segs).

Definition path_Clean (p : string) : string :=
  if String.eqb p EmptyString then "."
  else
    let rooted := HasPrefix p "/" in
    let body := strings_Join (clean_segs rooted (segments p)) "/" in
    if rooted then String "/" body
    else if String.eqb body EmptyString then "." else body.

Fixpoint drop_empty (elems : list string) : list string :=
  match elems with
  | e :: elems' => if String.eqb e EmptyString then drop_empty elems' else elems
  | [] => []
  end.

Definition path_Join (elems : list string) : string :=
  match drop_empty elems with
  | [] => EmptyString
  | elems => path_Clean (strings_Join elems "/")
  end.

Example join_plain : path_Join ["/apis/g/v1"; "namespaces"; "ns"] = "/apis/g/v1/namespaces/ns".
Proof. reflexivity. Qed.
Example join_empty_elements : path_Join ["/a"; "b"; EmptyString; EmptyString] = "/a/b".
Proof. reflexivity. Qed.
Example join_dots : path_Join ["/a/b"; ".."; "../../c/."] = "/c".
Proof. reflexivity. Qed.
Example join_relative : path_Join [EmptyString; "status"; "../../x"] = "../x".
Proof. reflexivity. Qed.

(** ** Joining plain segments *)

(** A segment that [Clean] keeps as it is. *)
Definition plain (s : string) : bool :=
  str_forall (not_char "/") s && negb (String.eqb s EmptyString)
  && negb (String.eqb s ".") && negb (String.eqb s "..").

Lemma plain_free s : plain s = true -> str_forall (not_char "/") s = true.
Proof. unfold plain. intros; boolify. done. Qed.

Lemma plain_free_all l :
  Forall (fun s => plain s = true) l -> Forall (fun s => str_forall (not_char "/") s = true) l.
Proof. intros Hl. eapply Forall_impl; [exact Hl|]. cbn. intros s. apply plain_free. Qed.

Lemma split_at_free sep s : str_forall (not_char sep) s = true -> split_at sep s = [s].
Proof.
  induction s as [|c s IH]; cbn; [done|]. intros [Hc Hs]%andb_true_iff.
  unfold not_char in Hc. apply negb_true_iff in Hc. by rewrite Hc, IH.
Qed.

Lemma split_at_nonempty sep s : exists seg segs, split_at sep s = seg :: segs.
Proof.
  induction s as [|c s (seg & segs & IH)]; cbn; [by eexists _, _|].
  destruct (Ascii.eqb c sep); [by eexists _, _|]. rewrite IH. by eexists _, _.
Qed.

Lemma split_at_app sep a b :
  str_forall (not_char sep) a = true -> split_at sep (a +:+ String sep b) = a :: split_at sep b.
Proof.
  induction a as [|c a IH]; cbn; [by rewrite Ascii.eqb_refl|]. intros [Hc Hs]%andb_true_iff.
  unfold not_char in Hc. apply negb_true_iff in Hc. by rewrite Hc, IH.
Qed.

Lemma strings_Join_cons s l sep : l <> [] -> strings_Join (s :: l) sep = s +:+ (sep +:+ strings_Join l sep).
Proof. by destruct l. Qed.

Lemma segments_Join l :
  Forall (fun s => str_forall (not_char "/") s = true) l -> l <> [] -> segments (strings_Join l "/") = l.
Proof.
  intros Hl Hne. unfold segments. induction Hl as [|s l Hs Hl IH]; [done|].
  destruct l as [|s' l]; [by apply split_at_free|].
  rewrite strings_Join_cons by done. cbn [String.append]. rewrite split_at_app by done. by rewrite IH.
Qed.

Lemma clean_plain rooted kept l :
  Forall (fun s => plain s = true) l -> foldl (clean_seg rooted) kept l = rev l ++ kept.
Proof.
  intros Hl. revert kept. induction Hl as [|s l Hs _ IH]; intros kept; [done|]. cbn [foldl rev].
  rewrite IH, <- app_assoc. f_equal. unfold clean_seg. unfold plain in Hs. boolify.
  match goal with H : String.eqb s EmptyString = false |- _ => rewrite H end.
  match goal with H : String.eqb s "." = false |- _ => rewrite H end.
  match goal with H : String.eqb s ".." = false |- _ => rewrite H end. done.
Qed.

Lemma HasPrefix_empty s : HasPrefix s EmptyString = true.
Proof. by destruct s. Qed.

(** The segment before the first slash of an absolute path is empty. *)
Lemma clean_segs_root l : clean_segs true (EmptyString :: l) = clean_segs true l.
Proof. done. Qed.

(** An absolute path of plain segments. *)
Definition abs_path (l : list string) : string := String "/" (strings_Join l "/").

Lemma path_Clean_abs l : Forall (fun s => plain s = true) l -> l <> [] -> path_Clean (abs_path l) = abs_path l.
Proof.
  intros Hl Hne. unfold path_Clean, abs_path. cbn [String.eqb]. cbn [HasPrefix]. rewrite Ascii.eqb_refl, HasPrefix_empty. cbn [andb].
  unfold segments. cbn [split_at]. rewrite Ascii.eqb_refl. fold (segments (strings_Join l "/")).
  rewrite segments_Join; [|by apply plain_free_all|done].
  rewrite clean_segs_root. unfold clean_segs. rewrite clean_plain by done. by rewrite app_nil_r, rev_involutive.
Qed.

Lemma strings_Join_app l l' :
  l <> [] -> l' <> [] -> strings_Join (l ++ l') "/" = strings_Join l "/" +:+ String "/" (strings_Join l' "/").
Proof.
  intros Hne Hne'. induction l as [|s l IH]; [done|]. destruct l as [|s' l].
  - cbn [app]. rewrite strings_Join_cons by done. done.
  - change ((s :: s' :: l) ++ l') with (s :: (s' :: l) ++ l'). rewrite strings_Join_cons by done.
    rewrite IH by done. rewrite (strings_Join_cons s (s' :: l)) by done. by rewrite !str_app_assoc.
Qed.

Lemma path_Join_abs l l' :
  Forall (fun s => plain s = true) l -> Forall (fun s => plain s = true) l' -> l <> [] -> l' <> [] ->
  path_Join (abs_path l :: l') = abs_path (l ++ l').
Proof.
  intros Hl Hl' Hne Hne'. unfold path_Join. cbn [drop_empty abs_path String.eqb].
  rewrite strings_Join_cons by done.
  assert (abs_path l +:+ ("/" +:+ strings_Join l' "/") = abs_path (l ++ l')) as ->.
  { unfold abs_path. rewrite strings_Join_app by done. done. }
  apply path_Clean_abs; [by apply Forall_app|]. by destruct l.
Qed.

(** Empty elements do not matter. *)
Lemma clean_segs_empty rooted kept l :
  foldl (clean_seg rooted) kept l = foldl (clean_seg rooted) kept (List.filter (fun s => negb (String.eqb s EmptyString)) l).
Proof.
  revert kept. induction l as [|s l IH]; intros kept; [done|]. cbn [foldl List.filter].
  destruct (String.eqb s EmptyString) eqn:E; cbn [negb foldl]; [|apply IH].
  unfold clean_seg at 2. rewrite E. apply IH.
Qed.

Lemma path_Join_skip l l' :
  Forall (fun s => plain s = true) l -> l <> [] ->
  Forall (fun s => plain s = true \/ s = EmptyString) l' ->
  path_Join (abs_path l :: l') = abs_path (l ++ List.filter (fun s => negb (String.eqb s EmptyString)) l').
Proof.
  intros Hl Hne Hl'. unfold path_Join. cbn [drop_empty abs_path String.eqb].
  destruct l' as [|s l']; [rewrite app_nil_r; by apply path_Clean_abs|]. set (r := s :: l') in *.
  assert (r <> []) as Hr by done. clearbody r. clear s l'. rewrite strings_Join_cons by done.
  assert (abs_path l +:+ ("/" +:+ strings_Join r "/") = abs_path (l ++ r)) as ->.
  { unfold abs_path. rewrite strings_Join_app by done. done. }
  unfold path_Clean, abs_path. cbn [String.eqb HasPrefix]. rewrite Ascii.eqb_refl, HasPrefix_empty. cbn [andb].
  unfold segments. cbn [split_at]. rewrite Ascii.eqb_refl. fold (segments (strings_Join (l ++ r) "/")).
  rewrite segments_Join; [|apply Forall_app; split|by destruct l].
  - rewrite clean_segs_root. unfold clean_segs. rewrite foldl_app, (clean_plain _ _ l) by done.
    rewrite clean_segs_empty, clean_plain.
    + by rewrite app_nil_r, rev_app_distr, !rev_involutive.
    + clear -Hl'. induction Hl' as [|s r [Hs | ->] _ IH]; cbn; [constructor| |exact IH].
      destruct (String.eqb s EmptyString); [exact IH|by constructor].
  - by apply plain_free_all.
  - eapply Forall_impl; [exact Hl'|]. cbn. intros s [Hs| ->]; [by apply plain_free|done].
Qed.

Definition filled (l : list string) : list string := List.filter (fun s => negb (String.eqb s EmptyString)) l.

Lemma filled_plain l : Forall (fun s => plain s = true \/ s = EmptyString) l -> Forall (fun s => plain s = true) (filled l).
Proof.
  unfold filled. induction 1 as [|s l [Hs | ->] _ IH]; cbn; [constructor| |exact IH].
  destruct (String.eqb s EmptyString); [exact IH|by constructor].
Qed.

Lemma slash_free_filled l :
  Forall (fun s => plain s = true \/ s = EmptyString) l -> Forall (fun s => str_forall (not_char "/") s = true) l.
Proof. intros Hl. eapply Forall_impl; [exact Hl|]. cbn. intros s [Hs| ->]; [by apply plain_free|done]. Qed.

Lemma plain_filled l : Forall (fun s => plain s = true) l -> filled l = l.
Proof.
  unfold filled. induction 1 as [|s l Hs _ IH]; cbn; [done|]. rewrite IH. unfold plain in Hs. boolify.
  by match goal with H : String.eqb s EmptyString = false |- _ => rewrite H end.
Qed.

(** A relative path of plain segments. *)
Lemma path_Join_relative l :
  Forall (fun s => plain s = true \/ s = EmptyString) l -> path_Join l = strings_Join (filled l) "/".
Proof.
  unfold path_Join. induction 1 as [|s l Hs Hl IH]; [done|]. cbn [drop_empty filled List.filter].
  destruct (String.eqb s EmptyString) eqn:E; cbn [negb]; [exact IH|]. destruct Hs as [Hs|]; [|by subst].
  clear IH. fold (filled l). unfold path_Clean. pose proof (plain_free _ Hs) as Hfree.
  assert (Forall (fun s => str_forall (not_char "/") s = true) (s :: l)) as Hall
    by (constructor; [done|by apply slash_free_filled]).
  destruct s as [|c s]; [done|].
  assert (exists t, strings_Join (String c s :: l) "/" = String c t) as [t Et] by (destruct l; by eexists).
  assert (exists t, strings_Join (String c s :: filled l) "/" = String c t) as [t' Et'] by (destruct (filled l); by eexists).
  assert (clean_segs false (segments (strings_Join (String c s :: l) "/")) = String c s :: filled l) as Eseg.
  { rewrite segments_Join by done. unfold clean_segs. rewrite clean_segs_empty. fold (filled (String c s :: l)).
    assert (filled (String c s :: l) = String c s :: filled l) as -> by done.
    rewrite clean_plain by (constructor; [done|by apply filled_plain]). by rewrite app_nil_r, rev_involutive. }
  assert (HasPrefix (strings_Join (String c s :: l) "/") "/" = false) as ->.
  { rewrite Et. cbn [HasPrefix]. cbn in Hfree. apply andb_prop in Hfree as [Hc _].
    unfold not_char in Hc. apply negb_true_iff in Hc. by rewrite Ascii.eqb_sym, Hc. }
  by rewrite Eseg, Et, Et'.
Qed.

(** A name and the joined subresources below an absolute path. *)
Lemma path_Join_under l name subs :
  Forall (fun s => plain s = true) l -> l <> [] -> plain name = true ->
  Forall (fun s => plain s = true \/ s = EmptyString) subs ->
  path_Join [abs_path l; name; path_Join subs; EmptyString] = abs_path (l ++ name :: filled subs).
Proof.
  intros Hl Hne Hname Hsubs. rewrite (path_Join_relative subs) by done. pose proof (filled_plain _ Hsubs) as Hf.
  assert (String.eqb name EmptyString = false) as En by (unfold plain in Hname; by boolify).
  destruct (filled subs) as [|s ss] eqn:E.
  { rewrite path_Join_skip; [|done..|by constructor; [left|repeat (constructor; [by right|])]].
    cbn [strings_Join List.filter]. by rewrite En. }
  assert (path_Join [abs_path l; name; strings_Join (s :: ss) "/"; EmptyString]
          = path_Join (abs_path l :: name :: (s :: ss) ++ [EmptyString])) as ->.
  { unfold path_Join. cbn [drop_empty abs_path String.eqb]. f_equal.
    rewrite !(strings_Join_cons (String "/" (strings_Join l "/"))) by done. do 2 f_equal.
    rewrite (strings_Join_cons name [_; _]), (strings_Join_cons name ((s :: ss) ++ _)) by done. do 2 f_equal.
    rewrite strings_Join_app by done. rewrite (strings_Join_cons (strings_Join _ _)) by done. done. }
  rewrite path_Join_skip; [|done..|].
  - f_equal. f_equal. cbn [List.filter]. fold (filled ((s :: ss) ++ [EmptyString])). unfold filled.
    rewrite List.filter_app. fold (filled (s :: ss)). rewrite plain_filled, En by done. cbn [List.filter String.eqb negb].
    by rewrite app_nil_r.
  - constructor; [by left|]. apply Forall_app. split; [|by constructor; [right|constructor]].
    eapply Forall_impl; [exact Hf|]. by left.
Qed.

(** Different lists of segments give different paths. *)
Lemma abs_path_inj l l' :
  Forall (fun s => plain s = true) l -> Forall (fun s => plain s = true) l' -> l <> [] -> l' <> [] ->
  abs_path l = abs_path l' -> l = l'.
Proof.
  intros Hl Hl' Hne Hne' [= E]. rewrite <- (segments_Join l), <- (segments_Join l'), E; auto using plain_free_all.
Qed.
