(* ===== verification/Types.v ===== *)
(** * The API types ([pkg/apis/sink/v1alpha1])

    The resource types of [types.go], the generated deep copies of
    [zz_generated.deepcopy.go] and [MetricSinkMap.DeepCopy], and
    [reflect.DeepEqual] on the types the controllers compare.

    A nil slice, map or pointer is [None]; values of type [interface{}] are
    [any].  The metadata types belong to k8s.io/apimachinery: [ObjectMeta] has
    the fields of the vendored struct, a time is an opaque integer, an
    initializer is its name, and the deep copies of that package are the class
    [MetaCopy]. *)

From S2P Require Import Prelude GoStd.
From stdpp Require Import base gmap strings list.
From Stdlib Require Import Ascii ZArith.

(** ** interface{} values

    The dynamic types that decoding JSON or building a literal can give; the
    float is its 64-bit pattern. *)

Inductive any : Type :=
| ANil
| AString (s : string)
| AInt (z : Z)
| AInt64 (z : Z)
| AFloat64 (bits : Z)
| ABool (b : bool)
| ASlice (l : list any)
| AMap (l : list (string * any)).

(** [==] on float64 bit patterns: no NaN equals anything, the zeros are equal. *)
Definition is_nan (bits : Z) : bool := (0x7FF0000000000000 <? Z.land bits 0x7FFFFFFFFFFFFFFF)%Z.

Definition float_eq (a b : Z) : bool :=
  negb (is_nan a) && negb (is_nan b)
  && ((a =? b)%Z || ((Z.land a 0x7FFFFFFFFFFFFFFF =? 0)%Z && (Z.land b 0x7FFFFFFFFFFFFFFF =? 0)%Z)).

Fixpoint assoc (k : string) (l : list (string * any)) : option any :=
  match l with
  | [] => None
  | (k', v) :: l' => if String.eqb k k' then Some v else assoc k l'
  end.

(** [reflect.DeepEqual] on dynamic values. *)
Fixpoint any_DeepEqual (x y : any) {struct x} : bool :=
  match x, y with
  | ANil, ANil => true
  | AString s, AString t => String.eqb s t
  | AInt a, AInt b => (a =? b)%Z
  | AInt64 a, AInt64 b => (a =? b)%Z
  | AFloat64 a, AFloat64 b => float_eq a b
  | ABool a, ABool b => Bool.eqb a b
  | ASlice l1, ASlice l2 =>
      (fix go (l1 l2 : list any) : bool :=
         match l1, l2 with
         | [], [] => true
         | a :: l1', b :: l2' => any_DeepEqual a b && go l1' l2'
         | _, _ => false
         end) l1 l2
  | AMap m1, AMap m2 =>
      (List.length m1 =? List.length m2)%nat
      && forallb (fun kv => match assoc (fst kv) m2 with
                            | Some v => any_DeepEqual (snd kv) v
                            | None => false
                            end) m1
  | _, _ => false
  end.

(** ** Metadata *)

Record TypeMeta : Type := MkTypeMeta { Kind : string; APIVersion : string }.

Record OwnerReference : Type := MkOwnerReference {
  or_APIVersion : string;
  or_Kind : string;
  or_Name : string;
  or_UID : string;
  or_Controller : option bool;
  or_BlockOwnerDeletion : option bool;
}.

Record ListMeta : Type := MkListMeta {
  lm_SelfLink : string;
  lm_ResourceVersion : string;
  lm_Continue : string;
}.

(** The result of a call that returns no object. *)
Record StatusCause : Type := MkStatusCause { sc_Type : string; sc_Message : string; sc_Field : string }.

Record StatusDetails : Type := MkStatusDetails {
  sd_Name : string;
  sd_Group : string;
  sd_Kind : string;
  sd_UID : string;
  sd_Causes : option (list StatusCause);
  sd_RetryAfterSeconds : Z;
}.

Record Status : Type := MkStatus {
  st_TypeMeta : TypeMeta;
  st_ListMeta : ListMeta;
  st_Status : string;
  st_Message : string;
  st_Reason : string;
  st_Details : option StatusDetails;
  st_Code : Z;
}.

(** What an object still waits for. *)
Record Initializers : Type := MkInitializers { Pending : option (list string); in_Result : option Status }.

Record ObjectMeta : Type := MkObjectMeta {
  Name : string;
  GenerateName : string;
  Namespace : string;
  SelfLink : string;
  UID : string;
  ResourceVersion : string;
  Generation : Z;
  CreationTimestamp : Z;
  DeletionTimestamp : option Z;
  DeletionGracePeriodSeconds : option Z;
  Labels : option (gmap string string);
  Annotations : option (gmap string string);
  OwnerReferences : option (list OwnerReference);
  meta_Initializers : option Initializers;
  Finalizers : option (list string);
  ClusterName : string;
}.

(** [metav1.ObjectMeta{}] *)
Definition ObjectMeta_zero : ObjectMeta :=
  {| Name := EmptyString; GenerateName := EmptyString; Namespace := EmptyString;
     SelfLink := EmptyString; UID := EmptyString; ResourceVersion := EmptyString;
     Generation := 0; CreationTimestamp := 0; DeletionTimestamp := None;
     DeletionGracePeriodSeconds := None; Labels := None; Annotations := None;
     OwnerReferences := None; meta_Initializers := None; Finalizers := None; ClusterName := EmptyString |}.

(** ** Resources *)

Record SyslogSpec : Type := MkSyslogSpec { Host : string; Port : Z; EnableTLS : bool }.

Record WebhookSpec : Type := MkWebhookSpec { URL : string }.

Record SinkSpec : Type := MkSinkSpec {
  SinkType : string;
  spec_syslog : SyslogSpec;
  spec_webhook : WebhookSpec;
  InsecureSkipVerify : bool;
}.

Record LogSink : Type := MkLogSink {
  ls_TypeMeta : TypeMeta; ls_ObjectMeta : ObjectMeta; ls_Spec : SinkSpec;
}.

Record ClusterLogSink : Type := MkClusterLogSink {
  cls_TypeMeta : TypeMeta; cls_ObjectMeta : ObjectMeta; cls_Spec : SinkSpec;
}.

Record SinkStatus : Type := MkSinkStatus {
  ss_State : string;
  LastSuccessfulSend : Z;
  LastError : option string;
  LastErrorTime : option Z;
}.

Definition SinkStateRunning : string := "Running".
Definition SinkStateFailing : string := "Failing".

(** [MetricSinkMap] is [map[string]interface{}]; [None] is the nil map. *)
Definition MetricSinkMap : Type := option (gmap string any).

Record MetricSinkSpec : Type := MkMetricSinkSpec {
  Inputs : option (list MetricSinkMap);
  Outputs : option (list MetricSinkMap);
}.

Record MetricSink : Type := MkMetricSink {
  ms_TypeMeta : TypeMeta; ms_ObjectMeta : ObjectMeta;
  ms_Spec : MetricSinkSpec; ms_Status : SinkStatus;
}.

Record ClusterMetricSink : Type := MkClusterMetricSink {
  cms_TypeMeta : TypeMeta; cms_ObjectMeta : ObjectMeta;
  cms_Spec : MetricSinkSpec; cms_Status : SinkStatus;
}.

Record ListOf (A : Type) : Type := MkListOf {
  lst_TypeMeta : TypeMeta; lst_ListMeta : ListMeta; Items : option (list A);
}.
Arguments MkListOf {A}.
Arguments lst_TypeMeta {A}.
Arguments lst_ListMeta {A}.
Arguments Items {A}.

Definition LogSinkList : Type := ListOf LogSink.
Definition ClusterLogSinkList : Type := ListOf ClusterLogSink.
Definition MetricSinkList : Type := ListOf MetricSink.
Definition ClusterMetricSinkList : Type := ListOf ClusterMetricSink.

#[global] Instance TypeMeta_eq_dec : EqDecision TypeMeta.
Proof. solve_decision. Defined.
#[global] Instance OwnerReference_eq_dec : EqDecision OwnerReference.
Proof. solve_decision. Defined.
#[global] Instance ListMeta_eq_dec : EqDecision ListMeta.
Proof. solve_decision. Defined.
#[global] Instance StatusCause_eq_dec : EqDecision StatusCause.
Proof. solve_decision. Defined.
#[global] Instance StatusDetails_eq_dec : EqDecision StatusDetails.
Proof. solve_decision. Defined.
#[global] Instance Status_eq_dec : EqDecision Status.
Proof. solve_decision. Defined.
#[global] Instance Initializers_eq_dec : EqDecision Initializers.
Proof. solve_decision. Defined.
#[global] Instance ObjectMeta_eq_dec : EqDecision ObjectMeta.
Proof. solve_decision. Defined.
#[global] Instance SyslogSpec_eq_dec : EqDecision SyslogSpec.
Proof. solve_decision. Defined.
#[global] Instance WebhookSpec_eq_dec : EqDecision WebhookSpec.
Proof. solve_decision. Defined.
#[global] Instance SinkSpec_eq_dec : EqDecision SinkSpec.
Proof. solve_decision. Defined.
#[global] Instance SinkStatus_eq_dec : EqDecision SinkStatus.
Proof. solve_decision. Defined.
#[global] Instance LogSink_eq_dec : EqDecision LogSink.
Proof. solve_decision. Defined.
#[global] Instance ClusterLogSink_eq_dec : EqDecision ClusterLogSink.
Proof. solve_decision. Defined.

(** An Event of the core group: its metadata and the fields the event controller
    reads. *)
Record CoreEvent : Type := MkCoreEvent {
  ev_ObjectMeta : ObjectMeta;
  ev_Message : string;
  ev_SourceHost : string;
  ev_InvolvedName : string;
  ev_InvolvedNamespace : string;
}.

#[global] Instance CoreEvent_eq_dec : EqDecision CoreEvent.
Proof. solve_decision. Defined.

(** The objects an informer hands to an event handler. [DeletedFinalState] is
    client-go's [cache.DeletedFinalStateUnknown], which stands for an object
    whose deletion event was missed; [OtherObject] is any other type. *)
Inductive obj : Type :=
| ALogSink (s : LogSink)
| AClusterLogSink (s : ClusterLogSink)
| AMetricSink (s : MetricSink)
| AClusterMetricSink (s : ClusterMetricSink)
| ALogSinkList (l : LogSinkList)
| AClusterLogSinkList (l : ClusterLogSinkList)
| AMetricSinkList (l : MetricSinkList)
| AClusterMetricSinkList (l : ClusterMetricSinkList)
| ACoreEvent (e : CoreEvent)
| DeletedFinalState (key : string) (o : obj)
| OtherObject.

(** ** reflect.DeepEqual on the types the controllers compare *)

Definition SinkSpec_DeepEqual (a b : SinkSpec) : bool := bool_decide (a = b).

Fixpoint list_DeepEqual {A} (eq : A -> A -> bool) (l1 l2 : list A) : bool :=
  match l1, l2 with
  | [], [] => true
  | a :: l1', b :: l2' => eq a b && list_DeepEqual eq l1' l2'
  | _, _ => false
  end.

Definition ptr_DeepEqual {A} (eq : A -> A -> bool) (a b : option A) : bool :=
  match a, b with
  | None, None => true
  | Some x, Some y => eq x y
  | _, _ => false
  end.

Definition anymap_DeepEqual (m1 m2 : gmap string any) : bool :=
  (size m1 =? size m2)%nat
  && forallb (fun kv => match m2 !! fst kv with
                        | Some v => any_DeepEqual (snd kv) v
                        | None => false
                        end) (map_to_list m1).

Definition MetricSinkMap_DeepEqual : MetricSinkMap -> MetricSinkMap -> bool := ptr_DeepEqual anymap_DeepEqual.

Definition MetricSinkSpec_DeepEqual (a b : MetricSinkSpec) : bool :=
  ptr_DeepEqual (list_DeepEqual MetricSinkMap_DeepEqual) (Inputs a) (Inputs b)
  && ptr_DeepEqual (list_DeepEqual MetricSinkMap_DeepEqual) (Outputs a) (Outputs b).

Definition ClusterMetricSink_DeepEqual (a b : ClusterMetricSink) : bool :=
  bool_decide (cms_TypeMeta a = cms_TypeMeta b) && bool_decide (cms_ObjectMeta a = cms_ObjectMeta b)
  && MetricSinkSpec_DeepEqual (cms_Spec a) (cms_Spec b) && bool_decide (cms_Status a = cms_Status b).

(** ** Deep copies *)

(** The deep copies of k8s.io/apimachinery copy their receiver. *)
Class MetaCopy := {
  ObjectMeta_DeepCopyInto : ObjectMeta -> ObjectMeta;
  MicroTime_DeepCopyInto : Z -> Z;
  ObjectMeta_copy : forall m, ObjectMeta_DeepCopyInto m = m;
  MicroTime_copy : forall t, MicroTime_DeepCopyInto t = t;
}.

Definition plain_copy : MetaCopy :=
  {| ObjectMeta_DeepCopyInto := id; MicroTime_DeepCopyInto := id;
     ObjectMeta_copy := fun m => eq_refl; MicroTime_copy := fun t => eq_refl |}.

(** The generated [DeepCopy]: nil for a nil receiver. *)
Definition DeepCopy {A} (DeepCopyInto : A -> A) (in_ : option A) : option A :=
  match in_ with
  | None => None
  | Some x => Some (DeepCopyInto x)
  end.

(** The generated [DeepCopyObject]: the same pointer as an interface. *)
Definition DeepCopyObject {A} (inject : A -> obj) (DeepCopyInto : A -> A) (in_ : option A) : option obj :=
  match DeepCopy DeepCopyInto in_ with
  | Some c => Some (inject c)
  | None => None
  end.

Section Copies.
Context `{MetaCopy} `{MapRange}.

Definition SyslogSpec_DeepCopyInto (in_ : SyslogSpec) : SyslogSpec := in_.
Definition WebhookSpec_DeepCopyInto (in_ : WebhookSpec) : WebhookSpec := in_.

Definition SinkSpec_DeepCopyInto (in_ : SinkSpec) : SinkSpec :=
  {| SinkType := SinkType in_; spec_syslog := spec_syslog in_; spec_webhook := spec_webhook in_;
     InsecureSkipVerify := InsecureSkipVerify in_ |}.

Definition SinkStatus_DeepCopyInto (in_ : SinkStatus) : SinkStatus :=
  {| ss_State := ss_State in_;
     LastSuccessfulSend := MicroTime_DeepCopyInto (LastSuccessfulSend in_);
     LastError := match LastError in_ with Some s => Some s | None => None end;
     LastErrorTime := DeepCopy MicroTime_DeepCopyInto (LastErrorTime in_) |}.

Definition LogSink_DeepCopyInto (in_ : LogSink) : LogSink :=
  {| ls_TypeMeta := ls_TypeMeta in_;
     ls_ObjectMeta := ObjectMeta_DeepCopyInto (ls_ObjectMeta in_);
     ls_Spec := ls_Spec in_ |}.

Definition ClusterLogSink_DeepCopyInto (in_ : ClusterLogSink) : ClusterLogSink :=
  {| cls_TypeMeta := cls_TypeMeta in_;
     cls_ObjectMeta := ObjectMeta_DeepCopyInto (cls_ObjectMeta in_);
     cls_Spec := cls_Spec in_ |}.

(** [MetricSinkMap.DeepCopy]: a fresh map with the string and int values. *)
Definition MetricSinkMap_DeepCopy (m : MetricSinkMap) : MetricSinkMap :=
  Some (map_loop (fun _ v => match v with
                             | AString s => Some (AString s)
                             | AInt z => Some (AInt z)
                             | _ => None
                             end) (range 0 (default ∅ m))).

Definition MetricSinkMap_DeepCopyInto (in_ : MetricSinkMap) : MetricSinkMap := MetricSinkMap_DeepCopy in_.

Definition copy_slice {A} (DeepCopyInto : A -> A) (in_ : option (list A)) : option (list A) :=
  match in_ with
  | Some l => Some (map DeepCopyInto l)
  | None => None
  end.

Definition MetricSinkSpec_DeepCopyInto (in_ : MetricSinkSpec) : MetricSinkSpec :=
  {| Inputs := copy_slice MetricSinkMap_DeepCopyInto (Inputs in_);
     Outputs := copy_slice MetricSinkMap_DeepCopyInto (Outputs in_) |}.

Definition MetricSink_DeepCopyInto (in_ : MetricSink) : MetricSink :=
  {| ms_TypeMeta := ms_TypeMeta in_;
     ms_ObjectMeta := ObjectMeta_DeepCopyInto (ms_ObjectMeta in_);
     ms_Spec := MetricSinkSpec_DeepCopyInto (ms_Spec in_);
     ms_Status := SinkStatus_DeepCopyInto (ms_Status in_) |}.

Definition ClusterMetricSink_DeepCopyInto (in_ : ClusterMetricSink) : ClusterMetricSink :=
  {| cms_TypeMeta := cms_TypeMeta in_;
     cms_ObjectMeta := ObjectMeta_DeepCopyInto (cms_ObjectMeta in_);
     cms_Spec := MetricSinkSpec_DeepCopyInto (cms_Spec in_);
     cms_Status := SinkStatus_DeepCopyInto (cms_Status in_) |}.

Definition List_DeepCopyInto {A} (DeepCopyInto : A -> A) (in_ : ListOf A) : ListOf A :=
  {| lst_TypeMeta := lst_TypeMeta in_; lst_ListMeta := lst_ListMeta in_;
     Items := copy_slice DeepCopyInto (Items in_) |}.

Definition LogSinkList_DeepCopyInto : LogSinkList -> LogSinkList := List_DeepCopyInto LogSink_DeepCopyInto.
Definition ClusterLogSinkList_DeepCopyInto : ClusterLogSinkList -> ClusterLogSinkList :=
  List_DeepCopyInto ClusterLogSink_DeepCopyInto.
Definition MetricSinkList_DeepCopyInto : MetricSinkList -> MetricSinkList :=
  List_DeepCopyInto MetricSink_DeepCopyInto.
Definition ClusterMetricSinkList_DeepCopyInto : ClusterMetricSinkList -> ClusterMetricSinkList :=
  List_DeepCopyInto ClusterMetricSink_DeepCopyInto.

Definition LogSink_DeepCopy : option LogSink -> option LogSink := DeepCopy LogSink_DeepCopyInto.
Definition ClusterLogSink_DeepCopy : option ClusterLogSink -> option ClusterLogSink :=
  DeepCopy ClusterLogSink_DeepCopyInto.
Definition MetricSink_DeepCopy : option MetricSink -> option MetricSink := DeepCopy MetricSink_DeepCopyInto.
Definition ClusterMetricSink_DeepCopy : option ClusterMetricSink -> option ClusterMetricSink :=
  DeepCopy ClusterMetricSink_DeepCopyInto.
Definition LogSinkList_DeepCopy : option LogSinkList -> option LogSinkList := DeepCopy LogSinkList_DeepCopyInto.
Definition ClusterLogSinkList_DeepCopy : option ClusterLogSinkList -> option ClusterLogSinkList :=
  DeepCopy ClusterLogSinkList_DeepCopyInto.
Definition MetricSinkList_DeepCopy : option MetricSinkList -> option MetricSinkList :=
  DeepCopy MetricSinkList_DeepCopyInto.
Definition ClusterMetricSinkList_DeepCopy : option ClusterMetricSinkList -> option ClusterMetricSinkList :=
  DeepCopy ClusterMetricSinkList_DeepCopyInto.
Definition MetricSinkSpec_DeepCopy : option MetricSinkSpec -> option MetricSinkSpec :=
  DeepCopy MetricSinkSpec_DeepCopyInto.
Definition SinkSpec_DeepCopy : option SinkSpec -> option SinkSpec := DeepCopy SinkSpec_DeepCopyInto.
Definition SinkStatus_DeepCopy : option SinkStatus -> option SinkStatus := DeepCopy SinkStatus_DeepCopyInto.
Definition SyslogSpec_DeepCopy : option SyslogSpec -> option SyslogSpec := DeepCopy SyslogSpec_DeepCopyInto.
Definition WebhookSpec_DeepCopy : option WebhookSpec -> option WebhookSpec := DeepCopy WebhookSpec_DeepCopyInto.

Definition LogSink_DeepCopyObject : option LogSink -> option obj := DeepCopyObject ALogSink LogSink_DeepCopyInto.
Definition ClusterLogSink_DeepCopyObject : option ClusterLogSink -> option obj :=
  DeepCopyObject AClusterLogSink ClusterLogSink_DeepCopyInto.
Definition MetricSink_DeepCopyObject : option MetricSink -> option obj :=
  DeepCopyObject AMetricSink MetricSink_DeepCopyInto.
Definition ClusterMetricSink_DeepCopyObject : option ClusterMetricSink -> option obj :=
  DeepCopyObject AClusterMetricSink ClusterMetricSink_DeepCopyInto.
Definition LogSinkList_DeepCopyObject : option LogSinkList -> option obj :=
  DeepCopyObject ALogSinkList LogSinkList_DeepCopyInto.
Definition ClusterLogSinkList_DeepCopyObject : option ClusterLogSinkList -> option obj :=
  DeepCopyObject AClusterLogSinkList ClusterLogSinkList_DeepCopyInto.
Definition MetricSinkList_DeepCopyObject : option MetricSinkList -> option obj :=
  DeepCopyObject AMetricSinkList MetricSinkList_DeepCopyInto.
Definition ClusterMetricSinkList_DeepCopyObject : option ClusterMetricSinkList -> option obj :=
  DeepCopyObject AClusterMetricSinkList ClusterMetricSinkList_DeepCopyInto.

(** ** What the copies preserve *)

(** The dynamic types [MetricSinkMap.DeepCopy] copies. *)
Definition copied (v : any) : bool :=
  match v with AString _ | AInt _ => true | _ => false end.

(** The map a copy keeps of [m]. *)
Definition kept (m : gmap string any) : gmap string any := filter (fun kv => copied kv.2) m.

(** A map the copy does not change. *)
Definition copyable (m : MetricSinkMap) : Prop :=
  match m with Some m' => map_Forall (fun _ v => copied v) m' | None => False end.

Definition spec_maps (s : MetricSinkSpec) : list MetricSinkMap := default [] (Inputs s) ++ default [] (Outputs s).

Lemma MetricSinkMap_copy_kept m : MetricSinkMap_DeepCopy m = Some (kept (default ∅ m)).
Proof.
  unfold MetricSinkMap_DeepCopy, kept. f_equal. apply map_eq. intros k.
  rewrite map_loop_range, map_lookup_filter.
  destruct (default ∅ m !! k) as [v|]; [|done]. by destruct v.
Qed.

Lemma kept_idem m : kept (kept m) = kept m.
Proof.
  unfold kept. apply map_filter_id. intros k v. by rewrite map_lookup_filter_Some; intros [_ H1].
Qed.

Lemma kept_id m : map_Forall (fun _ v => copied v) m <-> kept m = m.
Proof.
  split; intros Hm; [by apply map_filter_id|].
  intros k v Hk. rewrite <- Hm in Hk. by apply map_lookup_filter_Some in Hk as [_ ?].
Qed.

Lemma MetricSinkMap_copy_id m : copyable m <-> MetricSinkMap_DeepCopy m = m.
Proof.
  rewrite MetricSinkMap_copy_kept. destruct m as [m|]; cbn; [|done].
  rewrite kept_id. split; [by intros ->|by intros [= ->]].
Qed.

Lemma copy_slice_id {A} (f : A -> A) (l : option (list A)) :
  (forall x, x ∈ default [] l -> f x = x) -> copy_slice f l = l.
Proof.
  destruct l as [l|]; cbn; [|done]. intros Hf. f_equal.
  induction l as [|x l IH]; cbn; [done|].
  rewrite Hf by by left. f_equal. apply IH. intros y Hy. apply Hf. by right.
Qed.

Lemma copy_slice_id_inv {A} (f : A -> A) (l : option (list A)) x :
  copy_slice f l = l -> x ∈ default [] l -> f x = x.
Proof.
  destruct l as [l|]; cbn; [|by inversion 2]. intros [= Hl]. revert Hl.
  induction l as [|y l IH]; cbn; [by inversion 2|]. intros [= Hy Hl].
  intros [->|Hx]%elem_of_cons; auto.
Qed.

Lemma copy_slice_twice {A} (f : A -> A) l : (forall x, f (f x) = f x) -> copy_slice f (copy_slice f l) = copy_slice f l.
Proof.
  intros Hf. apply copy_slice_id. intros x. destruct l as [l|]; cbn; [|by inversion 1].
  rewrite list_elem_of_fmap. by intros (y & -> & _).
Qed.

Lemma SinkStatus_copy_id s : SinkStatus_DeepCopyInto s = s.
Proof.
  destruct s as [st t [e|] [te|]]; unfold SinkStatus_DeepCopyInto; cbn; by rewrite ?MicroTime_copy.
Qed.

Lemma LogSink_copy_id s : LogSink_DeepCopyInto s = s.
Proof. destruct s. unfold LogSink_DeepCopyInto. cbn. by rewrite ObjectMeta_copy. Qed.

Lemma ClusterLogSink_copy_id s : ClusterLogSink_DeepCopyInto s = s.
Proof. destruct s. unfold ClusterLogSink_DeepCopyInto. cbn. by rewrite ObjectMeta_copy. Qed.

Lemma DeepCopy_id {A} (f : A -> A) o : (forall x, f x = x) -> DeepCopy f o = o.
Proof. intros Hf. destruct o; cbn; by rewrite ?Hf. Qed.

Lemma List_copy_id {A} (f : A -> A) l : (forall x, f x = x) -> List_DeepCopyInto f l = l.
Proof. intros Hf. destruct l. unfold List_DeepCopyInto. cbn. by rewrite copy_slice_id. Qed.

Lemma MetricSinkSpec_copy_id s : Forall copyable (spec_maps s) <-> MetricSinkSpec_DeepCopyInto s = s.
Proof.
  unfold spec_maps. rewrite Forall_app, !Forall_forall. unfold MetricSinkSpec_DeepCopyInto.
  split.
  - intros [Hi Ho]. destruct s as [i o]. cbn in *. f_equal; apply copy_slice_id; intros m Hm;
      apply MetricSinkMap_copy_id; auto.
  - destruct s as [i o]. cbn. intros [= Hi Ho].
    split; intros m Hm; apply MetricSinkMap_copy_id; [by apply (copy_slice_id_inv _ _ _ Hi)|by apply (copy_slice_id_inv _ _ _ Ho)].
Qed.

Lemma MetricSinkSpec_copy_twice s :
  MetricSinkSpec_DeepCopyInto (MetricSinkSpec_DeepCopyInto s) = MetricSinkSpec_DeepCopyInto s.
Proof.
  assert (forall m, MetricSinkMap_DeepCopyInto (MetricSinkMap_DeepCopyInto m) = MetricSinkMap_DeepCopyInto m) as Hm.
  { intros m. unfold MetricSinkMap_DeepCopyInto. rewrite !MetricSinkMap_copy_kept. cbn. by rewrite kept_idem. }
  destruct s as [i o]. unfold MetricSinkSpec_DeepCopyInto. cbn. by rewrite !copy_slice_twice.
Qed.

(** ** Properties *)

(** The deep copies of log sinks, of cluster log sinks and of lists of
    them are exact, whatever the receiver. *)
Lemma log_sink_copies_exact (a : option LogSink) (b : option ClusterLogSink)
    (la : option LogSinkList) (lb : option ClusterLogSinkList) :
  LogSink_DeepCopy a = a /\ ClusterLogSink_DeepCopy b = b
  /\ LogSinkList_DeepCopy la = la /\ ClusterLogSinkList_DeepCopy lb = lb
  /\ LogSink_DeepCopyObject a = ALogSink <$> a
  /\ ClusterLogSink_DeepCopyObject b = AClusterLogSink <$> b.
Proof.
  unfold LogSink_DeepCopyObject, ClusterLogSink_DeepCopyObject, DeepCopyObject.
  split_and!; try (apply DeepCopy_id; intros; first [apply LogSink_copy_id | apply ClusterLogSink_copy_id]).
  - apply DeepCopy_id. intros l. apply List_copy_id, LogSink_copy_id.
  - apply DeepCopy_id. intros l. apply List_copy_id, ClusterLogSink_copy_id.
  - rewrite (DeepCopy_id LogSink_DeepCopyInto) by apply LogSink_copy_id. by destruct a.
  - rewrite (DeepCopy_id ClusterLogSink_DeepCopyInto) by apply ClusterLogSink_copy_id. by destruct b.
Qed.

(** C24: The deep copy of a metric sink map holds exactly the entries of the
    map whose value is a string or an int; booleans, floats, 64-bit integers,
    lists and maps are lost, and the copy of a nil map is an empty map. *)
Theorem MetricSinkMap_DeepCopy_spec (m : MetricSinkMap) :
  exists c, MetricSinkMap_DeepCopy m = Some c
  /\ forall k v, c !! k = Some v <-> default ∅ m !! k = Some v /\ (exists s, v = AString s) \/
                                     default ∅ m !! k = Some v /\ (exists z, v = AInt z).
Proof.
  rewrite MetricSinkMap_copy_kept. eexists. split; [done|]. intros k v.
  unfold kept. rewrite map_lookup_filter_Some. cbn.
  destruct v; cbn; split; intros H'; decompose [and or ex] H'; try done; eauto.
Qed.

(** A metric sink, cluster-wide or not, is equal to its deep copy exactly
    when every input and output map is non-nil and holds only strings and
    ints; copying a copy changes nothing more. *)
Lemma MetricSink_DeepCopy_exact (s : MetricSink) (cs : ClusterMetricSink) :
  (MetricSink_DeepCopy (Some s) = Some s <-> Forall copyable (spec_maps (ms_Spec s)))
  /\ (ClusterMetricSink_DeepCopy (Some cs) = Some cs <-> Forall copyable (spec_maps (cms_Spec cs)))
  /\ MetricSink_DeepCopy (MetricSink_DeepCopy (Some s)) = MetricSink_DeepCopy (Some s)
  /\ ClusterMetricSink_DeepCopy (ClusterMetricSink_DeepCopy (Some cs)) = ClusterMetricSink_DeepCopy (Some cs).
Proof.
  rewrite !MetricSinkSpec_copy_id.
  destruct s as [t m sp st], cs as [t' m' sp' st'].
  unfold MetricSink_DeepCopy, ClusterMetricSink_DeepCopy, DeepCopy, MetricSink_DeepCopyInto, ClusterMetricSink_DeepCopyInto.
  cbn. rewrite !ObjectMeta_copy, !SinkStatus_copy_id, !MetricSinkSpec_copy_twice.
  split_and!; try done; split; try (by intros [= ->]); by intros ->.
Qed.

End Copies.

(** What is lost, on a map such as decoding a manifest gives. *)
Lemma MetricSinkMap_DeepCopy_loses :
  @MetricSinkMap_DeepCopy map_order
    (Some (<["type" := AString "cpu"]> (<["percpu" := ABool true]> {[ "interval" := AInt64 10 ]})))
  = Some {[ "type" := AString "cpu" ]}.
Proof. vm_compute. reflexivity. Qed.
