(* ===== verification/RingGrowing.v ===== *)
(** * The growing ring buffer (client-go's [util/buffer], vendored)

    The notifications that wait for an event handler are in a ring that grows
    when it is full.  An interface value that may be nil is an [option]; a run
    that panics has no result, [None].  The ring is a queue: whatever is
    written is read once and in order. *)

From stdpp Require Import base list.
From Stdlib Require Import Lia PeanoNat.
From S2P Require Import Prelude.

(** ** The operations ([ring_growing.go]) *)

Record RingGrowing (A : Type) : Type := MkRing {
  data : list (option A);
  n : nat;
  beg : nat;
  readable : nat;
}.
Arguments MkRing {A}.
Arguments data {A}.
Arguments n {A}.
Arguments beg {A}.
Arguments readable {A}.

(** The built-in [copy], with the elements it has copied. *)
Definition go_copy {X} (dst src : list X) : list X * nat :=
  let k := Nat.min (length dst) (length src) in (take k src ++ drop k dst, k).

Section Ring.
Context {A : Type}.

Definition NewRingGrowing (initialSize : nat) : RingGrowing A :=
  {| data := replicate initialSize None; n := initialSize; beg := 0; readable := 0 |}.

Definition ReadOne (r : RingGrowing A) : option (option A * bool * RingGrowing A) :=
  if readable r =? 0 then Some (None, false, r)
  else
    match data r !! beg r with
    | None => None
    | Some element =>
        Some (element, true,
              {| data := <[beg r := None]> (data r); n := n r;
                 beg := if beg r =? n r - 1 then 0 else S (beg r);
                 readable := readable r - 1 |})
    end.

(** The larger ring with the items of a full one in order. *)
Definition grow (r : RingGrowing A) : RingGrowing A :=
  let newN := n r * 2 in
  let newData := replicate newN None in
  let to := beg r + readable r in
  let newData :=
    if to <=? n r then fst (go_copy newData (take (to - beg r) (drop (beg r) (data r))))
    else
      let '(newData, copied) := go_copy newData (drop (beg r) (data r)) in
      take copied newData ++ fst (go_copy (drop copied newData) (take (to mod n r) (data r))) in
  {| data := newData; n := newN; beg := 0; readable := readable r |}.

Definition WriteOne (x : A) (r : RingGrowing A) : option (RingGrowing A) :=
  let r := if readable r =? n r then grow r else r in
  if n r =? 0 then None
  else
    let i := (readable r + beg r) mod n r in
    if i <? length (data r) then
      Some {| data := <[i := Some x]> (data r); n := n r; beg := beg r; readable := S (readable r) |}
    else None.

(** ** The queue a ring stands for *)

(** The array from [beg] on, and round to it again. *)
Definition rotation (r : RingGrowing A) : list (option A) := drop (beg r) (data r) ++ take (beg r) (data r).

Record ring_ok (r : RingGrowing A) (q : list A) : Prop := {
  ring_length : length (data r) = n r;
  ring_beg : beg r < n r;
  ring_readable : readable r = length q;
  ring_items : exists rest, rotation r = map Some q ++ rest;
}.

Lemma rotation_length (r : RingGrowing A) : length (rotation r) = length (data r).
Proof. unfold rotation. rewrite length_app, length_drop, length_take. lia. Qed.

Lemma ring_fits r q : ring_ok r q -> readable r <= n r.
Proof.
  intros [Hl Hb Hr [rest Hq]]. apply (f_equal length) in Hq.
  rewrite rotation_length, length_app, length_map in Hq. lia.
Qed.

Lemma new_ring_ok k : 0 < k -> ring_ok (NewRingGrowing k) [].
Proof.
  intros Hk. split; cbn; [by rewrite length_replicate|done|done|]. by eexists.
Qed.

(** The cell at distance [d] from [beg], for both pieces of the array. *)
Lemma rotation_insert (l : list (option A)) b d x :
  b < length l -> d < length l ->
  let l' := <[(d + b) mod length l := x]> l in
  drop b l' ++ take b l' = <[d := x]> (drop b l ++ take b l).
Proof.
  intros Hb Hd. cbn zeta. destruct (decide (d + b < length l)) as [Hlt|Hge].
  - rewrite Nat.mod_small by done. rewrite drop_insert_ge by lia.
    replace (d + b - b) with d by lia. rewrite take_insert_ge by lia.
    by rewrite insert_app_l by (rewrite length_drop; lia).
  - assert ((d + b) mod length l = d + b - length l) as ->.
    { replace (d + b) with (d + b - length l + 1 * length l) at 1 by lia.
      rewrite Nat.Div0.mod_add. apply Nat.mod_small. lia. }
    rewrite drop_insert_lt by lia. rewrite take_insert_lt by lia.
    rewrite insert_app_r_alt by (rewrite length_drop; lia).
    rewrite length_drop. do 2 f_equal. lia.
Qed.

Lemma grow_ok r q : ring_ok r q -> readable r = n r -> ring_ok (grow r) q.
Proof.
  intros [Hl Hb Hr [rest Hq]] Hfull.
  assert (rest = []) as ->.
  { apply length_zero_iff_nil. apply (f_equal length) in Hq.
    rewrite rotation_length, length_app, length_map in Hq. lia. }
  rewrite app_nil_r in Hq.
  assert (data (grow r) = rotation r ++ replicate (n r) None) as Hdata.
  { unfold grow, rotation. cbn [data]. destruct (Nat.leb_spec (beg r + readable r) (n r)) as [Hle|Hgt].
    - assert (beg r = 0) as -> by lia. unfold go_copy. cbn [fst]. rewrite drop_0, take_0, app_nil_r.
      rewrite length_replicate, length_take, Hl.
      replace (Nat.min (n r * 2) (Nat.min (0 + readable r - 0) (n r))) with (n r) by lia.
      rewrite take_take, drop_replicate.
      rewrite !take_ge by lia. do 2 f_equal. lia.
    - unfold go_copy. cbn [fst]. rewrite length_replicate, !length_drop, !length_app, !length_take,
        !length_drop, length_replicate, Hl.
      replace (Nat.min (n r * 2) (n r - beg r)) with (n r - beg r) by lia.
      assert ((beg r + readable r) mod n r = beg r) as ->.
      { rewrite Hfull. replace (beg r + n r) with (beg r + 1 * n r) by lia.
        rewrite Nat.Div0.mod_add. by apply Nat.mod_small. }
      rewrite (take_ge (drop _ _)) by (rewrite length_drop; lia).
      rewrite take_app_length' by (rewrite length_drop; lia).
      rewrite drop_app_length' by (rewrite length_drop; lia).
      rewrite drop_replicate.
      replace (Nat.min _ _) with (beg r) by lia.
      rewrite take_take, Nat.min_id, drop_replicate, app_assoc. do 2 f_equal. lia. }
  split.
  - rewrite Hdata, length_app, rotation_length, length_replicate. cbn. lia.
  - cbn. lia.
  - done.
  - unfold rotation at 1. rewrite Hdata. cbn [beg grow]. rewrite drop_0, take_0, app_nil_r, Hq. by eexists.
Qed.

(** Writing never panics and appends. *)
Lemma WriteOne_ok x r q : ring_ok r q -> exists r', WriteOne x r = Some r' /\ ring_ok r' (q ++ [x]).
Proof.
  intros Hok. unfold WriteOne.
  set (g := if readable r =? n r then grow r else r).
  assert (ring_ok g q /\ readable g < n g) as [Hg Hroom].
  { unfold g. destruct (Nat.eqb_spec (readable r) (n r)) as [E|E].
    - split; [by apply grow_ok|]. pose proof (ring_beg _ _ Hok). cbn. lia.
    - split; [done|]. pose proof (ring_fits _ _ Hok). lia. }
  clearbody g. pose proof Hg as [Hl Hb Hr [rest Hq]].
  destruct (Nat.eqb_spec (n g) 0) as [|_]; [lia|].
  assert ((readable g + beg g) mod n g < n g) as Hi by (apply Nat.mod_upper_bound; lia).
  destruct (Nat.ltb_spec ((readable g + beg g) mod n g) (length (data g))) as [_|]; [|lia].
  eexists. split; [done|]. split; cbn [data n beg readable].
  - by rewrite length_insert.
  - done.
  - rewrite length_app, Hr. cbn. lia.
  - destruct rest as [|y rest].
    { apply (f_equal length) in Hq. rewrite rotation_length, length_app, length_map in Hq. cbn in Hq. lia. }
    exists rest. unfold rotation at 1. cbn [data beg]. rewrite <- Hl at 1 2.
    rewrite rotation_insert by lia. unfold rotation in Hq. rewrite Hq, Hr.
    rewrite <- (length_map Some q), insert_app_r_alt, Nat.sub_diag by lia. cbn. by rewrite map_app, <- app_assoc.
Qed.

(** Reading never panics and takes the oldest item. *)
Lemma ReadOne_nil r : ring_ok r [] -> ReadOne r = Some (None, false, r).
Proof. intros [_ _ Hr _]. unfold ReadOne. by rewrite Hr. Qed.

Lemma ReadOne_cons x r q :
  ring_ok r (x :: q) -> exists r', ReadOne r = Some (Some x, true, r') /\ ring_ok r' q.
Proof.
  intros [Hl Hb Hr [rest Hq]]. unfold ReadOne. rewrite Hr. cbn [length Nat.eqb].
  assert (data r !! beg r = Some (Some x)) as Hx.
  { assert (rotation r !! 0 = Some (Some x)) as H0 by (by rewrite Hq).
    unfold rotation in H0. rewrite lookup_app_l in H0 by (rewrite length_drop; lia).
    rewrite lookup_drop in H0. by rewrite Nat.add_0_r in H0. }
  rewrite Hx. eexists. split; [done|]. split; cbn [data n beg readable].
  - by rewrite length_insert.
  - destruct (Nat.eqb_spec (beg r) (n r - 1)); lia.
  - lia.
  - exists (rest ++ [None]). unfold rotation in *. cbn [data beg].
    rewrite (drop_S _ _ _ Hx) in Hq. cbn in Hq. injection Hq as Hq.
    destruct (Nat.eqb_spec (beg r) (n r - 1)) as [E|E].
    + rewrite drop_0, take_0, app_nil_r.
      rewrite (drop_ge (data r)) in Hq by lia. cbn in Hq.
      rewrite app_assoc, <- Hq. rewrite insert_take_drop by lia. by rewrite (drop_ge (data r)) by lia.
    + rewrite drop_insert_lt by lia. rewrite app_assoc, <- Hq, <- app_assoc. f_equal.
      rewrite (take_S_r _ _ None) by (apply list_lookup_insert_eq; lia).
      by rewrite take_insert_ge by lia.
Qed.

End Ring.

(** ** Sequences of operations *)

Inductive ring_op (A : Type) : Type := RingWrite (x : A) | RingRead.
Arguments RingWrite {A}.
Arguments RingRead {A}.

Section Runs.
Context {A : Type}.

(** What the reads return: the element and whether there was one. *)
Fixpoint ring_run (ops : list (ring_op A)) (r : RingGrowing A) : option (list (option A * bool)) :=
  match ops with
  | [] => Some []
  | RingWrite x :: ops => match WriteOne x r with Some r => ring_run ops r | None => None end
  | RingRead :: ops =>
      match ReadOne r with
      | Some (element, ok, r) => option_map (cons (element, ok)) (ring_run ops r)
      | None => None
      end
  end.

Fixpoint queue_run (ops : list (ring_op A)) (q : list A) : list (option A * bool) :=
  match ops with
  | [] => []
  | RingWrite x :: ops => queue_run ops (q ++ [x])
  | RingRead :: ops =>
      match q with
      | [] => (None, false) :: queue_run ops []
      | x :: q => (Some x, true) :: queue_run ops q
      end
  end.

Lemma ring_run_queue ops (r : RingGrowing A) q : ring_ok r q -> ring_run ops r = Some (queue_run ops q).
Proof.
  revert r q. induction ops as [|[x|] ops IH]; intros r q Hok; cbn [ring_run queue_run]; [done| |].
  - destruct (WriteOne_ok x r q Hok) as (r' & -> & Hok'). by apply IH.
  - destruct q as [|x q].
    + rewrite (ReadOne_nil _ Hok). cbn [option_map]. by rewrite (IH _ _ Hok).
    + destruct (ReadOne_cons x r q Hok) as (r' & -> & Hok'). cbn [option_map]. by rewrite (IH _ _ Hok').
Qed.

End Runs.

(** ** Property *)

(** C38: The ring is a queue: from a ring of any positive size no sequence of
    writes and reads panics, and the reads give what a list gives that is
    written at its end and read at its front, and whether there was an element,
    however often the ring goes round and grows. *)
Theorem ring_is_queue {A} (ops : list (ring_op A)) size :
  0 < size -> ring_run ops (NewRingGrowing size) = Some (queue_run ops []).
Proof. intros Hs. by apply ring_run_queue, new_ring_ok. Qed.

(** A ring of two cells that goes round once and grows while it is turned. *)
Definition ring_sample : list (ring_op nat) :=
  [RingWrite 1; RingWrite 2; RingRead; RingWrite 3; RingWrite 4; RingRead; RingRead; RingRead; RingRead].

Lemma ring_is_queue_witness :
  ring_run ring_sample (NewRingGrowing 2) = Some [(Some 1, true); (Some 2, true); (Some 3, true); (Some 4, true); (None, false)].
Proof. exact (ring_is_queue ring_sample 2 ltac:(lia)). Defined.
