(* ===== verification/Cache.v ===== *)
(** * The cache of an informer (client-go's [tools/cache], vendored)

    The listers of [pkg/client/listers] read the store of an informer.  This
    file has the interface they use, the class [Indexer] with its laws, the
    two listing functions of [tools/cache/listers.go], and the store itself,
    [threadSafeMap] of [thread_safe_store.go] behind [cache] of [store.go],
    which meets the laws.  A run that panics has no result: [None]. *)

From stdpp Require Import base gmap strings list.
From Stdlib Require Import Ascii.
From S2P Require Import Prelude GoStd Types.

(** ** Metadata *)

Definition errNotObject : string := "object does not implement the Object interfaces".

(** [meta.Accessor].  An [OtherObject] is one without metadata. *)
Definition Accessor (o : obj) : res string ObjectMeta :=
  match o with
  | ALogSink s => Ok (ls_ObjectMeta s)
  | AClusterLogSink s => Ok (cls_ObjectMeta s)
  | AMetricSink s => Ok (ms_ObjectMeta s)
  | AClusterMetricSink s => Ok (cms_ObjectMeta s)
  | ACoreEvent e => Ok (ev_ObjectMeta e)
  | _ => Err errNotObject
  end.

Definition meta_key (m : ObjectMeta) : string :=
  if negb (String.eqb (Namespace m) EmptyString)
  then Namespace m +:+ String "/" (Name m) else Name m.

(** [DeletionHandlingMetaNamespaceKeyFunc], the key function of informers. *)
Definition KeyFunc (o : obj) : res string string :=
  match o with
  | DeletedFinalState key _ => Ok key
  | _ => match Accessor o with
         | Ok m => Ok (meta_key m)
         | Err e => Err ("object has no meta: " +:+ e)
         end
  end.

Definition NamespaceIndex : string := "namespace".
Definition NamespaceAll : string := EmptyString.

Definition MetaNamespaceIndexFunc (o : obj) : res string (list string) :=
  match Accessor o with
  | Ok m => Ok [Namespace m]
  | Err e => Err ("object has no meta: " +:+ e)
  end.

(** ** The interface of the listers *)

(** [labels.Set] of an object, and [labels.Selector] as its [Matches]. *)
Notation labels_Set := (gmap string string).
Definition Selector : Type := labels_Set -> bool.
Definition set_of (m : ObjectMeta) : labels_Set := default ∅ (Labels m).

Class Indexer (S : Type) := {
  Store_List : S -> list obj;
  (** [Index(name, &ObjectMeta{Namespace: ns})] *)
  Index : string -> string -> S -> res string (list obj);
  GetByKey : string -> S -> res string (option obj);
}.

Definition meta_ok (f : ObjectMeta -> bool) (o : obj) : bool :=
  match Accessor o with Ok m => f m | Err _ => false end.

Definition in_namespace (ns : string) : obj -> bool := meta_ok (fun m => String.eqb (Namespace m) ns).

Definition values (m : gmap string obj) : list obj := map snd (map_to_list m).

(** What an indexer promises about what it holds. *)
Class IndexerLaws (S : Type) `{Indexer S} := {
  store_ok : S -> Prop;
  contents : S -> gmap string obj;
  contents_keyed : forall s k o, store_ok s -> contents s !! k = Some o ->
    exists m, Accessor o = Ok m /\ k = meta_key m;
  list_contents : forall s, store_ok s -> Store_List s ≡ₚ values (contents s);
  index_contents : forall s ns l, store_ok s -> Index NamespaceIndex ns s = Ok l ->
    l ≡ₚ List.filter (in_namespace ns) (values (contents s));
  get_contents : forall s k, store_ok s -> GetByKey k s = Ok (contents s !! k);
}.

(** ** Listing ([tools/cache/listers.go]) *)

Section Listing.
Context {A : Type}.

(** The loop over the objects of the store; [appendFn] may panic. *)
Fixpoint append_matching (keep : ObjectMeta -> bool) (appendFn : obj -> A -> option A)
    (ms : list obj) (acc : A) : option (A * option string) :=
  match ms with
  | [] => Some (acc, None)
  | m :: ms =>
      match Accessor m with
      | Err e => Some (acc, Some e)
      | Ok metadata =>
          if keep metadata then
            match appendFn m acc with
            | Some acc => append_matching keep appendFn ms acc
            | None => None
            end
          else append_matching keep appendFn ms acc
      end
  end.

Context {S : Type} `{Indexer S}.

Definition ListAll (s : S) (selector : Selector) (appendFn : obj -> A -> option A) (acc : A)
    : option (A * option string) :=
  append_matching (fun metadata => selector (set_of metadata)) appendFn (Store_List s) acc.

(** Without the index the code logs a warning and searches the whole store. *)
Definition ListAllByNamespace (s : S) (namespace : string) (selector : Selector)
    (appendFn : obj -> A -> option A) (acc : A) : option (A * option string) :=
  if String.eqb namespace NamespaceAll then
    append_matching (fun metadata => selector (set_of metadata)) appendFn (Store_List s) acc
  else
    match Index NamespaceIndex namespace s with
    | Err _ =>
        append_matching (fun metadata => String.eqb (Namespace metadata) namespace && selector (set_of metadata))
                        appendFn (Store_List s) acc
    | Ok items =>
        append_matching (fun metadata => selector (set_of metadata)) appendFn items acc
    end.

End Listing.

(** ** The store ([tools/cache/thread_safe_store.go]) *)

(** The informers give their store the namespace index or none.  A set of
    strings is a map to [unit], as in package sets; every method takes the lock
    for its whole body. *)
Record threadSafeMap : Type := MkThreadSafeMap {
  items : gmap string obj;
  namespace_indexer : bool;
  index : gmap string (gmap string unit);
}.

Definition NewIndexer (namespace_indexer : bool) : threadSafeMap :=
  {| items := ∅; namespace_indexer := namespace_indexer; index := ∅ |}.

Definition with_index (ix : gmap string (gmap string unit)) (st : threadSafeMap) : threadSafeMap :=
  {| items := items st; namespace_indexer := namespace_indexer st; index := ix |}.

Definition deleteFromIndices (o : obj) (key : string) (st : threadSafeMap) : option threadSafeMap :=
  if namespace_indexer st then
    match MetaNamespaceIndexFunc o with
    | Err _ => None
    | Ok indexValues =>
        Some (with_index
          (foldl (fun ix v => match ix !! v with
                              | Some set => <[v := delete key set]> ix
                              | None => ix
                              end) (index st) indexValues) st)
    end
  else Some st.

Definition updateIndices (oldObj : option obj) (newObj : obj) (key : string) (st : threadSafeMap)
    : option threadSafeMap :=
  match match oldObj with Some o => deleteFromIndices o key st | None => Some st end with
  | None => None
  | Some st =>
      if namespace_indexer st then
        match MetaNamespaceIndexFunc newObj with
        | Err _ => None
        | Ok indexValues =>
            Some (with_index
              (foldl (fun ix v => <[v := <[key := tt]> (default ∅ (ix !! v))]> ix) (index st) indexValues) st)
        end
      else Some st
  end.

(** [Add] and [Update] have the same body. *)
Definition store_Update (key : string) (o : obj) (st : threadSafeMap) : option threadSafeMap :=
  let oldObject := items st !! key in
  updateIndices oldObject o key
    {| items := <[key := o]> (items st); namespace_indexer := namespace_indexer st; index := index st |}.

Definition store_Delete (key : string) (st : threadSafeMap) : option threadSafeMap :=
  match items st !! key with
  | None => Some st
  | Some o =>
      match deleteFromIndices o key st with
      | None => None
      | Some st => Some {| items := delete key (items st); namespace_indexer := namespace_indexer st;
                           index := index st |}
      end
  end.

Section Store.
Context `{R : MapRange}.

Definition store_Replace (its : gmap string obj) (st : threadSafeMap) : option threadSafeMap :=
  foldl (fun st '(key, item) => match st with Some st => updateIndices None item key st | None => None end)
    (Some {| items := its; namespace_indexer := namespace_indexer st; index := ∅ |}) (range 0 its).

(** ** The cache ([tools/cache/store.go])

    A key that cannot be made is an error, and nothing is stored. *)

Definition cache_Add (o : obj) (st : threadSafeMap) : option (threadSafeMap * option string) :=
  match KeyFunc o with
  | Err e => Some (st, Some e)
  | Ok key => option_map (fun st => (st, None)) (store_Update key o st)
  end.

(** The same body, with the store's [Update]. *)
Definition cache_Update (o : obj) (st : threadSafeMap) : option (threadSafeMap * option string) :=
  match KeyFunc o with
  | Err e => Some (st, Some e)
  | Ok key => option_map (fun st => (st, None)) (store_Update key o st)
  end.

Definition cache_Get (o : obj) (st : threadSafeMap) : res string (option obj) :=
  match KeyFunc o with
  | Err e => Err e
  | Ok key => Ok (items st !! key)
  end.

Definition cache_Delete (o : obj) (st : threadSafeMap) : option (threadSafeMap * option string) :=
  match KeyFunc o with
  | Err e => Some (st, Some e)
  | Ok key => option_map (fun st => (st, None)) (store_Delete key st)
  end.

Fixpoint keyed_items (l : list obj) (its : gmap string obj) : res string (gmap string obj) :=
  match l with
  | [] => Ok its
  | o :: l => match KeyFunc o with
              | Ok key => keyed_items l (<[key := o]> its)
              | Err e => Err e
              end
  end.

Definition cache_Replace (l : list obj) (st : threadSafeMap) : option (threadSafeMap * option string) :=
  match keyed_items l ∅ with
  | Err e => Some (st, Some e)
  | Ok its => option_map (fun st => (st, None)) (store_Replace its st)
  end.

Definition store_List (st : threadSafeMap) : list obj := map snd (range 1 (items st)).

(** A key that is not there gives a nil interface, which has no metadata. *)
Definition store_Index (indexName ns : string) (st : threadSafeMap) : res string (list obj) :=
  if String.eqb indexName NamespaceIndex && namespace_indexer st then
    let returnKeySet :=
      foldl (fun acc '(key, _) => <[key := tt]> acc) ∅ (range 2 (default ∅ (index st !! ns))) in
    Ok (map (fun '(key, _) => default OtherObject (items st !! key)) (range 3 returnKeySet))
  else Err (Sprintf "Index with name %s does not exist" [FStr indexName]).

#[export] Instance cache_indexer : Indexer threadSafeMap :=
  {| Store_List := store_List; Index := store_Index; GetByKey := fun key st => Ok (items st !! key) |}.

End Store.

(** ** The index follows the items *)

Definition item_ok (k : string) (o : obj) : Prop := exists m, Accessor o = Ok m /\ k = meta_key m.

(** [ix] has the key of an object under a namespace exactly when [its] does. *)
Definition indexed (ix : gmap string (gmap string unit)) (its : gmap string obj) : Prop :=
  forall ns k, is_Some (default ∅ (ix !! ns) !! k) <-> exists o, its !! k = Some o /\ in_namespace ns o = true.

Record cache_ok (st : threadSafeMap) : Prop := {
  co_items : forall k o, items st !! k = Some o -> item_ok k o;
  co_index : namespace_indexer st = true -> indexed (index st) (items st);
}.

Lemma in_namespace_eq o m ns : Accessor o = Ok m -> in_namespace ns o = true <-> ns = Namespace m.
Proof. intros E. unfold in_namespace, meta_ok. rewrite E, String.eqb_eq. naive_solver. Qed.

Lemma KeyFunc_ok o m : Accessor o = Ok m -> KeyFunc o = Ok (meta_key m).
Proof. intros E. unfold KeyFunc. rewrite E. by destruct o. Qed.

Lemma indexed_insert ix its k o m :
  indexed ix its -> its !! k = None -> Accessor o = Ok m ->
  indexed (<[Namespace m := <[k := tt]> (default ∅ (ix !! Namespace m))]> ix) (<[k := o]> its).
Proof.
  intros Hix Hk Ho ns j. destruct (decide (ns = Namespace m)) as [->|Hns].
  - rewrite lookup_insert_eq. cbn. destruct (decide (j = k)) as [->|Hj].
    + rewrite !lookup_insert_eq. split; [|by eexists]. intros _. exists o. split; [done|].
      by apply (in_namespace_eq o m).
    + rewrite !lookup_insert_ne by done. apply Hix.
  - rewrite lookup_insert_ne by done. rewrite (Hix ns j). destruct (decide (j = k)) as [->|Hj].
    + rewrite lookup_insert_eq, Hk. split; [by intros (? & ? & _)|]. intros (? & [= <-] & Hin).
      by apply (in_namespace_eq o m) in Hin.
    + by rewrite lookup_insert_ne by done.
Qed.

Lemma indexed_delete ix its k o m :
  indexed ix its -> its !! k = Some o -> Accessor o = Ok m ->
  indexed (match ix !! Namespace m with Some set => <[Namespace m := delete k set]> ix | None => ix end)
          (delete k its).
Proof.
  intros Hix Hk Ho ns j.
  assert (is_Some (default ∅ (ix !! Namespace m) !! k)) as Hin.
  { apply Hix. exists o. split; [done|]. by apply (in_namespace_eq o m). }
  destruct (ix !! Namespace m) as [set|] eqn:Es; cbn in Hin; [|by destruct Hin].
  destruct (decide (j = k)) as [->|Hj].
  - rewrite lookup_delete_eq. split; [|by intros (? & ? & _)].
    destruct (decide (ns = Namespace m)) as [->|Hns].
    + rewrite lookup_insert_eq. cbn. rewrite lookup_delete_eq. by intros [].
    + rewrite lookup_insert_ne by done. intros (o' & Ho' & Hns')%Hix. rewrite Hk in Ho'. injection Ho' as <-.
      by apply (in_namespace_eq o m) in Hns'.
  - rewrite lookup_delete_ne by done. rewrite <- (Hix ns j). destruct (decide (ns = Namespace m)) as [->|Hns].
    + rewrite lookup_insert_eq, Es. cbn. by rewrite lookup_delete_ne by done.
    + by rewrite lookup_insert_ne by done.
Qed.

Lemma deleteFromIndices_ok o k m st :
  Accessor o = Ok m -> items st !! k = Some o -> (namespace_indexer st = true -> indexed (index st) (items st)) ->
  exists ix, deleteFromIndices o k st = Some (with_index ix st)
    /\ (namespace_indexer st = true -> indexed ix (delete k (items st))).
Proof.
  intros Ho Hk Hix. unfold deleteFromIndices, MetaNamespaceIndexFunc. rewrite Ho.
  destruct (namespace_indexer st) eqn:E.
  - eexists. split; [reflexivity|]. intros _. cbn [foldl]. by eapply indexed_delete; [apply Hix| |].
  - exists (index st). split; [by destruct st|done].
Qed.

Lemma insertIndices_ok o k m st its :
  Accessor o = Ok m -> its !! k = None -> (namespace_indexer st = true -> indexed (index st) its) ->
  exists ix, updateIndices None o k st = Some (with_index ix st)
    /\ (namespace_indexer st = true -> indexed ix (<[k := o]> its)).
Proof.
  intros Ho Hk Hix. unfold updateIndices, MetaNamespaceIndexFunc. rewrite Ho.
  destruct (namespace_indexer st) eqn:E.
  - eexists. split; [reflexivity|]. intros _. cbn [foldl]. apply indexed_insert; auto.
  - exists (index st). split; [by destruct st|done].
Qed.

Lemma updateIndices_some old o k st st1 :
  deleteFromIndices old k st = Some st1 -> updateIndices (Some old) o k st = updateIndices None o k st1.
Proof. intros E. unfold updateIndices. by rewrite E. Qed.

Lemma new_cache_ok b : cache_ok (NewIndexer b).
Proof.
  split; cbn; [done|]. intros _ ns k. rewrite lookup_empty. cbn. rewrite !lookup_empty.
  split; [by intros []|by intros (? & ? & _)].
Qed.

Lemma store_Update_ok o m st :
  cache_ok st -> Accessor o = Ok m ->
  exists st', store_Update (meta_key m) o st = Some st' /\ cache_ok st'
    /\ items st' = <[meta_key m := o]> (items st) /\ namespace_indexer st' = namespace_indexer st.
Proof.
  intros [Hit Hix] Ho. unfold store_Update. set (k := meta_key m).
  assert (forall j x, <[k := o]> (items st) !! j = Some x -> item_ok j x) as Hit'.
  { intros j x [[<- <-]|[_ Hx]]%lookup_insert_Some; [by exists m|by apply Hit]. }
  destruct (items st !! k) as [old|] eqn:Ek.
  - destruct (Hit _ _ Ek) as (mo & Hmo & _).
    assert (exists ix, deleteFromIndices old k
                (MkThreadSafeMap (<[k := o]> (items st)) (namespace_indexer st) (index st)) =
              Some (MkThreadSafeMap (<[k := o]> (items st)) (namespace_indexer st) ix)
              /\ (namespace_indexer st = true -> indexed ix (delete k (items st)))) as (ix & E & Hd).
    { destruct (deleteFromIndices_ok old k mo st Hmo Ek Hix) as (ix & E & Hd). exists ix. split; [|done].
      revert E. unfold deleteFromIndices, with_index. cbn. destruct (namespace_indexer st).
      - destruct (MetaNamespaceIndexFunc old); [|done]. by intros [= ->].
      - by intros [= ->]. }
    rewrite (updateIndices_some _ _ _ _ _ E).
    destruct (insertIndices_ok o k m (MkThreadSafeMap (<[k := o]> (items st)) (namespace_indexer st) ix)
                (delete k (items st)) Ho (lookup_delete_eq _ _) Hd) as (ix' & -> & Hi).
    eexists. split_and!; [done| |done|done]. split; [done|]. cbn. intros E'.
    rewrite <- insert_delete_eq. auto.
  - destruct (insertIndices_ok o k m (MkThreadSafeMap (<[k := o]> (items st)) (namespace_indexer st) (index st))
                (items st) Ho Ek Hix) as (ix' & -> & Hi).
    eexists. split_and!; [done| |done|done]. split; [done|]. exact Hi.
Qed.

Lemma store_Delete_ok k st :
  cache_ok st ->
  exists st', store_Delete k st = Some st' /\ cache_ok st'
    /\ items st' = delete k (items st) /\ namespace_indexer st' = namespace_indexer st.
Proof.
  intros Hc. pose proof Hc as [Hit Hix]. unfold store_Delete. destruct (items st !! k) as [o|] eqn:Ek.
  - destruct (Hit _ _ Ek) as (m & Hm & _).
    destruct (deleteFromIndices_ok o k m st Hm Ek Hix) as (ix & -> & Hd).
    eexists. split_and!; [done| |done|done]. split; cbn; [|done].
    intros j x [_ Hx]%lookup_delete_Some. by apply Hit.
  - exists st. split_and!; [done|done| |done]. by rewrite delete_id.
Qed.

(** ** Sequences of operations *)

Inductive cache_op : Type :=
| PutObject (o : obj)
| DropObject (o : obj)
| ReplaceObjects (l : list obj).

(** Informers store API objects; a deletion may come as a tombstone. *)
Definition has_meta (o : obj) : Prop := is_Some (match Accessor o with Ok m => Some m | Err _ => None end).

Definition op_ok (op : cache_op) : Prop :=
  match op with
  | PutObject o => has_meta o
  | DropObject o => exists k, KeyFunc o = Ok k
  | ReplaceObjects l => Forall has_meta l
  end.

Definition key_of (o : obj) : string := match KeyFunc o with Ok k => k | Err _ => EmptyString end.

(** The map the cache stands for. *)
Definition spec_op (its : gmap string obj) (op : cache_op) : gmap string obj :=
  match op with
  | PutObject o => <[key_of o := o]> its
  | DropObject o => delete (key_of o) its
  | ReplaceObjects l => foldl (fun its o => <[key_of o := o]> its) ∅ l
  end.

Lemma has_meta_ok o : has_meta o <-> exists m, Accessor o = Ok m.
Proof. unfold has_meta. destruct (Accessor o); split; intros [? ?]; naive_solver. Qed.

Lemma key_of_meta o m : Accessor o = Ok m -> key_of o = meta_key m.
Proof. intros E. unfold key_of. by rewrite (KeyFunc_ok _ _ E). Qed.

Lemma keyed_items_spec l its :
  Forall has_meta l -> keyed_items l its = Ok (foldl (fun (its : gmap string obj) o => <[key_of o := o]> its) its l).
Proof.
  intros Hl. revert its. induction Hl as [|o l (m & Hm)%has_meta_ok _ IH]; intros its; [done|].
  cbn. rewrite (KeyFunc_ok _ _ Hm), IH. by rewrite (key_of_meta _ _ Hm).
Qed.

Lemma spec_items_ok l (its : gmap string obj) :
  Forall has_meta l -> (forall k o, its !! k = Some o -> item_ok k o) ->
  forall k o, foldl (fun (its : gmap string obj) o => <[key_of o := o]> its) its l !! k = Some o -> item_ok k o.
Proof.
  intros Hl. revert its. induction Hl as [|x l (m & Hm)%has_meta_ok _ IH]; intros its Hits; [done|].
  cbn. apply IH. intros k o [[<- <-]|[_ Ho]]%lookup_insert_Some; [|by apply Hits].
  exists m. by rewrite (key_of_meta _ _ Hm).
Qed.

Section Runs.
Context `{R : MapRange}.

Definition cache_apply (st : threadSafeMap) (op : cache_op) : option threadSafeMap :=
  option_map fst match op with
                 | PutObject o => cache_Add o st
                 | DropObject o => cache_Delete o st
                 | ReplaceObjects l => cache_Replace l st
                 end.

Fixpoint cache_run (ops : list cache_op) (st : threadSafeMap) : option threadSafeMap :=
  match ops with
  | [] => Some st
  | op :: ops => match cache_apply st op with Some st => cache_run ops st | None => None end
  end.

Lemma rebuild_ok l d st :
  Forall (fun '(k, o) => item_ok k o) l -> NoDup l.*1 -> (forall k, k ∈ l.*1 -> d !! k = None) ->
  (namespace_indexer st = true -> indexed (index st) d) ->
  exists ix, foldl (fun st '(key, item) =>
                match st with Some st => updateIndices None item key st | None => None end) (Some st) l
             = Some (with_index ix st)
    /\ (namespace_indexer st = true -> indexed ix (foldl (fun d '(k, o) => <[k := o]> d) d l)).
Proof.
  revert d st. induction l as [|[k o] l IH]; intros d st Hl Hnd Hd Hix.
  - exists (index st). split; [by destruct st|done].
  - apply Forall_cons_1 in Hl as [(m & Hm & ->) Hl]. apply NoDup_cons in Hnd as [Hk Hnd].
    assert (d !! meta_key m = None) as Hk' by (apply Hd; by left).
    cbn [foldl]. destruct (insertIndices_ok o (meta_key m) m st d Hm Hk' Hix) as (ix & -> & Hi).
    destruct (IH (<[meta_key m := o]> d) (with_index ix st) Hl Hnd) as (ix' & -> & Hi'); [|done|].
    + intros j Hj. rewrite lookup_insert_ne; [apply Hd; by right|]. intros E. subst j. by apply Hk.
    + exists ix'. by split.
Qed.

Lemma foldl_insert_range (its : gmap string obj) :
  foldl (fun d '(k, o) => <[k := o]> d) ∅ (range 0 its) = its.
Proof.
  assert (forall l d, NoDup l.*1 -> (forall k, k ∈ l.*1 -> d !! k = None) ->
    foldl (fun (d : gmap string obj) '(k, o) => <[k := o]> d) d l = list_to_map l ∪ d) as Hf.
  { induction l as [|[k o] l IH]; intros d Hn Hd; cbn; [by rewrite map_empty_union|].
    apply NoDup_cons in Hn as [Hk Hn]. rewrite IH; [|done|].
    - rewrite <- insert_union_r, insert_union_l; [done|]. by apply not_elem_of_list_to_map_1.
    - intros j Hj. rewrite lookup_insert_ne; [apply Hd; by right|]. intros ->. by apply Hk. }
  rewrite Hf; [|apply range_nodup|by intros; apply lookup_empty]. rewrite map_union_empty.
  apply range_map.
Qed.

Lemma store_Replace_ok its st :
  (forall k o, its !! k = Some o -> item_ok k o) ->
  exists st', store_Replace its st = Some st' /\ cache_ok st'
    /\ items st' = its /\ namespace_indexer st' = namespace_indexer st.
Proof.
  intros Hits. unfold store_Replace.
  destruct (rebuild_ok (range 0 its) ∅ (MkThreadSafeMap its (namespace_indexer st) ∅)) as (ix & -> & Hi).
  - apply Forall_forall. intros [k o] Hin. apply Hits, elem_of_map_to_list. by rewrite <- range_perm.
  - apply range_nodup.
  - intros. apply lookup_empty.
  - intros _ ns k. cbn. rewrite lookup_empty. cbn. rewrite !lookup_empty.
    split; [by intros []|by intros (? & ? & _)].
  - eexists. split_and!; [done| |done|done]. split; [done|]. cbn [index items with_index].
    by rewrite foldl_insert_range in Hi.
Qed.

Lemma cache_apply_ok op st :
  cache_ok st -> op_ok op ->
  exists st', cache_apply st op = Some st' /\ cache_ok st'
    /\ items st' = spec_op (items st) op /\ namespace_indexer st' = namespace_indexer st.
Proof.
  intros Hc Hop. unfold cache_apply. destruct op as [o|o|l]; cbn [op_ok spec_op] in *.
  - apply has_meta_ok in Hop as (m & Hm). unfold cache_Add. rewrite (KeyFunc_ok _ _ Hm).
    destruct (store_Update_ok o m st Hc Hm) as (st' & -> & ? & Hi & ?). exists st'.
    split_and!; [done|done| |done]. by rewrite Hi, (key_of_meta _ _ Hm).
  - destruct Hop as [k Hk]. unfold cache_Delete, key_of. rewrite Hk.
    destruct (store_Delete_ok k st Hc) as (st' & -> & ? & Hi & ?). by exists st'.
  - unfold cache_Replace. rewrite (keyed_items_spec l ∅ Hop).
    destruct (store_Replace_ok (foldl (fun its o => <[key_of o := o]> its) ∅ l) st) as (st' & -> & ? & Hi & ?).
    { apply spec_items_ok; [done|]. intros *. by rewrite lookup_empty. }
    by exists st'.
Qed.

(** On API objects no operation panics, and the cache holds the map that the
    operations describe, its index in step with it. *)
Lemma cache_run_ok ops b :
  Forall op_ok ops ->
  exists st, cache_run ops (NewIndexer b) = Some st /\ cache_ok st
    /\ items st = foldl spec_op ∅ ops /\ namespace_indexer st = b.
Proof.
  intros Hops. assert (forall st, cache_ok st -> namespace_indexer st = b ->
    exists st', cache_run ops st = Some st' /\ cache_ok st'
      /\ items st' = foldl spec_op (items st) ops /\ namespace_indexer st' = b) as Hg;
    [|by apply (Hg (NewIndexer b)), eq_refl; apply new_cache_ok].
  induction Hops as [|op ops Hop _ IH]; intros st Hc Hb; [by exists st|].
  destruct (cache_apply_ok op st Hc Hop) as (st1 & E & Hc1 & Hi1 & Hb1).
  cbn [cache_run foldl]. rewrite E, <- Hi1. apply IH; [done|congruence].
Qed.

(** ** The cache is an indexer *)

Lemma filter_map_snd (p : obj -> bool) (l : list (string * obj)) :
  List.filter p (map snd l) = map snd (List.filter (fun x => p x.2) l).
Proof. induction l as [|[k o] l IH]; cbn; [done|]. rewrite IH. by destruct (p o). Qed.

Lemma NoDup_filter_fst (p : string * obj -> bool) (l : list (string * obj)) :
  NoDup l.*1 -> NoDup (List.filter p l).*1.
Proof.
  induction l as [|x l IH]; intros Hl; [done|]. cbn [fmap list_fmap] in Hl. apply NoDup_cons in Hl as [Hx Hl].
  cbn [List.filter]. destruct (p x); [|by apply IH].
  apply NoDup_cons. split; [|by apply IH].
  intros (y & E & Hin)%list_elem_of_fmap. apply Hx, list_elem_of_fmap. exists y. split; [done|].
  by apply list_elem_of_In, filter_In in Hin as [Hin%list_elem_of_In _].
Qed.

(** A list of exactly the keys whose objects satisfy [p] lists these objects. *)
Lemma select_keys (p : obj -> bool) (its : gmap string obj) ks :
  NoDup ks -> (forall k, k ∈ ks <-> exists o, its !! k = Some o /\ p o = true) ->
  map (fun k => default OtherObject (its !! k)) ks ≡ₚ List.filter p (values its).
Proof.
  intros Hnd Hks. unfold values. rewrite filter_map_snd.
  set (P := List.filter (fun x => p x.2) (map_to_list its)).
  assert (forall k o, (k, o) ∈ P <-> its !! k = Some o /\ p o = true) as HP.
  { intros k o. unfold P. rewrite list_elem_of_In, filter_In, <- list_elem_of_In. by rewrite elem_of_map_to_list. }
  assert (ks ≡ₚ P.*1) as ->.
  { apply NoDup_Permutation; [done| |].
    - unfold P. apply NoDup_filter_fst, NoDup_fst_map_to_list.
    - intros k. rewrite Hks, list_elem_of_fmap. split.
      + intros (o & Ho). exists (k, o). split; [done|]. by apply HP.
      + intros ([k' o] & -> & Ho%HP). by exists o. }
  assert (map (fun k => default OtherObject (its !! k)) P.*1 = map snd P) as ->; [|done].
  assert (forall x, x ∈ P -> its !! x.1 = Some x.2) as Hl by (intros [k o] [Ho _]%HP; done).
  revert Hl. clear. induction P as [|[k o] P IH]; intros Hl; [done|]. cbn.
  assert (its !! k = Some o) as -> by (by apply (Hl (k, o)); left). cbn. f_equal. apply IH. intros x Hx. apply Hl. by right.
Qed.

Lemma foldl_insert_keys (l : list (string * unit)) (acc : gmap string unit) k :
  is_Some (foldl (fun acc '(key, _) => <[key := tt]> acc) acc l !! k) <-> k ∈ l.*1 \/ is_Some (acc !! k).
Proof.
  revert acc. induction l as [|[j []] l IH]; intros acc; cbn; [rewrite elem_of_nil; tauto|].
  rewrite IH, elem_of_cons. destruct (decide (k = j)) as [->|Hne].
  - rewrite lookup_insert_eq. split; [tauto|]. intros _. right. by eexists.
  - rewrite lookup_insert_ne by done. tauto.
Qed.

Lemma elem_range {A} n (m : gmap string A) k : k ∈ (range n m).*1 <-> is_Some (m !! k).
Proof.
  rewrite range_perm, list_elem_of_fmap. split.
  - intros ([k' a] & -> & Ha%elem_of_map_to_list). by eexists.
  - intros [a Ha]. exists (k, a). split; [done|]. by apply elem_of_map_to_list.
Qed.

Lemma store_Index_ok st ns l :
  cache_ok st -> store_Index NamespaceIndex ns st = Ok l ->
  l ≡ₚ List.filter (in_namespace ns) (values (items st)).
Proof.
  intros [_ Hix]. unfold store_Index. rewrite String.eqb_refl. cbn [andb].
  destruct (namespace_indexer st); [|done]. intros [= <-]. cbn zeta.
  set (rks := foldl _ ∅ _).
  transitivity (map (fun k => default OtherObject (items st !! k)) (range 3 rks).*1).
  { rewrite map_map. apply reflexive_eq, map_ext. by intros [k ?]. }
  apply select_keys.
  - apply range_nodup.
  - intros k. rewrite elem_range. unfold rks. rewrite foldl_insert_keys, elem_range, (Hix eq_refl ns k).
    split; [|by left]. intros [?|[? Hk]]; [done|]. by rewrite lookup_empty in Hk.
Qed.

#[export] Instance cache_laws : IndexerLaws threadSafeMap.
Proof.
  refine {| store_ok := cache_ok; contents := items |}.
  - intros s k o Hc Hk. by apply (co_items _ Hc).
  - intros s _. cbn. unfold store_List, values. by rewrite range_perm.
  - intros s ns l Hc. by apply store_Index_ok.
  - done.
Defined.

End Runs.
