(* ===== verification/DeltaFifo.v ===== *)
(** * The queue between the reflector and the store ([tools/cache/delta_fifo.go], vendored)

    [DeltaFIFO] holds, for each key, what has happened to its object since it
    was last processed.  The queue of an informer always knows the informer's
    store ([knownObjects]), which is an argument of the methods that use it;
    the branches for a queue without are left out.  Each method takes the lock
    for its whole body and is one function on the state. *)

From stdpp Require Import base gmap strings list.
From Stdlib Require Import Lia.
From S2P Require Import Prelude GoStd Types Cache.

(** ** Deltas *)

Inductive DeltaType : Type := Added | Updated | Deleted | Sync.

#[export] Instance DeltaType_eq_dec : EqDecision DeltaType.
Proof. solve_decision. Defined.

Record Delta : Type := MkDelta { dType : DeltaType; Object : obj }.

(** The oldest first. *)
Notation Deltas := (list Delta).

Definition Newest (d : Deltas) : option Delta := last d.

Definition is_tombstone (o : obj) : bool := match o with DeletedFinalState _ _ => true | _ => false end.

(** Keep the one with the most information if both are deletions. *)
Definition isDeletionDup (a b : Delta) : option Delta :=
  if negb (bool_decide (dType b = Deleted)) || negb (bool_decide (dType a = Deleted)) then None
  else if is_tombstone (Object b) then Some a else Some b.

Definition isDup (a b : Delta) : option Delta :=
  match isDeletionDup a b with Some out => Some out | None => None end.

Definition dedupDeltas (deltas : Deltas) : Deltas :=
  let n := length deltas in
  if n <? 2 then deltas
  else
    match deltas !! (n - 1), deltas !! (n - 2) with
    | Some a, Some b => match isDup a b with Some out => take (n - 2) deltas ++ [out] | None => deltas end
    | _, _ => deltas
    end.

(** ** The queue *)

(** An object without a key, or an error of the consumer. *)
Inductive fifo_error : Type :=
| KeyError (o : obj) (err : string)
| CannotEnqueue (err : fifo_error)
| ProcessError (err : string).

Record DeltaFIFO : Type := MkDeltaFIFO {
  f_items : gmap string Deltas;
  f_queue : list string;
  populated : bool;
  initialPopulationCount : nat;
  closed : bool;
}.

Definition NewDeltaFIFO : DeltaFIFO :=
  {| f_items := ∅; f_queue := []; populated := false; initialPopulationCount := 0; closed := false |}.

Definition with_deltas (its : gmap string Deltas) (q : list string) (f : DeltaFIFO) : DeltaFIFO :=
  {| f_items := its; f_queue := q; populated := populated f;
     initialPopulationCount := initialPopulationCount f; closed := closed f |}.

Definition with_populated (count : nat) (f : DeltaFIFO) : DeltaFIFO :=
  {| f_items := f_items f; f_queue := f_queue f; populated := true;
     initialPopulationCount := count; closed := closed f |}.

(** [f.populated = true] *)
Definition mark_populated (f : DeltaFIFO) : DeltaFIFO := with_populated (initialPopulationCount f) f.

Definition Close (f : DeltaFIFO) : DeltaFIFO :=
  {| f_items := f_items f; f_queue := f_queue f; populated := populated f;
     initialPopulationCount := initialPopulationCount f; closed := true |}.

(** [MetaNamespaceKeyFunc], the key function of the queue. *)
Definition MetaNamespaceKeyFunc (o : obj) : res string string :=
  match Accessor o with
  | Ok m => Ok (meta_key m)
  | Err e => Err ("object has no meta: " +:+ e)
  end.

(** [KeyOf] of anything but [Deltas]. *)
Definition KeyOf (o : obj) : res string string :=
  match o with
  | DeletedFinalState key _ => Ok key
  | _ => MetaNamespaceKeyFunc o
  end.

Definition HasSynced (f : DeltaFIFO) : bool := populated f && (initialPopulationCount f =? 0).

(** The last delta of the object is a deletion. *)
Definition willObjectBeDeletedLocked (id : string) (f : DeltaFIFO) : bool :=
  match last (default [] (f_items f !! id)) with
  | Some d => bool_decide (dType d = Deleted)
  | None => false
  end.

Definition queueActionLocked (actionType : DeltaType) (o : obj) (f : DeltaFIFO) : DeltaFIFO * option fifo_error :=
  match KeyOf o with
  | Err err => (f, Some (KeyError o err))
  | Ok id =>
      if bool_decide (actionType = Sync) && willObjectBeDeletedLocked id f then (f, None)
      else
        let newDeltas := dedupDeltas (default [] (f_items f !! id) ++ [MkDelta actionType o]) in
        if 0 <? length newDeltas then
          let q := match f_items f !! id with None => f_queue f ++ [id] | Some _ => f_queue f end in
          (with_deltas (<[id := newDeltas]> (f_items f)) q f, None)
        else (with_deltas (delete id (f_items f)) (f_queue f) f, None)
  end.

(** [Add] *)
Definition fifo_Add (o : obj) (f : DeltaFIFO) : DeltaFIFO * option fifo_error :=
  queueActionLocked Added o (mark_populated f).

(** [Update] *)
Definition fifo_Update (o : obj) (f : DeltaFIFO) : DeltaFIFO * option fifo_error :=
  queueActionLocked Updated o (mark_populated f).

Definition addIfNotPresent (id : string) (deltas : Deltas) (f : DeltaFIFO) : DeltaFIFO :=
  let f := mark_populated f in
  match f_items f !! id with
  | Some _ => f
  | None => with_deltas (<[id := deltas]> (f_items f)) (f_queue f ++ [id]) f
  end.

(** ** Taking items out *)

Inductive process_result : Type :=
| Processed
| Failed (err : string)
| ErrRequeue (err : option string).

(** What the calls of [Pop] return, or that they wait. *)
Inductive popped : Type :=
| Waits
| FIFOClosedError
| Popped (item : Deltas) (err : option string).

Section Pop.
Context {S : Type} (process : Deltas -> S -> option (S * process_result)).

(** The loop of [Pop]; it skips the ids whose item is gone. *)
Fixpoint Pop_loop (queue : list string) (f : DeltaFIFO) (s : S) : option (popped * DeltaFIFO * S) :=
  match queue with
  | [] => Some (if closed f then FIFOClosedError else Waits, with_deltas (f_items f) [] f, s)
  | id :: queue =>
      let f := {| f_items := f_items f; f_queue := queue; populated := populated f;
                  initialPopulationCount := initialPopulationCount f - 1; closed := closed f |} in
      match f_items f !! id with
      | None => Pop_loop queue f s
      | Some item =>
          let f := with_deltas (delete id (f_items f)) queue f in
          match process item s with
          | None => None
          | Some (s, Processed) => Some (Popped item None, f, s)
          | Some (s, Failed err) => Some (Popped item (Some err), f, s)
          | Some (s, ErrRequeue err) => Some (Popped item err, addIfNotPresent id item f, s)
          end
      end
  end.

Definition Pop (f : DeltaFIFO) (s : S) : option (popped * DeltaFIFO * S) := Pop_loop (f_queue f) f s.

End Pop.

(** ** Operations that know the store *)

Section Known.
Context `{R : MapRange}.

(** [ListKeys] and [GetByKey] of the informer's store *)
Definition store_ListKeys (site : nat) (st : threadSafeMap) : list string := map fst (range site (items st)).

Definition store_GetByKey (key : string) (st : threadSafeMap) : option obj := items st !! key.

(** [Delete] *)
Definition fifo_Delete (o : obj) (knownObjects : threadSafeMap) (f : DeltaFIFO) : DeltaFIFO * option fifo_error :=
  match KeyOf o with
  | Err err => (f, Some (KeyError o err))
  | Ok id =>
      let f := mark_populated f in
      match store_GetByKey id knownObjects, f_items f !! id with
      | None, None => (f, None)
      | _, _ => queueActionLocked Deleted o f
      end
  end.

(** The first loop of [Replace], with the keys of the list. *)
Fixpoint Replace_list (l : list obj) (keys : gmap string unit) (f : DeltaFIFO)
    : DeltaFIFO * res fifo_error (gmap string unit) :=
  match l with
  | [] => (f, Ok keys)
  | item :: l =>
      match KeyOf item with
      | Err err => (f, Err (KeyError item err))
      | Ok key =>
          match queueActionLocked Sync item f with
          | (f, Some err) => (f, Err (CannotEnqueue err))
          | (f, None) => Replace_list l (<[key := tt]> keys) f
          end
      end
  end.

(** The second loop: deletions of known objects that are not in the list. *)
Fixpoint Replace_known (knownKeys : list string) (keys : gmap string unit) (knownObjects : threadSafeMap)
    (queuedDeletions : nat) (f : DeltaFIFO) : DeltaFIFO * res fifo_error nat :=
  match knownKeys with
  | [] => (f, Ok queuedDeletions)
  | k :: knownKeys =>
      match keys !! k with
      | Some _ => Replace_known knownKeys keys knownObjects queuedDeletions f
      | None =>
          let deletedObj := default OtherObject (store_GetByKey k knownObjects) in
          match queueActionLocked Deleted (DeletedFinalState k deletedObj) f with
          | (f, Some err) => (f, Err err)
          | (f, None) => Replace_known knownKeys keys knownObjects (S queuedDeletions) f
          end
      end
  end.

(** [Replace] *)
Definition fifo_Replace (l : list obj) (knownObjects : threadSafeMap) (f : DeltaFIFO)
    : DeltaFIFO * option fifo_error :=
  match Replace_list l ∅ f with
  | (f, Err err) => (f, Some err)
  | (f, Ok keys) =>
      match Replace_known (store_ListKeys 4 knownObjects) keys knownObjects 0 f with
      | (f, Err err) => (f, Some err)
      | (f, Ok queuedDeletions) =>
          (if populated f then f else with_populated (length l + queuedDeletions) f, None)
      end
  end.

Definition syncKeyLocked (key : string) (knownObjects : threadSafeMap) (f : DeltaFIFO)
    : DeltaFIFO * option fifo_error :=
  match store_GetByKey key knownObjects with
  | None => (f, None)
  | Some o =>
      match KeyOf o with
      | Err err => (f, Some (KeyError o err))
      | Ok id =>
          if 0 <? length (default [] (f_items f !! id)) then (f, None)
          else
            match queueActionLocked Sync o f with
            | (f, Some err) => (f, Some (CannotEnqueue err))
            | (f, None) => (f, None)
            end
      end
  end.

Fixpoint Resync_loop (keys : list string) (knownObjects : threadSafeMap) (f : DeltaFIFO)
    : DeltaFIFO * option fifo_error :=
  match keys with
  | [] => (f, None)
  | k :: keys =>
      match syncKeyLocked k knownObjects f with
      | (f, Some err) => (f, Some err)
      | (f, None) => Resync_loop keys knownObjects f
      end
  end.

(** [Resync] *)
Definition fifo_Resync (knownObjects : threadSafeMap) (f : DeltaFIFO) : DeltaFIFO * option fifo_error :=
  Resync_loop (store_ListKeys 5 knownObjects) knownObjects f.

End Known.

(** ** What is queued

    The object a key will have when its deltas are processed, and the map from
    keys to these objects. *)

Definition effect (d : Delta) : option obj := if decide (dType d = Deleted) then None else Some (Object d).

Definition pending (f : DeltaFIFO) (k : string) : Deltas := default [] (f_items f !! k).

Definition future (f : DeltaFIFO) (its : gmap string obj) (k : string) : option obj :=
  match last (pending f k) with Some d => effect d | None => its !! k end.

(** A deletion comes when there is something to delete. *)
Fixpoint deltas_fit (present : bool) (ds : Deltas) : Prop :=
  match ds with
  | [] => True
  | d :: ds => if decide (dType d = Deleted) then present = true /\ deltas_fit false ds else deltas_fit true ds
  end.

Definition ends_present (present : bool) (ds : Deltas) : bool :=
  match last ds with Some d => negb (bool_decide (dType d = Deleted)) | None => present end.

Lemma deltas_fit_app p ds1 ds2 :
  deltas_fit p (ds1 ++ ds2) <-> deltas_fit p ds1 /\ deltas_fit (ends_present p ds1) ds2.
Proof.
  revert p. induction ds1 as [|d ds1 IH]; intros p; cbn [deltas_fit app]; [by unfold ends_present; cbn; tauto|].
  assert (ends_present p (d :: ds1) = ends_present (negb (bool_decide (dType d = Deleted))) ds1) as E.
  { unfold ends_present. rewrite last_cons. destruct (last ds1); [done|].
    done. }
  rewrite E. destruct (decide (dType d = Deleted)) as [Ed|Ed].
  - rewrite bool_decide_true, IH by done. cbn [negb]. tauto.
  - rewrite bool_decide_false, IH by done. cbn [negb]. tauto.
Qed.

Lemma deltas_fit_snoc p ds d :
  deltas_fit p (ds ++ [d]) <-> deltas_fit p ds /\ (dType d = Deleted -> ends_present p ds = true).
Proof. rewrite deltas_fit_app. cbn. case_decide; naive_solver. Qed.

Lemma isDup_spec a b :
  isDup a b = if decide (dType a = Deleted /\ dType b = Deleted)
              then Some (if is_tombstone (Object b) then a else b) else None.
Proof. unfold isDup, isDeletionDup. by repeat case_bool_decide; repeat case_decide; destruct (is_tombstone _); naive_solver. Qed.

Lemma dedup_one d : dedupDeltas [d] = [d].
Proof. done. Qed.

Lemma dedup_snoc ds b a :
  dedupDeltas ((ds ++ [b]) ++ [a]) = match isDup a b with Some out => ds ++ [out] | None => (ds ++ [b]) ++ [a] end.
Proof.
  unfold dedupDeltas. rewrite !length_app. cbn [length].
  destruct (Nat.ltb_spec (length ds + 1 + 1) 2) as [|_]; [lia|].
  replace (length ds + 1 + 1 - 1) with (length (ds ++ [b])) by (rewrite length_app; cbn; lia).
  replace (length ds + 1 + 1 - 2) with (length ds) by lia.
  rewrite (list_lookup_middle (ds ++ [b]) [] a) by done.
  rewrite <- app_assoc. cbn [app]. rewrite (list_lookup_middle ds [a] b) by done.
  by rewrite take_app_length.
Qed.

Section Queued.
Context `{R : MapRange}.
Context (P : obj -> Prop) (P_meta : forall o, P o -> exists m, Accessor o = Ok m).

(** A delta of the key [k]; only a deletion may come as a tombstone. *)
Definition delta_ok (k : string) (d : Delta) : Prop :=
  KeyOf (Object d) = Ok k /\ (P (Object d) \/ dType d = Deleted /\ is_tombstone (Object d) = true).

Definition deltas_ok (its : gmap string obj) (k : string) (ds : Deltas) : Prop :=
  Forall (delta_ok k) ds /\ deltas_fit (bool_decide (is_Some (its !! k))) ds.

(** The comment of the struct: the queue and the items agree, and no item is
    empty. *)
Record fifo_ok (its : gmap string obj) (f : DeltaFIFO) : Prop := {
  fo_nodup : NoDup (f_queue f);
  fo_queue : forall k, k ∈ f_queue f <-> is_Some (f_items f !! k);
  fo_items : forall k ds, f_items f !! k = Some ds -> ds <> [] /\ deltas_ok its k ds;
}.

Lemma new_fifo_ok its : fifo_ok its NewDeltaFIFO.
Proof.
  split; cbn; [constructor| |]; intros k; [|intros ds]; rewrite lookup_empty; [|done].
  by rewrite elem_of_nil; split; [|intros []].
Qed.

Lemma pending_ok its f k : fifo_ok its f -> deltas_ok its k (pending f k).
Proof. intros Hf. unfold pending. destruct (_ !! k) as [ds|] eqn:E; [by eapply fo_items|by split]. Qed.

Lemma dedup_ok its k ds d :
  deltas_ok its k ds -> delta_ok k d ->
  (dType d = Deleted -> ds = [] -> is_Some (its !! k)) ->
  dedupDeltas (ds ++ [d]) <> [] /\ deltas_ok its k (dedupDeltas (ds ++ [d]))
  /\ effect <$> last (dedupDeltas (ds ++ [d])) = Some (effect d).
Proof.
  intros [Hds Hfit] Hd Hdel. destruct ds as [|b ds _] using rev_ind.
  - cbn [app]. rewrite dedup_one. split_and!; [done| |done]. split; [by constructor|]. cbn.
    case_decide; [|done]. split; [|done]. apply bool_decide_eq_true. auto.
  - rewrite dedup_snoc, isDup_spec. apply Forall_app in Hds as [Hds Hb]. rewrite Forall_singleton in Hb.
    destruct (decide (dType d = Deleted /\ dType b = Deleted)) as [[Ed Eb]|Hne].
    + split_and!; [by destruct ds| |].
      * split; [apply Forall_app; split; [done|]; apply Forall_singleton; by destruct (is_tombstone (Object b))|].
        apply deltas_fit_snoc in Hfit as [Hf1 Hf2]. apply (proj2 (deltas_fit_snoc _ _ _)). auto.
      * rewrite last_snoc. cbn. unfold effect. destruct (is_tombstone _); rewrite ?Ed, ?Eb; by case_decide.
    + split_and!; [by destruct ds| |by rewrite last_snoc].
      split; [by rewrite !Forall_app, !Forall_singleton|].
      apply deltas_fit_snoc. split; [done|]. intros Ed. unfold ends_present. rewrite last_snoc.
      apply negb_true_iff, bool_decide_eq_false. naive_solver.
Qed.

(** ** One action *)

Definition same_status (f f' : DeltaFIFO) : Prop :=
  populated f' = populated f /\ initialPopulationCount f' = initialPopulationCount f /\ closed f' = closed f.

(** [f'] is [f] with other deltas for the key [k]. *)
Record acted (k : string) (f f' : DeltaFIFO) : Prop := {
  ac_status : same_status f f';
  ac_other : forall j, j <> k -> pending f' j = pending f j;
}.

Lemma future_other k j its f f' : acted k f f' -> j <> k -> future f' its j = future f its j.
Proof. intros [_ Ho] Hj. unfold future. by rewrite Ho. Qed.

Definition sync_ignored (t : DeltaType) (k : string) (f : DeltaFIFO) : bool :=
  bool_decide (t = Sync) && willObjectBeDeletedLocked k f.

Lemma willObjectBeDeleted_spec k f :
  willObjectBeDeletedLocked k f = match last (pending f k) with Some d => bool_decide (dType d = Deleted) | None => false end.
Proof. done. Qed.

Lemma will_be_deleted_future k f its : willObjectBeDeletedLocked k f = true -> future f its k = None.
Proof.
  rewrite willObjectBeDeleted_spec. unfold future. destruct (last _) as [d|]; [|done].
  intros E%bool_decide_eq_true. unfold effect. by rewrite decide_True.
Qed.

Lemma action_ok its t o k f :
  fifo_ok its f -> delta_ok k (MkDelta t o) ->
  (t = Deleted -> pending f k = [] -> is_Some (its !! k)) ->
  exists f', queueActionLocked t o f = (f', None) /\ fifo_ok its f' /\ acted k f f'
    /\ future f' its k = if sync_ignored t k f then None else effect (MkDelta t o).
Proof.
  intros Hf Hd Hdel. unfold queueActionLocked. destruct Hd as [Hk Hd]. cbn [Object dType] in Hk. rewrite Hk.
  fold (sync_ignored t k f). destruct (sync_ignored t k f) eqn:Es.
  { exists f. split_and!; [done|done|by split|].
    apply andb_true_iff in Es as [_ Es]. by apply will_be_deleted_future. }
  fold (pending f k).
  destruct (dedup_ok its k (pending f k) (MkDelta t o)) as (Hne & Hok & Hlast);
    [by apply pending_ok|by split|done|].
  set (ds := dedupDeltas (pending f k ++ [MkDelta t o])) in *.
  destruct (Nat.ltb_spec 0 (length ds)) as [_|Hz]; [|by destruct ds; cbn in Hz; [|lia]].
  destruct Hf as [Hnd Hq Hit]. eexists. split; [done|]. split_and!.
  - destruct (f_items f !! k) as [old|] eqn:Eold; split; cbn [with_deltas f_items f_queue].
    + done.
    + intros j. rewrite Hq. destruct (decide (j = k)) as [->|Hj].
      * rewrite Eold, lookup_insert_eq. by split.
      * by rewrite lookup_insert_ne.
    + intros j dj [[<- <-]|[_ Hj]]%lookup_insert_Some; [done|by apply Hit].
    + apply NoDup_app. split_and!; [done| |apply NoDup_singleton].
      intros j Hj ->%list_elem_of_singleton. apply Hq in Hj. rewrite Eold in Hj. by destruct Hj.
    + intros j. rewrite elem_of_app, Hq, list_elem_of_singleton. destruct (decide (j = k)) as [->|Hj].
      * rewrite lookup_insert_eq. split; [by eexists|by right].
      * rewrite lookup_insert_ne by done. naive_solver.
    + intros j dj [[<- <-]|[_ Hj]]%lookup_insert_Some; [done|by apply Hit].
  - split; [done|]. intros j Hj. unfold pending. cbn. by rewrite lookup_insert_ne by done.
  - unfold future, pending. cbn. rewrite lookup_insert_eq. cbn.
    destruct (last ds) as [d|]; [|done]. cbn in Hlast. congruence.
Qed.

(** ** The methods *)

Lemma KeyOf_KeyFunc o : KeyOf o = KeyFunc o.
Proof. by destruct o. Qed.

Lemma P_key o : P o -> KeyOf o = Ok (key_of o).
Proof. intros (m & Hm)%P_meta. by rewrite KeyOf_KeyFunc, (KeyFunc_ok _ _ Hm), (key_of_meta _ _ Hm). Qed.

Lemma P_delta_ok o t : P o -> delta_ok (key_of o) (MkDelta t o).
Proof. intros Ho. split; [by apply P_key|by left]. Qed.

Lemma mark_ok its f count : fifo_ok its f -> fifo_ok its (with_populated count f).
Proof. by intros [? ? ?]. Qed.

(** [f'] has, at [k], the future [v], and [f]'s elsewhere. *)
Definition sets_future (its : gmap string obj) (k : string) (v : option obj) (f f' : DeltaFIFO) : Prop :=
  forall j, future f' its j = if decide (j = k) then v else future f its j.

Lemma acted_sets its k v f f' : acted k f f' -> future f' its k = v -> sets_future its k v f f'.
Proof. intros Ha Hv j. case_decide as E; [by subst|by eapply future_other]. Qed.

Lemma fifo_put_ok its t o f :
  t = Added \/ t = Updated -> fifo_ok its f -> P o ->
  exists f', queueActionLocked t o (mark_populated f) = (f', None) /\ fifo_ok its f' /\ populated f' = true
    /\ sets_future its (key_of o) (Some o) f f'.
Proof.
  intros Ht Hf Ho.
  destruct (action_ok its t o (key_of o) (mark_populated f)) as (f' & -> & Hf' & Ha & Hv);
    [by apply mark_ok|by apply P_delta_ok|by destruct Ht; subst|].
  exists f'. split_and!; [done|done|apply (ac_status _ _ _ Ha)|]. apply (acted_sets _ _ _ (mark_populated f) f' Ha).
  rewrite Hv. unfold sync_ignored, effect. by destruct Ht as [-> | ->].
Qed.

Lemma fifo_Delete_ok o st f :
  fifo_ok (items st) f -> P o \/ (is_tombstone o = true) ->
  exists f', fifo_Delete o st f = (f', None) /\ fifo_ok (items st) f' /\ populated f' = true
    /\ sets_future (items st) (key_of o) None f f'.
Proof.
  intros Hf Ho. unfold fifo_Delete.
  assert (KeyOf o = Ok (key_of o)) as Hk.
  { destruct Ho as [Ho|Ho]; [by apply P_key|]. by destruct o. }
  rewrite Hk. unfold store_GetByKey. remember (key_of o) as k eqn:Ekey.
  destruct (decide (items st !! k = None /\ f_items f !! k = None)) as [[E1 E2]|Hne].
  - cbn [mark_populated with_populated f_items]. rewrite E1, E2. eexists. split_and!; [done|by apply mark_ok|done|].
    intros j. case_decide as Ej; [rewrite Ej|done]. unfold future, pending. cbn. by rewrite E2.
  - destruct (action_ok (items st) Deleted o k (mark_populated f)) as (f' & E & Hf' & Ha & Hv).
    + by apply mark_ok.
    + split; [done|]. destruct Ho; auto.
    + intros _ Hp. unfold pending in Hp. cbn in Hp. destruct (f_items f !! k) as [ds|] eqn:Ek.
      { destruct (fo_items _ _ Hf _ _ Ek) as [Hne' _]. done. }
      destruct (items st !! k); [by eexists|]. by destruct Hne.
    + exists f'. split_and!; [|done|apply (ac_status _ _ _ Ha)|].
      * cbn [mark_populated with_populated f_items]. destruct (items st !! k), (f_items f !! k); try done. by destruct Hne.
      * apply (acted_sets _ _ _ (mark_populated f) f' Ha). rewrite Hv. done.
Qed.

(** The map a list stands for. *)
Definition listed_from (m : gmap string obj) (l : list obj) : gmap string obj :=
  foldl (fun m o => <[key_of o := o]> m) m l.
Definition listed (l : list obj) : gmap string obj := listed_from ∅ l.

Lemma sync_keeps_deleted its o f f' j :
  acted (key_of o) f f' -> future f' its (key_of o) = (if sync_ignored Sync (key_of o) f then None else Some o) ->
  queueActionLocked Sync o f = (f', None) -> KeyOf o = Ok (key_of o) ->
  willObjectBeDeletedLocked j f' = willObjectBeDeletedLocked j f.
Proof.
  intros Ha Hv E Hk. destruct (decide (j = key_of o)) as [->|Hj].
  - destruct (willObjectBeDeletedLocked (key_of o) f) eqn:Ew.
    + unfold queueActionLocked in E. rewrite Hk, Ew in E. cbn in E. by injection E as <-.
    + destruct (willObjectBeDeletedLocked (key_of o) f') eqn:Ew'; [|done].
      apply (will_be_deleted_future _ _ its) in Ew'. rewrite Hv in Ew'. unfold sync_ignored in Ew'.
      rewrite Ew in Ew'. done.
  - rewrite !willObjectBeDeleted_spec. by rewrite (ac_other _ _ _ Ha).
Qed.

Lemma Replace_list_ok its base will l (keys : gmap string unit) (m : gmap string obj) f :
  fifo_ok its f -> Forall P l ->
  (forall j, willObjectBeDeletedLocked j f = will j) ->
  (forall j, future f its j = match m !! j with Some o => if will j then None else Some o | None => base j end) ->
  (forall j, is_Some (keys !! j) <-> is_Some (m !! j)) ->
  exists f' keys', Replace_list l keys f = (f', Ok keys') /\ fifo_ok its f' /\ same_status f f'
    /\ let m' := listed_from m l in
       (forall j, future f' its j
                  = match m' !! j with Some o => if will j then None else Some o | None => base j end)
       /\ (forall j, is_Some (keys' !! j) <-> is_Some (m' !! j)).
Proof.
  intros Hf Hl. revert keys m f Hf. induction Hl as [|o l Ho _ IH]; intros keys m f Hf Hw Hm Hkeys.
  { exists f, keys. by split_and!. }
  cbn [Replace_list]. rewrite (P_key o Ho).
  destruct (action_ok its Sync o (key_of o) f) as (f1 & E & Hf1 & Ha & Hv); [done|by apply P_delta_ok|done|].
  rewrite E. change (effect (MkDelta Sync o)) with (Some o) in Hv.
  pose proof (sync_keeps_deleted its o f f1) as Hwill.
  destruct (IH (<[key_of o := tt]> keys) (<[key_of o := o]> m) f1) as (f' & keys' & -> & Hf' & Hs & Hfut & Hkeys'); [done| | | |].
  - intros j. rewrite <- Hw. apply Hwill; auto using P_key.
  - intros j. destruct (decide (j = key_of o)) as [->|Hj].
    + rewrite lookup_insert_eq, Hv. unfold sync_ignored. cbn. by rewrite Hw.
    + rewrite lookup_insert_ne by done. by rewrite (future_other _ _ _ _ _ Ha Hj).
  - intros j. destruct (decide (j = key_of o)) as [->|Hj]; [by rewrite !lookup_insert_eq|].
    by rewrite !lookup_insert_ne by done.
  - exists f', keys'. split_and!; [done|done| |done|done].
    destruct Hs as (? & ? & ?), (ac_status _ _ _ Ha) as (? & ? & ?). split_and!; congruence.
Qed.

Lemma Replace_known_ok st (keys : gmap string unit) ks count f :
  fifo_ok (items st) f -> (forall k, k ∈ ks -> is_Some (items st !! k)) ->
  exists f' count', Replace_known ks keys st count f = (f', Ok count') /\ fifo_ok (items st) f' /\ same_status f f'
    /\ forall j, future f' (items st) j
                 = if decide (j ∈ ks /\ keys !! j = None) then None else future f (items st) j.
Proof.
  revert count f. induction ks as [|k ks IH]; intros count f Hf Hks.
  { exists f, count. split_and!; [done|done|done|]. intros j. rewrite decide_False; [done|].
    by rewrite elem_of_nil; intros [? _]. }
  cbn [Replace_known]. destruct (keys !! k) eqn:Ek.
  - destruct (IH count f Hf) as (f' & c & -> & Hf' & Hs & Hfut); [intros j Hj; apply Hks; by right|].
    exists f', c. split_and!; [done|done|done|]. intros j. rewrite Hfut.
    destruct (decide (j = k)) as [->|Hj]; [rewrite !decide_False by (rewrite Ek; naive_solver); done|].
    apply decide_ext. set_solver.
  - destruct (action_ok (items st) Deleted (DeletedFinalState k (default OtherObject (store_GetByKey k st))) k f)
      as (f1 & -> & Hf1 & Ha & Hv); [done| |by intros; apply Hks; left|].
    { split; [done|]. by right. }
    destruct (IH (S count) f1 Hf1) as (f' & c & -> & Hf' & Hs & Hfut); [intros j Hj; apply Hks; by right|].
    exists f', c. split_and!; [done|done| |].
    + destruct Hs as (? & ? & ?), (ac_status _ _ _ Ha) as (? & ? & ?). split_and!; congruence.
    + intros j. rewrite Hfut. destruct (decide (j = k)) as [->|Hj].
      * rewrite (decide_True (P := k ∈ k :: ks /\ _)) by (split; [by left|done]). case_decide; [done|exact Hv].
      * rewrite (future_other _ _ _ _ _ Ha Hj). apply decide_ext. set_solver.
Qed.

(** What a list makes of the future.  A listed object whose deletion is still
    queued is not put back; an object that is only queued, and not listed,
    stays. *)
Definition relist_future (its : gmap string obj) (l : list obj) (f : DeltaFIFO) (j : string) : option obj :=
  match listed l !! j with
  | Some o => if willObjectBeDeletedLocked j f then None else Some o
  | None => match its !! j with Some _ => None | None => future f its j end
  end.

Lemma listed_keys_elem site st k : k ∈ store_ListKeys site st <-> is_Some (items st !! k).
Proof.
  unfold store_ListKeys. rewrite list_elem_of_In, in_map_iff. split.
  - intros ([j o] & <- & Hin%list_elem_of_In%range_elem). by eexists.
  - intros [o Ho%(range_elem site)]. exists (k, o). split; [done|by apply list_elem_of_In].
Qed.

Lemma fifo_Replace_ok l st f :
  fifo_ok (items st) f -> Forall P l ->
  exists f', fifo_Replace l st f = (f', None) /\ fifo_ok (items st) f' /\ populated f' = true
    /\ forall j, future f' (items st) j = relist_future (items st) l f j.
Proof.
  intros Hf Hl. unfold fifo_Replace.
  destruct (Replace_list_ok (items st) (future f (items st)) (fun j => willObjectBeDeletedLocked j f) l ∅ ∅ f)
    as (f1 & keys & -> & Hf1 & _ & Hfut1 & Hkeys); [done|done|done| | |].
  { intros j. by rewrite lookup_empty. }
  { intros j. by rewrite !lookup_empty. }
  destruct (Replace_known_ok st keys (store_ListKeys 4 st) 0 f1 Hf1) as (f2 & count & -> & Hf2 & _ & Hfut2).
  { intros k. apply listed_keys_elem. }
  eexists. split; [done|]. assert (forall j, future f2 (items st) j = relist_future (items st) l f j) as Hfut.
  { intros j. rewrite Hfut2, Hfut1. unfold relist_future. fold (listed l) in Hkeys |- *. specialize (Hkeys j).
    destruct (listed l !! j) as [o|] eqn:El.
    - rewrite decide_False; [done|]. intros [_ Ek]. rewrite Ek in Hkeys. by destruct (proj2 Hkeys (ex_intro _ o eq_refl)).
    - assert (keys !! j = None) as Ek by (destruct (keys !! j); [by destruct (proj1 Hkeys (ex_intro _ u eq_refl))|done]).
      destruct (items st !! j) eqn:Ej; [rewrite decide_True|rewrite decide_False]; [done| |done|].
      + split; [|done]. apply listed_keys_elem. by rewrite Ej.
      + intros [Hin _]. apply listed_keys_elem in Hin. rewrite Ej in Hin. by destruct Hin. }
  destruct (populated f2) eqn:Ep; split_and!; try done. by apply mark_ok.
Qed.

Lemma Resync_loop_ok st ks f :
  fifo_ok (items st) f -> (forall k o, items st !! k = Some o -> P o /\ key_of o = k) ->
  exists f', Resync_loop ks st f = (f', None) /\ fifo_ok (items st) f' /\ same_status f f'
    /\ forall j, future f' (items st) j = future f (items st) j.
Proof.
  intros Hf Hst. revert f Hf. induction ks as [|k ks IH]; intros f Hf; [by exists f|].
  cbn [Resync_loop]. unfold syncKeyLocked, store_GetByKey. destruct (items st !! k) as [o|] eqn:Ek; [|by apply IH].
  destruct (Hst k o Ek) as [Ho <-]. rewrite (P_key o Ho). fold (pending f (key_of o)).
  destruct (pending f (key_of o)) as [|d ds] eqn:Ep; cbn [length Nat.ltb Nat.leb]; [|by apply IH].
  destruct (action_ok (items st) Sync o (key_of o) f) as (f1 & -> & Hf1 & Ha & Hv); [done|by apply P_delta_ok|done|].
  destruct (IH f1 Hf1) as (f' & -> & Hf' & Hs & Hfut). exists f'. split_and!; [done|done| |].
  - destruct Hs as (? & ? & ?), (ac_status _ _ _ Ha) as (? & ? & ?). split_and!; congruence.
  - intros j. rewrite Hfut. destruct (decide (j = key_of o)) as [->|Hj]; [|by eapply future_other].
    rewrite Hv. unfold sync_ignored. rewrite willObjectBeDeleted_spec, Ep. cbn.
    unfold future. by rewrite Ep.
Qed.

(** ** Taking an item out *)

Definition taken (k : string) (q : list string) (f : DeltaFIFO) : DeltaFIFO :=
  {| f_items := delete k (f_items f); f_queue := q; populated := populated f;
     initialPopulationCount := initialPopulationCount f - 1; closed := closed f |}.

Lemma Pop_ok {S} (process : Deltas -> S -> option (S * process_result)) its f s :
  fifo_ok its f ->
  match f_queue f with
  | [] => Pop process f s = Some (if closed f then FIFOClosedError else Waits, f, s)
  | k :: q =>
      exists ds, f_items f !! k = Some ds /\
        Pop process f s = match process ds s with
                          | None => None
                          | Some (s, Processed) => Some (Popped ds None, taken k q f, s)
                          | Some (s, Failed err) => Some (Popped ds (Some err), taken k q f, s)
                          | Some (s, ErrRequeue err) =>
                              Some (Popped ds err, addIfNotPresent k ds (taken k q f), s)
                          end
  end.
Proof.
  intros Hf. unfold Pop. destruct (f_queue f) as [|k q] eqn:Eq.
  - cbn. do 3 f_equal. destruct f; cbn in *. by subst.
  - assert (is_Some (f_items f !! k)) as [ds Hds] by (apply (fo_queue _ _ Hf); rewrite Eq; by left).
    exists ds. split; [done|]. cbn [Pop_loop f_items]. rewrite Hds. done.
Qed.

Lemma taken_ok its its' f k q :
  fifo_ok its f -> f_queue f = k :: q -> (forall j, j <> k -> its' !! j = its !! j) -> fifo_ok its' (taken k q f).
Proof.
  intros [Hnd Hq Hit] Eq Hits. rewrite Eq in Hnd, Hq. apply NoDup_cons in Hnd as [Hk Hnd]. split; cbn.
  - done.
  - intros j. specialize (Hq j). rewrite elem_of_cons in Hq. destruct (decide (j = k)) as [->|Hj].
    + rewrite lookup_delete_eq. split; [done|by intros []].
    + rewrite lookup_delete_ne by done. naive_solver.
  - intros j ds [Hj Hds]%lookup_delete_Some. destruct (Hit j ds Hds) as [Hne [H1 H2]]. split; [done|].
    split; [done|]. by rewrite Hits.
Qed.

Lemma taken_future its its' f k q j :
  (j <> k -> its' !! j = its !! j) ->
  future (taken k q f) its' j = if decide (j = k) then its' !! k else future f its j.
Proof.
  intros Hits. unfold future, pending. cbn. case_decide as E.
  - by rewrite E, lookup_delete_eq.
  - rewrite lookup_delete_ne by done. by rewrite Hits.
Qed.

End Queued.
