(* ===== verification/SharedInformer.v ===== *)
(** * Shared informers ([tools/cache/shared_informer.go], vendored)

    [HandleDeltas] applies what the queue of [DeltaFifo] hands out to the
    store of [Cache] and sends a notification of each change to the listeners,
    one for each event handler.  A listener's goroutine [pop] takes
    notifications from [addCh] at any time, keeps them in a ring, and hands
    them to the goroutine [run], which calls the handler; [pop] is modelled by
    the two cases of its [select].  A listener is named by its place in the
    slice, and the handler it calls is left to the reader of its notifications.
    Times and durations are nanoseconds; a panic has no result, [None].  The
    mutation detector, which is off unless an environment variable is set, is
    left out. *)

From stdpp Require Import base gmap strings list.
From Stdlib Require Import Lia ZArith.
From S2P Require Import Prelude GoStd Types RingGrowing Cache DeltaFifo.

(** ** Notifications and listeners *)

Inductive notification : Type :=
| updateNotification (oldObj newObj : obj)
| addNotification (newObj : obj)
| deleteNotification (oldObj : obj).

(** [next] is the variable [notification] of [pop], with nil as [None]. *)
Record processorListener : Type := MkListener {
  requestedResyncPeriod : Z;
  l_resyncPeriod : Z;
  nextResync : Z;
  next : option notification;
  pendingNotifications : RingGrowing notification;
}.

Definition initialBufferSize : nat := 1024.

Definition with_nextResync (t : Z) (p : processorListener) : processorListener :=
  {| requestedResyncPeriod := requestedResyncPeriod p; l_resyncPeriod := l_resyncPeriod p; nextResync := t;
     next := next p; pendingNotifications := pendingNotifications p |}.

Definition with_pending (n : option notification) (r : RingGrowing notification) (p : processorListener)
    : processorListener :=
  {| requestedResyncPeriod := requestedResyncPeriod p; l_resyncPeriod := l_resyncPeriod p;
     nextResync := nextResync p; next := n; pendingNotifications := r |}.

Definition determineNextResync (now : Z) (p : processorListener) : processorListener :=
  with_nextResync (now + l_resyncPeriod p) p.

Definition newProcessListener (requested resyncPeriod now : Z) (bufferSize : nat) : processorListener :=
  determineNextResync now
    {| requestedResyncPeriod := requested; l_resyncPeriod := resyncPeriod; nextResync := 0;
       next := None; pendingNotifications := NewRingGrowing bufferSize |}.

Definition setResyncPeriod (d : Z) (p : processorListener) : processorListener :=
  {| requestedResyncPeriod := requestedResyncPeriod p; l_resyncPeriod := d; nextResync := nextResync p;
     next := next p; pendingNotifications := pendingNotifications p |}.

Definition listener_shouldResync (now : Z) (p : processorListener) : bool :=
  if (l_resyncPeriod p =? 0)%Z then false else (nextResync p <? now)%Z || (now =? nextResync p)%Z.

(** [case notificationToAdd, ok := <-p.addCh] *)
Definition pop_add (n : notification) (p : processorListener) : option processorListener :=
  match next p with
  | None => Some (with_pending (Some n) (pendingNotifications p) p)
  | Some x => option_map (fun r => with_pending (Some x) r p) (WriteOne n (pendingNotifications p))
  end.

(** [case nextCh <- notification], which is disabled while there is none *)
Definition pop_dispatch (p : processorListener) : option (option notification * processorListener) :=
  match next p with
  | None => Some (None, p)
  | Some n => match ReadOne (pendingNotifications p) with
              | None => None
              | Some (notification, _, r) => Some (Some n, with_pending notification r p)
              end
  end.

(** ** The processor *)

Record sharedProcessor : Type := MkProcessor {
  listeners : list processorListener;
  syncingListeners : list nat;
}.

Definition with_listeners (ls : list processorListener) (p : sharedProcessor) : sharedProcessor :=
  {| listeners := ls; syncingListeners := syncingListeners p |}.

Definition addListener (l : processorListener) (p : sharedProcessor) : sharedProcessor :=
  {| listeners := listeners p ++ [l]; syncingListeners := syncingListeners p ++ [length (listeners p)] |}.

(** [listener.add] for each of a list of listeners *)
Fixpoint add_to (ids : list nat) (n : notification) (ls : list processorListener) : option (list processorListener) :=
  match ids with
  | [] => Some ls
  | i :: ids => match ls !! i with
               | None => None
               | Some l => match pop_add n l with
                           | None => None
                           | Some l => add_to ids n (<[i := l]> ls)
                           end
               end
  end.

Definition distribute (n : notification) (sync : bool) (p : sharedProcessor) : option sharedProcessor :=
  let ids := if sync then syncingListeners p else seq 0 (length (listeners p)) in
  option_map (fun ls => with_listeners ls p) (add_to ids n (listeners p)).

(** The loop of [shouldResync] from the listener [i] on. *)
Fixpoint shouldResync_loop (i : nat) (now : Z) (ls : list processorListener)
    : list processorListener * list nat :=
  match ls with
  | [] => ([], [])
  | l :: ls =>
      let '(ls', syncing) := shouldResync_loop (S i) now ls in
      if listener_shouldResync now l then (determineNextResync now l :: ls', i :: syncing) else (l :: ls', syncing)
  end.

Definition shouldResync (now : Z) (p : sharedProcessor) : bool * sharedProcessor :=
  let '(ls, syncing) := shouldResync_loop 0 now (listeners p) in
  (negb (length syncing =? 0), {| listeners := ls; syncingListeners := syncing |}).

Definition determineResyncPeriod (desired check : Z) : Z :=
  if (desired =? 0)%Z then desired
  else if (check =? 0)%Z then 0%Z
  else if (desired <? check)%Z then check
  else desired.

Definition resyncCheckPeriodChanged (resyncCheckPeriod : Z) (p : sharedProcessor) : sharedProcessor :=
  with_listeners
    (map (fun l => setResyncPeriod (determineResyncPeriod (requestedResyncPeriod l) resyncCheckPeriod) l) (listeners p)) p.

(** ** The informer *)

Record sharedIndexInformer : Type := MkSharedInformer {
  indexer : threadSafeMap;
  processor : sharedProcessor;
  resyncCheckPeriod : Z;
  defaultEventHandlerResyncPeriod : Z;
  started : bool;
  stopped : bool;
}.

Definition NewSharedIndexInformer (resync : Z) (namespace_indexer : bool) : sharedIndexInformer :=
  {| indexer := NewIndexer namespace_indexer; processor := {| listeners := []; syncingListeners := [] |};
     resyncCheckPeriod := resync; defaultEventHandlerResyncPeriod := resync; started := false; stopped := false |}.

Definition with_store (st : threadSafeMap) (p : sharedProcessor) (s : sharedIndexInformer) : sharedIndexInformer :=
  {| indexer := st; processor := p; resyncCheckPeriod := resyncCheckPeriod s;
     defaultEventHandlerResyncPeriod := defaultEventHandlerResyncPeriod s; started := started s; stopped := stopped s |}.

Definition with_processor (p : sharedProcessor) (s : sharedIndexInformer) : sharedIndexInformer :=
  with_store (indexer s) p s.

Definition with_check_period (d : Z) (p : sharedProcessor) (s : sharedIndexInformer) : sharedIndexInformer :=
  {| indexer := indexer s; processor := p; resyncCheckPeriod := d;
     defaultEventHandlerResyncPeriod := defaultEventHandlerResyncPeriod s; started := started s; stopped := stopped s |}.

(** [Run] once the controller is made *)
Definition set_started (s : sharedIndexInformer) : sharedIndexInformer :=
  {| indexer := indexer s; processor := processor s; resyncCheckPeriod := resyncCheckPeriod s;
     defaultEventHandlerResyncPeriod := defaultEventHandlerResyncPeriod s; started := true; stopped := stopped s |}.

Definition minimumResyncPeriod : Z := 1000000000.

Fixpoint add_synthetic (os : list obj) (i : nat) (ls : list processorListener) : option (list processorListener) :=
  match os with
  | [] => Some ls
  | o :: os => match add_to [i] (addNotification o) ls with
               | None => None
               | Some ls => add_synthetic os i ls
               end
  end.

Section Informer.
Context `{R : MapRange}.

Definition AddEventHandlerWithResyncPeriod (resyncPeriod now : Z) (s : sharedIndexInformer) : option sharedIndexInformer :=
  if stopped s then Some s
  else
    let '(resyncPeriod, s) :=
      if (0 <? resyncPeriod)%Z then
        let resyncPeriod := if (resyncPeriod <? minimumResyncPeriod)%Z then minimumResyncPeriod else resyncPeriod in
        if (resyncPeriod <? resyncCheckPeriod s)%Z then
          if started s then (resyncCheckPeriod s, s)
          else (resyncPeriod, with_check_period resyncPeriod (resyncCheckPeriodChanged resyncPeriod (processor s)) s)
        else (resyncPeriod, s)
      else (resyncPeriod, s) in
    let listener :=
      newProcessListener resyncPeriod (determineResyncPeriod resyncPeriod (resyncCheckPeriod s)) now initialBufferSize in
    let p := addListener listener (processor s) in
    if started s then
      option_map (fun ls => with_processor (with_listeners ls p) s)
        (add_synthetic (store_List (indexer s)) (length (listeners (processor s))) (listeners p))
    else Some (with_processor p s).

Definition AddEventHandler (now : Z) (s : sharedIndexInformer) : option sharedIndexInformer :=
  AddEventHandlerWithResyncPeriod (defaultEventHandlerResyncPeriod s) now s.

End Informer.

(** One round of the loop of [HandleDeltas], with the error it returns. *)
Definition handle_delta (d : Delta) (s : sharedIndexInformer) : option (sharedIndexInformer * option string) :=
  let put stored n isSync :=
    match stored with
    | None => None
    | Some (st, Some err) => Some (with_store st (processor s) s, Some err)
    | Some (st, None) => option_map (fun p => (with_store st p s, None)) (distribute n isSync (processor s))
    end in
  match dType d with
  | Sync | Added | Updated =>
      let isSync := bool_decide (dType d = Sync) in
      match cache_Get (Object d) (indexer s) with
      | Ok (Some old) => put (cache_Update (Object d) (indexer s)) (updateNotification old (Object d)) isSync
      | _ => put (cache_Add (Object d) (indexer s)) (addNotification (Object d)) isSync
      end
  | Deleted => put (cache_Delete (Object d) (indexer s)) (deleteNotification (Object d)) false
  end.

Fixpoint HandleDeltas (ds : Deltas) (s : sharedIndexInformer) : option (sharedIndexInformer * process_result) :=
  match ds with
  | [] => Some (s, Processed)
  | d :: ds => match handle_delta d s with
               | None => None
               | Some (s, Some err) => Some (s, Failed err)
               | Some (s, None) => HandleDeltas ds s
               end
  end.

(** ** Listeners are queues *)

Definition listener_ok (p : processorListener) (q : list notification) : Prop :=
  match next p with
  | None => q = [] /\ ring_ok (pendingNotifications p) []
  | Some n => exists q', q = n :: q' /\ ring_ok (pendingNotifications p) q'
  end.

Definition timing (p : processorListener) : Z * Z * Z := (requestedResyncPeriod p, l_resyncPeriod p, nextResync p).

Lemma new_listener_ok r d now size : 0 < size -> listener_ok (newProcessListener r d now size) [].
Proof. intros Hs. split; [done|]. by apply new_ring_ok. Qed.

Lemma pop_add_ok n p q :
  listener_ok p q -> exists p', pop_add n p = Some p' /\ listener_ok p' (q ++ [n]) /\ timing p' = timing p.
Proof.
  unfold listener_ok, pop_add. destruct (next p) as [x|].
  - intros (q' & -> & Hr). destruct (WriteOne_ok n _ _ Hr) as (r & -> & Hr'). eexists. split; [done|].
    split; [|done]. cbn. by eexists.
  - intros [-> Hr]. eexists. split; [done|]. split; [|done]. cbn. by eexists.
Qed.

Lemma pop_dispatch_ok p q :
  listener_ok p q ->
  match q with
  | [] => pop_dispatch p = Some (None, p)
  | n :: q => exists p', pop_dispatch p = Some (Some n, p') /\ listener_ok p' q /\ timing p' = timing p
  end.
Proof.
  unfold listener_ok, pop_dispatch. destruct (next p) as [x|]; [|by intros [-> _]].
  intros (q' & -> & Hr). destruct q' as [|y q'].
  - rewrite (ReadOne_nil _ Hr). eexists. by split.
  - destruct (ReadOne_cons _ _ _ Hr) as (r & -> & Hr'). eexists. split; [done|]. split; [|done]. cbn. by eexists.
Qed.

Lemma add_to_ok n ids ls qs :
  Forall2 listener_ok ls qs -> NoDup ids -> Forall (fun i => i < length ls) ids ->
  exists ls', add_to ids n ls = Some ls'
    /\ Forall2 listener_ok ls' (imap (fun i q => if decide (i ∈ ids) then q ++ [n] else q) qs)
    /\ timing <$> ls' = timing <$> ls.
Proof.
  revert ls qs. induction ids as [|i ids IH]; intros ls qs Hls Hnd Hlt.
  { exists ls. split_and!; [done| |done]. replace (imap _ qs) with qs; [done|].
    apply list_eq. intros j. rewrite list_lookup_imap. destruct (qs !! j); [|done]. cbn. by rewrite decide_False by set_solver. }
  apply NoDup_cons in Hnd as [Hi Hnd]. apply Forall_cons_1 in Hlt as [Hil Hlt]. cbn [add_to].
  destruct (lookup_lt_is_Some_2 _ _ Hil) as [l Hl]. rewrite Hl.
  destruct (Forall2_lookup_l _ _ _ _ _ Hls Hl) as (q & Hq & Hok).
  destruct (pop_add_ok n l q Hok) as (l' & -> & Hok' & Ht).
  destruct (IH (<[i := l']> ls) (<[i := q ++ [n]]> qs)) as (ls' & -> & Hls' & Hts); [by apply Forall2_insert|done| |].
  { by rewrite length_insert. }
  exists ls'. split_and!; [done| |].
  - replace (imap (fun j q => if decide (j ∈ i :: ids) then q ++ [n] else q) qs)
      with (imap (fun j q => if decide (j ∈ ids) then q ++ [n] else q) (<[i := q ++ [n]]> qs)); [done|].
    apply list_eq. intros j. rewrite !list_lookup_imap. destruct (decide (j = i)) as [->|Hj].
    + rewrite list_lookup_insert_eq by (by eapply lookup_lt_Some). rewrite Hq. cbn.
      rewrite decide_False by done. by rewrite decide_True by left.
    + rewrite list_lookup_insert_ne by done. destruct (qs !! j); [|done]. cbn. f_equal.
      apply decide_ext. set_solver.
  - rewrite Hts. apply list_eq. intros j. rewrite !list_lookup_fmap.
    destruct (decide (j = i)) as [->|Hj].
    + rewrite list_lookup_insert_eq by done. rewrite Hl. cbn. by rewrite Ht.
    + by rewrite list_lookup_insert_ne.
Qed.

Record processor_ok (p : sharedProcessor) (qs : list (list notification)) : Prop := {
  pk_listeners : Forall2 listener_ok (listeners p) qs;
  pk_nodup : NoDup (syncingListeners p);
  pk_bound : Forall (fun i => i < length (listeners p)) (syncingListeners p);
}.

(** Whether the listener [i] hears of a notification. *)
Definition hears (p : sharedProcessor) (i : nat) (sync : bool) : bool :=
  negb sync || bool_decide (i ∈ syncingListeners p).

(** What stays the same of a processor when it distributes. *)
Definition same_listeners (p p' : sharedProcessor) : Prop :=
  syncingListeners p' = syncingListeners p /\ timing <$> listeners p' = timing <$> listeners p.

Lemma distribute_ok n sync p qs :
  processor_ok p qs ->
  exists p', distribute n sync p = Some p' /\ same_listeners p p'
    /\ processor_ok p' (imap (fun i q => if hears p i sync then q ++ [n] else q) qs).
Proof.
  intros [Hl Hnd Hb]. unfold distribute.
  destruct (add_to_ok n (if sync then syncingListeners p else seq 0 (length (listeners p))) (listeners p) qs)
    as (ls & -> & Hls & Ht); [done|by destruct sync; [|apply NoDup_seq]| |].
  { destruct sync; [done|]. apply Forall_forall. intros i Hi%elem_of_seq. lia. }
  eexists. split; [done|]. split; [by split|].
  assert (length ls = length (listeners p)) as Elen.
  { apply (f_equal length) in Ht. by rewrite !length_fmap in Ht. }
  split; cbn; [|done|by rewrite Elen].
  replace (imap _ qs) with (imap (fun i q => if decide (i ∈ if sync then syncingListeners p else seq 0 (length (listeners p)))
    then q ++ [n] else q) qs); [done|].
  apply list_eq. intros j. rewrite !list_lookup_imap. destruct (qs !! j) eqn:Ej; [|done]. cbn. f_equal.
  unfold hears. destruct sync; cbn.
  - by case_bool_decide; case_decide.
  - rewrite decide_True; [done|]. apply elem_of_seq. apply lookup_lt_Some in Ej.
    apply Forall2_length in Hl. lia.
Qed.

(** ** Histories *)

(** What a notification says of the objects of a store. *)
Inductive note_step : gmap string obj -> notification -> gmap string obj -> Prop :=
| note_added its o :
    its !! key_of o = None -> note_step its (addNotification o) (<[key_of o := o]> its)
| note_updated its old o :
    its !! key_of o = Some old -> note_step its (updateNotification old o) (<[key_of o := o]> its)
| note_deleted its o :
    is_Some (its !! key_of o) -> note_step its (deleteNotification o) (delete (key_of o) its).

Inductive note_run : gmap string obj -> list notification -> gmap string obj -> Prop :=
| note_nil its : note_run its [] its
| note_cons its its' its'' n ns : note_step its n its' -> note_run its' ns its'' -> note_run its (n :: ns) its''.

Lemma note_run_app its its' its'' ns ms :
  note_run its ns its' -> note_run its' ms its'' -> note_run its (ns ++ ms) its''.
Proof. induction 1; [done|]. intros. cbn. eapply note_cons; eauto. Qed.

(** A delta as a notification, and whether it is only for the syncing
    listeners; and what it makes of the store. *)
Definition delta_note (its : gmap string obj) (d : Delta) : notification * bool :=
  let o := Object d in
  match dType d with
  | Deleted => (deleteNotification o, false)
  | t => (match its !! key_of o with Some old => updateNotification old o | None => addNotification o end,
          bool_decide (t = Sync))
  end.

Definition apply_delta (its : gmap string obj) (d : Delta) : gmap string obj :=
  let o := Object d in
  match dType d with Deleted => delete (key_of o) its | _ => <[key_of o := o]> its end.

Fixpoint deltas_notes (its : gmap string obj) (ds : Deltas) : list (notification * bool) :=
  match ds with
  | [] => []
  | d :: ds => delta_note its d :: deltas_notes (apply_delta its d) ds
  end.

Definition heard (p : sharedProcessor) (i : nat) (ns : list (notification * bool)) : list notification :=
  map fst (List.filter (fun n => hears p i n.2) ns).

Section Handling.
Context (P : obj -> Prop) (P_meta : forall o, P o -> exists m, Accessor o = Ok m).

Record store_ok (st : threadSafeMap) : Prop := {
  so_cache : cache_ok st;
  so_items : forall k o, items st !! k = Some o -> P o /\ key_of o = k;
}.

Lemma new_store_ok b : store_ok (NewIndexer b).
Proof. split; [apply new_cache_ok|]. intros k o. cbn. by rewrite lookup_empty. Qed.

Lemma delta_key k d : delta_ok P k d -> key_of (Object d) = k.
Proof. intros [Hk _]. unfold key_of. rewrite <- KeyOf_KeyFunc. by rewrite Hk. Qed.

Lemma apply_delta_key its k d :
  delta_ok P k d -> apply_delta its d = match effect d with Some o => <[k := o]> its | None => delete k its end.
Proof. intros Hd. unfold apply_delta, effect. rewrite (delta_key _ _ Hd). by destruct (dType d). Qed.

(** The deltas of a key set its object to the newest. *)
Lemma apply_deltas_lookup its k ds j :
  Forall (delta_ok P k) ds ->
  foldl apply_delta its ds !! j
  = if decide (j = k) then match last ds with Some d => effect d | None => its !! k end else its !! j.
Proof.
  intros Hds. revert its. induction ds as [|d ds IH] using rev_ind; intros its; [by case_decide as E; [rewrite E|]|].
  apply Forall_app in Hds as [Hds Hd%Forall_cons_1]. destruct Hd as [Hd _].
  rewrite foldl_app, last_snoc. cbn [foldl]. rewrite (apply_delta_key _ _ _ Hd).
  case_decide as E.
  - rewrite E. destruct (effect d); [by rewrite lookup_insert_eq|by rewrite lookup_delete_eq].
  - specialize (IH Hds its). try rewrite decide_False in IH by done.
    destruct (effect d); [rewrite lookup_insert_ne by done|rewrite lookup_delete_ne by done]; exact IH.
Qed.

Lemma note_one its k d :
  delta_ok P k d -> (dType d = Deleted -> is_Some (its !! k)) ->
  note_step its (delta_note its d).1 (apply_delta its d).
Proof.
  intros Hd Hdel. unfold delta_note, apply_delta. rewrite (delta_key _ _ Hd).
  destruct (dType d); [| |specialize (Hdel eq_refl)|]; cbn [fst];
    try (destruct (its !! k) eqn:Ek); rewrite <- ?(delta_key _ _ Hd) in *; by constructor.
Qed.

(** They are a history of the store. *)
Lemma notes_run its k ds :
  deltas_ok P its k ds -> note_run its (map fst (deltas_notes its ds)) (foldl apply_delta its ds).
Proof.
  revert its. induction ds as [|d ds IH]; intros its [Hds Hfit]; [by constructor|].
  apply Forall_cons_1 in Hds as [Hd Hds]. cbn [deltas_notes map foldl].
  assert (is_Some (apply_delta its d !! k) <-> dType d <> Deleted) as Hpres.
  { rewrite (apply_delta_key _ _ _ Hd). unfold effect. case_decide.
    - rewrite lookup_delete_eq. split; [by intros []|done].
    - rewrite lookup_insert_eq. by split. }
  cbn [deltas_fit] in Hfit. econstructor; [apply (note_one _ k); [done|]|apply IH; split; [done|]].
  - intros E. rewrite decide_True in Hfit by done. by apply (bool_decide_eq_true_1 _), Hfit.
  - destruct (decide (dType d = Deleted)) as [E|E].
    + rewrite bool_decide_false; [by apply Hfit|]. rewrite Hpres. tauto.
    + rewrite bool_decide_true; [done|]. by rewrite Hpres.
Qed.

Lemma handle_delta_ok k d s qs :
  store_ok (indexer s) -> delta_ok P k d -> processor_ok (processor s) qs ->
  exists st p, handle_delta d s = Some (with_store st p s, None)
    /\ store_ok st /\ items st = apply_delta (items (indexer s)) d /\ same_listeners (processor s) p
    /\ let n := delta_note (items (indexer s)) d in
       processor_ok p (imap (fun i q => if hears (processor s) i n.2 then q ++ [n.1] else q) qs).
Proof.
  intros [Hc Hi] Hd Hp. pose proof (delta_key _ _ Hd) as Hk.
  assert (forall o, P o -> key_of o = k ->
    exists st, store_Update k o (indexer s) = Some st /\ store_ok st /\ items st = <[k := o]> (items (indexer s))) as Hput.
  { intros o Ho Hok. destruct (P_meta o Ho) as (m & Hm).
    destruct (store_Update_ok o m (indexer s) Hc Hm) as (st & E & Hst & Hits & _).
    rewrite <- (key_of_meta _ _ Hm), Hok in E, Hits.
    exists st. split_and!; [done| |done]. split; [done|]. intros j x. rewrite Hits.
    intros [[<- <-]|[_ Hx]]%lookup_insert_Some; auto. }
  destruct Hd as [HKey Hobj]. rewrite KeyOf_KeyFunc in HKey.
  unfold handle_delta, delta_note, apply_delta, cache_Get, cache_Update, cache_Add, cache_Delete. rewrite HKey, Hk.
  destruct (dType d) eqn:Et; try (destruct Hobj as [Hobj|[? _]]; [|done];
    destruct (Hput _ Hobj Hk) as (st & -> & Hst & Hits); cbn [option_map fst snd];
    destruct (items (indexer s) !! k) as [old|];
    [ destruct (distribute_ok (updateNotification old (Object d)) (bool_decide (dType d = Sync)) _ _ Hp) as (p & E & Hs & Hp')
    | destruct (distribute_ok (addNotification (Object d)) (bool_decide (dType d = Sync)) _ _ Hp) as (p & E & Hs & Hp') ];
    rewrite Et in E, Hp'; rewrite E; exists st, p; by split_and!).
  destruct (store_Delete_ok k (indexer s) Hc) as (st & -> & Hst & Hits & _). cbn [option_map fst snd].
  destruct (distribute_ok (deleteNotification (Object d)) false _ _ Hp) as (p & -> & Hs & Hp').
  exists st, p. split_and!; [done| |done|done|done]. split; [done|]. intros j x. rewrite Hits.
  intros [_ Hx]%lookup_delete_Some. auto.
Qed.

(** Handling the deltas of a key neither panics nor fails. *)
Lemma HandleDeltas_ok k ds s qs :
  store_ok (indexer s) -> Forall (delta_ok P k) ds -> processor_ok (processor s) qs ->
  exists st p, HandleDeltas ds s = Some (with_store st p s, Processed)
    /\ store_ok st /\ items st = foldl apply_delta (items (indexer s)) ds /\ same_listeners (processor s) p
    /\ processor_ok p (imap (fun i q => q ++ heard (processor s) i (deltas_notes (items (indexer s)) ds)) qs).
Proof.
  revert s qs. induction ds as [|d ds IH]; intros s qs Hst Hds Hp.
  { exists (indexer s), (processor s). split_and!; [by destruct s|done|done|by split|].
    replace (imap _ qs) with qs; [done|]. apply list_eq. intros j. rewrite list_lookup_imap.
    destruct (qs !! j); [|done]. cbn. by rewrite app_nil_r. }
  apply Forall_cons_1 in Hds as [Hd Hds]. cbn [HandleDeltas].
  destruct (handle_delta_ok k d s qs Hst Hd Hp) as (st1 & p1 & -> & Hst1 & Hits1 & [Hs1 Ht1] & Hp1).
  edestruct (IH (with_store st1 p1 s)) as (st & p & -> & Hst' & Hits & [Hs Ht] & Hp'); [done|done|exact Hp1|].
  exists st, p. split_and!; [done|done| | |].
  - rewrite Hits. cbn. by rewrite Hits1.
  - split; [by rewrite Hs|by rewrite Ht].
  - replace (imap _ qs) with (imap (fun i q => q ++ heard (processor (with_store st1 p1 s)) i
      (deltas_notes (items (indexer (with_store st1 p1 s))) ds))
      (imap (fun i q => if hears (processor s) i (delta_note (items (indexer s)) d).2
                        then q ++ [(delta_note (items (indexer s)) d).1] else q) qs)); [done|].
    apply list_eq. intros j. rewrite !list_lookup_imap. destruct (qs !! j) as [q|]; [|done]. cbn [fmap option_fmap option_map].
    f_equal. cbn [with_store indexer processor deltas_notes]. rewrite Hits1.
    assert (forall ns, heard p1 j ns = heard (processor s) j ns) as Hh.
    { intros ns. unfold heard, hears. by rewrite Hs1. }
    rewrite Hh. unfold heard at 2. cbn [List.filter]. destruct (hears _ _ _); [|done]. by rewrite <- app_assoc.
Qed.

End Handling.

(** ** Resyncs *)

Lemma shouldResync_loop_spec i now ls :
  shouldResync_loop i now ls
  = (map (fun l => if listener_shouldResync now l then determineNextResync now l else l) ls,
     List.filter (fun j => match ls !! (j - i) with Some l => listener_shouldResync now l | None => false end)
       (seq i (length ls))).
Proof.
  revert i. induction ls as [|l ls IH]; intros i; [done|]. cbn [shouldResync_loop map length seq List.filter].
  rewrite IH, Nat.sub_diag. cbn [lookup list_lookup].
  assert (List.filter (fun j => match (l :: ls) !! (j - i) with Some l => listener_shouldResync now l | None => false end)
            (seq (S i) (length ls))
          = List.filter (fun j => match ls !! (j - S i) with Some l => listener_shouldResync now l | None => false end)
            (seq (S i) (length ls))) as ->.
  { apply filter_ext_in. intros j Hj%list_elem_of_In%elem_of_seq.
    replace (j - i) with (S (j - S i)) by lia. done. }
  by destruct (listener_shouldResync now l).
Qed.

Lemma shouldResync_ok now p qs : processor_ok p qs -> processor_ok (shouldResync now p).2 qs.
Proof.
  intros [Hl Hnd Hb]. unfold shouldResync. rewrite shouldResync_loop_spec. split; cbn.
  - clear -Hl. induction Hl as [|l q ls qs Hlq _ IH]; cbn; constructor; [|done]. by destruct (listener_shouldResync now l).
  - apply NoDup_ListNoDup, List.NoDup_filter, NoDup_ListNoDup, NoDup_seq.
  - apply Forall_forall. intros j Hj%list_elem_of_In%filter_In. destruct Hj as [Hj%list_elem_of_In%elem_of_seq _].
    rewrite length_map. lia.
Qed.
