(* ===== verification/Listers.v ===== *)
(** * The listers ([pkg/client/listers/sink/v1alpha1])

    The generated listers of the four kinds read an informer's cache.  They
    are one text with the kind as its only difference: the [Section] has the
    text, over a class [SinkKind] of kinds, and the definitions after it are
    the functions of the four files. *)

From stdpp Require Import base gmap strings list.
From Stdlib Require Import Ascii.
From S2P Require Import Prelude GoStd Types Cache.

(** ** Names of the API group ([register.go]) *)

Definition GroupName : string := "observability.knative.dev".

Record GroupResource : Type := MkGroupResource { Group : string; gr_Resource : string }.

Definition Resource (resource : string) : GroupResource := {| Group := GroupName; gr_Resource := resource |}.

(** ** Kinds of sink *)

(** [as_kind] is the type assertion to a pointer to the kind; it panics on
    [None]. *)
Class SinkKind (T : Type) := {
  of_kind : T -> obj;
  as_kind : obj -> option T;
  kind_meta : T -> ObjectMeta;
  as_of : forall o x, as_kind o = Some x <-> o = of_kind x;
  meta_of : forall x, Accessor (of_kind x) = Ok (kind_meta x);
}.

#[export] Instance LogSink_kind : SinkKind LogSink.
Proof.
  refine {| of_kind := ALogSink; as_kind := fun o => match o with ALogSink s => Some s | _ => None end;
            kind_meta := ls_ObjectMeta |}; [|done].
  intros [] x; split; congruence.
Defined.

#[export] Instance ClusterLogSink_kind : SinkKind ClusterLogSink.
Proof.
  refine {| of_kind := AClusterLogSink; as_kind := fun o => match o with AClusterLogSink s => Some s | _ => None end;
            kind_meta := cls_ObjectMeta |}; [|done].
  intros [] x; split; congruence.
Defined.

#[export] Instance MetricSink_kind : SinkKind MetricSink.
Proof.
  refine {| of_kind := AMetricSink; as_kind := fun o => match o with AMetricSink s => Some s | _ => None end;
            kind_meta := ms_ObjectMeta |}; [|done].
  intros [] x; split; congruence.
Defined.

#[export] Instance ClusterMetricSink_kind : SinkKind ClusterMetricSink.
Proof.
  refine {| of_kind := AClusterMetricSink;
            as_kind := fun o => match o with AClusterMetricSink s => Some s | _ => None end;
            kind_meta := cms_ObjectMeta |}; [|done].
  intros [] x; split; congruence.
Defined.

(** ** The text of a lister *)

Inductive get_error : Type :=
| NotFound (qualifiedResource : GroupResource) (name : string)
| IndexerError (e : string).

Record Lister (S : Type) : Type := MkLister { l_indexer : S }.
Arguments MkLister {S}.
Arguments l_indexer {S}.

Record NamespaceLister (S : Type) : Type := MkNamespaceLister { nl_indexer : S; nl_namespace : string }.
Arguments MkNamespaceLister {S}.
Arguments nl_indexer {S}.
Arguments nl_namespace {S}.

Section Listers.
Context {S : Type} `{Indexer S}.

Definition namespaced (l : Lister S) (namespace : string) : NamespaceLister S :=
  {| nl_indexer := l_indexer l; nl_namespace := namespace |}.

Section Kind.
Context (T : Type) `{SinkKind T}.

Definition append_kind (m : obj) (ret : list T) : option (list T) :=
  match as_kind m with Some x => Some (ret ++ [x]) | None => None end.

Definition lister_List (s : Lister S) (selector : Selector) : option (list T * option string) :=
  ListAll (l_indexer s) selector append_kind [].

Definition namespaceLister_List (s : NamespaceLister S) (selector : Selector) : option (list T * option string) :=
  ListAllByNamespace (nl_indexer s) (nl_namespace s) selector append_kind [].

Definition namespaceLister_Get (resource : string) (s : NamespaceLister S) (name : string)
    : option (res get_error T) :=
  match GetByKey (nl_namespace s +:+ String "/" name) (nl_indexer s) with
  | Err e => Some (Err (IndexerError e))
  | Ok None => Some (Err (NotFound (Resource resource) name))
  | Ok (Some o) => match as_kind o with Some x => Some (Ok x) | None => None end
  end.

End Kind.

(** ** The four files *)

Definition logSinkLister : Type := Lister S.
Definition NewLogSinkLister (indexer : S) : logSinkLister := MkLister indexer.
Definition logSinkLister_List : logSinkLister -> Selector -> option (list LogSink * option string) :=
  lister_List LogSink.
Definition LogSinks : logSinkLister -> string -> NamespaceLister S := namespaced.
Definition logSinkNamespaceLister_List : NamespaceLister S -> Selector -> option (list LogSink * option string) :=
  namespaceLister_List LogSink.
Definition logSinkNamespaceLister_Get : NamespaceLister S -> string -> option (res get_error LogSink) :=
  namespaceLister_Get LogSink "logsink".

Definition clusterLogSinkLister : Type := Lister S.
Definition NewClusterLogSinkLister (indexer : S) : clusterLogSinkLister := MkLister indexer.
Definition clusterLogSinkLister_List : clusterLogSinkLister -> Selector ->
    option (list ClusterLogSink * option string) :=
  lister_List ClusterLogSink.
Definition ClusterLogSinks : clusterLogSinkLister -> string -> NamespaceLister S := namespaced.
Definition clusterLogSinkNamespaceLister_List : NamespaceLister S -> Selector ->
    option (list ClusterLogSink * option string) :=
  namespaceLister_List ClusterLogSink.
Definition clusterLogSinkNamespaceLister_Get : NamespaceLister S -> string ->
    option (res get_error ClusterLogSink) :=
  namespaceLister_Get ClusterLogSink "clusterlogsink".

Definition metricSinkLister : Type := Lister S.
Definition NewMetricSinkLister (indexer : S) : metricSinkLister := MkLister indexer.
Definition metricSinkLister_List : metricSinkLister -> Selector -> option (list MetricSink * option string) :=
  lister_List MetricSink.
Definition MetricSinks : metricSinkLister -> string -> NamespaceLister S := namespaced.
Definition metricSinkNamespaceLister_List : NamespaceLister S -> Selector ->
    option (list MetricSink * option string) :=
  namespaceLister_List MetricSink.
Definition metricSinkNamespaceLister_Get : NamespaceLister S -> string -> option (res get_error MetricSink) :=
  namespaceLister_Get MetricSink "metricsink".

Definition clusterMetricSinkLister : Type := Lister S.
Definition NewClusterMetricSinkLister (indexer : S) : clusterMetricSinkLister := MkLister indexer.
Definition clusterMetricSinkLister_List : clusterMetricSinkLister -> Selector ->
    option (list ClusterMetricSink * option string) :=
  lister_List ClusterMetricSink.
Definition ClusterMetricSinks : clusterMetricSinkLister -> string -> NamespaceLister S := namespaced.
Definition clusterMetricSinkNamespaceLister_List : NamespaceLister S -> Selector ->
    option (list ClusterMetricSink * option string) :=
  namespaceLister_List ClusterMetricSink.
Definition clusterMetricSinkNamespaceLister_Get : NamespaceLister S -> string ->
    option (res get_error ClusterMetricSink) :=
  namespaceLister_Get ClusterMetricSink "clustermetricsink".

(** ** Facts about listing *)

Context `{!IndexerLaws S}.

(** The objects a selector picks, in a namespace or in all of them. *)
Definition picks (ns : string) (sel : Selector) : obj -> bool :=
  meta_ok (fun m => (String.eqb ns NamespaceAll || String.eqb (Namespace m) ns) && sel (set_of m)).

Lemma contents_meta s : store_ok s -> Forall has_meta (values (contents s)).
Proof.
  intros Hs. apply Forall_forall. intros o ([k o'] & -> & Ho%elem_of_map_to_list)%list_elem_of_fmap.
  cbn. destruct (contents_keyed s k o' Hs Ho) as (m & Hm & _). apply has_meta_ok. by exists m.
Qed.

Section Facts.
Context {T : Type} `{SinkKind T}.

(** The outcome of a listing that should give the objects [os]: all of them,
    or a panic on one that is of another kind. *)
Definition listing (r : option (list T * option string)) (os : list obj) : Prop :=
  match r with
  | Some (l, err) => err = None /\ map of_kind l ≡ₚ os
  | None => exists o, o ∈ os /\ as_kind o = None
  end.

Lemma listing_perm r os os' : os ≡ₚ os' -> listing r os -> listing r os'.
Proof.
  intros Hp. destruct r as [[l e]|]; cbn.
  - intros [-> ->]. done.
  - intros (o & Ho & ?). exists o. by rewrite <- Hp.
Qed.

Lemma append_matching_listing keep ms :
  Forall has_meta ms -> forall ret, 
  match append_matching keep (append_kind T) ms ret with
  | Some (l, err) => err = None /\ map of_kind l = map of_kind ret ++ List.filter (meta_ok keep) ms
  | None => exists o, o ∈ List.filter (meta_ok keep) ms /\ as_kind o = None
  end.
Proof.
  induction 1 as [|o ms (m & Hm)%has_meta_ok _ IH]; intros ret; cbn; [by rewrite app_nil_r|].
  assert (meta_ok keep o = keep m) as -> by (unfold meta_ok; by rewrite Hm). rewrite Hm.
  destruct (keep m); [|apply IH]. unfold append_kind at 1. destruct (as_kind o) as [x|] eqn:Ex.
  - apply as_of in Ex as ->. specialize (IH (ret ++ [x])).
    destruct (append_matching _ _ _ _) as [[l e]|].
    + by rewrite map_app, <- app_assoc in IH.
    + destruct IH as (o & Ho & ?). exists o. split; [by right|done].
  - exists o. split; [by left|done].
Qed.

Lemma filter_perm (p : obj -> bool) l l' : l ≡ₚ l' -> List.filter p l ≡ₚ List.filter p l'.
Proof.
  induction 1 as [|x l l' _ IH|x y l|l1 l2 l3 _ IH1 _ IH2]; cbn; [done| | |by rewrite IH1].
  - destruct (p x); by rewrite IH.
  - destruct (p x), (p y); try done. apply Permutation_swap.
Qed.

Lemma listing_matching keep ms vs :
  Forall has_meta vs -> ms ≡ₚ vs ->
  listing (append_matching keep (append_kind T) ms []) (List.filter (meta_ok keep) vs).
Proof.
  intros Hv Hp. assert (Forall has_meta ms) as Hm by (by rewrite Hp).
  apply (listing_perm _ (List.filter (meta_ok keep) ms)); [by apply filter_perm|].
  pose proof (append_matching_listing keep ms Hm []) as Hl. unfold listing.
  destruct (append_matching _ _ _ _) as [[l e]|]; [|done]. cbn in Hl. by destruct Hl as [-> ->].
Qed.

Lemma filter_ext_meta (f g : ObjectMeta -> bool) l :
  (forall m, f m = g m) -> List.filter (meta_ok f) l = List.filter (meta_ok g) l.
Proof. intros Hfg. apply filter_ext. intros o. unfold meta_ok. by destruct (Accessor o). Qed.

Lemma filter_filter_meta (f g : ObjectMeta -> bool) l :
  List.filter (meta_ok f) (List.filter (meta_ok g) l) = List.filter (meta_ok (fun m => g m && f m)) l.
Proof.
  assert (forall o, meta_ok (fun m => g m && f m) o = meta_ok g o && meta_ok f o) as Ha.
  { intros o. unfold meta_ok. by destruct (Accessor o). }
  induction l as [|o l IH]; cbn; [done|]. rewrite Ha.
  destruct (meta_ok g o); cbn; [|done]. by rewrite IH.
Qed.

Lemma lister_List_listing s sel :
  store_ok (l_indexer s) ->
  listing (lister_List T s sel) (List.filter (picks NamespaceAll sel) (values (contents (l_indexer s)))).
Proof.
  intros Hs. apply listing_matching; [by apply contents_meta|by apply list_contents].
Qed.

Lemma namespaceLister_List_listing s sel :
  store_ok (nl_indexer s) ->
  listing (namespaceLister_List T s sel)
          (List.filter (picks (nl_namespace s) sel) (values (contents (nl_indexer s)))).
Proof.
  intros Hs. pose proof (contents_meta _ Hs) as Hm. pose proof (list_contents _ Hs) as Hl.
  unfold namespaceLister_List, ListAllByNamespace, picks. destruct (String.eqb (nl_namespace s) NamespaceAll).
  - by apply listing_matching.
  - destruct (Index _ _ _) as [its|e] eqn:Ei.
    + apply (index_contents _ _ _ Hs) in Ei. cbn [orb].
      rewrite <- (filter_filter_meta (fun m => sel (set_of m)) (fun m => String.eqb (Namespace m) (nl_namespace s))).
      apply listing_matching; [|done]. apply List.Forall_forall. intros o [Ho _]%filter_In.
      by eapply List.Forall_forall in Hm.
    + by apply listing_matching.
Qed.

(** ** Facts about getting *)

Definition slash_free (s : string) : bool := str_forall (not_char "/") s.

(** The API server admits no slash in names and namespaces. *)
Definition named_ok (o : obj) : Prop :=
  meta_ok (fun m => slash_free (Namespace m) && slash_free (Name m)) o = true.

Lemma meta_key_cases m : 
  (Namespace m = EmptyString /\ meta_key m = Name m)
  \/ (Namespace m <> EmptyString /\ meta_key m = Namespace m +:+ String "/" (Name m)).
Proof.
  unfold meta_key. destruct (String.eqb (Namespace m) EmptyString) eqn:E; cbn.
  - left. by apply String.eqb_eq in E.
  - right. by apply String.eqb_neq in E.
Qed.

Lemma meta_key_at m ns name :
  slash_free (Namespace m) && slash_free (Name m) = true -> slash_free ns = true ->
  meta_key m = ns +:+ String "/" name <-> ns <> EmptyString /\ Namespace m = ns /\ Name m = name.
Proof.
  intros [Hns Hn]%andb_true_iff Hf. destruct (meta_key_cases m) as [[E ->]|[E ->]].
  - split; [|by intros (? & <- & _)]. intros E'. unfold slash_free in Hn. by rewrite E', sep_free_no_sep in Hn.
  - split; [|by intros (_ & -> & ->)]. intros [<- <-]%sep_split; done.
Qed.

Lemma values_elem (its : gmap string obj) o : o ∈ values its <-> exists k, its !! k = Some o.
Proof.
  unfold values. split.
  - intros ([k o'] & -> & Ho%elem_of_map_to_list)%list_elem_of_fmap. by exists k.
  - intros [k Ho%elem_of_map_to_list]. apply list_elem_of_fmap. by exists (k, o).
Qed.

(** The object at a name, as the key of the lister finds it. *)
Definition is_at (ns name : string) (o : obj) : bool :=
  meta_ok (fun m => String.eqb (Namespace m) ns && String.eqb (Name m) name) o.

Lemma stored_at s ns name o :
  store_ok s -> Forall named_ok (values (contents s)) -> slash_free ns = true -> ns <> EmptyString ->
  contents s !! (ns +:+ String "/" name) = Some o <-> o ∈ values (contents s) /\ is_at ns name o = true.
Proof.
  intros Hs Hn Hf Hne. split.
  - intros Ho. assert (o ∈ values (contents s)) as Hin by (apply values_elem; by eexists). split; [done|].
    destruct (contents_keyed _ _ _ Hs Ho) as (m & Hm & Hk). eapply Forall_forall in Hn; [|done].
    unfold named_ok, is_at, meta_ok in *. rewrite Hm in *. symmetry in Hk.
    apply meta_key_at in Hk as (_ & -> & ->); [|done|done]. by rewrite !String.eqb_refl.
  - intros [[k Ho]%values_elem Hat]. assert (o ∈ values (contents s)) as Hin by (apply values_elem; by eexists).
    destruct (contents_keyed _ _ _ Hs Ho) as (m & Hm & ->). eapply Forall_forall in Hn; [|done].
    unfold named_ok, is_at, meta_ok in *. rewrite Hm in *.
    apply andb_true_iff in Hat as [E1%String.eqb_eq E2%String.eqb_eq].
    assert (meta_key m = ns +:+ String "/" name) as <- by (by apply meta_key_at). done.
Qed.

(** [Get] gives the object that has the name in the namespace, a "not found"
    error exactly when there is none, and panics when it is of another
    kind. *)
Definition gets (resource : string) (r : option (res get_error T)) (ns name : string) (os : list obj) : Prop :=
  match r with
  | Some (Ok x) => of_kind x ∈ os /\ is_at ns name (of_kind x) = true
  | Some (Err e) => e = NotFound (Resource resource) name /\ Forall (fun o => is_at ns name o = false) os
  | None => exists o, o ∈ os /\ is_at ns name o = true /\ as_kind o = None
  end.

Lemma namespaceLister_Get_gets resource s ns name :
  store_ok s -> Forall named_ok (values (contents s)) -> slash_free ns = true -> ns <> EmptyString ->
  gets resource (namespaceLister_Get T resource (MkNamespaceLister s ns) name) ns name (values (contents s)).
Proof.
  intros Hs Hn Hf Hne. unfold namespaceLister_Get, gets. cbn [nl_indexer nl_namespace]. rewrite (get_contents _ _ Hs).
  destruct (contents s !! _) as [o|] eqn:Eo.
  - apply stored_at in Eo as [Hin Hat]; [|done..]. destruct (as_kind o) as [x|] eqn:Ex; [|by exists o].
    by apply as_of in Ex as ->.
  - split; [done|]. apply Forall_forall. intros o Ho. apply not_true_is_false. intros Hat.
    assert (contents s !! (ns +:+ String "/" name) = Some o) by (by apply stored_at). congruence.
Qed.

(** Objects without a namespace are stored under their name alone, which [Get]
    never asks for. *)
Lemma namespaceLister_Get_unscoped resource s ns name :
  store_ok s -> Forall named_ok (values (contents s)) ->
  Forall (fun o => in_namespace EmptyString o = true) (values (contents s)) ->
  namespaceLister_Get T resource (MkNamespaceLister s ns) name = Some (Err (NotFound (Resource resource) name)).
Proof.
  intros Hs Hn Hc. unfold namespaceLister_Get. cbn [nl_indexer nl_namespace]. rewrite (get_contents _ _ Hs).
  destruct (contents s !! _) as [o|] eqn:Eo; [|done]. exfalso.
  assert (o ∈ values (contents s)) as Hin by (apply values_elem; by eexists).
  destruct (contents_keyed _ _ _ Hs Eo) as (m & Hm & Hk).
  eapply Forall_forall in Hn; [|done]. eapply Forall_forall in Hc; [|done].
  apply (in_namespace_eq o m) in Hc; [|done]. unfold named_ok, meta_ok in Hn. rewrite Hm in Hn.
  apply andb_true_iff in Hn as [_ Hn]. destruct (meta_key_cases m) as [[_ E]|[E _]]; [|by rewrite <- Hc in E].
  rewrite E in Hk. rewrite <- Hk in Hn. unfold slash_free in Hn. by rewrite sep_free_no_sep in Hn.
Qed.

End Facts.

(** ** Properties *)

Definition lists_exactly {T} `{SinkKind T} (s : S)
    (list_all : Lister S -> Selector -> option (list T * option string))
    (in_ns : Lister S -> string -> NamespaceLister S)
    (list_ns : NamespaceLister S -> Selector -> option (list T * option string)) : Prop :=
  forall sel,
    listing (list_all (MkLister s) sel) (List.filter (picks NamespaceAll sel) (values (contents s)))
    /\ forall ns, listing (list_ns (in_ns (MkLister s) ns) sel) (List.filter (picks ns sel) (values (contents s))).

(** C33: Every lister lists each object of the cache that the selector matches
    exactly once, in its namespace or in all of them, whether or not the cache
    has the namespace index, and never returns an error; it panics only on an
    object of another kind. *)
Theorem listers_exact (s : S) :
  store_ok s ->
  lists_exactly s logSinkLister_List LogSinks logSinkNamespaceLister_List
  /\ lists_exactly s clusterLogSinkLister_List ClusterLogSinks clusterLogSinkNamespaceLister_List
  /\ lists_exactly s metricSinkLister_List MetricSinks metricSinkNamespaceLister_List
  /\ lists_exactly s clusterMetricSinkLister_List ClusterMetricSinks clusterMetricSinkNamespaceLister_List.
Proof.
  intros Hs. split_and!; intros sel;
    (split; [by apply (lister_List_listing (MkLister s))|
             intros ns; by apply (namespaceLister_List_listing (MkNamespaceLister s ns))]).
Qed.

(** C34: [Get] of the listers of the namespaced kinds finds the sink of that
    name in the namespace and reports every other name as not found.  The
    generated listers of the cluster kinds ask for a namespace too, but a
    cluster sink is stored under its bare name: they never find one. *)
Theorem listers_get (s : S) (ns name : string) :
  store_ok s -> Forall named_ok (values (contents s)) -> slash_free ns = true ->
  (ns <> EmptyString ->
     gets "logsink" (logSinkNamespaceLister_Get (LogSinks (NewLogSinkLister s) ns) name)
       ns name (values (contents s))
     /\ gets "metricsink" (metricSinkNamespaceLister_Get (MetricSinks (NewMetricSinkLister s) ns) name)
          ns name (values (contents s)))
  /\ (Forall (fun o => in_namespace EmptyString o = true) (values (contents s)) ->
     clusterLogSinkNamespaceLister_Get (ClusterLogSinks (NewClusterLogSinkLister s) ns) name
       = Some (Err (NotFound (Resource "clusterlogsink") name))
     /\ clusterMetricSinkNamespaceLister_Get (ClusterMetricSinks (NewClusterMetricSinkLister s) ns) name
       = Some (Err (NotFound (Resource "clustermetricsink") name))).
Proof.
  intros Hs Hn Hf. split.
  - intros Hne. by split; apply namespaceLister_Get_gets.
  - intros Hc. by split; apply namespaceLister_Get_unscoped.
Qed.

End Listers.

(** ** A cache after some reports *)

Definition meta_named (ns name : string) : ObjectMeta :=
  {| Name := name; GenerateName := EmptyString; Namespace := ns;
     SelfLink := EmptyString; UID := EmptyString; ResourceVersion := EmptyString;
     Generation := 0; CreationTimestamp := 0; DeletionTimestamp := None;
     DeletionGracePeriodSeconds := None; Labels := Some {[ "team" := ns ]}; Annotations := None;
     OwnerReferences := None; meta_Initializers := None; Finalizers := None; ClusterName := EmptyString |}.

Definition plain_spec (url : string) : SinkSpec :=
  {| SinkType := "webhook"; spec_syslog := MkSyslogSpec EmptyString 0 false; spec_webhook := MkWebhookSpec url;
     InsecureSkipVerify := false |}.

Definition plain_sink (ns name url : string) : LogSink :=
  {| ls_TypeMeta := MkTypeMeta EmptyString EmptyString; ls_ObjectMeta := meta_named ns name;
     ls_Spec := plain_spec url |}.

Definition plain_cluster_sink (name url : string) : ClusterLogSink :=
  {| cls_TypeMeta := MkTypeMeta EmptyString EmptyString; cls_ObjectMeta := meta_named EmptyString name;
     cls_Spec := plain_spec url |}.

(** Listed at first, then changed, deleted through a tombstone and added. *)
Definition some_reports : list cache_op :=
  [ReplaceObjects [ALogSink (plain_sink "ns1" "a" "https://a"); ALogSink (plain_sink "ns2" "b" "https://b")];
   PutObject (ALogSink (plain_sink "ns1" "a" "https://a2"));
   DropObject (DeletedFinalState "ns2/b" OtherObject);
   PutObject (ALogSink (plain_sink "ns3" "c" "https://c"))].

Definition cluster_reports : list cache_op := [PutObject (AClusterLogSink (plain_cluster_sink "all" "https://all"))].

Definition cache_after (ops : list cache_op) (b : bool) : threadSafeMap :=
  default (NewIndexer b) (@cache_run map_order ops (NewIndexer b)).

Lemma cache_after_ok ops b : Forall op_ok ops -> cache_ok (cache_after ops b).
Proof.
  intros Hops. destruct (@cache_run_ok map_order ops b Hops) as (st & E & Hc & _).
  unfold cache_after. by rewrite E.
Qed.

Lemma Forall_of_forallb {A} (f : A -> bool) l : forallb f l = true -> Forall (fun x => f x = true) l.
Proof. intros Hf. apply Forall_forall. intros x Hx%list_elem_of_In. by eapply forallb_forall in Hf. Qed.

Lemma named_reports ops :
  ops = some_reports \/ ops = cluster_reports -> Forall named_ok (values (items (cache_after ops true))).
Proof.
  intros [-> | ->]; apply (Forall_of_forallb (meta_ok (fun m => slash_free (Namespace m) && slash_free (Name m))));
    vm_compute; reflexivity.
Qed.

Lemma some_reports_ok : Forall op_ok some_reports.
Proof. repeat first [constructor | by eexists]. Qed.

Lemma cluster_reports_ok : Forall op_ok cluster_reports.
Proof. repeat first [constructor | by eexists]. Qed.

Example some_reports_contents :
  values (items (cache_after some_reports true))
  ≡ₚ [ALogSink (plain_sink "ns1" "a" "https://a2"); ALogSink (plain_sink "ns3" "c" "https://c")].
Proof. vm_compute. first [reflexivity | apply Permutation_swap]. Qed.

Lemma listers_exact_witness :
  let L := @cache_indexer map_order in
  let st := cache_after some_reports true in
  listing (@logSinkNamespaceLister_List _ L (LogSinks (NewLogSinkLister st) "ns1") (fun _ => true))
          [ALogSink (plain_sink "ns1" "a" "https://a2")].
Proof.
  cbn zeta.
  exact (proj2 (proj1 (@listers_exact _ (@cache_indexer map_order) (@cache_laws map_order)
    (cache_after some_reports true) (cache_after_ok _ _ some_reports_ok)) (fun _ => true)) "ns1").
Defined.

Lemma listers_get_witness :
  let L := @cache_indexer map_order in
  let st := cache_after cluster_reports true in
  items st = {[ "all" := AClusterLogSink (plain_cluster_sink "all" "https://all") ]}
  /\ @clusterLogSinkNamespaceLister_Get _ L (ClusterLogSinks (NewClusterLogSinkLister st) EmptyString) "all"
     = Some (Err (NotFound (Resource "clusterlogsink") "all"))
  /\ gets "logsink"
       (@logSinkNamespaceLister_Get _ L
          (LogSinks (NewLogSinkLister (cache_after some_reports true)) "ns1") "a") "ns1" "a"
       (values (items (cache_after some_reports true))).
Proof.
  cbn zeta. split_and!.
  - vm_compute. reflexivity.
  - refine (proj1 (proj2 (@listers_get _ (@cache_indexer map_order) (@cache_laws map_order)
      (cache_after cluster_reports true) EmptyString "all" (cache_after_ok _ _ cluster_reports_ok)
      (named_reports _ (or_intror eq_refl)) eq_refl) _)).
    apply Forall_of_forallb. vm_compute. reflexivity.
  - refine (proj1 (proj1 (@listers_get _ (@cache_indexer map_order) (@cache_laws map_order)
      (cache_after some_reports true) "ns1" "a" (cache_after_ok _ _ some_reports_ok)
      (named_reports _ (or_introl eq_refl)) eq_refl) _)).
    discriminate.
Defined.
