(* ===== verification/InformerFactory.v ===== *)
(** * The informer factory ([pkg/client/informers/externalversions])

    [sharedInformerFactory] hands out one informer per type and starts each
    at most once.  Informers belong to client-go; here one is a record of what
    the factory gives it, kept in a heap that the factory's map points into,
    and [running] has the goroutines started with [go informer.Run].  Every
    method of the factory takes its lock for its whole body, so a method is
    one function on the state. *)

From stdpp Require Import base gmap strings list.
From Stdlib Require Import Ascii ZArith.
From S2P Require Import Prelude GoStd Types Cache Listers.

(** ** Types and requests *)

(** [reflect.TypeOf] of a pointer to a resource. *)
Definition LogSink_type : string := "*v1alpha1.LogSink".
Definition ClusterLogSink_type : string := "*v1alpha1.ClusterLogSink".
Definition MetricSink_type : string := "*v1alpha1.MetricSink".
Definition ClusterMetricSink_type : string := "*v1alpha1.ClusterMetricSink".

Inductive call_verb : Type := ListCall | WatchCall.

(** A method of the typed client for a resource in a namespace. *)
Record client_call (Opts : Type) : Type := MkClientCall {
  cc_verb : call_verb; cc_resource : string; cc_namespace : string; cc_options : Opts;
}.
Arguments MkClientCall {Opts}.
Arguments cc_verb {Opts}.
Arguments cc_resource {Opts}.
Arguments cc_namespace {Opts}.
Arguments cc_options {Opts}.

(** What [cache.NewSharedIndexInformer] is called with. *)
Record SharedIndexInformer (Opts : Type) : Type := MkInformer {
  ListFunc : Opts -> client_call Opts;
  WatchFunc : Opts -> client_call Opts;
  objectType : string;
  resyncPeriod : Z;
  namespace_index : bool;
}.
Arguments MkInformer {Opts}.
Arguments ListFunc {Opts}.
Arguments WatchFunc {Opts}.
Arguments objectType {Opts}.
Arguments resyncPeriod {Opts}.
Arguments namespace_index {Opts}.

Record sharedInformerFactory (Opts : Type) : Type := MkFactory {
  f_namespace : string;
  f_tweak : option (Opts -> Opts);
  defaultResync : Z;
  customResync : gmap string Z;
  informers : gmap string nat;
  startedInformers : gmap string bool;
}.
Arguments MkFactory {Opts}.
Arguments f_namespace {Opts}.
Arguments f_tweak {Opts}.
Arguments defaultResync {Opts}.
Arguments customResync {Opts}.
Arguments informers {Opts}.
Arguments startedInformers {Opts}.

Record fstate (Opts : Type) : Type := MkFstate {
  factory : sharedInformerFactory Opts;
  heap : list (SharedIndexInformer Opts);
  running : list nat;
}.
Arguments MkFstate {Opts}.
Arguments factory {Opts}.
Arguments heap {Opts}.
Arguments running {Opts}.

Section Factory.
Context {Opts : Type}.

(** A tweak changes the options through a pointer; nil does nothing. *)
Definition TweakListOptionsFunc : Type := option (Opts -> Opts).
Definition tweaked (t : TweakListOptionsFunc) (o : Opts) : Opts := match t with Some f => f o | None => o end.

(** ** Construction ([factory.go]) *)

Definition SharedInformerOption : Type := sharedInformerFactory Opts -> sharedInformerFactory Opts.

(** The durations by object, in the order in which the loop visits them. *)
Definition WithCustomResyncConfig (resyncConfig : list (string * Z)) : SharedInformerOption :=
  fun f => {| f_namespace := f_namespace f; f_tweak := f_tweak f; defaultResync := defaultResync f;
              customResync := foldl (fun m '(t, v) => <[t := v]> m) (customResync f) resyncConfig;
              informers := informers f; startedInformers := startedInformers f |}.

Definition WithTweakListOptions (t : TweakListOptionsFunc) : SharedInformerOption :=
  fun f => {| f_namespace := f_namespace f; f_tweak := t; defaultResync := defaultResync f;
              customResync := customResync f; informers := informers f; startedInformers := startedInformers f |}.

Definition WithNamespace (namespace : string) : SharedInformerOption :=
  fun f => {| f_namespace := namespace; f_tweak := f_tweak f; defaultResync := defaultResync f;
              customResync := customResync f; informers := informers f; startedInformers := startedInformers f |}.

Definition NewSharedInformerFactoryWithOptions (resync : Z) (options : list SharedInformerOption)
    : sharedInformerFactory Opts :=
  foldl (fun f opt => opt f)
    {| f_namespace := NamespaceAll; f_tweak := None; defaultResync := resync;
       customResync := ∅; informers := ∅; startedInformers := ∅ |} options.

Definition NewSharedInformerFactory (resync : Z) : sharedInformerFactory Opts :=
  NewSharedInformerFactoryWithOptions resync [].

Definition NewFilteredSharedInformerFactory (resync : Z) (namespace : string) (t : TweakListOptionsFunc)
    : sharedInformerFactory Opts :=
  NewSharedInformerFactoryWithOptions resync [WithNamespace namespace; WithTweakListOptions t].

(** ** Informers *)

Definition InformerFor (informerType : string) (newFunc : Z -> SharedIndexInformer Opts) (st : fstate Opts)
    : nat * fstate Opts :=
  let f := factory st in
  match informers f !! informerType with
  | Some informer => (informer, st)
  | None =>
      let resyncPeriod := match customResync f !! informerType with
                          | Some d => d
                          | None => defaultResync f
                          end in
      let informer := List.length (heap st) in
      (informer,
       {| factory := {| f_namespace := f_namespace f; f_tweak := f_tweak f; defaultResync := defaultResync f;
                        customResync := customResync f; informers := <[informerType := informer]> (informers f);
                        startedInformers := startedInformers f |};
          heap := heap st ++ [newFunc resyncPeriod];
          running := running st |})
  end.

(** The four files of [sink/v1alpha1]. *)

Definition NewFilteredLogSinkInformer (namespace : string) (resync : Z) (indexers : bool)
    (t : TweakListOptionsFunc) : SharedIndexInformer Opts :=
  {| ListFunc := fun options => MkClientCall ListCall "logsinks" namespace (tweaked t options);
     WatchFunc := fun options => MkClientCall WatchCall "logsinks" namespace (tweaked t options);
     objectType := LogSink_type; resyncPeriod := resync; namespace_index := indexers |}.

Definition NewLogSinkInformer (namespace : string) (resync : Z) (indexers : bool) : SharedIndexInformer Opts :=
  NewFilteredLogSinkInformer namespace resync indexers None.

Definition NewFilteredClusterLogSinkInformer (namespace : string) (resync : Z) (indexers : bool)
    (t : TweakListOptionsFunc) : SharedIndexInformer Opts :=
  {| ListFunc := fun options => MkClientCall ListCall "clusterlogsinks" namespace (tweaked t options);
     WatchFunc := fun options => MkClientCall WatchCall "clusterlogsinks" namespace (tweaked t options);
     objectType := ClusterLogSink_type; resyncPeriod := resync; namespace_index := indexers |}.

Definition NewClusterLogSinkInformer (namespace : string) (resync : Z) (indexers : bool)
    : SharedIndexInformer Opts :=
  NewFilteredClusterLogSinkInformer namespace resync indexers None.

Definition NewFilteredMetricSinkInformer (namespace : string) (resync : Z) (indexers : bool)
    (t : TweakListOptionsFunc) : SharedIndexInformer Opts :=
  {| ListFunc := fun options => MkClientCall ListCall "metricsinks" namespace (tweaked t options);
     WatchFunc := fun options => MkClientCall WatchCall "metricsinks" namespace (tweaked t options);
     objectType := MetricSink_type; resyncPeriod := resync; namespace_index := indexers |}.

Definition NewMetricSinkInformer (namespace : string) (resync : Z) (indexers : bool) : SharedIndexInformer Opts :=
  NewFilteredMetricSinkInformer namespace resync indexers None.

Definition NewFilteredClusterMetricSinkInformer (namespace : string) (resync : Z) (indexers : bool)
    (t : TweakListOptionsFunc) : SharedIndexInformer Opts :=
  {| ListFunc := fun options => MkClientCall ListCall "clustermetricsinks" namespace (tweaked t options);
     WatchFunc := fun options => MkClientCall WatchCall "clustermetricsinks" namespace (tweaked t options);
     objectType := ClusterMetricSink_type; resyncPeriod := resync; namespace_index := indexers |}.

Definition NewClusterMetricSinkInformer (namespace : string) (resync : Z) (indexers : bool)
    : SharedIndexInformer Opts :=
  NewFilteredClusterMetricSinkInformer namespace resync indexers None.

(** ** The way from the factory to an informer

    [group], [version] and the four informer structs carry the factory, the
    namespace and the tweak; the factory is a pointer, so it is the state. *)

Record informer_access : Type := MkAccess { ia_namespace : string; ia_tweak : TweakListOptionsFunc }.

Definition Observability (st : fstate Opts) : informer_access :=
  {| ia_namespace := f_namespace (factory st); ia_tweak := f_tweak (factory st) |}.
Definition V1alpha1 (g : informer_access) : informer_access :=
  {| ia_namespace := ia_namespace g; ia_tweak := ia_tweak g |}.

Definition logSinkInformer_Informer (f : informer_access) : fstate Opts -> nat * fstate Opts :=
  InformerFor LogSink_type (fun resync => NewFilteredLogSinkInformer (ia_namespace f) resync true (ia_tweak f)).

Definition clusterLogSinkInformer_Informer (f : informer_access) : fstate Opts -> nat * fstate Opts :=
  InformerFor ClusterLogSink_type
    (fun resync => NewFilteredClusterLogSinkInformer (ia_namespace f) resync true (ia_tweak f)).

Definition metricSinkInformer_Informer (f : informer_access) : fstate Opts -> nat * fstate Opts :=
  InformerFor MetricSink_type
    (fun resync => NewFilteredMetricSinkInformer (ia_namespace f) resync true (ia_tweak f)).

Definition clusterMetricSinkInformer_Informer (f : informer_access) : fstate Opts -> nat * fstate Opts :=
  InformerFor ClusterMetricSink_type
    (fun resync => NewFilteredClusterMetricSinkInformer (ia_namespace f) resync true (ia_tweak f)).

(** ** Generic access ([generic.go]) *)

Record GroupVersionResource : Type := MkGVR { gvr_Group : string; gvr_Version : string; gvr_Resource : string }.

Definition WithResource (resource : string) : GroupVersionResource :=
  {| gvr_Group := GroupName; gvr_Version := "v1alpha1"; gvr_Resource := resource |}.

#[export] Instance gvr_eq_dec : EqDecision GroupVersionResource.
Proof. solve_decision. Defined.

Definition gvr_String (g : GroupVersionResource) : string :=
  strings_Join [gvr_Group g; "/"; gvr_Version g; ", Resource="; gvr_Resource g] EmptyString.

Record genericInformer : Type := MkGenericInformer { gi_informer : nat; gi_resource : GroupResource }.

Definition ForResource (resource : GroupVersionResource) (st : fstate Opts)
    : res string genericInformer * fstate Opts :=
  let access := V1alpha1 (Observability st) in
  let generic '(informer, st) :=
    (Ok {| gi_informer := informer;
           gi_resource := {| Group := gvr_Group resource; gr_Resource := gvr_Resource resource |} |}, st) in
  if decide (resource = WithResource "clusterlogsinks") then generic (clusterLogSinkInformer_Informer access st)
  else if decide (resource = WithResource "clustermetricsinks")
  then generic (clusterMetricSinkInformer_Informer access st)
  else if decide (resource = WithResource "logsinks") then generic (logSinkInformer_Informer access st)
  else if decide (resource = WithResource "metricsinks") then generic (metricSinkInformer_Informer access st)
  else (Err (Sprintf "no informer found for %s" [FStr (gvr_String resource)]), st).

(** ** Starting and waiting ([factory.go]) *)

Section Loops.
Context `{R : MapRange}.

Definition start_one (st : fstate Opts) (entry : string * nat) : fstate Opts :=
  let '(informerType, informer) := entry in
  let f := factory st in
  if negb (default false (startedInformers f !! informerType)) then
    {| factory := {| f_namespace := f_namespace f; f_tweak := f_tweak f; defaultResync := defaultResync f;
                     customResync := customResync f; informers := informers f;
                     startedInformers := <[informerType := true]> (startedInformers f) |};
       heap := heap st; running := running st ++ [informer] |}
  else st.

Definition Start (st : fstate Opts) : fstate Opts := foldl start_one st (range 0 (informers (factory st))).

(** [synced] is what [cache.WaitForCacheSync] answers for an informer. *)
Definition WaitForCacheSync (synced : nat -> bool) (st : fstate Opts) : gmap string bool :=
  let started :=
    foldl (fun m '(t, informer) =>
             if default false (startedInformers (factory st) !! t) then <[t := informer]> m else m)
          (∅ : gmap string nat) (range 1 (informers (factory st))) in
  foldl (fun res '(t, informer) => <[t := synced informer]> res) ∅ (range 2 started).

(** ** Runs of a factory *)

Inductive fop : Type :=
| AskLogSinks | AskClusterLogSinks | AskMetricSinks | AskClusterMetricSinks
| AskResource (r : GroupVersionResource)
| DoStart.

Definition fapply (st : fstate Opts) (op : fop) : fstate Opts :=
  let access := V1alpha1 (Observability st) in
  match op with
  | AskLogSinks => (logSinkInformer_Informer access st).2
  | AskClusterLogSinks => (clusterLogSinkInformer_Informer access st).2
  | AskMetricSinks => (metricSinkInformer_Informer access st).2
  | AskClusterMetricSinks => (clusterMetricSinkInformer_Informer access st).2
  | AskResource r => (ForResource r st).2
  | DoStart => Start st
  end.

Definition frun (st : fstate Opts) (ops : list fop) : fstate Opts := foldl fapply st ops.

Definition resource_of (t : string) : string :=
  if String.eqb t LogSink_type then "logsinks"
  else if String.eqb t ClusterLogSink_type then "clusterlogsinks"
  else if String.eqb t MetricSink_type then "metricsinks" else "clustermetricsinks".

(** The informer a factory should give for a type. *)
Record configured (f : sharedInformerFactory Opts) (t : string) (inf : SharedIndexInformer Opts) : Prop := {
  conf_type : objectType inf = t;
  conf_resync : resyncPeriod inf = default (defaultResync f) (customResync f !! t);
  conf_index : namespace_index inf = true;
  conf_list : forall o, ListFunc inf o = MkClientCall ListCall (resource_of t) (f_namespace f) (tweaked (f_tweak f) o);
  conf_watch : forall o,
    WatchFunc inf o = MkClientCall WatchCall (resource_of t) (f_namespace f) (tweaked (f_tweak f) o);
}.

(** The settings of a factory never change. *)
Definition same_settings (f g : sharedInformerFactory Opts) : Prop :=
  f_namespace f = f_namespace g /\ f_tweak f = f_tweak g
  /\ defaultResync f = defaultResync g /\ customResync f = customResync g.

Definition started (st : fstate Opts) (t : string) : bool := default false (startedInformers (factory st) !! t).

Record factory_inv (f0 : sharedInformerFactory Opts) (st : fstate Opts) : Prop := {
  fi_settings : same_settings (factory st) f0;
  fi_heap : forall t i, informers (factory st) !! t = Some i -> exists inf, heap st !! i = Some inf /\ configured f0 t inf;
  fi_started : forall t, started st t = true -> is_Some (informers (factory st) !! t);
  fi_running : forall i, i ∈ running st <-> exists t, informers (factory st) !! t = Some i /\ started st t = true;
  fi_nodup : NoDup (running st);
}.

Lemma fi_inj f0 st t t' i :
  factory_inv f0 st -> informers (factory st) !! t = Some i -> informers (factory st) !! t' = Some i -> t = t'.
Proof.
  intros Hi Ht Ht'. destruct (fi_heap _ _ Hi _ _ Ht) as (x & Hx & Cx), (fi_heap _ _ Hi _ _ Ht') as (y & Hy & Cy).
  assert (x = y) as -> by congruence. by rewrite <- (conf_type _ _ _ Cx), <- (conf_type _ _ _ Cy).
Qed.

Lemma InformerFor_inv f0 t newFunc st :
  factory_inv f0 st ->
  (let f := factory st in
   configured f t (newFunc (match customResync f !! t with Some d => d | None => defaultResync f end))) ->
  factory_inv f0 (InformerFor t newFunc st).2.
Proof.
  intros Hi Hc. unfold InformerFor. destruct (informers (factory st) !! t) as [i|] eqn:Et; [done|]. cbn zeta in *.
  destruct Hi as [Hset Hheap Hst Hrun Hnd].
  assert (started st t = false) as Hns.
  { apply not_true_is_false. intros [i Hi]%Hst. congruence. }
  split; cbn.
  - done.
  - intros t' i [[<- <-]|[Hne Hi]]%lookup_insert_Some.
    + eexists. rewrite lookup_app_r, Nat.sub_diag by lia. split; [done|].
      destruct Hset as (E1 & E2 & E3 & E4). destruct Hc as [C1 C2 C3 C4 C5].
      split; [done|by rewrite C2, E3, E4|done| |]; intros o; by rewrite ?C4, ?C5, E1, E2.
    + destruct (Hheap _ _ Hi) as (inf & Hinf & ?). exists inf. split; [|done].
      by apply lookup_app_l_Some.
  - intros t' Ht'. destruct (decide (t' = t)) as [->|Hne]; [by rewrite lookup_insert_eq; eexists|].
    rewrite lookup_insert_ne by done. by apply Hst.
  - intros i. rewrite Hrun. unfold started in *. cbn. split; intros (t' & Ht' & Hs).
    + exists t'. split; [|done]. rewrite lookup_insert_ne; [done|]. intros ->. congruence.
    + apply lookup_insert_Some in Ht' as [[<- _]|[_ Ht']]; [congruence|]. by exists t'.
  - done.
Qed.

Lemma start_one_inv f0 st t i :
  factory_inv f0 st -> informers (factory st) !! t = Some i ->
  factory_inv f0 (start_one st (t, i)) /\ informers (factory (start_one st (t, i))) = informers (factory st)
  /\ forall t', started (start_one st (t, i)) t' = bool_decide (t' = t) || started st t'.
Proof.
  intros Hi Ht. unfold start_one. change (default false _) with (started st t).
  destruct (started st t) eqn:Es; cbn [negb].
  { split_and!; [done|done|]. intros t'. destruct (decide (t' = t)) as [->|Hne];
      [by rewrite bool_decide_eq_true_2|by rewrite bool_decide_eq_false_2]. }
  assert (forall t', started (MkFstate
     {| f_namespace := f_namespace (factory st); f_tweak := f_tweak (factory st);
        defaultResync := defaultResync (factory st); customResync := customResync (factory st);
        informers := informers (factory st); startedInformers := <[t := true]> (startedInformers (factory st)) |}
     (heap st) (running st ++ [i])) t' = bool_decide (t' = t) || started st t') as Hstart.
  { intros t'. unfold started. cbn. destruct (decide (t' = t)) as [->|Hne].
    - by rewrite lookup_insert_eq, bool_decide_eq_true_2.
    - by rewrite lookup_insert_ne, bool_decide_eq_false_2. }
  split_and!; [|done|exact Hstart].
  pose proof Hi as [Hset Hheap Hst Hrun Hnd]. split; cbn [factory heap running informers].
  - done.
  - exact Hheap.
  - intros t'. rewrite Hstart. destruct (decide (t' = t)) as [->|Hne]; [by eexists|].
    rewrite bool_decide_eq_false_2 by done. apply Hst.
  - intros j. rewrite elem_of_app, list_elem_of_singleton, Hrun. split.
    + intros [(t' & Ht' & Hs)| ->]; [exists t'|exists t]; (split; [done|]); rewrite Hstart.
      * by rewrite Hs, orb_true_r.
      * by rewrite bool_decide_eq_true_2.
    + intros (t' & Ht' & Hs). rewrite Hstart in Hs. destruct (decide (t' = t)) as [->|Hne].
      * right. congruence.
      * rewrite bool_decide_eq_false_2 in Hs by done. left. by exists t'.
  - apply NoDup_app. split_and!; [done| |apply NoDup_singleton].
    intros j Hj ->%list_elem_of_singleton. apply Hrun in Hj as (t' & Ht' & Hs).
    assert (t' = t) as -> by (by eapply fi_inj). congruence.
Qed.

Lemma Start_spec f0 st :
  factory_inv f0 st ->
  factory_inv f0 (Start st) /\ informers (factory (Start st)) = informers (factory st)
  /\ forall t, is_Some (informers (factory st) !! t) -> started (Start st) t = true.
Proof.
  intros Hi. unfold Start.
  assert (forall l st, factory_inv f0 st -> (forall t i, (t, i) ∈ l -> informers (factory st) !! t = Some i) ->
    factory_inv f0 (foldl start_one st l) /\ informers (factory (foldl start_one st l)) = informers (factory st)
    /\ (forall t, started st t = true \/ t ∈ l.*1 -> started (foldl start_one st l) t = true)) as Hl.
  { clear. induction l as [|[t i] l IH]; intros st Hi Hl.
    - split_and!; [done|done|]. intros t [?|Ht]; [done|]. by apply elem_of_nil in Ht.
    - destruct (start_one_inv f0 st t i Hi) as (Hi1 & Hinf & Hs1); [apply Hl; by left|].
      destruct (IH (start_one st (t, i)) Hi1) as (H1 & H2 & H3).
      { intros t' i' Hin. rewrite Hinf. apply Hl. by right. }
      cbn [foldl]. split_and!; [done|by rewrite H2|].
      intros t' Ht'. apply H3. rewrite Hs1. cbn in Ht'. rewrite elem_of_cons in Ht'.
      destruct (decide (t' = t)) as [->|Hne]; [left; by rewrite bool_decide_eq_true_2|].
      destruct Ht' as [->|[?|?]]; [left; apply orb_true_r|done|by right]. }
  destruct (Hl (range 0 (informers (factory st))) st Hi) as (H1 & H2 & H3).
  { intros t i Hin. by rewrite range_perm, elem_of_map_to_list in Hin. }
  split_and!; [done|done|]. intros t Ht. apply H3. right. by apply elem_range.
Qed.

Lemma logSink_configured (st : fstate Opts) :
  let f := factory st in let access := V1alpha1 (Observability st) in
  configured f LogSink_type (NewFilteredLogSinkInformer (ia_namespace access)
    (match customResync f !! LogSink_type with Some d => d | None => defaultResync f end) true (ia_tweak access)).
Proof. by split; cbn; [|destruct (_ !! _)| | |]. Qed.

Lemma clusterLogSink_configured (st : fstate Opts) :
  let f := factory st in let access := V1alpha1 (Observability st) in
  configured f ClusterLogSink_type (NewFilteredClusterLogSinkInformer (ia_namespace access)
    (match customResync f !! ClusterLogSink_type with Some d => d | None => defaultResync f end) true (ia_tweak access)).
Proof. by split; cbn; [|destruct (_ !! _)| | |]. Qed.

Lemma metricSink_configured (st : fstate Opts) :
  let f := factory st in let access := V1alpha1 (Observability st) in
  configured f MetricSink_type (NewFilteredMetricSinkInformer (ia_namespace access)
    (match customResync f !! MetricSink_type with Some d => d | None => defaultResync f end) true (ia_tweak access)).
Proof. by split; cbn; [|destruct (_ !! _)| | |]. Qed.

Lemma clusterMetricSink_configured (st : fstate Opts) :
  let f := factory st in let access := V1alpha1 (Observability st) in
  configured f ClusterMetricSink_type (NewFilteredClusterMetricSinkInformer (ia_namespace access)
    (match customResync f !! ClusterMetricSink_type with Some d => d | None => defaultResync f end) true
    (ia_tweak access)).
Proof. by split; cbn; [|destruct (_ !! _)| | |]. Qed.

(** Asking for a resource is asking for its kind. *)
Lemma ForResource_op r st :
  exists op, (ForResource r st).2 = st \/ (ForResource r st).2 = fapply st op /\ (forall r', op <> AskResource r').
Proof.
  unfold ForResource.
  destruct (decide _); [exists AskClusterLogSinks; right; cbn; by destruct (clusterLogSinkInformer_Informer _ _)|].
  destruct (decide _); [exists AskClusterMetricSinks; right; cbn; by destruct (clusterMetricSinkInformer_Informer _ _)|].
  destruct (decide _); [exists AskLogSinks; right; cbn; by destruct (logSinkInformer_Informer _ _)|].
  destruct (decide _); [exists AskMetricSinks; right; cbn; by destruct (metricSinkInformer_Informer _ _)|].
  exists DoStart. by left.
Qed.

Lemma fapply_inv f0 st op : factory_inv f0 st -> factory_inv f0 (fapply st op).
Proof.
  intros Hi. assert (forall op, (forall r, op <> AskResource r) -> factory_inv f0 (fapply st op)) as Hk.
  { intros [| | | |r|] Hop; cbn [fapply].
    - by apply InformerFor_inv, logSink_configured.
    - by apply InformerFor_inv, clusterLogSink_configured.
    - by apply InformerFor_inv, metricSink_configured.
    - by apply InformerFor_inv, clusterMetricSink_configured.
    - by destruct (Hop r).
    - by apply Start_spec. }
  destruct op as [| | | |r|]; try by apply Hk. cbn [fapply].
  destruct (ForResource_op r st) as [op [->|[-> Hop]]]; [done|by apply Hk].
Qed.

Lemma frun_inv f0 st ops : factory_inv f0 st -> factory_inv f0 (frun st ops).
Proof. revert st. induction ops as [|op ops IH]; intros st Hi; [done|]. cbn. by apply IH, fapply_inv. Qed.

(** ** What is asked for *)

(** The type an operation asks an informer for. *)
Definition kind_of (op : fop) : option string :=
  match op with
  | AskLogSinks => Some LogSink_type
  | AskClusterLogSinks => Some ClusterLogSink_type
  | AskMetricSinks => Some MetricSink_type
  | AskClusterMetricSinks => Some ClusterMetricSink_type
  | AskResource r =>
      if decide (r = WithResource "clusterlogsinks") then Some ClusterLogSink_type
      else if decide (r = WithResource "clustermetricsinks") then Some ClusterMetricSink_type
      else if decide (r = WithResource "logsinks") then Some LogSink_type
      else if decide (r = WithResource "metricsinks") then Some MetricSink_type else None
  | DoStart => None
  end.

(** The informer it is given. *)
Definition ask (op : fop) (st : fstate Opts) : option nat :=
  let access := V1alpha1 (Observability st) in
  match op with
  | AskLogSinks => Some (logSinkInformer_Informer access st).1
  | AskClusterLogSinks => Some (clusterLogSinkInformer_Informer access st).1
  | AskMetricSinks => Some (metricSinkInformer_Informer access st).1
  | AskClusterMetricSinks => Some (clusterMetricSinkInformer_Informer access st).1
  | AskResource r => match (ForResource r st).1 with Ok g => Some (gi_informer g) | Err _ => None end
  | DoStart => None
  end.

Lemma InformerFor_gives t newFunc st :
  informers (factory (InformerFor t newFunc st).2) !! t = Some (InformerFor t newFunc st).1.
Proof.
  unfold InformerFor. destruct (informers (factory st) !! t) eqn:E; cbn; [done|]. by rewrite lookup_insert_eq.
Qed.

Lemma InformerFor_keeps t newFunc st t' i :
  informers (factory st) !! t' = Some i -> informers (factory (InformerFor t newFunc st).2) !! t' = Some i.
Proof.
  unfold InformerFor. intros Hi. destruct (informers (factory st) !! t) eqn:E; cbn; [done|].
  rewrite lookup_insert_ne; [done|]. intros ->. congruence.
Qed.

Lemma generic_pair (p : nat * fstate Opts) r :
  let g := (let '(i, st) := p in (@Ok string _ {| gi_informer := i; gi_resource := r |}, st)) in
  match g.1 with Ok g => Some (gi_informer g) | Err _ => None end = Some p.1 /\ g.2 = p.2.
Proof. by destruct p. Qed.

Lemma ask_gives op st t : kind_of op = Some t -> ask op st = informers (factory (fapply st op)) !! t.
Proof.
  destruct op as [| | | |r|]; cbn [kind_of ask fapply]; try (intros [= <-]; symmetry; apply InformerFor_gives).
  unfold ForResource. cbn zeta.
  repeat (destruct (decide _);
    [intros [= <-];
     match goal with |- context [let '(_, _) := ?p in (Ok {| gi_informer := _; gi_resource := ?r |}, _)] =>
       destruct (generic_pair p r) as [E1 E2] end;
     cbn zeta in E1, E2; rewrite E1, E2; symmetry; apply InformerFor_gives|]).
  done.
Qed.

Lemma ask_none op st : kind_of op = None -> ask op st = None /\ (op = DoStart \/ fapply st op = st).
Proof.
  destruct op as [| | | |r|]; try done; [|by split; [|left]]. cbn [kind_of ask fapply]. unfold ForResource.
  repeat (destruct (decide _); [done|]). intros _. split; [done|by right].
Qed.

Lemma fapply_keeps f0 st op t i :
  factory_inv f0 st -> informers (factory st) !! t = Some i -> informers (factory (fapply st op)) !! t = Some i.
Proof.
  intros Hi Ht. assert (forall op, (forall r, op <> AskResource r) -> informers (factory (fapply st op)) !! t = Some i) as Hk.
  { intros [| | | |r|] Hop; cbn [fapply]; try by apply InformerFor_keeps.
    - by destruct (Hop r).
    - by destruct (Start_spec f0 st Hi) as (_ & -> & _). }
  destruct op as [| | | |r|]; try by apply Hk. cbn [fapply].
  destruct (ForResource_op r st) as [op [->|[-> Hop]]]; [done|by apply Hk].
Qed.

Lemma frun_keeps f0 st ops t i :
  factory_inv f0 st -> informers (factory st) !! t = Some i -> informers (factory (frun st ops)) !! t = Some i.
Proof.
  revert st. induction ops as [|op ops IH]; intros st Hi Ht; [done|]. cbn.
  apply IH; [by apply fapply_inv|by eapply fapply_keeps].
Qed.

(** ** A new factory *)

Definition known_option (opt : SharedInformerOption) : Prop :=
  (exists c, opt = WithCustomResyncConfig c) \/ (exists t, opt = WithTweakListOptions t)
  \/ exists ns, opt = WithNamespace ns.

Definition new_state (f : sharedInformerFactory Opts) : fstate Opts := MkFstate f [] [].

Lemma new_factory_empty resync opts :
  Forall known_option opts ->
  let f := NewSharedInformerFactoryWithOptions resync opts in informers f = ∅ /\ startedInformers f = ∅.
Proof.
  intros Ho. unfold NewSharedInformerFactoryWithOptions. cbn zeta.
  assert (forall f : sharedInformerFactory Opts, informers f = ∅ /\ startedInformers f = ∅ ->
    informers (foldl (fun f opt => opt f) f opts) = ∅ /\ startedInformers (foldl (fun f opt => opt f) f opts) = ∅)
    as Hf; [|by apply Hf].
  induction Ho as [|opt opts Hopt _ IH]; intros f Hf; [done|]. cbn [foldl]. apply IH.
  by destruct Hopt as [[c ->]|[[t ->]|[ns ->]]].
Qed.

Lemma new_state_inv resync opts :
  Forall known_option opts ->
  let f := NewSharedInformerFactoryWithOptions resync opts in factory_inv f (new_state f).
Proof.
  intros Ho. destruct (new_factory_empty resync opts Ho) as [Hi Hs]. cbn zeta in *.
  split; cbn [factory new_state heap running].
  - done.
  - intros t i. by rewrite Hi, lookup_empty.
  - intros t. unfold started. cbn. by rewrite Hs, lookup_empty.
  - intros i. split; [by intros ?%elem_of_nil|]. intros (t & Ht & _). by rewrite Hi, lookup_empty in Ht.
  - apply NoDup_nil_2.
Qed.

Lemma WaitForCacheSync_lookup synced st t :
  WaitForCacheSync synced st !! t =
  match informers (factory st) !! t with
  | Some i => if started st t then Some (synced i) else None
  | None => None
  end.
Proof.
  unfold WaitForCacheSync. cbn zeta.
  assert (forall (l : list (string * nat)) (m : gmap string nat) t, NoDup l.*1 ->
    foldl (fun m '(t, i) => if default false (startedInformers (factory st) !! t) then <[t := i]> m else m) m l !! t =
    match (list_to_map l : gmap string nat) !! t with
    | Some i => if started st t then Some i else m !! t
    | None => m !! t
    end) as H1.
  { clear t. induction l as [|[t' i] l IH]; intros m t Hn; [done|]. cbn in Hn. apply NoDup_cons in Hn as [Hni Hn].
    cbn [foldl]. rewrite IH by done. cbn. apply not_elem_of_list_to_map_1 in Hni.
    unfold started in *. destruct (decide (t = t')) as [->|Hne].
    - rewrite Hni, lookup_insert_eq. by destruct (default false _); [rewrite lookup_insert_eq|].
    - rewrite lookup_insert_ne by done. destruct (default false (_ !! t')); [|done].
      by rewrite lookup_insert_ne. }
  assert (forall (l : list (string * nat)) (m : gmap string bool) t, NoDup l.*1 ->
    foldl (fun res '(t, i) => <[t := synced i]> res) m l !! t =
    match (list_to_map l : gmap string nat) !! t with Some i => Some (synced i) | None => m !! t end) as H2.
  { clear t. induction l as [|[t' i] l IH]; intros m t Hn; [done|]. cbn in Hn. apply NoDup_cons in Hn as [Hni Hn].
    cbn [foldl]. rewrite IH by done. cbn. apply not_elem_of_list_to_map_1 in Hni.
    destruct (decide (t = t')) as [->|Hne]; [by rewrite Hni, !lookup_insert_eq|by rewrite !lookup_insert_ne]. }
  rewrite H2, range_map, H1, range_map, !lookup_empty by apply range_nodup.
  by destruct (informers (factory st) !! t), (started st t).
Qed.

(** ** Properties *)

(** C37: Whatever a factory is asked for and in whatever order, each kind has
    one informer: everybody who asks for the kind, by its method or by its
    resource, now or after any further operations, is given the same one.  It
    lists and watches its resource in the factory's namespace with the
    factory's tweak, resyncs with the custom period of the kind or the default
    one, and has the namespace index. *)
Theorem informers_shared resync opts ops op i :
  Forall known_option opts ->
  let f0 := NewSharedInformerFactoryWithOptions resync opts in
  let st := frun (new_state f0) ops in
  ask op st = Some i ->
  exists t inf, kind_of op = Some t
    /\ heap (fapply st op) !! i = Some inf /\ configured f0 t inf
    /\ forall op' ops', kind_of op' = Some t -> ask op' (frun (fapply st op) ops') = Some i.
Proof.
  intros Ho f0 st Hask. pose proof (frun_inv f0 _ ops (new_state_inv resync opts Ho)) as Hi. fold st in Hi.
  destruct (kind_of op) as [t|] eqn:Ek.
  - rewrite (ask_gives _ _ _ Ek) in Hask. pose proof (fapply_inv f0 st op Hi) as Hi'.
    destruct (fi_heap _ _ Hi' _ _ Hask) as (inf & Hinf & Hc). exists t, inf. split_and!; [done|done|done|].
    intros op' ops' Ek'. rewrite (ask_gives _ _ _ Ek').
    apply (fapply_keeps f0); [by apply frun_inv|by eapply frun_keeps].
  - destruct (ask_none op st Ek) as [E _]. congruence.
Qed.

(** However often [Start] is called, between whatever requests, it has
    started no informer twice and only informers somebody asked for; right
    after a call every informer asked for so far is running, and
    [WaitForCacheSync] answers for exactly the informers that were started. *)
Lemma Start_starts_once resync opts ops synced :
  Forall known_option opts ->
  let st := frun (new_state (NewSharedInformerFactoryWithOptions resync opts)) ops in
  NoDup (running st)
  /\ (forall i, i ∈ running st -> exists t, informers (factory st) !! t = Some i)
  /\ running (Start st) ≡ₚ map snd (map_to_list (informers (factory st)))
  /\ forall t b, WaitForCacheSync synced st !! t = Some b <->
       exists i, informers (factory st) !! t = Some i /\ i ∈ running st /\ b = synced i.
Proof.
  intros Ho st. set (f0 := NewSharedInformerFactoryWithOptions resync opts) in st.
  assert (factory_inv f0 st) as Hi by (by apply frun_inv, new_state_inv). clearbody st. split_and!.
  - apply (fi_nodup _ _ Hi).
  - intros i (t & Ht & _)%(fi_running _ _ Hi). by exists t.
  - destruct (Start_spec f0 st Hi) as (Hi' & E & Hall). apply NoDup_Permutation.
    + apply (fi_nodup _ _ Hi').
    + apply (NoDup_fmap_2_strong snd); [|apply NoDup_map_to_list].
      intros [t i] [t' i'] Ht%elem_of_map_to_list Ht'%elem_of_map_to_list. cbn. intros ->.
      by rewrite (fi_inj f0 st t t' i' Hi Ht Ht').
    + intros i. rewrite (fi_running _ _ Hi'), E, list_elem_of_fmap. split.
      * intros (t & Ht & _). exists (t, i). split; [done|]. by apply elem_of_map_to_list.
      * intros ([t i'] & -> & Ht%elem_of_map_to_list). exists t. split; [done|]. apply Hall. by eexists.
  - intros t b. rewrite WaitForCacheSync_lookup. split.
    + destruct (informers (factory st) !! t) as [i|] eqn:Et; [|done].
      destruct (started st t) eqn:Es; [|done]. intros [= <-]. exists i. split_and!; [done| |done].
      apply (fi_running _ _ Hi). by exists t.
    + intros (i & Ht & (t' & Ht' & Hs)%(fi_running _ _ Hi) & ->).
      assert (t' = t) as -> by (by apply (fi_inj f0 st t' t i)). by rewrite Ht, Hs.
Qed.

End Loops.
End Factory.

(** ** The factory of the log sink controller, with a namespace and a period *)

Definition some_options : list (@SharedInformerOption nat) :=
  [WithCustomResyncConfig [(LogSink_type, 60%Z)]; WithTweakListOptions (Some S); WithNamespace "team"].

Lemma some_options_known : Forall known_option some_options.
Proof.
  constructor; [left; by eexists|]. constructor; [right; left; by eexists|].
  constructor; [right; right; by eexists|constructor].
Qed.

Definition some_ops : list fop := [AskLogSinks; DoStart; AskResource (WithResource "clusterlogsinks"); DoStart].

Lemma informers_shared_witness :
  let f0 := NewSharedInformerFactoryWithOptions 30 some_options in
  let st := @frun nat map_order (new_state f0) some_ops in
  exists t inf, kind_of AskLogSinks = Some t
    /\ heap (@fapply nat map_order st AskLogSinks) !! 0 = Some inf
    /\ configured f0 t inf
    /\ forall op' ops', kind_of op' = Some t ->
         ask op' (@frun nat map_order (@fapply nat map_order st AskLogSinks) ops') = Some 0.
Proof.
  cbn zeta. apply (@informers_shared nat map_order 30 some_options some_ops AskLogSinks 0 some_options_known).
  vm_compute. reflexivity.
Defined.

Lemma Start_starts_once_witness :
  let st := @frun nat map_order (new_state (NewSharedInformerFactoryWithOptions 30 some_options)) some_ops in
  running st = [0; 1] /\ NoDup (running st).
Proof.
  cbn zeta. split; [vm_compute; reflexivity|].
  exact (proj1 (@Start_starts_once nat map_order 30 some_options some_ops (fun _ => true) some_options_known)).
Defined.
