(* ===== verification/Reflector.v ===== *)
(** * A running informer ([tools/cache/reflector.go] and [controller.go], vendored)

    The goroutines of an informer that runs: the reflector lists and watches
    a resource and feeds the queue of [DeltaFifo]; its resync goroutine
    queues the whole store from time to time; the controller's loop takes
    items out and has [HandleDeltas] of [SharedInformer] process them; each
    listener hands its notifications to its handler.  A step is what one of
    them does under the queue's lock or between two blocking calls, with the
    answer of the API server as a part of the action.  The clock is a number
    that grows.  Log lines, metrics and the stop channel are left out. *)

From stdpp Require Import base gmap strings list relations.
From Stdlib Require Import Lia ZArith.
From S2P Require Import Prelude GoStd Types RingGrowing Cache DeltaFifo SharedInformer InformerFactory.

(** ** The answers of the API server *)

Definition Event_type : string := "*v1.Event".

(** [reflect.TypeOf]; lists and other objects are of no expected type. *)
Definition TypeOf (o : obj) : string :=
  match o with
  | ALogSink _ => LogSink_type
  | AClusterLogSink _ => ClusterLogSink_type
  | AMetricSink _ => MetricSink_type
  | AClusterMetricSink _ => ClusterMetricSink_type
  | ACoreEvent _ => Event_type
  | _ => EmptyString
  end.

Inductive EventType : Type := WatchAdded | WatchModified | WatchDeleted | WatchError | WatchOther (t : string).

Record Event : Type := MkEvent { e_Type : EventType; e_Object : obj }.

Inductive watch_error : Type := EOF | UnexpectedEOF | ConnectionRefused | WatchFailed (err : string).

(** ** The state *)

(** Where [ListAndWatch] is: before its list, at the top of its loop, or in
    [watchHandler] with the start and the number of events. *)
Inductive reflector_phase : Type :=
| ToList
| ToWatch (resourceVersion : string)
| Watching (resourceVersion : string) (start : Z) (eventCount : nat).

Record running : Type := MkRunning {
  informer : sharedIndexInformer;
  fifo : DeltaFIFO;
  at_phase : reflector_phase;
  lastSyncResourceVersion : string;
  resyncCh : option Z;
  resyncerrc : option fifo_error;
  clock : Z;
}.

Definition with_informer (s : sharedIndexInformer) (f : DeltaFIFO) (r : running) : running :=
  {| informer := s; fifo := f; at_phase := at_phase r; lastSyncResourceVersion := lastSyncResourceVersion r;
     resyncCh := resyncCh r; resyncerrc := resyncerrc r; clock := clock r |}.

Definition with_fifo (f : DeltaFIFO) (r : running) : running := with_informer (informer r) f r.

Definition with_phase (ph : reflector_phase) (r : running) : running :=
  {| informer := informer r; fifo := fifo r; at_phase := ph; lastSyncResourceVersion := lastSyncResourceVersion r;
     resyncCh := resyncCh r; resyncerrc := resyncerrc r; clock := clock r |}.

Definition setLastSyncResourceVersion (v : string) (r : running) : running :=
  {| informer := informer r; fifo := fifo r; at_phase := at_phase r; lastSyncResourceVersion := v;
     resyncCh := resyncCh r; resyncerrc := resyncerrc r; clock := clock r |}.

Definition with_resync (ch : option Z) (err : option fifo_error) (r : running) : running :=
  {| informer := informer r; fifo := fifo r; at_phase := at_phase r;
     lastSyncResourceVersion := lastSyncResourceVersion r; resyncCh := ch; resyncerrc := err; clock := clock r |}.

(** [resyncChan]: when the new timer fires *)
Definition resyncChan (r : running) : option Z :=
  if (resyncCheckPeriod (informer r) =? 0)%Z then None else Some (clock r + resyncCheckPeriod (informer r))%Z.

(** [ListAndWatch] returns, and [Run] will call it again; its resync goroutine
    ends. *)
Definition relist (r : running) : running := with_resync None None (with_phase ToList r).

(** ** The steps *)

Inductive outcome (A : Type) : Type := NotEnabled | Panics | Goes (a : A).
Arguments NotEnabled {A}.
Arguments Panics {A}.
Arguments Goes {A}.

Section Steps.
Context `{R : MapRange}.

(** The list, up to the first watch. *)
Definition list_step (answer : res string (list obj * string)) (r : running) : outcome running :=
  match at_phase r with
  | ToList =>
      match answer with
      | Err _ => Goes (relist r)
      | Ok (items, resourceVersion) =>
          match fifo_Replace items (indexer (informer r)) (fifo r) with
          | (f, Some _) => Goes (relist (with_fifo f r))
          | (f, None) =>
              let r := setLastSyncResourceVersion resourceVersion (with_fifo f r) in
              Goes (with_resync (resyncChan r) None (with_phase (ToWatch resourceVersion) r))
          end
      end
  | _ => NotEnabled
  end.

Definition watch_step (answer : option watch_error) (r : running) : outcome running :=
  match at_phase r with
  | ToWatch resourceVersion =>
      match answer with
      | None => Goes (with_phase (Watching resourceVersion (clock r) 0) r)
      | Some ConnectionRefused => Goes r
      | Some _ => Goes (relist r)
      end
  | _ => NotEnabled
  end.

(** [r.store.Add], [Update] or [Delete]; an error is only logged. *)
Definition store_event (e : Event) (r : running) : DeltaFIFO :=
  match e_Type e with
  | WatchAdded => fst (fifo_Add (e_Object e) (fifo r))
  | WatchModified => fst (fifo_Update (e_Object e) (fifo r))
  | WatchDeleted => fst (fifo_Delete (e_Object e) (indexer (informer r)) (fifo r))
  | _ => fifo r
  end.

Definition event_step (expectedType : string) (e : Event) (r : running) : outcome running :=
  match at_phase r with
  | Watching resourceVersion start eventCount =>
      match e_Type e with
      | WatchError => Goes (relist r)
      | _ =>
          if negb (String.eqb expectedType (TypeOf (e_Object e))) then Goes r
          else
            match Accessor (e_Object e) with
            | Err _ => Goes r
            | Ok meta =>
                let newResourceVersion := ResourceVersion meta in
                Goes (setLastSyncResourceVersion newResourceVersion
                       (with_phase (Watching newResourceVersion start (S eventCount))
                         (with_fifo (store_event e r) r)))
            end
      end
  | _ => NotEnabled
  end.

(** The result channel of the watch is closed. *)
Definition close_step (r : running) : outcome running :=
  match at_phase r with
  | Watching resourceVersion start eventCount =>
      if (clock r - start <? 1000000000)%Z && (eventCount =? 0) then Goes (relist r)
      else Goes (with_phase (ToWatch resourceVersion) r)
  | _ => NotEnabled
  end.

(** The resync goroutine, once its timer has fired. *)
Definition resync_step (r : running) : outcome running :=
  match resyncCh r with
  | Some t =>
      if (t <=? clock r)%Z then
        let '(needed, p) := shouldResync (clock r) (processor (informer r)) in
        let r := with_informer (with_processor p (informer r)) (fifo r) r in
        if needed then
          match fifo_Resync (indexer (informer r)) (fifo r) with
          | (f, Some err) => Goes (with_resync None (Some err) (with_fifo f r))
          | (f, None) => let r := with_fifo f r in Goes (with_resync (resyncChan r) (resyncerrc r) r)
          end
        else Goes (with_resync (resyncChan r) (resyncerrc r) r)
      else NotEnabled
  | None => NotEnabled
  end.

(** [case err := <-errc] of [watchHandler] *)
Definition errc_step (r : running) : outcome running :=
  match at_phase r, resyncerrc r with
  | Watching _ _ _, Some _ => Goes (relist r)
  | _, _ => NotEnabled
  end.

(** A round of [processLoop]; [RetryOnError] is false. *)
Definition process_step (r : running) : outcome running :=
  match Pop HandleDeltas (fifo r) (informer r) with
  | None => Panics
  | Some (Popped _ _, f, s) => Goes (with_informer s f r)
  | Some (_, _, _) => NotEnabled
  end.

Definition tick_step (d : Z) (r : running) : outcome running :=
  if (d <? 0)%Z then NotEnabled
  else Goes {| informer := informer r; fifo := fifo r; at_phase := at_phase r;
               lastSyncResourceVersion := lastSyncResourceVersion r; resyncCh := resyncCh r;
               resyncerrc := resyncerrc r; clock := (clock r + d)%Z |}.

(** The listener [i] hands a notification to its handler. *)
Definition deliver_step (i : nat) (r : running) : outcome (notification * running) :=
  let p := processor (informer r) in
  match listeners p !! i with
  | None => NotEnabled
  | Some l => match pop_dispatch l with
              | None => Panics
              | Some (None, _) => NotEnabled
              | Some (Some n, l) =>
                  Goes (n, with_informer (with_processor (with_listeners (<[i := l]> (listeners p)) p) (informer r))
                                         (fifo r) r)
              end
  end.

Inductive action : Type :=
| DoList (answer : res string (list obj * string))
| DoWatch (answer : option watch_error)
| DoEvent (e : Event)
| DoClose
| DoResync
| DoErrc
| DoProcess
| DoTick (d : Z)
| DoDeliver (i : nat).

(** A step and the notification it hands to a handler. *)
Definition act (expectedType : string) (a : action) (r : running) : outcome (option notification * running) :=
  let silent o := match o with Goes r => Goes (None, r) | Panics => Panics | NotEnabled => NotEnabled end in
  match a with
  | DoList answer => silent (list_step answer r)
  | DoWatch answer => silent (watch_step answer r)
  | DoEvent e => silent (event_step expectedType e r)
  | DoClose => silent (close_step r)
  | DoResync => silent (resync_step r)
  | DoErrc => silent (errc_step r)
  | DoProcess => silent (process_step r)
  | DoTick d => silent (tick_step d r)
  | DoDeliver i => match deliver_step i r with
                   | Goes (n, r) => Goes (Some n, r)
                   | Panics => Panics
                   | NotEnabled => NotEnabled
                   end
  end.

(** [sharedIndexInformer.Run] and [controller.Run], at the time [now] *)
Definition Run (s : sharedIndexInformer) (now : Z) : running :=
  {| informer := set_started s; fifo := NewDeltaFIFO; at_phase := ToList; lastSyncResourceVersion := EmptyString;
     resyncCh := None; resyncerrc := None; clock := now |}.

End Steps.

(** ** What the informer was told

    [told] is what the API server has said: the last list and the events since. *)

Definition tell (expectedType : string) (a : action) (r : running) (told : gmap string obj) : gmap string obj :=
  match a, at_phase r with
  | DoList (Ok (l, _)), ToList => listed l
  | DoEvent e, Watching _ _ _ =>
      if String.eqb expectedType (TypeOf (e_Object e)) then
        match e_Type e with
        | WatchAdded | WatchModified => <[key_of (e_Object e) := e_Object e]> told
        | WatchDeleted => delete (key_of (e_Object e)) told
        | _ => told
        end
      else told
  | _, _ => told
  end.

Definition store_items (r : running) : gmap string obj := items (indexer (informer r)).

(** The store, once the queue is drained, is what the informer was told. *)
Definition in_step (r : running) (told : gmap string obj) : Prop :=
  forall j, future (fifo r) (store_items r) j = told !! j.

(** A list that the queue takes over as it is: no listed object has its
    deletion queued, and no object that is not listed is only queued.  A
    drained queue is enough. *)
Definition relist_clean (r : running) (l : list obj) : Prop :=
  forall j, match listed l !! j with
            | Some _ => willObjectBeDeletedLocked j (fifo r) = false
            | None => store_items r !! j = None -> future (fifo r) (store_items r) j = None
            end.

Definition clean (a : action) (r : running) : Prop :=
  match a, at_phase r with DoList (Ok (l, _)), ToList => relist_clean r l | _, _ => True end.

Definition lists (a : action) : bool := match a with DoList (Ok _) => true | _ => false end.

Section Informing.
Context `{R : MapRange}.
Context (P : obj -> Prop) (P_meta : forall o, P o -> exists m, Accessor o = Ok m).
Context (expectedType : string).

(** The API server lists and sends objects that satisfy [P]. *)
Definition answer_ok (a : action) : Prop :=
  match a with
  | DoList (Ok (l, _)) => Forall P l
  | DoEvent e => TypeOf (e_Object e) = expectedType -> P (e_Object e)
  | _ => True
  end.

Record run_ok (r : running) (qs : list (list notification)) : Prop := {
  rk_store : store_ok P (indexer (informer r));
  rk_fifo : fifo_ok P (store_items r) (fifo r);
  rk_processor : processor_ok (processor (informer r)) qs;
}.

(** [r'] differs from [r] in the queue, the clock and the reflector's place. *)
Record quiet (r r' : running) : Prop := {
  qu_store : indexer (informer r') = indexer (informer r);
  qu_processor : forall qs, processor_ok (processor (informer r)) qs -> processor_ok (processor (informer r')) qs;
  qu_fifo : fifo_ok P (store_items r') (fifo r');
}.

Lemma quiet_ok r r' qs : run_ok r qs -> quiet r r' -> run_ok r' qs.
Proof. intros [Hs Hf Hp] [Es Ep Hf']. split; [by rewrite Es|done|by apply Ep]. Qed.

(** A step that moves the reflector only. *)
Lemma quiet_phase r r' qs :
  run_ok r qs -> informer r' = informer r -> fifo r' = fifo r ->
  quiet r r' /\ forall told, in_step r' told <-> in_step r told.
Proof.
  intros [Hs Hf Hp] Ei Ef. unfold in_step, store_items in *.
  split; [split|]; unfold store_items; rewrite ?Ei, ?Ef; by auto.
Qed.

(** What a step that neither processes nor delivers does to [in_step]. *)
Definition steps_in (a : action) (r r' : running) : Prop :=
  forall told, clean a r -> in_step r told \/ lists a = true -> in_step r' (tell expectedType a r told).

Lemma relist_in_step r f l :
  (forall j, future f (store_items r) j = relist_future (store_items r) l (fifo r) j) ->
  relist_clean r l -> forall j, future f (store_items r) j = listed l !! j.
Proof.
  intros Hf Hc j. rewrite Hf. unfold relist_future. specialize (Hc j).
  destruct (listed l !! j); [by rewrite Hc|]. by destruct (store_items r !! j); [|apply Hc].
Qed.

Lemma list_step_ok answer r qs :
  run_ok r qs -> answer_ok (DoList answer) ->
  match list_step answer r with
  | Goes r' => quiet r r' /\ steps_in (DoList answer) r r'
  | Panics => False
  | NotEnabled => True
  end.
Proof.
  intros Hr Ha. pose proof Hr as [Hs Hf Hp]. unfold list_step, steps_in, clean, tell.
  destruct (at_phase r); try done. destruct answer as [[l rv]|e].
  - destruct (fifo_Replace_ok P P_meta l (indexer (informer r)) (fifo r) Hf Ha) as (f & -> & Hf' & _ & Hfut).
    split; [by split|]. intros told Hc _. exact (relist_in_step r f l Hfut Hc).
  - destruct (quiet_phase r (relist r) qs Hr eq_refl eq_refl) as [Hq Hin]. split; [done|].
    intros told _ [H|?]; [|done]. by apply Hin.
Qed.

(** The steps that leave the queue alone. *)
Lemma still_step_ok a r r' qs :
  run_ok r qs -> informer r' = informer r -> fifo r' = fifo r -> (forall told, tell expectedType a r told = told) ->
  lists a = false -> quiet r r' /\ steps_in a r r'.
Proof.
  intros Hr Ei Ef Et Hl. destruct (quiet_phase r r' qs Hr Ei Ef) as [Hq Hin]. split; [done|].
  intros told _ [H|H]; [|congruence]. rewrite Et. by apply Hin.
Qed.

Lemma store_event_ok e r qs :
  run_ok r qs -> P (e_Object e) ->
  fifo_ok P (store_items r) (store_event e r)
  /\ forall told, in_step r told ->
       forall j, future (store_event e r) (store_items r) j
         = match e_Type e with
           | WatchAdded | WatchModified => <[key_of (e_Object e) := e_Object e]> told
           | WatchDeleted => delete (key_of (e_Object e)) told
           | _ => told
           end !! j.
Proof.
  intros [Hs Hf Hp] Ho. unfold store_event, fifo_Add, fifo_Update.
  assert (forall f' v told j, sets_future (store_items r) (key_of (e_Object e)) v (fifo r) f' -> in_step r told ->
    future f' (store_items r) j = (match v with Some o => <[key_of (e_Object e) := o]> told
                                   | None => delete (key_of (e_Object e)) told end) !! j) as Hset.
  { intros f' v told j Hf' Hin. rewrite (Hf' j), (Hin j). case_decide as E.
    - subst j. destruct v; [by rewrite lookup_insert_eq|by rewrite lookup_delete_eq].
    - destruct v; [by rewrite lookup_insert_ne|by rewrite lookup_delete_ne]. }
  destruct (e_Type e).
  - destruct (fifo_put_ok P P_meta _ Added _ _ (or_introl eq_refl) Hf Ho) as (f' & -> & Hf' & _ & H1). cbn [fst].
    split; [done|]. intros told Hin j. exact (Hset f' (Some _) told j H1 Hin).
  - destruct (fifo_put_ok P P_meta _ Updated _ _ (or_intror eq_refl) Hf Ho) as (f' & -> & Hf' & _ & H1). cbn [fst].
    split; [done|]. intros told Hin j. exact (Hset f' (Some _) told j H1 Hin).
  - destruct (fifo_Delete_ok P P_meta _ _ _ Hf (or_introl Ho)) as (f' & -> & Hf' & _ & H1). cbn [fst].
    split; [done|]. intros told Hin j. exact (Hset f' None told j H1 Hin).
  - split; [done|]. intros told Hin. apply Hin.
  - split; [done|]. intros told Hin. apply Hin.
Qed.

Lemma event_step_ok e r qs :
  run_ok r qs -> answer_ok (DoEvent e) ->
  match event_step expectedType e r with
  | Goes r' => quiet r r' /\ steps_in (DoEvent e) r r'
  | Panics => False
  | NotEnabled => True
  end.
Proof.
  intros Hr Ha. unfold event_step. destruct (at_phase r) as [| |rv start n] eqn:Ep; try done.
  destruct (String.eqb_spec expectedType (TypeOf (e_Object e))) as [Et|Et]; cbn [negb].
  - specialize (Ha (eq_sym Et)). destruct (P_meta _ Ha) as (m & Hm). rewrite Hm.
    destruct (store_event_ok e r qs Hr Ha) as [Hf Hfut].
    assert (forall r', informer r' = informer r -> fifo r' = store_event e r ->
      quiet r r' /\ steps_in (DoEvent e) r r') as Hgo.
    { intros r' Ei Ef. split; [split; unfold store_items; rewrite ?Ei, ?Ef; auto|].
      intros told _ [Hin|?] j; [|done]. unfold store_items, tell. rewrite Ei, Ef, Ep.
      rewrite (proj2 (String.eqb_eq _ _) Et). exact (Hfut told Hin j). }
    destruct (e_Type e) eqn:Ey; try by apply Hgo.
    apply Hgo; [done|]. unfold store_event. by rewrite Ey.
  - assert (forall told, tell expectedType (DoEvent e) r told = told) as Htell.
    { intros told. unfold tell. rewrite Ep. by rewrite (proj2 (String.eqb_neq _ _) Et). }
    by destruct (e_Type e); apply (still_step_ok _ _ _ qs).
Qed.

Lemma resync_step_ok r qs :
  run_ok r qs ->
  match resync_step r with
  | Goes r' => quiet r r' /\ steps_in DoResync r r'
  | Panics => False
  | NotEnabled => True
  end.
Proof.
  intros Hr. pose proof Hr as [Hs Hf Hp]. unfold resync_step. destruct (resyncCh r) as [t|]; [|done].
  destruct (t <=? clock r)%Z; [|done].
  pose proof (fun qs => shouldResync_ok (clock r) (processor (informer r)) qs) as Hres.
  destruct (shouldResync _ _) as [[|] p]; cbn [snd] in Hres.
  - unfold fifo_Resync.
    match goal with |- context [Resync_loop ?ks ?st ?f] =>
      destruct (Resync_loop_ok P P_meta st ks f Hf (so_items _ _ Hs)) as (f' & -> & Hf' & _ & Hfut) end.
    split; [by split|]. intros told _ [Hin|?] j; [|done]. etransitivity; [apply Hfut|apply Hin].
  - split; [by split|]. intros told _ [Hin|?]; [exact Hin|done].
Qed.

(** Every step but [DoProcess] and [DoDeliver]. *)
Lemma quiet_step_ok a r qs n r' :
  run_ok r qs -> answer_ok a -> (forall i, a <> DoDeliver i) -> a <> DoProcess ->
  act expectedType a r = Goes (n, r') -> n = None /\ quiet r r' /\ steps_in a r r'.
Proof.
  intros Hr Ha Hd Hp. destruct a as [answer|answer|e| | | | |d|i]; cbn [act]; try done.
  - pose proof (list_step_ok answer r qs Hr Ha) as H. destruct (list_step answer r); [done..|]. by intros [= <- <-].
  - unfold watch_step. destruct (at_phase r); try done.
    destruct answer as [[]|]; intros [= <- <-]; (split; [done|]); by apply (still_step_ok _ _ _ qs).
  - pose proof (event_step_ok e r qs Hr Ha) as H. destruct (event_step _ e r); [done..|]. by intros [= <- <-].
  - unfold close_step. destruct (at_phase r); try done.
    destruct (_ && _); intros [= <- <-]; (split; [done|]); by apply (still_step_ok _ _ _ qs).
  - pose proof (resync_step_ok r qs Hr) as H. destruct (resync_step r); [done..|]. by intros [= <- <-].
  - unfold errc_step. destruct (at_phase r), (resyncerrc r); try done.
    intros [= <- <-]; (split; [done|]); by apply (still_step_ok _ _ _ qs).
  - unfold tick_step. destruct (d <? 0)%Z; [done|]. intros [= <- <-]; (split; [done|]); by apply (still_step_ok _ _ _ qs).
  - by destruct (Hd i).
Qed.

(** ** Processing and delivering *)

Lemma taken_in_step r f its k ds q told :
  fifo_ok P (store_items r) (fifo r) -> f_items (fifo r) !! k = Some ds ->
  its = foldl apply_delta (store_items r) ds -> f = taken k q (fifo r) ->
  in_step r told -> forall j, future f its j = told !! j.
Proof.
  intros Hf Hds -> -> Hin j. destruct (fo_items _ _ _ Hf k ds Hds) as [Hne [Hok _]].
  rewrite <- (Hin j). rewrite (taken_future (store_items r)).
  - case_decide as E; [|done]. rewrite E, (apply_deltas_lookup P _ k ds k Hok), decide_True by done.
    unfold future, pending. by rewrite Hds.
  - intros Hj. rewrite (apply_deltas_lookup P _ k ds j Hok). by rewrite decide_False.
Qed.

Definition processed_notes (r : running) (ds : Deltas) : list (notification * bool) :=
  deltas_notes (store_items r) ds.

(** A round of the loop takes out the deltas of the first key, and never fails. *)
Lemma process_step_ok r qs :
  run_ok r qs ->
  match f_queue (fifo r) with
  | [] => process_step r = NotEnabled
  | k :: q =>
      exists ds st p, let r' := with_informer (with_store st p (informer r)) (taken k q (fifo r)) r in
        process_step r = Goes r' /\ f_items (fifo r) !! k = Some ds /\ deltas_ok P (store_items r) k ds
        /\ store_items r' = foldl apply_delta (store_items r) ds
        /\ same_listeners (processor (informer r)) p
        /\ run_ok r' (imap (fun i q => q ++ heard (processor (informer r)) i (processed_notes r ds)) qs)
        /\ forall told, in_step r told -> in_step r' told
  end.
Proof.
  intros [Hs Hf Hp]. unfold process_step.
  pose proof (Pop_ok P HandleDeltas (store_items r) (fifo r) (informer r) Hf) as Hpop.
  destruct (f_queue (fifo r)) as [|k q] eqn:Eq; [rewrite Hpop; by destruct (closed (fifo r))|].
  destruct Hpop as (ds & Hds & ->). destruct (fo_items _ _ _ Hf k ds Hds) as [_ Hok].
  destruct (HandleDeltas_ok P P_meta k ds (informer r) qs Hs (proj1 Hok) Hp)
    as (st & p & -> & Hs' & Hits & Hsame & Hp').
  exists ds, st, p. cbn zeta. split_and!; [done|done|done|exact Hits|done| |].
  - split; [done| |done]. unfold store_items. cbn. rewrite Hits.
    apply (taken_ok P (store_items r)); [done|done|]. intros j Hj.
    rewrite (apply_deltas_lookup P _ k ds j (proj1 Hok)). by rewrite decide_False.
  - intros told Hin j. by apply (taken_in_step r _ _ k ds q).
Qed.

Lemma deliver_step_ok i r qs :
  run_ok r qs ->
  match qs !! i with
  | Some (n :: q) =>
      exists l l', listeners (processor (informer r)) !! i = Some l /\ timing l' = timing l
        /\ let p := processor (informer r) in
           let r' := with_informer (with_processor (with_listeners (<[i := l']> (listeners p)) p) (informer r)) (fifo r) r in
           deliver_step i r = Goes (n, r') /\ run_ok r' (<[i := q]> qs)
  | _ => deliver_step i r = NotEnabled
  end.
Proof.
  intros [Hs Hf [Hl Hnd Hb]]. unfold deliver_step.
  destruct (qs !! i) as [q|] eqn:Eq.
  - destruct (Forall2_lookup_r _ _ _ _ _ Hl Eq) as (l & El & Hlq). rewrite El.
    pose proof (pop_dispatch_ok l q Hlq) as Hpop. destruct q as [|n q]; [by rewrite Hpop|].
    destruct Hpop as (l' & -> & Hlq' & Ht). exists l, l'. cbn zeta. split_and!; [done|done|done|].
    split; [done|done|]. split; cbn; [by apply Forall2_insert|done|by rewrite length_insert].
  - replace (listeners (processor (informer r)) !! i) with (@None processorListener); [done|].
    symmetry. apply lookup_ge_None_2. apply Forall2_length in Hl. rewrite Hl. by apply lookup_ge_None_1.
Qed.

(** ** Runs

    A run with the notifications that each listener has handed over, what the
    informer was told, and whether the last list was clean or none was
    needed. *)

Lemma act_never_panics a r qs : run_ok r qs -> answer_ok a -> act expectedType a r <> Panics.
Proof.
  intros Hr Ha. destruct a as [answer|answer|e| | | | |d|i]; cbn [act].
  - pose proof (list_step_ok answer r qs Hr Ha). by destruct (list_step answer r).
  - unfold watch_step. by destruct (at_phase r), answer as [[]|].
  - pose proof (event_step_ok e r qs Hr Ha). by destruct (event_step expectedType e r).
  - unfold close_step. destruct (at_phase r); try done. by destruct (_ && _).
  - pose proof (resync_step_ok r qs Hr). by destruct (resync_step r).
  - unfold errc_step. by destruct (at_phase r), (resyncerrc r).
  - pose proof (process_step_ok r qs Hr) as Hp. destruct (f_queue (fifo r)) as [|k q]; [by rewrite Hp|].
    by destruct Hp as (ds & st & p & -> & _).
  - unfold tick_step. by destruct (d <? 0)%Z.
  - pose proof (deliver_step_ok i r qs Hr) as Hd. destruct (qs !! i) as [[|n q]|]; [by rewrite Hd| |by rewrite Hd].
    by destruct Hd as (l & l' & _ & _ & -> & _).
Qed.

End Informing.

(** ** One handler with the period of the informer

    The handler's listener is told of every change because it is due for a
    resync whenever the reflector's timer fires. *)

Record solo (resync : Z) (r : running) : Prop := {
  solo_syncing : syncingListeners (processor (informer r)) = [0];
  solo_period : resyncCheckPeriod (informer r) = resync;
  solo_listener : exists l, listeners (processor (informer r)) = [l] /\ l_resyncPeriod l = resync
    /\ (nextResync l <= clock r + resync)%Z
    /\ forall t, resyncCh r = Some t -> resync <> 0%Z /\ (nextResync l <= t)%Z;
}.

(** The state the periods and the timers are in. *)
Definition same_timers (r r' : running) : Prop :=
  same_listeners (processor (informer r)) (processor (informer r'))
  /\ resyncCheckPeriod (informer r') = resyncCheckPeriod (informer r)
  /\ (clock r <= clock r')%Z /\ (resyncCh r' = resyncCh r \/ resyncCh r' = None).

Lemma solo_same resync r r' : solo resync r -> same_timers r r' -> solo resync r'.
Proof.
  intros [Hs Hp (l & Hl & Hlp & Hn & Ht)] ([Es El] & Ep & Hc & Hch). split; [by rewrite Es|by rewrite Ep|].
  rewrite Hl in El. destruct (listeners (processor (informer r'))) as [|l' [|? ?]] eqn:El'; try done.
  unfold timing in El. cbn in El. injection El as _ E2 E3. exists l'. split_and!; [done|congruence|lia|].
  intros t Et. destruct Hch as [Hch|Hch]; rewrite Hch in Et; [|done]. rewrite E3. by apply Ht.
Qed.

(** For the steps that leave the listeners alone. *)
Ltac timers_tac := split_and!; [by split|done|cbn; lia|solve [by left|by right]].

Section Solo.
Context `{R : MapRange}.
Context (P : obj -> Prop) (P_meta : forall o, P o -> exists m, Accessor o = Ok m).
Context (expectedType : string).

Lemma solo_new_timer resync r r' :
  solo resync r -> informer r' = informer r -> clock r' = clock r -> resyncCh r' = resyncChan r -> solo resync r'.
Proof.
  intros [Hs Hp (l & Hl & Hlp & Hn & Ht)] Ei Ec Ech. split; rewrite ?Ei; [done|done|].
  exists l. split_and!; [done|done|by rewrite Ec|]. rewrite Ech. unfold resyncChan. rewrite Hp.
  destruct (Z.eqb_spec resync 0); [done|]. by intros t [= <-].
Qed.

Lemma solo_resync resync r r' qs :
  run_ok P r qs -> solo resync r -> resync_step r = Goes r' -> solo resync r'.
Proof.
  intros [Hst Hf Hpr] [Hs Hp (l & Hl & Hlp & Hn & Ht)]. unfold resync_step. destruct (resyncCh r) as [t|] eqn:Et; [|done].
  destruct (Ht t eq_refl) as [Hnz Hnt]. destruct (Z.leb_spec t (clock r)) as [Hle|]; [|done].
  unfold shouldResync. rewrite shouldResync_loop_spec, Hl. cbn [map length seq List.filter Nat.sub lookup list_lookup].
  assert (listener_shouldResync (clock r) l = true) as ->.
  { unfold listener_shouldResync. rewrite Hlp. destruct (Z.eqb_spec resync 0); [done|].
    destruct (Z.ltb_spec (nextResync l) (clock r)); [done|]. cbn. apply Z.eqb_eq. lia. }
  cbn [negb Nat.eqb length]. destruct (fifo_Resync _ _) as [f [err|]]; intros [= <-].
  - split; [done|done|]. exists (determineNextResync (clock r) l). split_and!; [done|done| |done]. cbn. rewrite Hlp. lia.
  - split; [done|done|]. exists (determineNextResync (clock r) l). split_and!; [done|done| |]; cbn; rewrite Hlp; [lia|].
    unfold resyncChan. cbn. rewrite Hp. destruct (Z.eqb_spec resync 0); [done|]. intros t' [= <-]. split; [done|lia].
Qed.

Lemma solo_step resync a r qs n r' :
  run_ok P r qs -> solo resync r -> act expectedType a r = Goes (n, r') -> solo resync r'.
Proof.
  intros Hr Hsolo. destruct a as [answer|answer|e| | | | |d|i]; cbn [act].
  - unfold list_step. destruct (at_phase r); try done. destruct answer as [[l rv]|err].
    + destruct (fifo_Replace _ _ _) as [f [err|]]; intros [= <- <-].
      * apply (solo_same _ r); [done|]. timers_tac.
      * by apply (solo_new_timer _ r).
    + intros [= <- <-]. apply (solo_same _ r); [done|]. timers_tac.
  - unfold watch_step. destruct (at_phase r), answer as [[]|]; try done;
      intros [= <- <-]; (apply (solo_same _ r); [done|]); timers_tac.
  - unfold event_step. destruct (at_phase r); try done. intros E.
    destruct (e_Type e); try destruct (negb _); try destruct (Accessor (e_Object e)); injection E as <- <-;
      (apply (solo_same _ r); [done|]); timers_tac.
  - unfold close_step. destruct (at_phase r); try done.
    destruct (_ && _); intros [= <- <-]; (apply (solo_same _ r); [done|]); timers_tac.
  - destruct (resync_step r) as [| |r1] eqn:E; try done. intros [= <- <-]. by eapply solo_resync.
  - unfold errc_step. destruct (at_phase r), (resyncerrc r); try done.
    intros [= <- <-]; (apply (solo_same _ r); [done|]); timers_tac.
  - pose proof (process_step_ok P P_meta r qs Hr) as Hp. destruct (f_queue (fifo r)) as [|k q]; [by rewrite Hp|].
    destruct Hp as (ds & st & p & -> & _ & _ & _ & Hsame & _). intros [= <- <-].
    apply (solo_same _ r); [done|]. split_and!; [exact Hsame|done|done|by left].
  - unfold tick_step. destruct (Z.ltb_spec d 0) as [|Hd]; [done|]. intros [= <- <-].
    apply (solo_same _ r); [done|]. timers_tac.
  - pose proof (deliver_step_ok P i r qs Hr) as Hd. destruct (qs !! i) as [[|x q]|]; [by rewrite Hd| |by rewrite Hd].
    destruct Hd as (l & l' & Hl & Ht & -> & _). intros [= <- <-].
    apply (solo_same _ r); [done|]. split_and!; [|done|done|by left]. split; [done|]. cbn.
    apply list_eq. intros j. rewrite !list_lookup_fmap. destruct (decide (j = i)) as [->|Hj].
    + rewrite list_lookup_insert_eq by (by eapply lookup_lt_Some). rewrite Hl. cbn. by rewrite Ht.
    + by rewrite list_lookup_insert_ne.
Qed.

(** The start: an informer of one handler that runs. *)
Lemma start_ok resync namespace_indexer t0 now :
  (resync = 0 \/ minimumResyncPeriod <= resync)%Z -> (t0 <= now)%Z ->
  exists s, AddEventHandler t0 (NewSharedIndexInformer resync namespace_indexer) = Some s
    /\ run_ok P (Run s now) [[]] /\ solo resync (Run s now) /\ in_step (Run s now) ∅
    /\ store_items (Run s now) = ∅.
Proof.
  intros Hres Hnow. unfold AddEventHandler, AddEventHandlerWithResyncPeriod.
  cbn [stopped NewSharedIndexInformer defaultEventHandlerResyncPeriod SharedInformer.started resyncCheckPeriod].
  destruct (Z.ltb_spec 0 resync) as [Hpos|Hpos]; cbn zeta.
  1: destruct (Z.ltb_spec resync minimumResyncPeriod); [unfold minimumResyncPeriod in *; lia|]; rewrite Z.ltb_irrefl.
  all: cbn [SharedInformer.started NewSharedIndexInformer]; eexists; (split; [done|]).
  all: assert (determineResyncPeriod resync resync = resync) as Hd
    by (unfold determineResyncPeriod; destruct (Z.eqb_spec resync 0); [done|by rewrite Z.ltb_irrefl]).
  all: split_and!; [|split; [done|done|]| |done].
  all: try (intros j; unfold future, pending; cbn; by rewrite !lookup_empty).
  all: try (eexists; split; [done|]; cbn; rewrite Hd; split_and!; [done|lia|done]).
  all: split; [apply new_store_ok|apply new_fifo_ok|split; cbn].
  all: try apply NoDup_singleton.
  all: constructor; [|constructor]; try lia.
  all: apply new_listener_ok; unfold initialBufferSize; lia.
Qed.

End Solo.
