(* ===== verification/InformerSystem.v ===== *)
(** * Runs of an informer

    What the one event handler of an informer is told, over any run of the
    goroutines of [Reflector] and any answers of the API server: a history of
    the store, and, when the queue is drained, of what the server has said. *)

From stdpp Require Import base gmap strings list relations.
From Stdlib Require Import Lia ZArith.
From S2P Require Import Prelude GoStd Types RingGrowing Cache DeltaFifo SharedInformer InformerFactory Reflector.

(** ** Clean lists as a function *)

Definition relist_cleanb (r : running) (l : list obj) : bool :=
  forallb (fun x => negb (willObjectBeDeletedLocked x.1 (fifo r))) (map_to_list (listed l))
  && forallb (fun x => match listed l !! x.1, store_items r !! x.1, future (fifo r) (store_items r) x.1 with
                       | None, None, Some _ => false
                       | _, _, _ => true
                       end) (map_to_list (f_items (fifo r))).

Lemma relist_cleanb_true r l : relist_cleanb r l = true -> relist_clean r l.
Proof.
  unfold relist_cleanb. rewrite andb_true_iff, !forallb_forall. intros [H1 H2] j.
  destruct (listed l !! j) as [o|] eqn:El.
  - specialize (H1 (j, o)). cbn in H1. apply negb_true_iff, H1, list_elem_of_In, elem_of_map_to_list, El.
  - intros Ej. destruct (f_items (fifo r) !! j) as [ds|] eqn:Ed.
    + specialize (H2 (j, ds)). cbn in H2. rewrite El, Ej in H2.
      destruct (future _ _ j); [|done]. discriminate H2. apply list_elem_of_In, elem_of_map_to_list, Ed.
    + unfold future, pending. by rewrite Ed.
Qed.

(** A drained queue takes over every list. *)
Lemma drained_clean P r l qs : run_ok P r qs -> f_queue (fifo r) = [] -> relist_cleanb r l = true.
Proof.
  intros [_ Hf _] Hq. assert (f_items (fifo r) = ∅) as He.
  { apply map_empty. intros k. destruct (f_items (fifo r) !! k) eqn:E; [|done].
    assert (k ∈ f_queue (fifo r)) as Hin by (apply (fo_queue _ _ _ Hf); by rewrite E). rewrite Hq in Hin. by apply elem_of_nil in Hin. }
  unfold relist_cleanb. rewrite He, map_to_list_empty, andb_true_r. apply forallb_forall. intros [j o] _.
  cbn. rewrite willObjectBeDeleted_spec. unfold pending. by rewrite He, lookup_empty.
Qed.

(** A drained queue has no future but the store. *)
Lemma drained_store P r told qs : run_ok P r qs -> f_queue (fifo r) = [] -> in_step r told -> store_items r = told.
Proof.
  intros [_ Hf _] Hq Hin. apply map_eq. intros j. rewrite <- Hin. unfold future, pending.
  destruct (f_items (fifo r) !! j) eqn:E; [|done].
  assert (j ∈ f_queue (fifo r)) as Hj by (apply (fo_queue _ _ _ Hf); by rewrite E). rewrite Hq in Hj. by apply elem_of_nil in Hj.
Qed.

(** Whether the last list was clean, when this step is a list. *)
Definition kept_up (a : action) (r : running) (c : bool) : bool :=
  match a, at_phase r with DoList (Ok (l, _)), ToList => relist_cleanb r l | _, _ => c end.

(** ** What the notifications are about *)

Section Runs.
Context `{R : MapRange}.
Context (P : obj -> Prop) (P_meta : forall o, P o -> exists m, Accessor o = Ok m).
Context (expectedType : string).

Definition note_ok (n : notification) : Prop :=
  match n with
  | addNotification o => P o
  | updateNotification old o => P old /\ P o /\ key_of old = key_of o
  | deleteNotification o => P o \/ is_tombstone o = true
  end.

Definition all_P (its : gmap string obj) : Prop := forall k o, its !! k = Some o -> P o /\ key_of o = k.

Lemma deltas_notes_length its ds : length (deltas_notes its ds) = length ds.
Proof. revert its. induction ds; intros its; cbn; auto. Qed.

Lemma notes_ok its k ds :
  all_P its -> Forall (delta_ok P k) ds -> Forall note_ok (map fst (deltas_notes its ds)).
Proof.
  intros Hits Hds. revert its Hits. induction Hds as [|d ds Hd _ IH]; intros its Hits; [by constructor|].
  cbn [deltas_notes map]. pose proof (delta_key P k d Hd) as Hk. constructor.
  - destruct Hd as [_ Ho]. unfold delta_note. rewrite Hk.
    destruct (dType d); cbn; try (destruct Ho as [Ho|[? _]]; [|done]);
      try (destruct (its !! k) as [old|] eqn:E; [destruct (Hits _ _ E) as [? <-]|]); naive_solver.
  - apply IH. intros j o. rewrite (apply_delta_key P _ _ _ Hd). destruct Hd as [_ Ho]. unfold effect.
    case_decide as Et.
    + intros [_ Hj]%lookup_delete_Some. by apply Hits.
    + intros [[<- <-]|[_ Hj]]%lookup_insert_Some; [|by apply Hits]. split; [|done]. by destruct Ho as [?|[? _]].
Qed.

(** ** Runs *)

(** [reaches r0 r told ns c]: a run from [r0] to [r] in which the informer was
    told [told] and has reported [ns]; [c] says whether its last list was
    clean. *)
Inductive reaches (r0 : running) : running -> gmap string obj -> list notification -> bool -> Prop :=
| reaches_start : reaches r0 r0 ∅ [] true
| reaches_step r told ns c a n r' :
    reaches r0 r told ns c -> answer_ok P expectedType a -> act expectedType a r = Goes (n, r') ->
    reaches r0 r' (tell expectedType a r told) (ns ++ match n with Some n => [n] | None => [] end) (kept_up a r c).

(** The state of a run, with the notifications [q] that are on their way. *)
Record informed (resync : Z) (r : running) (told : gmap string obj) (ns : list notification) (c : bool)
    (q : list notification) : Prop := {
  if_run : run_ok P r [q];
  if_solo : solo resync r;
  if_history : note_run ∅ (ns ++ q) (store_items r);
  if_notes : Forall note_ok (ns ++ q);
  if_told : c = true -> in_step r told;
}.

Lemma steps_in_kept a r r' told c :
  steps_in expectedType a r r' -> (c = true -> in_step r told) -> kept_up a r c = true ->
  (forall l rv, a = DoList (Ok (l, rv)) -> at_phase r = ToList) ->
  in_step r' (tell expectedType a r told).
Proof.
  intros Hs Hc Hk Hl. destruct a as [[[l rv]|e]|answer|e| | | | |d|i]; try (apply Hs; [done|left; by apply Hc]).
  - specialize (Hl l rv eq_refl). apply Hs; [|by right]. unfold clean. rewrite Hl. apply relist_cleanb_true.
    unfold kept_up in Hk. by rewrite Hl in Hk.
Qed.

Lemma list_enabled a r n r' l rv :
  act expectedType a r = Goes (n, r') -> a = DoList (Ok (l, rv)) -> at_phase r = ToList.
Proof. intros E ->. cbn in E. unfold list_step in E. by destruct (at_phase r). Qed.

Lemma informed_process resync r told ns c q r' :
  informed resync r told ns c q -> process_step r = Goes r' ->
  exists k rest ds q', informed resync r' told ns c q' /\ f_queue (fifo r) = k :: rest
    /\ f_items (fifo r) !! k = Some ds /\ fifo r' = taken k rest (fifo r) /\ length q' = length q + length ds.
Proof.
  intros [Hr Hsolo Hh Hn Ht] E. pose proof (process_step_ok P P_meta r [q] Hr) as Hp.
  destruct (f_queue (fifo r)) as [|k rest] eqn:Eq; [congruence|].
  destruct Hp as (ds & st & p & Ep & Hds & Hok & Hits & Hsame & Hr' & Hin). rewrite Ep in E. injection E as <-.
  assert (heard (processor (informer r)) 0 (processed_notes r ds) = map fst (processed_notes r ds)) as Hheard.
  { unfold heard. f_equal. unfold hears. rewrite (solo_syncing _ _ Hsolo). rewrite bool_decide_true by (by left).
    clear. induction (processed_notes r ds) as [|x l IH]; [done|]. cbn. rewrite orb_true_r. by rewrite IH. }
  exists k, rest, ds, (q ++ map fst (processed_notes r ds)). split_and!; [|done|done|done|].
  - split.
    + cbn [imap] in Hr'. by rewrite Hheard in Hr'.
    + apply (solo_step P P_meta expectedType resync DoProcess r [q] None); [done|done|]. cbn [act]. by rewrite Ep.
    + rewrite app_assoc. eapply note_run_app; [exact Hh|]. rewrite Hits. by apply (notes_run P _ k).
    + rewrite app_assoc. apply Forall_app. split; [done|]. apply (notes_ok _ k); [|apply Hok].
      exact (so_items _ _ (rk_store _ _ _ Hr)).
    + intros Hc. apply Hin, Ht, Hc.
  - rewrite length_app, length_map. unfold processed_notes. by rewrite deltas_notes_length.
Qed.

Lemma informed_deliver resync r told ns c q i n r' :
  informed resync r told ns c q -> deliver_step i r = Goes (n, r') ->
  exists q', q = n :: q' /\ informed resync r' told (ns ++ [n]) c q' /\ fifo r' = fifo r.
Proof.
  intros [Hr Hsolo Hh Hn Ht] E. pose proof (deliver_step_ok P i r [q] Hr) as Hd.
  destruct ([q] !! i) as [q0|] eqn:Eq; [|congruence].
  destruct i as [|[|i]]; try done. cbn in Eq. injection Eq as <-. destruct q as [|x q]; [congruence|].
  destruct Hd as (l & l' & Hl & Hti & Ed & Hr'). rewrite Ed in E. injection E as <- <-.
  exists q. split_and!; [done| |done]. split.
  - exact Hr'.
  - apply (solo_step P P_meta expectedType resync (DoDeliver 0) r [x :: q] (Some x)); [done|done|]. cbn [act]. by rewrite Ed.
  - by rewrite <- app_assoc.
  - by rewrite <- app_assoc.
  - exact Ht.
Qed.

Lemma informed_quiet resync r told ns c q a n r' :
  informed resync r told ns c q -> answer_ok P expectedType a -> (forall i, a <> DoDeliver i) -> a <> DoProcess ->
  act expectedType a r = Goes (n, r') ->
  n = None /\ informed resync r' (tell expectedType a r told) ns (kept_up a r c) q.
Proof.
  intros [Hr Hsolo Hh Hn Ht] Ha Hd Hp E.
  destruct (quiet_step_ok P P_meta expectedType a r [q] n r' Hr Ha Hd Hp E) as (-> & Hq & Hs).
  split; [done|]. split.
  - by apply (quiet_ok P r).
  - by apply (solo_step P P_meta expectedType resync a r [q] None).
  - unfold store_items. rewrite (qu_store _ _ _ Hq). exact Hh.
  - done.
  - intros Hk. apply (steps_in_kept a r r' told c Hs Ht Hk). intros l rv. by apply (list_enabled a r None r').
Qed.

Lemma informed_step resync r told ns c q a n r' :
  informed resync r told ns c q -> answer_ok P expectedType a -> act expectedType a r = Goes (n, r') ->
  exists q', informed resync r' (tell expectedType a r told)
               (ns ++ match n with Some n => [n] | None => [] end) (kept_up a r c) q'.
Proof.
  intros Hi Ha E.
  assert (a = DoProcess \/ (exists i, a = DoDeliver i) \/ ((forall i, a <> DoDeliver i) /\ a <> DoProcess))
    as [->|[[i ->]|[H1 H2]]] by (destruct a; eauto; right; right; by split).
  - cbn in E. destruct (process_step r) as [| |r1] eqn:Ep; try done. injection E as <- <-.
    destruct (informed_process _ _ _ _ _ _ _ Hi Ep) as (? & ? & ? & q' & Hi' & _). exists q'. by rewrite app_nil_r.
  - cbn in E. destruct (deliver_step i r) as [| |[x r1]] eqn:Ep; try done. injection E as <- <-.
    destruct (informed_deliver _ _ _ _ _ _ _ _ _ Hi Ep) as (q' & _ & Hi' & _). by exists q'.
  - destruct (informed_quiet _ _ _ _ _ _ _ _ _ Hi Ha H1 H2 E) as [-> Hi']. exists q. by rewrite app_nil_r.
Qed.

Lemma informed_reaches resync r0 r told ns c :
  informed resync r0 ∅ [] true [] -> reaches r0 r told ns c -> exists q, informed resync r told ns c q.
Proof.
  intros H0. induction 1 as [|r told ns c a n r' _ (q & Hq) Ha E]; [by exists []|]. by eapply informed_step.
Qed.

(** An informer with one handler, added at [t0], that runs from [now] on. *)
Record begins (resync t0 now : Z) (namespace_indexer : bool) (r0 : running) : Prop := {
  bg_resync : (resync = 0 \/ minimumResyncPeriod <= resync)%Z;
  bg_time : (t0 <= now)%Z;
  bg_run : exists s, AddEventHandler t0 (NewSharedIndexInformer resync namespace_indexer) = Some s /\ r0 = Run s now;
}.

Lemma begins_informed resync t0 now b r0 : begins resync t0 now b r0 -> informed resync r0 ∅ [] true [].
Proof.
  intros [Hr Ht (s & Hs & ->)]. destruct (start_ok P resync b t0 now Hr Ht) as (s' & Hs' & Hrun & Hsolo & Hin & Hit).
  rewrite Hs in Hs'. injection Hs' as <-. split; [done|done| |by constructor|done]. rewrite Hit. constructor.
Qed.

(** ** Nothing new from the server *)

Definition news (a : action) : bool := match a with DoList (Ok _) | DoEvent _ => true | _ => false end.

Definition silent_step (r r' : running) : Prop :=
  exists a n, news a = false /\ act expectedType a r = Goes (n, r').

Lemma news_tell a r told : news a = false -> tell expectedType a r told = told.
Proof. by destruct a as [[[l rv]|e]| | | | | | | |]. Qed.

Lemma silent_step_ok r r' qs told :
  run_ok P r qs -> in_step r told -> silent_step r r' -> exists qs', run_ok P r' qs' /\ in_step r' told.
Proof.
  intros Hr Hin (a & n & Hnews & E).
  assert (a = DoProcess \/ (exists i, a = DoDeliver i) \/ ((forall i, a <> DoDeliver i) /\ a <> DoProcess))
    as [->|[[i ->]|[H1 H2]]] by (destruct a; eauto; right; right; by split).
  - pose proof (process_step_ok P P_meta r qs Hr) as Hp. cbn in E.
    destruct (f_queue (fifo r)) as [|k rest]; [by rewrite Hp in E|].
    destruct Hp as (ds & st & p & Ep & _ & _ & _ & _ & Hr' & Hin'). rewrite Ep in E. injection E as _ <-.
    eexists. split; [exact Hr'|by apply Hin'].
  - pose proof (deliver_step_ok P i r qs Hr) as Hd. cbn in E.
    destruct (qs !! i) as [[|x q]|]; [by rewrite Hd in E| |by rewrite Hd in E].
    destruct Hd as (l & l' & _ & _ & Ed & Hr'). rewrite Ed in E. injection E as _ <-.
    eexists. split; [exact Hr'|exact Hin].
  - assert (answer_ok P expectedType a) as Ha by (by destruct a as [[[l rv]|e]| | | | | | | |]).
    destruct (quiet_step_ok P P_meta expectedType a r qs n r' Hr Ha H1 H2 E) as (_ & Hq & Hs).
    exists qs. split; [by apply (quiet_ok P r)|]. rewrite <- (news_tell a r told Hnews).
    apply Hs; [|by left]. by destruct a as [[[l rv]|e]| | | | | | | |].
Qed.

Lemma silent_run_ok r r' qs told :
  run_ok P r qs -> in_step r told -> rtc silent_step r r' -> exists qs', run_ok P r' qs' /\ in_step r' told.
Proof.
  intros Hr Hin Hrun. revert qs Hr Hin. induction Hrun as [r|r r1 r' Hs _ IH]; intros qs Hr Hin; [by exists qs|].
  destruct (silent_step_ok _ _ _ _ Hr Hin Hs) as (qs' & Hr' & Hin'). by eapply IH.
Qed.

(** A store whose queue is drained stays as it is until the server says
    something, whatever the resyncs do. *)
Lemma silent_store r r' qs :
  run_ok P r qs -> f_queue (fifo r) = [] -> rtc silent_step r r' -> f_queue (fifo r') = [] ->
  store_items r' = store_items r.
Proof.
  intros Hr Hq Hrun Hq'. assert (in_step r (store_items r)) as Hin.
  { intros j. unfold future, pending. destruct (f_items (fifo r) !! j) eqn:E; [|done].
    assert (j ∈ f_queue (fifo r)) as Hj by (apply (fo_queue _ _ _ (rk_fifo _ _ _ Hr)); by rewrite E).
    rewrite Hq in Hj. by apply elem_of_nil in Hj. }
  destruct (silent_run_ok _ _ _ _ Hr Hin Hrun) as (qs' & Hr' & Hin'). by eapply drained_store.
Qed.

(** ** Working off what is queued *)

(** A step of the informer's own: processing or delivering. *)
Inductive own_step (r : running) : running -> Prop :=
| own_process r' : process_step r = Goes r' -> own_step r r'
| own_deliver i n r' : deliver_step i r = Goes (n, r') -> own_step r r'.

Definition queued_deltas (f : DeltaFIFO) : nat := list_sum (map (fun k => length (pending f k)) (f_queue f)).

(** Two steps for each queued delta and one for each notification, at most. *)
Definition work (r : running) (q : list notification) : nat := 2 * queued_deltas (fifo r) + length q.

Lemma queued_taken its f k rest ds :
  fifo_ok P its f -> f_queue f = k :: rest -> f_items f !! k = Some ds ->
  queued_deltas f = length ds + queued_deltas (taken k rest f).
Proof.
  intros Hf Eq Hds. unfold queued_deltas. rewrite Eq. cbn [map list_sum foldr f_queue taken].
  assert (pending f k = ds) as -> by (unfold pending; by rewrite Hds). f_equal.
  pose proof (fo_nodup _ _ _ Hf) as Hnd. rewrite Eq in Hnd. apply NoDup_cons in Hnd as [Hk _].
  f_equal. apply map_ext_in. intros j Hj%list_elem_of_In. unfold pending. cbn.
  by rewrite lookup_delete_ne by set_solver.
Qed.

Lemma process_work resync r told ns c q r' :
  informed resync r told ns c q -> process_step r = Goes r' ->
  exists q', informed resync r' told ns c q' /\ work r' q' < work r q.
Proof.
  intros Hi E. destruct (informed_process _ _ _ _ _ _ _ Hi E) as (k & rest & ds & q' & Hi' & Eq & Hds & Ef & El).
  pose proof (rk_fifo _ _ _ (if_run _ _ _ _ _ _ Hi)) as Hf. exists q'. split; [done|].
  unfold work. rewrite Ef, (queued_taken _ _ _ _ _ Hf Eq Hds), El.
  destruct (fo_items _ _ _ Hf _ _ Hds) as [Hne _]. destruct ds; [done|]. cbn [length]. lia.
Qed.

Lemma own_step_work resync r told ns c q r' :
  informed resync r told ns c q -> own_step r r' ->
  exists ns' q', informed resync r' told (ns ++ ns') c q' /\ work r' q' < work r q
    /\ exists a n, answer_ok P expectedType a /\ act expectedType a r = Goes (n, r') /\ tell expectedType a r told = told
         /\ kept_up a r c = c /\ ns' = match n with Some n => [n] | None => [] end.
Proof.
  intros Hi [r1 E|i n r1 E].
  - destruct (process_work _ _ _ _ _ _ _ Hi E) as (q' & Hi' & Hw).
    exists [], q'. rewrite app_nil_r. split_and!; [done|done|].
    + exists DoProcess, None. split_and!; [done| |done|done|done]. cbn [act]. by rewrite E.
  - destruct (informed_deliver _ _ _ _ _ _ _ _ _ Hi E) as (q' & -> & Hi' & Ef).
    exists [n], q'. split_and!; [done| |].
    + unfold work. rewrite Ef. cbn. lia.
    + exists (DoDeliver i), (Some n). split_and!; [done| |done|done|done]. cbn [act]. by rewrite E.
Qed.

(** No own step is left exactly when everything is processed and delivered. *)
Lemma own_step_exists resync r told ns c q :
  informed resync r told ns c q -> (exists r', own_step r r') <-> ~ (f_queue (fifo r) = [] /\ q = []).
Proof.
  intros [Hr _ _ _ _]. pose proof (process_step_ok P P_meta r [q] Hr) as Hp.
  pose proof (fun i => deliver_step_ok P i r [q] Hr) as Hd. split.
  - intros [r' [r1 E|i n r1 E]] [Eq ->].
    + rewrite Eq in Hp. congruence.
    + specialize (Hd i). destruct i as [|i]; cbn in Hd; congruence.
  - intros Hne. destruct (f_queue (fifo r)) as [|k rest].
    + destruct q as [|n q]; [by destruct Hne|]. specialize (Hd 0). cbn in Hd.
      destruct Hd as (l & l' & _ & _ & E & _). eexists. by eapply own_deliver.
    + destruct Hp as (ds & st & p & E & _). eexists. by apply own_process.
Qed.

Lemma own_steps_bound resync r told ns c q n r' :
  informed resync r told ns c q -> nsteps own_step n r r' -> n <= work r q.
Proof.
  intros Hi Hn. revert ns q Hi. induction Hn as [|n r r1 r' Hs _ IH]; intros ns q Hi; [lia|].
  destruct (own_step_work _ _ _ _ _ _ _ Hi Hs) as (ns' & q' & Hi' & Hw & _). specialize (IH _ _ Hi'). lia.
Qed.

Lemma works_off resync r0 r told ns c q :
  informed resync r told ns c q -> reaches r0 r told ns c ->
  exists r' ns', rtc own_step r r' /\ reaches r0 r' told ns' c /\ informed resync r' told ns' c []
    /\ f_queue (fifo r') = [].
Proof.
  intros Hi Hreach. remember (work r q) as w eqn:Ew. revert r ns q Hi Hreach Ew.
  induction (lt_wf w) as [w _ IH]. intros r ns q Hi Hreach ->.
  assert ((f_queue (fifo r) = [] /\ q = []) \/ exists r', own_step r r') as [[Eq ->]|[r1 Hs]].
  { destruct (f_queue (fifo r)) as [|k rest] eqn:Eq, q as [|x q]; [by left|right..];
      apply (own_step_exists _ _ _ _ _ _ Hi); rewrite Eq; by intros []. }
  - exists r, ns. by split_and!; [apply rtc_refl|..].
  - destruct (own_step_work _ _ _ _ _ _ _ Hi Hs) as (ns' & q' & Hi' & Hw & a & n & Ha & E & Et & Ek & ->).
    assert (reaches r0 r1 told (ns ++ match n with Some n => [n] | None => [] end) c) as Hr1.
    { rewrite <- Et at 1. rewrite <- Ek at 1. by eapply reaches_step. }
    destruct (IH _ Hw r1 _ q' Hi' Hr1 eq_refl) as (r' & ns2 & Hrun & Hreach' & Hinf & Hq).
    exists r', ns2. split_and!; [by eapply rtc_l|done|done|done].
Qed.

End Runs.

(** ** Actions one after the other *)

Section Scripts.
Context `{R : MapRange}.
Context (expectedType : string).

Definition script_state : Type := running * gmap string obj * list notification * bool.

(** The actions that are enabled; [None] when one is not. *)
Fixpoint run_script (acts : list action) (s : script_state) : option script_state :=
  match acts with
  | [] => Some s
  | a :: acts =>
      let '(r, told, ns, c) := s in
      match act expectedType a r with
      | Goes (n, r') =>
          run_script acts (r', tell expectedType a r told,
                           ns ++ match n with Some n => [n] | None => [] end, kept_up a r c)
      | _ => None
      end
  end.

Lemma run_script_reaches P r0 acts r told ns c r' told' ns' c' :
  reaches P expectedType r0 r told ns c -> Forall (answer_ok P expectedType) acts ->
  run_script acts (r, told, ns, c) = Some (r', told', ns', c') -> reaches P expectedType r0 r' told' ns' c'.
Proof.
  intros Hr Ha. revert r told ns c Hr. induction Ha as [|a acts Ha _ IH]; intros r told ns c Hr; cbn [run_script].
  - by intros [= <- <- <- <-].
  - destruct (act expectedType a r) as [| |[n r1]] eqn:E; [done..|]. apply IH. by eapply reaches_step.
Qed.

End Scripts.

(** ** Properties *)

(** C5: Refinement: an informer with one handler of the informer's own period
    (or none) mirrors the API server, whatever the server lists and sends, in
    every state that its goroutines can reach.  None of its steps panics.  The
    notifications the handler has had, followed by those on their way to it,
    are a history of the store from the empty one: every addition is of an
    object the store did not have, every update carries the object it
    replaces, every deletion is of an object that was there.  When the queue
    is drained and the last list found nothing in it that contradicts the
    list, the store holds exactly what the server has told; a list that finds
    the queue drained is such a list, whatever came before. *)
Theorem informer_mirrors `{R : MapRange} (P : obj -> Prop) expectedType resync t0 now b r0 r told ns c :
  (forall o, P o -> exists m, Accessor o = Ok m) ->
  begins resync t0 now b r0 -> reaches P expectedType r0 r told ns c ->
  (forall a, answer_ok P expectedType a -> act expectedType a r <> Panics)
  /\ (exists l q, listeners (processor (informer r)) = [l] /\ listener_ok l q
        /\ note_run ∅ (ns ++ q) (store_items r) /\ Forall (note_ok P) (ns ++ q))
  /\ (c = true -> f_queue (fifo r) = [] -> store_items r = told)
  /\ (forall l rv, at_phase r = ToList -> f_queue (fifo r) = [] -> kept_up (DoList (Ok (l, rv))) r c = true).
Proof.
  intros HP H0 Hreach.
  destruct (informed_reaches P HP expectedType resync _ _ _ _ _ (begins_informed P resync t0 now b r0 H0) Hreach) as (q & Hi).
  pose proof Hi as [Hr _ Hh Hn Ht]. split_and!.
  - intros a Ha. by eapply act_never_panics.
  - destruct (Forall2_cons_inv_r _ _ _ _ (pk_listeners _ _ (rk_processor _ _ _ Hr))) as (l & ls & Hl & Hnil & El).
    apply Forall2_nil_inv_r in Hnil as ->. by exists l, q.
  - intros Hc Hq. by eapply drained_store, Ht, Hc.
  - intros l rv Hp Hq. unfold kept_up. rewrite Hp. by eapply drained_clean.
Qed.

(** C6: Liveness: left alone, an informer catches up.  From every state of a run
    its own steps, processing and delivering, are at most two for each queued
    delta and one for each notification on its way; there is such a step until
    all is done; and they lead to a state in which the handler has been told
    of the whole history of the store, which is what the server has told if
    the last list was clean. *)
Theorem informer_catches_up `{R : MapRange} (P : obj -> Prop) expectedType resync t0 now b r0 r told ns c :
  (forall o, P o -> exists m, Accessor o = Ok m) ->
  begins resync t0 now b r0 -> reaches P expectedType r0 r told ns c ->
  exists l q, listeners (processor (informer r)) = [l] /\ listener_ok l q
    /\ (forall n r', nsteps own_step n r r' -> n <= 2 * queued_deltas (fifo r) + length q)
    /\ ((exists r', own_step r r') <-> ~ (f_queue (fifo r) = [] /\ q = []))
    /\ exists r' ns', rtc own_step r r' /\ reaches P expectedType r0 r' told ns' c
         /\ ~ (exists r'', own_step r' r'') /\ note_run ∅ ns' (store_items r')
         /\ (c = true -> store_items r' = told).
Proof.
  intros HP H0 Hreach.
  destruct (informed_reaches P HP expectedType resync _ _ _ _ _ (begins_informed P resync t0 now b r0 H0) Hreach) as (q & Hi).
  destruct (Forall2_cons_inv_r _ _ _ _ (pk_listeners _ _ (rk_processor _ _ _ (if_run _ _ _ _ _ _ _ Hi)))) as (l & ls & Hl & Hnil & El).
  apply Forall2_nil_inv_r in Hnil as ->. exists l, q. split_and!; [done|done| | |].
  - intros n r1 Hn. exact (own_steps_bound P HP expectedType resync r told ns c q n r1 Hi Hn).
  - exact (own_step_exists P HP _ _ _ _ _ _ Hi).
  - destruct (works_off P HP expectedType _ _ _ _ _ _ _ Hi Hreach) as (r' & ns' & Hrun & Hreach' & Hi' & Hq).
    exists r', ns'. split_and!; [done|done| | |].
    + rewrite (own_step_exists P HP _ _ _ _ _ _ Hi'). by intros Hne; apply Hne.
    + pose proof (if_history _ _ _ _ _ _ _ Hi') as Hh. by rewrite app_nil_r in Hh.
    + intros Hc. eapply drained_store; [exact (if_run _ _ _ _ _ _ _ Hi')|done|]. by apply (if_told _ _ _ _ _ _ _ Hi').
Qed.

(** ** A sample informer of the log sinks *)

Definition is_log_sink (o : obj) : Prop := TypeOf o = LogSink_type.

Lemma is_log_sink_meta o : is_log_sink o -> exists m, Accessor o = Ok m.
Proof. destruct o; try discriminate. intros _. by eexists. Qed.

Definition sample_object (name version : string) : obj :=
  ALogSink {| ls_TypeMeta := MkTypeMeta EmptyString EmptyString;
              ls_ObjectMeta := MkObjectMeta name EmptyString "ns1" EmptyString EmptyString version 0 0
                                 None None None None None None None EmptyString;
              ls_Spec := MkSinkSpec "syslog" (MkSyslogSpec "logs.example.com" 514 false) (MkWebhookSpec EmptyString) false |}.

Definition sample_resync : Z := 30000000000.

Definition sample_informer : running :=
  Run (match @AddEventHandler map_order 0 (NewSharedIndexInformer sample_resync true) with
       | Some s => s
       | None => NewSharedIndexInformer sample_resync true
       end) 0.

Lemma sample_begins : @begins map_order sample_resync 0 0 true sample_informer.
Proof. split; [right; unfold minimumResyncPeriod, sample_resync; lia|lia|]. eexists. by split. Qed.

Definition script (acts : list action) : option script_state :=
  @run_script map_order LogSink_type acts (sample_informer, ∅, [], true).

Definition listed_as (os : list obj) (version : string) : action := DoList (Ok (os, version)).
Definition sends_event (t : EventType) (o : obj) : action := DoEvent (MkEvent t o).

Lemma script_reaches acts r told ns c :
  Forall (answer_ok is_log_sink LogSink_type) acts -> script acts = Some (r, told, ns, c) ->
  @reaches map_order is_log_sink LogSink_type sample_informer r told ns c.
Proof. intros Ha. apply run_script_reaches; [constructor|done]. Qed.

(** A list, two events, a resync in between and a watch that ends. *)
Definition sample_acts : list action :=
  [listed_as [sample_object "a" "1"; sample_object "b" "2"] "2"; DoWatch None; DoProcess; DoProcess; DoDeliver 0;
   sends_event WatchModified (sample_object "a" "3"); DoTick sample_resync; DoResync; DoProcess;
   sends_event WatchDeleted (sample_object "b" "4"); DoClose; DoWatch (Some EOF);
   listed_as [sample_object "a" "3"] "4"; DoWatch None].

(** The watch ends while the deletion of an object is queued, and the list that
    follows has a new object of the same name. *)
Definition recreated_acts : list action :=
  [listed_as [sample_object "a" "1"] "1"; DoWatch None; DoProcess; DoDeliver 0;
   sends_event WatchDeleted (sample_object "a" "2"); DoClose; DoWatch (Some (WatchFailed "too old resource version"));
   listed_as [sample_object "a" "4"] "4"; DoWatch None; DoProcess; DoDeliver 0].

(** The watch ends while the addition of an object is queued, and the list that
    follows does not have it any more. *)
Definition vanished_acts : list action :=
  [listed_as [] "1"; DoWatch None; sends_event WatchAdded (sample_object "b" "2"); DoClose;
   DoWatch (Some (WatchFailed "too old resource version")); listed_as [] "4"; DoWatch None; DoProcess; DoDeliver 0].

(** What the store has and what the server told of a key, the queue, what the
    handler was told, and whether the last list was clean. *)
Definition outcome_of (k : string) (acts : list action)
    : option (option obj * option obj * list string * list notification * bool) :=
  match script acts with
  | Some (r, told, ns, c) => Some (store_items r !! k, told !! k, f_queue (fifo r), ns, c)
  | None => None
  end.

Example sample_outcome :
  outcome_of "ns1/a" sample_acts
  = Some (Some (sample_object "a" "3"), Some (sample_object "a" "3"), ["ns1/b"; "ns1/a"],
          [addNotification (sample_object "a" "1")], true).
Proof. vm_compute. reflexivity. Qed.

Lemma script_outcome k acts st told q ns c :
  Forall (answer_ok is_log_sink LogSink_type) acts -> outcome_of k acts = Some (st, told, q, ns, c) ->
  exists r m, @reaches map_order is_log_sink LogSink_type sample_informer r m ns c
    /\ store_items r !! k = st /\ m !! k = told /\ f_queue (fifo r) = q.
Proof.
  intros Ha. unfold outcome_of. destruct (script acts) as [[[[r m] ns'] c']|] eqn:E; [|done].
  intros [= <- <- <- <- <-]. exists r, m. split_and!; [|done..]. by eapply script_reaches.
Qed.

Ltac answers_tac := repeat constructor; by intros.

(** C20: What a list loses.  The informer can come to rest, every request having
    been answered, with a store that is not what the server has told.  An
    object deleted and created anew while the watch was broken is not in the
    store although the last list had it, when the deletion was still queued;
    one that was added and deleted is in it although the list had not, when the
    addition was still queued.  In both cases nothing changes until the server
    sends an event or lists again, however often the store is resynced. *)
Theorem list_can_lose_objects :
  exists r1 told1 ns1 r2 told2 ns2,
    @reaches map_order is_log_sink LogSink_type sample_informer r1 told1 ns1 false
    /\ @reaches map_order is_log_sink LogSink_type sample_informer r2 told2 ns2 false
    /\ ns1 = [addNotification (sample_object "a" "1"); deleteNotification (sample_object "a" "2")]
    /\ told1 !! "ns1/a" = Some (sample_object "a" "4")
    /\ ns2 = [addNotification (sample_object "b" "2")] /\ told2 !! "ns1/b" = None
    /\ (forall r, rtc (@silent_step map_order LogSink_type) r1 r -> f_queue (fifo r) = [] ->
         store_items r !! "ns1/a" = None)
    /\ (forall r, rtc (@silent_step map_order LogSink_type) r2 r -> f_queue (fifo r) = [] ->
         store_items r !! "ns1/b" = Some (sample_object "b" "2")).
Proof.
  destruct (script_outcome "ns1/a" recreated_acts None (Some (sample_object "a" "4")) []
    [addNotification (sample_object "a" "1"); deleteNotification (sample_object "a" "2")] false)
    as (r1 & m1 & H1 & Hs1 & Hm1 & Hq1); [answers_tac|vm_compute; reflexivity|].
  destruct (script_outcome "ns1/b" vanished_acts (Some (sample_object "b" "2")) None []
    [addNotification (sample_object "b" "2")] false)
    as (r2 & m2 & H2 & Hs2 & Hm2 & Hq2); [answers_tac|vm_compute; reflexivity|].
  destruct (informed_reaches _ is_log_sink_meta _ _ _ _ _ _ _ (begins_informed _ _ _ _ _ _ sample_begins) H1) as (q1 & Hi1).
  destruct (informed_reaches _ is_log_sink_meta _ _ _ _ _ _ _ (begins_informed _ _ _ _ _ _ sample_begins) H2) as (q2 & Hi2).
  exists r1, m1. eexists. exists r2, m2. eexists. split_and!; [exact H1|exact H2|done|done|done|done| |].
  - intros r Hr Hq. rewrite (silent_store _ is_log_sink_meta _ _ _ _ (if_run _ _ _ _ _ _ _ Hi1) Hq1 Hr Hq). done.
  - intros r Hr Hq. rewrite (silent_store _ is_log_sink_meta _ _ _ _ (if_run _ _ _ _ _ _ _ Hi2) Hq2 Hr Hq). done.
Qed.

(** ** Witnesses *)

Lemma informer_mirrors_witness :
  exists r told ns, @reaches map_order is_log_sink LogSink_type sample_informer r told ns true
    /\ (f_queue (fifo r) = [] -> store_items r = told).
Proof.
  destruct (script_outcome "ns1/a" sample_acts _ _ _ _ _ ltac:(answers_tac) sample_outcome) as (r & m & H & _).
  exists r, m. eexists. split; [exact H|].
  exact (proj1 (proj2 (proj2 (@informer_mirrors map_order is_log_sink LogSink_type sample_resync 0 0 true
    sample_informer r m _ true is_log_sink_meta sample_begins H))) eq_refl).
Defined.

Lemma informer_catches_up_witness :
  exists r told ns r', @reaches map_order is_log_sink LogSink_type sample_informer r told ns true
    /\ rtc own_step r r' /\ store_items r' = told.
Proof.
  destruct (script_outcome "ns1/a" sample_acts _ _ _ _ _ ltac:(answers_tac) sample_outcome) as (r & m & H & _).
  destruct (@informer_catches_up map_order is_log_sink LogSink_type sample_resync 0 0 true
    sample_informer r m _ true is_log_sink_meta sample_begins H) as (l & q & _ & _ & _ & _ & r' & ns' & Hr & _ & _ & _ & Ht).
  exists r, m. eexists. exists r'. split; [exact H|]. split; [exact Hr|by apply Ht].
Defined.
