(* ===== verification/InformerKinds.v ===== *)
(** * The objects of a kind behind an informer

    An informer's store and notifications are untyped; its handlers take the
    objects of one kind, which they tell apart by a key of their own.  This
    file has the interface of such a kind, the class [ObjectKind] with its laws,
    the map of typed objects that a store stands for, and what a handler that
    drops tombstones knows after its notifications. *)

From stdpp Require Import base gmap strings list.
From Stdlib Require Import Lia.
From S2P Require Import Prelude GoStd Types Cache DeltaFifo SharedInformer InformerFactory Reflector InformerSystem.

(** ** What a handler knows

    The objects a handler was told of.  The handlers drop tombstones, the
    reports of deletions that the watch has missed. *)

Definition knows (m : gmap string obj) (n : notification) : gmap string obj :=
  match n with
  | addNotification o | updateNotification _ o => <[key_of o := o]> m
  | deleteNotification o => if is_tombstone o then m else delete (key_of o) m
  end.

Definition known (ns : list notification) : gmap string obj := foldl knows ∅ ns.

Definition missed_deletion (n : notification) : bool :=
  match n with deleteNotification o => is_tombstone o | _ => false end.

Lemma knows_more its its' m n : note_step its n its' -> its ⊆ m -> its' ⊆ knows m n.
Proof.
  intros Hs Hm. destruct Hs as [its o Ho|its old o Ho|its o Ho]; cbn [knows]; [by apply insert_mono..|].
  destruct (is_tombstone o); [|by apply delete_mono]. etransitivity; [apply delete_subseteq|done].
Qed.

Lemma known_more its its' m ns : note_run its ns its' -> its ⊆ m -> its' ⊆ foldl knows m ns.
Proof. intros Hr. revert m. induction Hr as [|its its' its'' n ns Hs _ IH]; intros m Hm; [done|]. by eapply IH, knows_more. Qed.

Lemma known_exact its its' ns :
  note_run its ns its' -> forallb (fun n => negb (missed_deletion n)) ns = true -> foldl knows its ns = its'.
Proof.
  induction 1 as [|its its' its'' n ns Hs _ IH]; cbn [forallb foldl]; [done|]. rewrite andb_true_iff. intros [Hn Hns].
  rewrite <- IH by done. f_equal. destruct Hs as [its o Ho|its old o Ho|its o Ho]; try done.
  cbn in Hn |- *. by destruct (is_tombstone o).
Qed.

Lemma note_run_app_inv its its'' ns ms :
  note_run its (ns ++ ms) its'' -> exists its', note_run its ns its' /\ note_run its' ms its''.
Proof.
  revert its. induction ns as [|n ns IH]; intros its Hr; cbn in Hr; [by eexists; split; [constructor|]|].
  inversion Hr as [|? its1 ? ? ? Hs Hr1]; subst. destruct (IH _ Hr1) as (its' & H1 & H2).
  exists its'. split; [by econstructor|done].
Qed.

(** ** Kinds of objects *)

(** The objects of type [T], with the key that a handler uses for them, and the
    ones that the API server may have. *)
Class ObjectKind (K T : Type) := {
  wrap : T -> obj;
  unwrap : obj -> option T;
  kind_id : T -> K;
  named : T -> Prop;
  kind_type : string;
}.
Arguments kind_type {K} T {_}.
#[export] Hint Mode ObjectKind - ! : typeclass_instances.

Definition is_object {K} (T : Type) `{ObjectKind K T} (o : obj) : Prop := exists s : T, o = wrap s /\ named s.

(** The informer's key of a valid object and the handler's determine each
    other. *)
Class ObjectKindLaws (K T : Type) `{ObjectKind K T} := {
  unwrap_spec : forall o (s : T), unwrap o = Some s <-> o = wrap s;
  wrap_tombstone : forall s : T, is_tombstone (wrap s) = false;
  wrap_meta : forall s : T, exists m, Accessor (wrap s) = Ok m;
  named_key : forall s t : T, named s -> named t -> key_of (wrap s) = key_of (wrap t) <-> kind_id s = kind_id t;
}.
#[export] Hint Mode ObjectKindLaws - ! - : typeclass_instances.

(** ** The typed objects of a store *)

Section Kind.
Context {K T : Type} `{Countable K} `{OK : ObjectKind K T} `{KL : !ObjectKindLaws K T}.

Definition objects_of (m : gmap string obj) : gmap K T :=
  list_to_map (flat_map (fun x => match unwrap x.2 with Some s => [(kind_id s, s)] | None => [] end) (map_to_list m)).

Lemma unwrap_wrap (s : T) : unwrap (wrap s) = Some s.
Proof. by apply unwrap_spec. Qed.

Lemma wrap_inj (s t : T) : wrap s = wrap t -> s = t.
Proof. intros E. apply (f_equal (unwrap (T := T))) in E. rewrite !unwrap_wrap in E. congruence. Qed.

Lemma objects_lookup m i (s : T) :
  all_P (is_object T) m -> objects_of m !! i = Some s <-> m !! key_of (wrap s) = Some (wrap s) /\ i = kind_id s.
Proof.
  intros Hm. unfold objects_of. set (l := flat_map _ _).
  assert (forall j t, (j, t) ∈ l <-> m !! key_of (wrap t) = Some (wrap t) /\ j = kind_id t) as Hl.
  { intros j t. unfold l. rewrite list_elem_of_In, in_flat_map. split.
    - intros ([k o] & Hk%list_elem_of_In%elem_of_map_to_list & Hin). cbn in Hin.
      destruct (unwrap o) as [x|] eqn:Ex; [|done]. destruct Hin as [[= <- <-]|[]].
      apply unwrap_spec in Ex as ->. destruct (Hm _ _ Hk) as [_ <-]. done.
    - intros [Hk ->]. exists (key_of (wrap t), wrap t). split; [by apply list_elem_of_In, elem_of_map_to_list|].
      cbn. rewrite unwrap_wrap. by left. }
  split.
  - intros Hi%elem_of_list_to_map_2. by apply Hl.
  - intros [Hk ->]. apply elem_of_list_to_map_1'; [|by apply Hl].
    intros t [Ht Eid]%Hl. destruct (Hm _ _ Hk) as [(s' & Es & Hs) _], (Hm _ _ Ht) as [(t' & Et & Hnt) _].
    apply wrap_inj in Es as <-, Et as <-. apply (proj2 (named_key s t Hs Hnt)) in Eid. rewrite <- Eid, Hk in Ht.
    injection Ht as Ht. by apply wrap_inj.
Qed.

Lemma all_P_insert (P : obj -> Prop) m o : all_P P m -> P o -> all_P P (<[key_of o := o]> m).
Proof. intros Hm Ho k x [[<- <-]|[_ Hx]]%lookup_insert_Some; [done|by apply Hm]. Qed.

Lemma all_P_delete (P : obj -> Prop) m k : all_P P m -> all_P P (delete k m).
Proof. intros Hm j x [_ Hx]%lookup_delete_Some. by apply Hm. Qed.

Lemma objects_insert m (s : T) :
  all_P (is_object T) m -> named s -> objects_of (<[key_of (wrap s) := wrap s]> m) = <[kind_id s := s]> (objects_of m).
Proof.
  intros Hm Hs. assert (is_object T (wrap s)) as Hsink by (by exists s).
  apply map_eq. intros i. apply option_eq. intros t.
  rewrite (objects_lookup _ _ _ (all_P_insert _ _ _ Hm Hsink)), !lookup_insert_Some, (objects_lookup _ _ _ Hm).
  split.
  - intros [[[Ek Et]|[Hk Ht]] ->]; [apply wrap_inj in Et as <-; by left|]. right. split; [|done].
    destruct (Hm _ _ Ht) as [(t' & Et & Hnt) _]. apply wrap_inj in Et as <-. intros E. by apply Hk, named_key.
  - intros [[<- <-]|[Hi [Ht ->]]]; [by split; [left|]|]. split; [|done]. right. split; [|done].
    destruct (Hm _ _ Ht) as [(t' & Et & Hnt) _]. apply wrap_inj in Et as <-. intros E. by apply Hi, named_key.
Qed.

Lemma objects_delete m (s : T) :
  all_P (is_object T) m -> named s -> objects_of (delete (key_of (wrap s)) m) = delete (kind_id s) (objects_of m).
Proof.
  intros Hm Hs. apply map_eq. intros i. apply option_eq. intros t.
  rewrite (objects_lookup _ _ _ (all_P_delete _ _ _ Hm)), !lookup_delete_Some, (objects_lookup _ _ _ Hm).
  split.
  - intros [[Hk Ht] ->]. split; [|done].
    destruct (Hm _ _ Ht) as [(t' & Et & Hnt) _]. apply wrap_inj in Et as <-. intros E. by apply Hk, named_key.
  - intros [Hi [Ht ->]]. split; [|done]. split; [|done].
    destruct (Hm _ _ Ht) as [(t' & Et & Hnt) _]. apply wrap_inj in Et as <-. intros E. by apply Hi, named_key.
Qed.

Lemma objects_subseteq m m' :
  all_P (is_object T) m -> all_P (is_object T) m' -> m ⊆ m' -> objects_of m ⊆ objects_of m'.
Proof.
  intros Hm Hm' Hsub. apply map_subseteq_spec. intros i s [Hs ->]%objects_lookup; [|done].
  apply objects_lookup; [done|]. split; [|done]. by eapply lookup_weaken.
Qed.

Lemma objects_empty : objects_of ∅ = (∅ : gmap K T).
Proof. unfold objects_of. by rewrite map_to_list_empty. Qed.

Lemma is_object_meta o : is_object T o -> exists m, Accessor o = Ok m.
Proof. intros (s & -> & _). apply wrap_meta. Qed.

(** ** Histories of typed objects *)

Inductive typed_step : gmap K T -> notification -> gmap K T -> Prop :=
| typed_added a (s : T) :
    a !! kind_id s = None -> typed_step a (addNotification (wrap s)) (<[kind_id s := s]> a)
| typed_updated a (o s : T) :
    a !! kind_id o = Some o -> kind_id s = kind_id o ->
    typed_step a (updateNotification (wrap o) (wrap s)) (<[kind_id s := s]> a)
| typed_deleted a (s : T) :
    is_Some (a !! kind_id s) -> typed_step a (deleteNotification (wrap s)) (delete (kind_id s) a).

Inductive typed_run : gmap K T -> list notification -> gmap K T -> Prop :=
| typed_nil a : typed_run a [] a
| typed_cons a b c n ns : typed_step a n b -> typed_run b ns c -> typed_run a (n :: ns) c.

Lemma objects_some m (s : T) :
  all_P (is_object T) m -> named s -> is_Some (m !! key_of (wrap s)) -> is_Some (objects_of m !! kind_id s).
Proof.
  intros Hm Hs [o Ho]. destruct (Hm _ _ Ho) as [(t & -> & Ht) Ek]. exists t. apply objects_lookup; [done|].
  rewrite Ek. split; [done|]. symmetry. by apply named_key.
Qed.

Lemma objects_none m (s : T) :
  all_P (is_object T) m -> named s -> m !! key_of (wrap s) = None -> objects_of m !! kind_id s = None.
Proof.
  intros Hm Hs Hn. destruct (objects_of m !! kind_id s) as [t|] eqn:E; [|done].
  apply objects_lookup in E as [Ht Eid]; [|done]. destruct (Hm _ _ Ht) as [(t' & Et & Hnt) _].
  apply wrap_inj in Et as <-. apply (proj2 (named_key s t Hs Hnt)) in Eid. congruence.
Qed.

(** A history of the store in which no deletion was missed is one of the typed
    objects. *)
Lemma typed_one m n m' :
  all_P (is_object T) m -> note_step m n m' -> note_ok (is_object T) n -> missed_deletion n = false ->
  typed_step (objects_of m) n (objects_of m') /\ all_P (is_object T) m'.
Proof.
  intros Hm Hs Hn Hmiss. destruct Hs as [m o Ho|m old o Ho|m o Ho]; cbn [note_ok missed_deletion] in *.
  - pose proof Hn as (s & -> & Hs). split; [|by apply all_P_insert]. rewrite objects_insert by done.
    apply typed_added. by apply objects_none.
  - destruct Hn as ((x & -> & Hx) & Hn & Ekey). pose proof Hn as (s & -> & Hs). split; [|by apply all_P_insert].
    rewrite objects_insert by done. apply named_key in Ekey as Eid; [|done..]. apply typed_updated; [|done].
    apply objects_lookup; [done|]. by rewrite Ekey.
  - destruct Hn as [(s & -> & Hs)|Ht]; [|congruence]. split; [|by apply all_P_delete].
    rewrite objects_delete by done. apply typed_deleted. by apply objects_some.
Qed.

Lemma typed_history m ns m' :
  all_P (is_object T) m -> note_run m ns m' -> Forall (note_ok (is_object T)) ns ->
  forallb (fun n => negb (missed_deletion n)) ns = true -> typed_run (objects_of m) ns (objects_of m').
Proof.
  intros Hm Hr. induction Hr as [m|m m1 m' n ns Hs _ IH]; intros Hns Hmiss; [constructor|].
  apply Forall_cons_1 in Hns as [Hn Hns]. cbn [forallb] in Hmiss. apply andb_true_iff in Hmiss as [H1%negb_true_iff H2].
  destruct (typed_one _ _ _ Hm Hs Hn H1) as [Hstep Hm1]. econstructor; [exact Hstep|by apply IH].
Qed.

End Kind.

(** ** What is known is valid *)

Lemma knows_all_P (P : obj -> Prop) m n : all_P P m -> note_ok P n -> all_P P (knows m n).
Proof.
  intros Hm Hn. destruct n as [old o|o|o]; cbn [knows note_ok] in *.
  - apply all_P_insert; [done|apply Hn].
  - by apply all_P_insert.
  - destruct (is_tombstone o); [done|by apply all_P_delete].
Qed.

Lemma known_all_P (P : obj -> Prop) ns : Forall (note_ok P) ns -> all_P P (known ns).
Proof.
  unfold known. assert (all_P P ∅) as H0 by (intros k o; by rewrite lookup_empty). revert H0. generalize (∅ : gmap string obj).
  induction ns as [|n ns IH]; intros m Hm Hns; [done|]. apply Forall_cons_1 in Hns as [Hn Hns]. cbn.
  by apply IH; [apply knows_all_P|].
Qed.

Lemma known_snoc ns n : known (ns ++ [n]) = knows (known ns) n.
Proof. unfold known. by rewrite foldl_app. Qed.

