(* ===== verification/InformerSide.v ===== *)
(** * Informers with their handlers

    A goroutine [run] of an informer's listener hands the notifications to a
    handler, one at a time ([processorListener.run] of [shared_informer.go]),
    while the informer's other goroutines go on.  A handler is a [handler]: a
    record of what it does with a notification, in steps on a state that it may
    share.  A [side] is an informer with its handler, a [duo] two of them on one
    state, which is what the controllers' programs are. *)

From stdpp Require Import base gmap strings list relations.
From Stdlib Require Import Lia ZArith.
From S2P Require Import Prelude GoStd Types RingGrowing Cache DeltaFifo SharedInformer InformerFactory Reflector InformerSystem InformerKinds.

(** ** Handlers *)

(** [takes] begins with a notification, [works] does the next step: [None] when
    the handler has returned. *)
Record handler (Φ S : Type) : Type := MkHandler {
  idle : Φ;
  is_idle : Φ -> bool;
  takes : notification -> S -> Φ * S;
  works : Φ -> S -> option (Φ * S);
}.
Arguments MkHandler {Φ S}.
Arguments idle {Φ S}.
Arguments is_idle {Φ S}.
Arguments takes {Φ S}.
Arguments works {Φ S}.

(** A handler returns after a number of steps that its phase bounds. *)
Record handler_ok {Φ S} (h : handler Φ S) (left : Φ -> nat) : Prop := {
  ho_idle : forall φ, is_idle h φ = true <-> φ = idle h;
  ho_returned : forall φ s, works h φ s = None <-> φ = idle h;
  ho_works : forall φ s φ' s', works h φ s = Some (φ', s') -> left φ' < left φ;
}.

Record side (Φ : Type) : Type := MkSide {
  sd_running : running;
  sd_phase : Φ;
  sd_told : gmap string obj;
  sd_reported : list notification;
  sd_clean : bool;
}.
Arguments MkSide {Φ}.
Arguments sd_running {Φ}.
Arguments sd_phase {Φ}.
Arguments sd_told {Φ}.
Arguments sd_reported {Φ}.
Arguments sd_clean {Φ}.

Definition side_start {Φ} (i : Φ) (r : running) : side Φ := MkSide r i ∅ [] true.

(** A side whose handler is idle and whose informer has nothing queued or on
    its way. *)
Definition side_rest {Φ} (i : Φ) (sd : side Φ) : Prop :=
  sd_phase sd = i /\ f_queue (fifo (sd_running sd)) = [] /\ ~ exists r', own_step (sd_running sd) r'.

(** No report was of a deletion that the watch has missed. *)
Definition side_none_missed {Φ} (sd : side Φ) : bool := forallb (fun n => negb (missed_deletion n)) (sd_reported sd).

(** Rest, as far as it can be read off the state. *)
Definition rest_b {Φ} (is_idle : Φ -> bool) (sd : side Φ) : bool :=
  is_idle (sd_phase sd) && (length (f_queue (fifo (sd_running sd))) =? 0)
  && forallb (fun l => match next l with None => true | Some _ => false end) (listeners (processor (informer (sd_running sd)))).

Inductive side_label : Type := DoInformer (a : action) | DoReport (i : nat) | DoHandle.

Section Side.
Context `{R : MapRange} {K T : Type} `{Countable K} `{OK : ObjectKind K T}.
Context {Φ S : Type} (h : handler Φ S).

(** A step of a side: of its informer, of its listener, which hands a
    notification to an idle handler, or of the handler.  [free] is whether a
    handler may start; [ans] is what the API server may answer an informer in
    its state. *)
Inductive side_step_on (ans : running -> action -> Prop) (free : Prop) : side Φ * S -> side Φ * S -> Prop :=
| side_informer r r' φ told ns c a s :
    ans r a -> act (kind_type T) a r = Goes (None, r') ->
    side_step_on ans free (MkSide r φ told ns c, s)
      (MkSide r' φ (tell (kind_type T) a r told) ns (kept_up a r c), s)
| side_report r r' told ns c i n φ s s' :
    free -> deliver_step i r = Goes (n, r') -> takes h n s = (φ, s') ->
    side_step_on ans free (MkSide r (idle h) told ns c, s) (MkSide r' φ told (ns ++ [n]) c, s')
| side_handler r φ φ' told ns c s s' :
    works h φ s = Some (φ', s') ->
    side_step_on ans free (MkSide r φ told ns c, s) (MkSide r φ' told ns c, s').

(** Any answer with objects of the kind. *)
Definition any_answer (r : running) (a : action) : Prop := answer_ok (is_object T) (kind_type T) a.

Definition side_step : Prop -> side Φ * S -> side Φ * S -> Prop := side_step_on any_answer.

Lemma side_step_on_mono (ans ans' : running -> action -> Prop) (free free' : Prop) x y :
  (forall a, ans (sd_running x.1) a -> ans' (sd_running x.1) a) -> (free -> free') ->
  side_step_on ans free x y -> side_step_on ans' free' x y.
Proof. intros Ha Hf Hs. destruct Hs; econstructor; eauto. Qed.

Definition side_reaches (r0 : running) (sd : side Φ) : Prop :=
  reaches (is_object T) (kind_type T) r0 (sd_running sd) (sd_told sd) (sd_reported sd) (sd_clean sd).

Lemma side_start_reaches (i : Φ) r0 : side_reaches r0 (side_start i r0).
Proof. constructor. Qed.

Lemma side_step_reaches free r0 sd s sd' s' :
  side_reaches r0 sd -> side_step free (sd, s) (sd', s') -> side_reaches r0 sd'.
Proof.
  unfold side_reaches. intros Hr Hs.
  inversion Hs as [? ? ? ? ns ? ? ? Ha E|? ? ? ? ? i n ? ? ? _ E _|]; subst; cbn [sd_running sd_told sd_reported sd_clean] in *;
    [| |done].
  - rewrite <- (app_nil_r ns). by eapply (reaches_step _ _ _ _ _ _ _ _ None).
  - eapply (reaches_step _ _ _ _ _ _ _ (DoDeliver i) (Some n)); [done|done|]. cbn [act]. by rewrite E.
Qed.

(** ** What a side has been told and reported *)

Context `{KL : !ObjectKindLaws K T}.

(** A history of valid reports. *)
Definition valid_history (ns : list notification) : Prop :=
  exists its, note_run ∅ ns its /\ Forall (note_ok (is_object T)) ns.

Lemma side_history resync t0 now b r0 sd :
  begins resync t0 now b r0 -> side_reaches r0 sd -> valid_history (sd_reported sd).
Proof.
  intros Hbg Hr.
  destruct (informed_reaches _ is_object_meta _ _ _ _ _ _ _ (begins_informed _ _ _ _ _ _ Hbg) Hr) as (q & [_ _ Hh Hn _]).
  apply note_run_app_inv in Hh as (its & Hh & _). apply Forall_app in Hn as [Hn _]. by exists its.
Qed.

(** The last report of a history, which starts from a store that has no more
    than what the handler knows. *)
Lemma history_snoc ns n :
  valid_history (ns ++ [n]) ->
  exists its its', note_run ∅ ns its /\ note_step its n its' /\ its ⊆ known ns /\ note_ok (is_object T) n
    /\ all_P (is_object T) (known ns).
Proof.
  intros (its2 & Hh & Hn). apply note_run_app_inv in Hh as (its & Hh & Hone). apply Forall_app in Hn as [Hns Hn].
  inversion Hone as [|? its1 ? ? ? Hstep Hnil]; subst. inversion Hnil; subst.
  exists its, its2. split_and!; [done|done| | |by apply known_all_P].
  - apply (known_more _ _ _ _ Hh). done.
  - by apply Forall_cons_1 in Hn as [Hn _].
Qed.

(** Without a missed deletion, it is a history of typed objects. *)
Lemma history_typed ns n :
  valid_history (ns ++ [n]) -> forallb (fun n => negb (missed_deletion n)) (ns ++ [n]) = true ->
  typed_step (objects_of (known ns)) n (objects_of (T := T) (known (ns ++ [n]))).
Proof.
  rewrite forallb_app. intros Hv [Hmiss [Hn _]%andb_true_iff]%andb_true_iff. apply negb_true_iff in Hn.
  destruct (history_snoc _ _ Hv) as (its & its' & Hh & Hs & _ & Hok & Hall).
  pose proof (known_exact _ _ _ Hh Hmiss) as <-.
  assert (its' = known (ns ++ [n])) as ->.
  { symmetry. rewrite known_snoc. apply (known_exact (known ns) its' [n]); [|cbn; by rewrite Hn].
    econstructor; [exact Hs|constructor]. }
  by destruct (typed_one _ _ _ Hall Hs Hok Hn).
Qed.

(** At rest, after a clean list, the reports led to what the side was told. *)
Lemma rest_history (i : Φ) resync t0 now b r0 sd :
  begins resync t0 now b r0 -> side_reaches r0 sd -> side_rest i sd -> sd_clean sd = true ->
  note_run ∅ (sd_reported sd) (sd_told sd).
Proof.
  intros Hbg Hr (_ & Hq & Hno) Hc.
  destruct (informed_reaches _ is_object_meta _ _ _ _ _ _ _ (begins_informed _ _ _ _ _ _ Hbg) Hr) as (q & Hi).
  assert (q = []) as ->.
  { destruct q as [|n q]; [done|]. exfalso. apply Hno. apply (own_step_exists _ is_object_meta _ _ _ _ _ _ Hi). by intros []. }
  pose proof (drained_store _ _ _ _ (if_run _ _ _ _ _ _ _ Hi) Hq (if_told _ _ _ _ _ _ _ Hi Hc)) as Hst.
  pose proof (if_history _ _ _ _ _ _ _ Hi) as Hh. by rewrite app_nil_r, Hst in Hh.
Qed.

(** It then knows all that it was told, and no more unless a deletion was
    missed. *)
Lemma rest_known (i : Φ) resync t0 now b r0 sd :
  begins resync t0 now b r0 -> side_reaches r0 sd -> side_rest i sd -> sd_clean sd = true ->
  sd_told sd ⊆ known (sd_reported sd) /\ (side_none_missed sd = true -> known (sd_reported sd) = sd_told sd).
Proof.
  intros Hbg Hr Hrest Hc. pose proof (rest_history _ _ _ _ _ _ _ Hbg Hr Hrest Hc) as Hh. split.
  - by apply (known_more _ _ _ _ Hh).
  - intros Hmiss. by apply known_exact.
Qed.

(** What every step of a side keeps holds in every run. *)
Lemma side_run_ind (I : side Φ * S -> Prop) free r0 s0 d s :
  I (side_start (idle h) r0, s0) ->
  (forall d s d' s', side_reaches r0 d -> I (d, s) -> side_step free (d, s) (d', s') -> I (d', s')) ->
  rtc (side_step free) (side_start (idle h) r0, s0) (d, s) -> side_reaches r0 d /\ I (d, s).
Proof.
  intros Hbase Hstep Hrun. remember (side_start (idle h) r0, s0) as x eqn:Ex. remember (d, s) as y eqn:Ey.
  assert (side_reaches r0 x.1 /\ I x) as Hx.
  { split; [rewrite Ex; apply side_start_reaches|done]. }
  clear Ex Hbase. induction Hrun as [x|[d1 s1] [d2 s2] y Hs _ IH]; [by rewrite Ey in Hx |- *|]. apply IH; [done|].
  destruct Hx as [Hr HI]. split; [by eapply side_step_reaches|by eapply Hstep].
Qed.

(** ** Coming to rest *)

Context {left : Φ -> nat} (HO : handler_ok h left).

Lemma handler_returns ans free r φ told ns c s :
  exists s', rtc (side_step_on ans free) (MkSide r φ told ns c, s) (MkSide r (idle h) told ns c, s').
Proof.
  remember (left φ) as m eqn:Em. revert φ s Em. induction (lt_wf m) as [m _ IH]. intros φ s ->.
  destruct (works h φ s) as [[φ' s1]|] eqn:E.
  - destruct (IH _ (ho_works _ _ HO _ _ _ _ E) φ' s1 eq_refl) as (s' & Hrun). exists s'.
    eapply rtc_l; [|exact Hrun]. by apply side_handler.
  - apply (ho_returned _ _ HO) in E as ->. exists s. apply rtc_refl.
Qed.

Lemma side_returns ans free sd s :
  exists s', rtc (side_step_on ans free) (sd, s)
    (MkSide (sd_running sd) (idle h) (sd_told sd) (sd_reported sd) (sd_clean sd), s').
Proof. destruct sd. apply handler_returns. Qed.

Lemma side_settles ans resync t0 now b r0 sd s :
  (forall r, ans r DoProcess) -> begins resync t0 now b r0 -> side_reaches r0 sd ->
  exists sd' s', rtc (side_step_on ans True) (sd, s) (sd', s') /\ side_rest (idle h) sd'
    /\ sd_told sd' = sd_told sd /\ sd_clean sd' = sd_clean sd.
Proof.
  intros Hans Hbg Hr.
  destruct (informed_reaches _ is_object_meta _ _ _ _ _ _ _ (begins_informed _ _ _ _ _ _ Hbg) Hr) as (q & Hi). clear Hr.
  destruct sd as [r φ told ns c]. cbn [sd_running sd_told sd_reported sd_clean] in *.
  remember (work r q) as w eqn:Ew. revert r φ ns q s Hi Ew. induction (lt_wf w) as [w _ IH]. intros r φ ns q s Hi ->.
  destruct (handler_returns ans True r φ told ns c s) as (s1 & Hret).
  assert (forall r1 φ1 ns1 q1 s2, side_step_on ans True (MkSide r (idle h) told ns c, s1) (MkSide r1 φ1 told ns1 c, s2) ->
    informed (is_object T) resync r1 told ns1 c q1 -> work r1 q1 < work r q ->
    exists sd' s', rtc (side_step_on ans True) (MkSide r φ told ns c, s) (sd', s') /\ side_rest (idle h) sd'
      /\ sd_told sd' = told /\ sd_clean sd' = c) as Hgo.
  { intros r1 φ1 ns1 q1 s2 Hs Hi1 Hw. destruct (IH _ Hw r1 φ1 ns1 q1 s2 Hi1 eq_refl) as (sd' & s' & Hrun & Hrest).
    exists sd', s'. split; [|done]. etransitivity; [exact Hret|]. by eapply rtc_l. }
  destruct (decide (f_queue (fifo r) = [] /\ length q = 0)) as [[Hq Hz]|Hne].
  { exists (MkSide r (idle h) told ns c), s1. split_and!; [exact Hret| |done|done]. split_and!; [done|done|].
    apply length_zero_iff_nil in Hz as ->. rewrite (own_step_exists _ is_object_meta _ _ _ _ _ _ Hi). by intros Hn; apply Hn. }
  destruct (proj2 (own_step_exists _ is_object_meta _ _ _ _ _ _ Hi)) as [r1 Hs].
  { intros [Hq ->]. by apply Hne. }
  destruct Hs as [r1 E1|i x r1 E1].
  - destruct (process_work _ is_object_meta (kind_type T) _ _ _ _ _ _ _ Hi E1) as (q2 & Hi2 & Hw2).
    apply (Hgo r1 (idle h) ns q2 s1); [|done|done].
    apply (side_informer ans True r r1 (idle h) told ns c DoProcess s1 (Hans r)). cbn. by rewrite E1.
  - destruct (informed_deliver _ is_object_meta (kind_type T) _ _ _ _ _ _ _ _ _ Hi E1) as (q2 & -> & Hi2 & Ef).
    assert (work r1 q2 < work r (x :: q2)) as Hw2 by (unfold work; rewrite Ef; cbn; lia).
    destruct (takes h x s1) as [φ1 s2] eqn:Et. apply (Hgo r1 φ1 (ns ++ [x]) q2 s2); [|done|done].
    by apply (side_report ans True r r1 told ns c i x φ1 s1 s2).
Qed.

(** ** Schedules

    The steps as a function of labels, to evaluate runs. *)

Definition side_exec (free : bool) (x : side_label) (sd : side Φ) (s : S) : option (side Φ * S) :=
  let '(MkSide r φ told ns c) := sd in
  match x with
  | DoInformer a =>
      match act (kind_type T) a r with
      | Goes (None, r') => Some (MkSide r' φ (tell (kind_type T) a r told) ns (kept_up a r c), s)
      | _ => None
      end
  | DoReport i =>
      match deliver_step i r with
      | Goes (n, r') =>
          if free && is_idle h φ then
            let '(φ', s') := takes h n s in Some (MkSide r' φ' told (ns ++ [n]) c, s')
          else None
      | _ => None
      end
  | DoHandle =>
      match works h φ s with
      | Some (φ', s') => Some (MkSide r φ' told ns c, s')
      | None => None
      end
  end.

Definition label_ok (x : side_label) : Prop :=
  match x with DoInformer a => answer_ok (is_object T) (kind_type T) a | _ => True end.

Lemma side_exec_step_on ans (free : bool) (P : Prop) x sd s sd' s' :
  (free = true -> P) -> (forall a, x = DoInformer a -> ans (sd_running sd) a) -> side_exec free x sd s = Some (sd', s') ->
  side_step_on ans P (sd, s) (sd', s').
Proof.
  intros HP Hx. destruct sd as [r φ told ns c], x as [a|i|]; cbn [side_exec] in *.
  - destruct (act _ _ _) as [| |[[n|] r']] eqn:E; try done. intros [= <- <-]. apply side_informer; [by apply Hx|done].
  - destruct (deliver_step i r) as [| |[n r']] eqn:E; try done.
    destruct (free && is_idle h φ) eqn:Ef; [|done]. apply andb_true_iff in Ef as [Hf ->%(ho_idle _ _ HO)].
    destruct (takes h n s) as [φ' s1] eqn:Et. intros [= <- <-].
    apply (side_report _ P r r' told ns c i n φ' s s1); [by apply HP|done|done].
  - destruct (works h φ s) as [[φ' s1]|] eqn:E; [|done]. intros [= <- <-]. by apply side_handler.
Qed.

Lemma side_exec_step (free : bool) (P : Prop) x sd s sd' s' :
  (free = true -> P) -> label_ok x -> side_exec free x sd s = Some (sd', s') -> side_step P (sd, s) (sd', s').
Proof. intros HP Hx. apply side_exec_step_on; [done|]. by intros a ->. Qed.

Fixpoint side_schedule (xs : list side_label) (sd : side Φ) (s : S) : option (side Φ * S) :=
  match xs with
  | [] => Some (sd, s)
  | x :: xs' => match side_exec true x sd s with Some (sd', s') => side_schedule xs' sd' s' | None => None end
  end.

Lemma side_schedule_run xs sd s sd' s' :
  Forall label_ok xs -> side_schedule xs sd s = Some (sd', s') -> rtc (side_step True) (sd, s) (sd', s').
Proof.
  revert sd s. induction xs as [|x xs IH]; intros sd s Hl; cbn [side_schedule].
  { intros [= <- <-]. apply rtc_refl. }
  apply Forall_cons_1 in Hl as [Hx Hxs]. destruct (side_exec true x sd s) as [[sd1 s1]|] eqn:E; [|done].
  intros Hs. eapply rtc_l; [|by apply IH]. by eapply (side_exec_step true True).
Qed.

Lemma rest_b_true resync t0 now b r0 sd :
  begins resync t0 now b r0 -> side_reaches r0 sd -> rest_b (is_idle h) sd = true -> side_rest (idle h) sd.
Proof.
  intros Hbg Hr. unfold rest_b. rewrite !andb_true_iff. intros [[Hp%(ho_idle _ _ HO) Hq] Hn].
  apply Nat.eqb_eq, length_zero_iff_nil in Hq. split; [done|]. split; [done|].
  destruct (informed_reaches _ is_object_meta _ _ _ _ _ _ _ (begins_informed _ _ _ _ _ _ Hbg) Hr) as (q & Hi).
  rewrite (own_step_exists _ is_object_meta _ _ _ _ _ _ Hi). intros Hne. apply Hne. split; [done|].
  destruct (Forall2_cons_inv_r _ _ _ _ (pk_listeners _ _ (rk_processor _ _ _ (if_run _ _ _ _ _ _ _ Hi))))
    as (l & ls & Hl & _ & El).
  rewrite El in Hn. cbn in Hn. unfold listener_ok in Hl. destruct (next l); [done|]. apply Hl.
Qed.

End Side.

Arguments side_step_on {R K} T {OK Φ S}.
Arguments any_answer {K} T {OK}.
Arguments side_step {R K} T {OK Φ S}.
Arguments side_reaches {R K} T {OK Φ}.
Arguments side_exec {R K} T {OK Φ S}.
Arguments label_ok {K} T {OK}.
Arguments side_schedule {R K} T {OK Φ S}.

(** ** Two sides on one state *)

Record duo (Φ1 Φ2 S : Type) : Type := MkDuo {
  duo_left : side Φ1;
  duo_right : side Φ2;
  duo_state : S;
}.
Arguments MkDuo {Φ1 Φ2 S}.
Arguments duo_left {Φ1 Φ2 S}.
Arguments duo_right {Φ1 Φ2 S}.
Arguments duo_state {Φ1 Φ2 S}.

Definition duo_start {Φ1 Φ2 S} (i1 : Φ1) (i2 : Φ2) (r1 r2 : running) (s : S) : duo Φ1 Φ2 S :=
  MkDuo (side_start i1 r1) (side_start i2 r2) s.

(** Both sides have nothing left to do. *)
Definition duo_rest {Φ1 Φ2 S} (i1 : Φ1) (i2 : Φ2) (d : duo Φ1 Φ2 S) : Prop :=
  side_rest i1 (duo_left d) /\ side_rest i2 (duo_right d).

(** The last lists of both informers were clean. *)
Definition lists_clean {Φ1 Φ2 S} (d : duo Φ1 Φ2 S) : bool := sd_clean (duo_left d) && sd_clean (duo_right d).

Definition none_missed {Φ1 Φ2 S} (d : duo Φ1 Φ2 S) : bool :=
  side_none_missed (duo_left d) && side_none_missed (duo_right d).

Inductive duo_label : Type := OnLeft (x : side_label) | OnRight (x : side_label).

Section Duo.
Context `{R : MapRange} {K1 K2 T1 T2 : Type} `{Countable K1} `{Countable K2}.
Context `{OK1 : ObjectKind K1 T1} `{OK2 : ObjectKind K2 T2}.
Context {Φ1 Φ2 S : Type} (h1 : handler Φ1 S) (h2 : handler Φ2 S).

(** Handlers run in goroutines of their own, and nothing keeps them from
    overlapping: the programs are the steps with [alone] false.  With [alone],
    no handler starts while the other is at work, which is a restriction on the
    schedule that the programs do not make. *)
Inductive duo_step_on (ans1 ans2 : running -> action -> Prop) (alone : bool) : duo Φ1 Φ2 S -> duo Φ1 Φ2 S -> Prop :=
| step_left l l' k s s' :
    side_step_on T1 h1 ans1 (alone = true -> sd_phase k = idle h2) (l, s) (l', s') ->
    duo_step_on ans1 ans2 alone (MkDuo l k s) (MkDuo l' k s')
| step_right l k k' s s' :
    side_step_on T2 h2 ans2 (alone = true -> sd_phase l = idle h1) (k, s) (k', s') ->
    duo_step_on ans1 ans2 alone (MkDuo l k s) (MkDuo l k' s').

Definition duo_step : bool -> duo Φ1 Φ2 S -> duo Φ1 Φ2 S -> Prop := duo_step_on (any_answer T1) (any_answer T2).

Lemma duo_step_on_mono (ans1 ans1' ans2 ans2' : running -> action -> Prop) alone d d' :
  (forall a, ans1 (sd_running (duo_left d)) a -> ans1' (sd_running (duo_left d)) a) ->
  (forall a, ans2 (sd_running (duo_right d)) a -> ans2' (sd_running (duo_right d)) a) ->
  duo_step_on ans1 ans2 alone d d' -> duo_step_on ans1' ans2' alone d d'.
Proof.
  intros H1 H2 Hs. destruct Hs as [l l' k s s' Hs|l k k' s s' Hs]; [apply step_left|apply step_right];
    (eapply side_step_on_mono; [| |exact Hs]); eauto.
Qed.

Lemma duo_step_on_alone ans1 ans2 d d' : duo_step_on ans1 ans2 true d d' -> duo_step_on ans1 ans2 false d d'.
Proof.
  intros Hs. destruct Hs as [l l' k s s' Hs|l k k' s s' Hs]; [apply step_left|apply step_right];
    (eapply side_step_on_mono; [| |exact Hs]); done.
Qed.

(** Two informers with one handler each. *)
Record both_begin (resync t1 t2 n1 n2 : Z) (b : bool) (r1 r2 : running) : Prop := {
  bb_left : begins resync t1 n1 b r1;
  bb_right : begins resync t2 n2 b r2;
}.

Record duo_reaches (r1 r2 : running) (d : duo Φ1 Φ2 S) : Prop := {
  dr_left : side_reaches T1 r1 (duo_left d);
  dr_right : side_reaches T2 r2 (duo_right d);
}.

Lemma duo_start_reaches (i1 : Φ1) (i2 : Φ2) r1 r2 s : duo_reaches r1 r2 (duo_start i1 i2 r1 r2 s).
Proof. split; apply side_start_reaches. Qed.

Lemma duo_step_reaches alone r1 r2 d d' : duo_reaches r1 r2 d -> duo_step alone d d' -> duo_reaches r1 r2 d'.
Proof. intros [H1 H2] Hs. destruct Hs; split; cbn in *; try done; by eapply side_step_reaches. Qed.

Lemma duo_run_reaches alone r1 r2 d d' : duo_reaches r1 r2 d -> rtc (duo_step alone) d d' -> duo_reaches r1 r2 d'.
Proof. intros Hd Hrun. revert Hd. induction Hrun as [|? ? ? Hs _ IH]; [done|]. intros Hd. by eapply IH, duo_step_reaches. Qed.

(** What both steps of a system keep holds in every run. *)
Lemma duo_run_ind (I : duo Φ1 Φ2 S -> Prop) alone r1 r2 s d :
  I (duo_start (idle h1) (idle h2) r1 r2 s) ->
  (forall d d', duo_reaches r1 r2 d -> duo_reaches r1 r2 d' -> I d -> duo_step alone d d' -> I d') ->
  rtc (duo_step alone) (duo_start (idle h1) (idle h2) r1 r2 s) d -> duo_reaches r1 r2 d /\ I d.
Proof.
  intros Hbase Hstep Hrun. pose proof (duo_start_reaches (idle h1) (idle h2) r1 r2 s) as Hr.
  revert Hbase Hr. generalize (duo_start (idle h1) (idle h2) r1 r2 s) as d0, Hrun. clear Hrun. intros d0 Hrun.
  induction Hrun as [|d0 d1 d Hs _ IH]; intros HI Hr; [by split|].
  pose proof (duo_step_reaches _ _ _ _ _ Hr Hs) as Hr1. apply IH; [|done].
  exact (Hstep d0 d1 Hr Hr1 HI Hs).
Qed.

Context `{KL1 : !ObjectKindLaws K1 T1} `{KL2 : !ObjectKindLaws K2 T2}.
Context {left1 : Φ1 -> nat} {left2 : Φ2 -> nat} (HO1 : handler_ok h1 left1) (HO2 : handler_ok h2 left2).

Lemma run_left ans1 ans2 alone (P : Prop) l k s l' s' :
  (P -> alone = true -> sd_phase k = idle h2) -> rtc (side_step_on T1 h1 ans1 P) (l, s) (l', s') ->
  rtc (duo_step_on ans1 ans2 alone) (MkDuo l k s) (MkDuo l' k s').
Proof.
  intros Hk Hrun. remember (l, s) as x eqn:Ex. remember (l', s') as y eqn:Ey. revert l s Ex.
  induction Hrun as [x|x [l1 s1] y Hs _ IH]; intros l s Ex; simplify_eq; [apply rtc_refl|].
  eapply rtc_l; [|by apply IH]. apply step_left. by eapply (side_step_on_mono h1 ans1 ans1), Hs.
Qed.

Lemma run_right ans1 ans2 alone (P : Prop) l k s k' s' :
  (P -> alone = true -> sd_phase l = idle h1) -> rtc (side_step_on T2 h2 ans2 P) (k, s) (k', s') ->
  rtc (duo_step_on ans1 ans2 alone) (MkDuo l k s) (MkDuo l k' s').
Proof.
  intros Hl Hrun. remember (k, s) as x eqn:Ex. remember (k', s') as y eqn:Ey. revert k s Ex.
  induction Hrun as [x|x [k1 s1] y Hs _ IH]; intros k s Ex; simplify_eq; [apply rtc_refl|].
  eapply rtc_l; [|by apply IH]. apply step_right. by eapply (side_step_on_mono h2 ans2 ans2), Hs.
Qed.

(** From every state two sides can come to rest without hearing from the
    server. *)
Lemma duo_settles ans1 ans2 resync t1 t2 n1 n2 b r1 r2 alone d :
  (forall r, ans1 r DoProcess) -> (forall r, ans2 r DoProcess) ->
  both_begin resync t1 t2 n1 n2 b r1 r2 -> duo_reaches r1 r2 d ->
  exists d', rtc (duo_step_on ans1 ans2 alone) d d' /\ duo_rest (idle h1) (idle h2) d'
    /\ sd_told (duo_left d') = sd_told (duo_left d)
    /\ sd_told (duo_right d') = sd_told (duo_right d) /\ lists_clean d' = lists_clean d.
Proof.
  intros A1 A2 [B1 B2] [H1 H2]. destruct d as [l k s]. cbn in *.
  destruct (side_returns (T := T1) h1 HO1 ans1 False l s) as (s1 & Hrun1).
  destruct (side_returns (T := T2) h2 HO2 ans2 False k s1) as (s2 & Hrun2).
  set (l1 := MkSide (sd_running l) _ _ _ _) in *. set (k1 := MkSide (sd_running k) _ _ _ _) in *.
  destruct (side_settles h1 HO1 ans1 _ _ _ _ _ l1 s2 A1 B1 H1) as (l' & s3 & Hrun3 & Hl & Tl & Cl).
  destruct (side_settles h2 HO2 ans2 _ _ _ _ _ k1 s3 A2 B2 H2) as (k' & s4 & Hrun4 & Hk & Tk & Ck).
  exists (MkDuo l' k' s4). unfold lists_clean. cbn. rewrite Cl, Ck. split_and!; [|by split|done..].
  etransitivity; [by apply (run_left ans1 ans2 alone False l k), Hrun1|].
  etransitivity; [by apply (run_right ans1 ans2 alone False l1 k), Hrun2|].
  etransitivity; [by apply (run_left ans1 ans2 alone True l1 k1), Hrun3|].
  apply (run_right ans1 ans2 alone True); [|exact Hrun4]. intros _ _. apply Hl.
Qed.

(** At rest, after clean lists, what is known is what was told. *)
Lemma duo_rest_known (i1 : Φ1) (i2 : Φ2) resync t1 t2 n1 n2 b r1 r2 d :
  both_begin resync t1 t2 n1 n2 b r1 r2 -> duo_reaches r1 r2 d -> duo_rest i1 i2 d -> lists_clean d = true ->
  sd_told (duo_left d) ⊆ known (sd_reported (duo_left d))
  /\ sd_told (duo_right d) ⊆ known (sd_reported (duo_right d))
  /\ (none_missed d = true -> known (sd_reported (duo_left d)) = sd_told (duo_left d)
      /\ known (sd_reported (duo_right d)) = sd_told (duo_right d)).
Proof.
  intros [B1 B2] [H1 H2] [R1 R2] [C1 C2]%andb_true_iff.
  destruct (rest_known i1 _ _ _ _ _ _ B1 H1 R1 C1) as [S1 E1].
  destruct (rest_known i2 _ _ _ _ _ _ B2 H2 R2 C2) as [S2 E2].
  split_and!; [done..|]. intros [M1 M2]%andb_true_iff. split; [by apply E1|by apply E2].
Qed.

(** *** Schedules *)

Fixpoint duo_exec (alone : bool) (xs : list duo_label) (d : duo Φ1 Φ2 S) : option (duo Φ1 Φ2 S) :=
  match xs with
  | [] => Some d
  | OnLeft x :: xs =>
      match side_exec T1 h1 (negb alone || is_idle h2 (sd_phase (duo_right d))) x (duo_left d) (duo_state d) with
      | Some (l, s) => duo_exec alone xs (MkDuo l (duo_right d) s)
      | None => None
      end
  | OnRight x :: xs =>
      match side_exec T2 h2 (negb alone || is_idle h1 (sd_phase (duo_left d))) x (duo_right d) (duo_state d) with
      | Some (k, s) => duo_exec alone xs (MkDuo (duo_left d) k s)
      | None => None
      end
  end.

Definition duo_label_ok (x : duo_label) : Prop :=
  match x with OnLeft x => label_ok T1 x | OnRight x => label_ok T2 x end.

Lemma duo_exec_step_on ans1 ans2 alone x d d' :
  match x with
  | OnLeft (DoInformer a) => ans1 (sd_running (duo_left d)) a
  | OnRight (DoInformer a) => ans2 (sd_running (duo_right d)) a
  | _ => True
  end ->
  duo_exec alone [x] d = Some d' -> duo_step_on ans1 ans2 alone d d'.
Proof.
  intros Hx. destruct d as [l k s], x as [x|x]; cbn [duo_exec duo_left duo_right duo_state] in *.
  - destruct (side_exec _ _ _ _ _ _) as [[l' s']|] eqn:E; [|done]. intros [= <-].
    apply step_left. apply (side_exec_step_on h1 HO1 ans1 _ _ x _ _ _ _) with (3 := E); [|by intros a ->].
    intros [Ha|Hi]%orb_true_iff Hal; [by subst|by apply (ho_idle _ _ HO2)].
  - destruct (side_exec _ _ _ _ _ _) as [[k' s']|] eqn:E; [|done]. intros [= <-].
    apply step_right. apply (side_exec_step_on h2 HO2 ans2 _ _ x _ _ _ _) with (3 := E); [|by intros a ->].
    intros [Ha|Hi]%orb_true_iff Hal; [by subst|by apply (ho_idle _ _ HO1)].
Qed.

Lemma duo_exec_cons alone x xs d :
  duo_exec alone (x :: xs) d = match duo_exec alone [x] d with Some d' => duo_exec alone xs d' | None => None end.
Proof. destruct x as [x|x]; cbn [duo_exec]; by destruct (side_exec _ _ _ _ _ _) as [[? ?]|]. Qed.

Lemma duo_exec_run alone xs d d' : Forall duo_label_ok xs -> duo_exec alone xs d = Some d' -> rtc (duo_step alone) d d'.
Proof.
  intros Hxs. revert d. induction Hxs as [|x xs Hx _ IH]; intros d; [intros [= <-]; apply rtc_refl|].
  rewrite duo_exec_cons. destruct (duo_exec alone [x] d) as [d1|] eqn:E; [|done]. intros Hrun.
  eapply rtc_l; [|by apply IH]. eapply duo_exec_step_on; [|exact E]. by destruct x as [[]|[]].
Qed.

Lemma duo_rest_b resync t1 t2 n1 n2 b r1 r2 d :
  both_begin resync t1 t2 n1 n2 b r1 r2 -> duo_reaches r1 r2 d ->
  rest_b (is_idle h1) (duo_left d) && rest_b (is_idle h2) (duo_right d) = true -> duo_rest (idle h1) (idle h2) d.
Proof.
  intros [B1 B2] [H1 H2] [R1 R2]%andb_true_iff.
  split; [exact (rest_b_true h1 HO1 _ _ _ _ _ _ B1 H1 R1)|exact (rest_b_true h2 HO2 _ _ _ _ _ _ B2 H2 R2)].
Qed.

End Duo.

Arguments duo_step_on {R K1 K2} T1 T2 {OK1 OK2 Φ1 Φ2 S}.
Arguments duo_step {R K1 K2} T1 T2 {OK1 OK2 Φ1 Φ2 S}.
Arguments duo_reaches {R K1 K2} T1 T2 {OK1 OK2 Φ1 Φ2 S}.
Arguments duo_exec {R K1 K2} T1 T2 {OK1 OK2 Φ1 Φ2 S}.
Arguments duo_label_ok {K1 K2} T1 T2 {OK1 OK2}.
