(* ===== verification/ApiServer.v ===== *)
(** * The API server behind lists and watches

    What the reflector of an informer ([tools/cache/reflector.go], vendored)
    relies on, of the Kubernetes API server: its objects have a history of
    changes, each with a resource version; a list is the objects at some
    version, maybe an old one; a watch from a version sends the changes after
    it, in order.  A [cluster] is such a history beside a program with
    informers: the server commits changes at any time, and what it answers
    comes from its history. *)

From stdpp Require Import base gmap strings list pretty relations.
From Stdlib Require Import Lia ZArith.
From S2P Require Import Prelude GoStd Types RingGrowing Cache DeltaFifo SharedInformer InformerFactory Reflector InformerSystem InformerKinds InformerSide.

(** ** Versions and histories *)

(** The resource version after a number of changes: opaque texts that differ. *)
Class Revisions := {
  revision : nat -> string;
  revision_inj :: Inj (=) (=) revision;
}.

#[export] Instance decimal_revisions : Revisions := {| revision := pretty |}.

Notation history := (list Event).

(** The change is one of the resource whose Go type is [ty]. *)
Definition concerns (ty : string) (e : Event) : bool := String.eqb ty (TypeOf (e_Object e)).

Definition commit (m : gmap string obj) (e : Event) : gmap string obj :=
  match e_Type e with
  | WatchAdded | WatchModified => <[key_of (e_Object e) := e_Object e]> m
  | WatchDeleted => delete (key_of (e_Object e)) m
  | _ => m
  end.

(** The objects of a resource after [n] changes. *)
Definition objects_at (ty : string) (h : history) (n : nat) : gmap string obj :=
  foldl commit ∅ (List.filter (concerns ty) (take n h)).

Definition current (ty : string) (h : history) : gmap string obj := objects_at ty h (length h).

Section Server.
Context `{V : Revisions}.

(** The change after [n] others, of an object that the server accepts. *)
Record change_ok (P : obj -> Prop) (n : nat) (e : Event) : Prop := {
  co_type : e_Type e = WatchAdded \/ e_Type e = WatchModified \/ e_Type e = WatchDeleted;
  co_version : exists m, Accessor (e_Object e) = Ok m /\ ResourceVersion m = revision (S n);
  co_object : P (e_Object e);
}.

Definition history_ok (P : obj -> Prop) (h : history) : Prop := forall n e, h !! n = Some e -> change_ok P n e.

(** The first change of a resource after [n] changes is the one at [m]. *)
Record next_change (ty : string) (h : history) (n m : nat) (e : Event) : Prop := {
  nc_after : n <= m;
  nc_change : h !! m = Some e;
  nc_concerns : concerns ty e = true;
  nc_first : forall j x, n <= j < m -> h !! j = Some x -> concerns ty x = false;
}.

(** The version from which the reflector watches. *)
Definition watched (r : running) : option string :=
  match at_phase r with ToList => None | ToWatch v | Watching v _ _ => Some v end.

(** What the server may answer.  A list may be old; an event is the next change
    after the version of the watch, or the error that ends the watch; lists and
    watches may fail. *)
Definition answers (ty : string) (h : history) (r : running) (a : action) : Prop :=
  match a with
  | DoList (Ok (l, rv)) =>
      exists n, n <= length h /\ rv = revision n /\ l ≡ₚ map snd (map_to_list (objects_at ty h n))
  | DoEvent e =>
      (e_Type e = WatchError /\ concerns ty e = false)
      \/ exists n m, watched r = Some (revision n) /\ next_change ty h n m e
  | _ => True
  end.

(** What the informer was told is the state at the version it watches from. *)
Definition in_sync (ty : string) (h : history) (r : running) (told : gmap string obj) : Prop :=
  exists n, n <= length h /\ told = objects_at ty h n
    /\ (forall v, watched r = Some v -> v = revision n)
    /\ (lastSyncResourceVersion r = revision n \/ (lastSyncResourceVersion r = EmptyString /\ n = 0)).

(** The version the informer has last seen is not older than any change. *)
Definition up_to_date (ty : string) (h : history) (r : running) : Prop :=
  exists n, watched r = Some (revision n) /\ forall j e, n <= j -> h !! j = Some e -> concerns ty e = false.

(** ** Lemmas on histories *)

Lemma history_snoc_ok P h e : history_ok P h -> change_ok P (length h) e -> history_ok P (h ++ [e]).
Proof.
  intros Hh He n x [Hx|[Hle Hx]]%lookup_app_Some; [by apply Hh|].
  apply list_lookup_singleton_Some in Hx as [Hn <-]. by replace n with (length h) by lia.
Qed.

Lemma objects_at_snoc ty h e n : n <= length h -> objects_at ty (h ++ [e]) n = objects_at ty h n.
Proof. intros Hn. unfold objects_at. by rewrite take_app_le. Qed.

Lemma objects_at_S ty h n e :
  h !! n = Some e -> objects_at ty h (S n) = if concerns ty e then commit (objects_at ty h n) e else objects_at ty h n.
Proof.
  intros He. unfold objects_at. rewrite (take_S_r _ _ _ He), List.filter_app, foldl_app. cbn [List.filter].
  by destruct (concerns ty e).
Qed.

(** Changes of other resources leave the objects alone. *)
Lemma objects_at_still ty h n m :
  n <= m <= length h -> (forall j x, n <= j < m -> h !! j = Some x -> concerns ty x = false) ->
  objects_at ty h m = objects_at ty h n.
Proof.
  intros [Hnm Hm] Hj. revert Hm Hj. induction Hnm as [|m Hnm IH]; intros Hm Hj; [done|].
  destruct (lookup_lt_is_Some_2 h m) as [x Hx]; [lia|].
  rewrite (objects_at_S _ _ _ _ Hx), (Hj m x) by (lia || done). apply IH; [lia|]. intros j y Hjm. apply Hj. lia.
Qed.

Lemma objects_at_next ty h n m e :
  next_change ty h n m e -> objects_at ty h (S m) = commit (objects_at ty h n) e.
Proof.
  intros [Hnm He Hc Hj]. rewrite (objects_at_S _ _ _ _ He), Hc. f_equal. apply objects_at_still; [|done].
  split; [done|]. apply lookup_lt_Some in He. lia.
Qed.

(** The objects are those of the changes. *)
Lemma objects_at_lookup P ty h n k o :
  history_ok P h -> objects_at ty h n !! k = Some o -> key_of o = k /\ TypeOf o = ty /\ P o.
Proof.
  intros Hh. revert k o. induction n as [|n IH]; intros k o.
  { change (objects_at ty h 0) with (∅ : gmap string obj). by rewrite lookup_empty. }
  destruct (h !! n) as [e|] eqn:He.
  - rewrite (objects_at_S _ _ _ _ He). destruct (concerns ty e) eqn:Hc; [|by apply IH].
    apply String.eqb_eq in Hc. destruct (Hh _ _ He) as [[Ht|[Ht|Ht]] _ Ho]; unfold commit; rewrite Ht.
    + intros [[<- <-]|[_ Hk]]%lookup_insert_Some; [done|by apply IH].
    + intros [[<- <-]|[_ Hk]]%lookup_insert_Some; [done|by apply IH].
    + intros [_ Hk]%lookup_delete_Some. by apply IH.
  - apply lookup_ge_None in He. unfold objects_at. rewrite take_ge by lia.
    intros Hk. apply (IH k o). unfold objects_at. by rewrite take_ge by lia.
Qed.

(** A list of all objects, in any order, stands for them. *)
Lemma listed_from_keys m m0 l :
  NoDup (map key_of l) -> (forall o, o ∈ l -> m !! key_of o = Some o) ->
  (forall k o, m !! k = Some o -> m0 !! k = Some o \/ o ∈ l /\ key_of o = k) -> m0 ⊆ m -> listed_from m0 l = m.
Proof.
  revert m0. induction l as [|x l IH]; intros m0 Hnd Hl Hm Hsub.
  - apply map_eq. intros k. apply option_eq. intros o. split; [intros Hk; by eapply lookup_weaken|].
    intros Hk. destruct (Hm k o Hk) as [?|[Hn _]]; [done|by apply elem_of_nil in Hn].
  - cbn in Hnd. apply NoDup_cons in Hnd as [Hx Hnd]. unfold listed_from in *. cbn [foldl]. apply IH; [done| | |].
    + intros o Ho. apply Hl. by right.
    + intros k o Hk. destruct (Hm k o Hk) as [H0|[Ho <-]].
      * destruct (decide (key_of x = k)) as [<-|Hne].
        -- left. rewrite lookup_insert_eq. rewrite (Hl x) in Hk by (by left). done.
        -- left. by rewrite lookup_insert_ne.
      * apply elem_of_cons in Ho as [->|Ho]; [left; by rewrite lookup_insert_eq|by right].
    + apply insert_subseteq_l; [apply Hl; by left|done].
Qed.

Lemma listed_objects m l :
  (forall k o, m !! k = Some o -> key_of o = k) -> l ≡ₚ map snd (map_to_list m) -> listed l = m.
Proof.
  intros Hkey Hl. apply listed_from_keys.
  - rewrite Hl, map_map. rewrite (map_ext_in _ fst); [apply NoDup_fst_map_to_list|].
    intros [k o] Hin%list_elem_of_In%elem_of_map_to_list. cbn. by apply Hkey.
  - intros o Ho. rewrite Hl in Ho. apply list_elem_of_fmap in Ho as ([k o'] & -> & Hin%elem_of_map_to_list).
    cbn. by rewrite (Hkey _ _ Hin).
  - intros k o Hk. right. split; [|by apply Hkey]. rewrite Hl. apply list_elem_of_fmap. exists (k, o).
    split; [done|by apply elem_of_map_to_list].
  - apply map_empty_subseteq.
Qed.
(** ** An informer in sync with the server *)

Lemma in_sync_commit ty h e r told : in_sync ty h r told -> in_sync ty (h ++ [e]) r told.
Proof.
  intros (n & Hn & -> & Hw & Hs). exists n. rewrite length_app, objects_at_snoc by done. split_and!; [lia|done..].
Qed.

Lemma in_sync_current ty h r told : in_sync ty h r told -> up_to_date ty h r -> told = current ty h.
Proof.
  intros (n & Hn & -> & Hw & _) (m & Hm & Hlater). apply Hw in Hm. apply revision_inj in Hm as ->.
  symmetry. apply objects_at_still; [by split|]. intros j x [Hj _]. by apply Hlater.
Qed.

(** A step that does not touch the reflector. *)
Lemma in_sync_same ty h r r' told :
  at_phase r' = at_phase r -> lastSyncResourceVersion r' = lastSyncResourceVersion r -> in_sync ty h r told -> in_sync ty h r' told.
Proof. intros Ep Es (n & H). exists n. unfold watched in *. by rewrite Ep, Es. Qed.

Lemma in_sync_relist ty h r told : in_sync ty h r told -> in_sync ty h (relist r) told.
Proof. intros (n & Hn & Ht & _ & Hs). by exists n. Qed.

Context `{R : MapRange}.
Context (P : obj -> Prop) (P_meta : forall o, P o -> exists m, Accessor o = Ok m).

(** Of the objects that the server accepts, those of the resource satisfy [P]. *)
Context (Q : obj -> Prop) (ty : string) (HQ : forall o, Q o -> TypeOf o = ty -> P o).

Lemma in_sync_list h r r' told answer qs :
  run_ok P r qs -> history_ok Q h -> in_sync ty h r told -> answers ty h r (DoList answer) ->
  list_step answer r = Goes r' -> in_sync ty h r' (tell ty (DoList answer) r told).
Proof.
  intros [_ Hf _] Hh Hs Ha. unfold list_step, tell. destruct (at_phase r) eqn:Ep; [|done..].
  destruct answer as [[l rv]|e]; [|intros [= <-]; by apply in_sync_relist].
  cbn [answers] in Ha. destruct Ha as (n & Hn & -> & Hl).
  assert (Forall P l) as HP.
  { apply Forall_forall. intros o Ho. rewrite Hl in Ho. apply list_elem_of_fmap in Ho as ([k o'] & -> & Hin%elem_of_map_to_list).
    apply (objects_at_lookup Q) in Hin as (_ & Ho & ?); [by apply HQ|done]. }
  destruct (fifo_Replace_ok P P_meta l (indexer (informer r)) (fifo r) Hf HP) as (f & -> & _).
  intros [= <-]. exists n. split_and!; [done| |by intros ? [= <-]|by left].
  apply listed_objects; [|done]. intros k o Hk. by destruct (objects_at_lookup Q _ _ _ _ _ Hh Hk).
Qed.

Lemma in_sync_event h r r' told e :
  history_ok Q h -> in_sync ty h r told -> answers ty h r (DoEvent e) ->
  event_step ty e r = Goes r' -> in_sync ty h r' (tell ty (DoEvent e) r told).
Proof.
  intros Hh Hs Ha. unfold event_step, tell. destruct (at_phase r) as [|v|v start count] eqn:Ep; [done..|].
  destruct Ha as [[Ht Hc]|(n & m & Hw & Hnext)].
  { unfold concerns in Hc. rewrite Ht, Hc. intros [= <-]. by apply in_sync_relist. }
  destruct Hs as (n' & Hn & -> & Hw' & _). rewrite Hw in Hw'. specialize (Hw' _ eq_refl). apply revision_inj in Hw' as <-.
  pose proof Hnext as [_ He Hc _]. destruct (Hh _ _ He) as [Ht (meta & Hm & Hv) _].
  pose proof (lookup_lt_Some _ _ _ He) as Hlt. unfold concerns in Hc. rewrite Hc. cbn [negb].
  intros Ev. assert (r' = setLastSyncResourceVersion (revision (S m))
                     (with_phase (Watching (revision (S m)) start (S count)) (with_fifo (store_event e r) r))) as ->.
  { rewrite Hm, Hv in Ev. by destruct Ht as [Ht|[Ht|Ht]]; rewrite Ht in Ev; injection Ev as <-. }
  exists (S m). split_and!; [lia| |by intros ? [= <-]|by left].
  rewrite (objects_at_next _ _ _ _ _ Hnext). unfold commit. by destruct Ht as [Ht|[Ht|Ht]]; rewrite Ht.
Qed.

Lemma in_sync_step h a r n r' told qs :
  run_ok P r qs -> history_ok Q h -> in_sync ty h r told -> answers ty h r a -> act ty a r = Goes (n, r') ->
  in_sync ty h r' (tell ty a r told).
Proof.
  intros Hr Hh Hs Ha. destruct a as [answer|answer|e| | | | |d|i]; cbn [act].
  - destruct (list_step answer r) as [| |r1] eqn:E; [done..|]. intros [= <- <-]. by eapply in_sync_list.
  - unfold watch_step. destruct (at_phase r) as [|v|] eqn:Ep; [done| |done].
    assert (forall ph, ph = ToList \/ (exists t c, ph = Watching v t c) -> in_sync ty h (with_phase ph r) told) as Hph.
    { intros ph Hph. destruct Hs as (k & Hk & Ht & Hw & Hl). exists k. split_and!; [done|done| |done].
      unfold watched in *. rewrite Ep in Hw. destruct Hph as [->|(t & c & ->)]; [done|exact Hw]. }
    destruct answer as [[]|]; intros [= <- <-];
      first [exact Hs|exact (Hph ToList (or_introl eq_refl))|apply Hph; right; by eexists _, _].
  - destruct (event_step ty e r) as [| |r1] eqn:E; [done..|]. intros [= <- <-]. by eapply in_sync_event.
  - unfold close_step. destruct (at_phase r) as [| |v t c] eqn:Ep; [done..|].
    destruct (_ && _); intros [= <- <-]; [by apply in_sync_relist|].
    destruct Hs as (k & Hk & Ht & Hw & Hl). exists k. split_and!; [done|done| |done].
    unfold watched in *. by rewrite Ep in Hw.
  - unfold resync_step. destruct (resyncCh r); [|done]. destruct (_ <=? _)%Z; [|done].
    destruct (shouldResync _ _) as [[] p]; [destruct (fifo_Resync _ _) as [f [err|]]|]; intros [= <- <-];
      by apply (in_sync_same _ _ r).
  - unfold errc_step. destruct (at_phase r), (resyncerrc r); try done. intros [= <- <-]. by apply in_sync_relist.
  - unfold process_step. destruct (Pop _ _ _) as [[[[] f] s]|]; try done. intros [= <- <-]. by apply (in_sync_same _ _ r).
  - unfold tick_step. destruct (d <? 0)%Z; [done|]. intros [= <- <-]. by apply (in_sync_same _ _ r).
  - unfold deliver_step. destruct (listeners _ !! i); [|done]. destruct (pop_dispatch _) as [[[x|] l]|]; [|done..].
    intros [= <- <-]. by apply (in_sync_same _ _ r).
Qed.

End Server.

Arguments history_ok {V}.
Arguments change_ok {V}.

(** ** Sides in sync *)

Section Sides.
Context `{V : Revisions} `{R : MapRange} {K T : Type} `{Countable K} `{OK : ObjectKind K T} `{KL : !ObjectKindLaws K T}.
Context {Φ S : Type} (h : handler Φ S).

(** The server accepts an object of the kind only if it is valid. *)
Definition accepts (P : obj -> Prop) : Prop := forall o, P o -> TypeOf o = kind_type T -> is_object T o.

Definition side_in_sync (l : history) (sd : side Φ) : Prop := in_sync (kind_type T) l (sd_running sd) (sd_told sd).

Lemma answers_ok P l r a :
  accepts P -> history_ok P l -> answers (kind_type T) l r a -> answer_ok (is_object T) (kind_type T) a.
Proof.
  intros HP Hl. destruct a as [[[os rv]|err]|answer|e| | | | |d|i]; try done; cbn [answers answer_ok].
  - intros (n & _ & _ & Hos). apply Forall_forall. intros o Ho. rewrite Hos in Ho.
    apply list_elem_of_fmap in Ho as ([k o'] & -> & Hin%elem_of_map_to_list).
    apply (objects_at_lookup P) in Hin as (_ & Ht & Ho); [|done]. by apply HP.
  - intros Ha Ht. destruct Ha as [[_ Hc]|(n & m & _ & [_ He _ _])].
    + unfold concerns in Hc. rewrite Ht, String.eqb_refl in Hc. done.
    + apply HP; [apply (Hl _ _ He)|done].
Qed.

(** The server's objects of the kind are valid. *)
Lemma current_valid P l : accepts P -> history_ok P l -> all_P (is_object T) (current (kind_type T) l).
Proof. intros HP Hl k o Hk. destruct (objects_at_lookup P _ _ _ _ _ Hl Hk) as (Ek & Ht & Ho). split; [by apply HP|done]. Qed.

Lemma in_sync_start (i : Φ) r0 b resync t now l : begins resync t now b r0 -> side_in_sync l (side_start i r0).
Proof.
  intros [_ _ (s & _ & ->)]. exists 0. split_and!; [lia|done|done|by right].
Qed.

Lemma side_in_sync_step P l free resync t0 now b r0 sd s sd' s' :
  accepts P -> history_ok P l -> begins resync t0 now b r0 -> side_reaches T r0 sd -> side_in_sync l sd ->
  side_step_on T h (answers (kind_type T) l) free (sd, s) (sd', s') -> side_in_sync l sd'.
Proof.
  intros HP Hl Hb Hr Hs Hstep. unfold side_in_sync in *.
  destruct (informed_reaches _ is_object_meta _ _ _ _ _ _ _ (begins_informed _ _ _ _ _ _ Hb) Hr) as (q & [Hrun _ _ _ _]).
  inversion Hstep as [r r' φ told ns c a s1 Ha E|r r' told ns c i n φ s1 s2 _ E _|]; subst; cbn [sd_running sd_told] in *;
    [| |done].
  - exact (in_sync_step _ is_object_meta P _ HP _ _ _ _ _ _ _ Hrun Hl Hs Ha E).
  - unfold deliver_step in E. destruct (listeners _ !! i); [|done]. destruct (pop_dispatch _) as [[[x|] l']|]; [|done..].
    injection E as <- <-. by apply (in_sync_same _ _ r).
Qed.

(** The server's answers are answers. *)
Lemma answered_step P l free x y :
  accepts P -> history_ok P l -> side_step_on T h (answers (kind_type T) l) free x y -> side_step T h free x y.
Proof. intros HP Hl. apply side_step_on_mono; [|done]. intros a. by apply answers_ok with P. Qed.

Lemma answered_run_reaches P l free r0 x y :
  accepts P -> history_ok P l -> side_reaches T r0 x.1 -> rtc (side_step_on T h (answers (kind_type T) l) free) x y ->
  side_reaches T r0 y.1.
Proof.
  intros HP Hl Hr Hrun. induction Hrun as [|[d1 s1] [d2 s2] y Hs _ IH]; [done|]. apply IH.
  eapply side_step_reaches; [exact Hr|]. by apply (answered_step P l free).
Qed.

(** ** Catching up *)

Context {left : Φ -> nat} (HO : handler_ok h left).

(** A server that answers can end a watch. *)
Lemma side_to_list P l sd s resync t0 now b r0 :
  accepts P -> history_ok P l -> kind_type T <> EmptyString -> begins resync t0 now b r0 -> side_reaches T r0 sd ->
  exists sd' s', rtc (side_step_on T h (answers (kind_type T) l) True) (sd, s) (sd', s')
    /\ side_reaches T r0 sd' /\ at_phase (sd_running sd') = ToList /\ f_queue (fifo (sd_running sd')) = []
    /\ sd_phase sd' = idle h.
Proof.
  intros HP Hl Hty Hb Hr. set (ans := answers (kind_type T) l).
  destruct (side_settles h HO ans resync t0 now b r0 sd s (fun _ => I) Hb Hr) as (sd1 & s1 & Hrun & (Hp & Hq & _) & _).
  pose proof (answered_run_reaches P l True r0 (sd, s) (sd1, s1) HP Hl Hr Hrun) as Hr1.
  assert (forall a, ans (sd_running sd1) a -> act (kind_type T) a (sd_running sd1) = Goes (None, relist (sd_running sd1)) ->
    exists sd' s', rtc (side_step_on T h ans True) (sd, s) (sd', s') /\ side_reaches T r0 sd'
      /\ at_phase (sd_running sd') = ToList /\ f_queue (fifo (sd_running sd')) = [] /\ sd_phase sd' = idle h) as Hgo.
  { intros a Ha E. destruct sd1 as [r φ told ns c]. cbn [sd_running sd_phase] in *.
    pose proof (side_informer (T := T) h ans True r (relist r) φ told ns c a s1 Ha E) as Hs.
    eexists _, s1. split; [by eapply rtc_r|]. split; [|by split_and!].
    eapply side_step_reaches; [exact Hr1|]. by apply (answered_step P l True). }
  destruct (at_phase (sd_running sd1)) as [|v|v start count] eqn:Ep.
  - exists sd1, s1. by split_and!.
  - apply (Hgo (DoWatch (Some EOF))); [done|]. cbn. unfold watch_step. by rewrite Ep.
  - apply (Hgo (DoEvent (MkEvent WatchError OtherObject))).
    + left. split; [done|]. unfold concerns. by apply String.eqb_neq.
    + cbn. unfold event_step. by rewrite Ep.
Qed.

(** It can have every side come to rest with the current objects. *)
Lemma side_catches_up P l sd s resync t0 now b r0 :
  accepts P -> history_ok P l -> kind_type T <> EmptyString -> begins resync t0 now b r0 -> side_reaches T r0 sd ->
  exists sd' s', rtc (side_step_on T h (answers (kind_type T) l) True) (sd, s) (sd', s')
    /\ side_reaches T r0 sd' /\ side_rest (idle h) sd' /\ sd_clean sd' = true
    /\ sd_told sd' = current (kind_type T) l.
Proof.
  intros HP Hl Hty Hb Hr. set (ans := answers (kind_type T) l).
  destruct (side_to_list P l sd s resync t0 now b r0 HP Hl Hty Hb Hr) as ([r φ told ns c] & s1 & Hrun & Hr1 & Hp & Hq & _).
  cbn [sd_running] in *.
  destruct (informed_reaches _ is_object_meta _ _ _ _ _ _ _ (begins_informed _ _ _ _ _ _ Hb) Hr1) as (q & [Hok _ _ _ _]).
  cbn [sd_running] in Hok.
  set (os := map snd (map_to_list (current (kind_type T) l))). set (a := DoList (Ok (os, revision (length l)))).
  assert (ans r a) as Ha by (exists (length l); split_and!; [lia|done|done]).
  pose proof (answers_ok P l r a HP Hl Ha) as Hos. cbn [answer_ok a] in Hos.
  destruct (fifo_Replace_ok (is_object T) is_object_meta os (indexer (informer r)) (fifo r) (rk_fifo _ _ _ Hok) Hos) as (f & Ef & _).
  assert (exists r', act (kind_type T) a r = Goes (None, r')) as (r' & E).
  { cbn [act a]. unfold list_step. rewrite Hp, Ef. by eexists. }
  pose proof (side_informer (T := T) h ans True r r' φ told ns c a s1 Ha E) as Hs.
  assert (tell (kind_type T) a r told = current (kind_type T) l) as Etold.
  { cbn [tell a]. rewrite Hp. apply listed_objects; [|done]. intros k o Hk.
    by destruct (objects_at_lookup P _ _ _ _ _ Hl Hk). }
  assert (kept_up a r c = true) as Eclean by (cbn [kept_up a]; rewrite Hp; by eapply drained_clean).
  rewrite Etold, Eclean in Hs.
  assert (side_reaches T r0 (MkSide r' φ (current (kind_type T) l) ns true)) as Hr2.
  { eapply side_step_reaches; [exact Hr1|]. by apply (answered_step P l True). }
  destruct (side_settles h HO ans resync t0 now b r0 _ s1 (fun _ => I) Hb Hr2) as (sd' & s' & Hrun' & Hrest & Et & Ec).
  exists sd', s'. split_and!; [|exact (answered_run_reaches P l True r0 (_, _) (sd', s') HP Hl Hr2 Hrun')|done|done|done].
  etransitivity; [exact Hrun|]. by eapply rtc_l.
Qed.

End Sides.

Arguments side_in_sync {V K} T {OK Φ}.
Arguments accepts {K} T {OK}.

(** ** A server and a program *)

Record cluster (X : Type) : Type := MkCluster { cl_history : history; cl_program : X }.
Arguments MkCluster {X}.
Arguments cl_history {X}.
Arguments cl_program {X}.

Section Cluster.
Context `{V : Revisions} (P : obj -> Prop) {X : Type} (step : history -> X -> X -> Prop).

(** The server commits a change, or the program takes a step, with answers that
    come from the history. *)
Inductive cluster_step : cluster X -> cluster X -> Prop :=
| server_commits l e x : change_ok P (length l) e -> cluster_step (MkCluster l x) (MkCluster (l ++ [e]) x)
| program_steps l x x' : step l x x' -> cluster_step (MkCluster l x) (MkCluster l x').

Lemma cluster_run (I : history -> X -> Prop) (base : X -> X -> Prop) c c' :
  (forall l e x, I l x -> I (l ++ [e]) x) ->
  (forall l x x', history_ok P l -> I l x -> step l x x' -> base x x' /\ I l x') ->
  history_ok P (cl_history c) -> I (cl_history c) (cl_program c) -> rtc cluster_step c c' ->
  history_ok P (cl_history c') /\ I (cl_history c') (cl_program c') /\ rtc base (cl_program c) (cl_program c').
Proof.
  intros Hcommit Hstep Hh HI Hrun. revert Hh HI.
  induction Hrun as [c|c c1 c' Hs _ IH]; intros Hh HI; [by split_and!; [| |apply rtc_refl]|].
  destruct Hs as [l e x He|l x x' Hs]; cbn [cl_history cl_program] in *.
  - apply IH; [by apply history_snoc_ok|by apply Hcommit].
  - destruct (Hstep _ _ _ Hh HI Hs) as [Hb HI']. destruct (IH Hh HI') as (H1 & H2 & H3).
    split_and!; [done|done|]. by eapply rtc_l.
Qed.

Lemma program_run l x x' : rtc (step l) x x' -> rtc cluster_step (MkCluster l x) (MkCluster l x').
Proof. induction 1 as [|x x1 x' Hs _ IH]; [apply rtc_refl|]. eapply rtc_l; [by apply program_steps|done]. Qed.

End Cluster.

(** *** One informer with its handler *)

Section SideCluster.
Context `{V : Revisions} `{R : MapRange} {K T : Type} `{Countable K} `{OK : ObjectKind K T} `{KL : !ObjectKindLaws K T}.
Context {Φ S : Type} (h : handler Φ S) (P : obj -> Prop) (HP : accepts T P).

Definition side_cluster_step : cluster (side Φ * S) -> cluster (side Φ * S) -> Prop :=
  cluster_step P (fun l => side_step_on T h (answers (kind_type T) l) True).

Lemma side_cluster_run resync t0 now b r0 l0 s0 l sd s :
  begins resync t0 now b r0 -> history_ok P l0 ->
  rtc side_cluster_step (MkCluster l0 (side_start (idle h) r0, s0)) (MkCluster l (sd, s)) ->
  history_ok P l /\ side_in_sync T l sd /\ side_reaches T r0 sd
  /\ rtc (side_step T h True) (side_start (idle h) r0, s0) (sd, s).
Proof.
  intros Hb Hh Hrun.
  destruct (cluster_run P (fun l => side_step_on T h (answers (kind_type T) l) True)
    (fun l x => side_reaches T r0 x.1 /\ side_in_sync T l x.1) (side_step T h True)
    (MkCluster l0 (side_start (idle h) r0, s0)) (MkCluster l (sd, s))) as (Hl & [Hr Hs] & Hbase); [| |done| |done|by split_and!].
  - intros l1 e x [Hr Hs]. split; [done|by apply in_sync_commit].
  - intros l1 [d1 s1] [d2 s2] Hl1 [Hr Hs] Hstep. pose proof (answered_step h P l1 True _ _ HP Hl1 Hstep) as Hbase.
    split_and!; [done|by eapply side_step_reaches|by eapply (side_in_sync_step h P l1 True)].
  - split; [apply side_start_reaches|by eapply in_sync_start].
Qed.

Context {left : Φ -> nat} (HO : handler_ok h left) (Hty : kind_type T <> EmptyString).

Lemma side_cluster_catches_up resync t0 now b r0 l sd s :
  begins resync t0 now b r0 -> history_ok P l -> side_reaches T r0 sd ->
  exists sd' s', rtc side_cluster_step (MkCluster l (sd, s)) (MkCluster l (sd', s'))
    /\ rtc (side_step T h True) (sd, s) (sd', s') /\ side_rest (idle h) sd' /\ sd_clean sd' = true /\ sd_told sd' = current (kind_type T) l.
Proof.
  intros Hb Hl Hr. destruct (side_catches_up h HO P l sd s resync t0 now b r0 HP Hl Hty Hb Hr)
    as (sd' & s' & Hrun & _ & Hrest & Hc & Ht).
  exists sd', s'. split_and!; [by apply program_run| |done..].
  eapply rtc_subrel; [|exact Hrun]. intros x y. by apply answered_step with P.
Qed.

End SideCluster.

(** *** Two informers with their handlers *)

Section DuoCluster.
Context `{V : Revisions} `{R : MapRange} {K1 K2 T1 T2 : Type} `{Countable K1} `{Countable K2}.
Context `{OK1 : ObjectKind K1 T1} `{OK2 : ObjectKind K2 T2} `{KL1 : !ObjectKindLaws K1 T1} `{KL2 : !ObjectKindLaws K2 T2}.
Context {Φ1 Φ2 S : Type} (h1 : handler Φ1 S) (h2 : handler Φ2 S).
Context (P : obj -> Prop) (HP1 : accepts T1 P) (HP2 : accepts T2 P).

Definition duo_cluster_step (alone : bool) : cluster (duo Φ1 Φ2 S) -> cluster (duo Φ1 Φ2 S) -> Prop :=
  cluster_step P (fun l => duo_step_on T1 T2 h1 h2 (answers (kind_type T1) l) (answers (kind_type T2) l) alone).

Definition duo_in_sync (l : history) (d : duo Φ1 Φ2 S) : Prop :=
  side_in_sync T1 l (duo_left d) /\ side_in_sync T2 l (duo_right d).

(** Both informers have seen the last change of their resource. *)
Definition duo_up_to_date (l : history) (d : duo Φ1 Φ2 S) : Prop :=
  up_to_date (kind_type T1) l (sd_running (duo_left d)) /\ up_to_date (kind_type T2) l (sd_running (duo_right d)).

Lemma duo_current l d :
  duo_in_sync l d -> duo_up_to_date l d ->
  sd_told (duo_left d) = current (kind_type T1) l /\ sd_told (duo_right d) = current (kind_type T2) l.
Proof. intros [S1 S2] [U1 U2]. split; by eapply in_sync_current. Qed.

Lemma duo_answered_step l alone d d' :
  history_ok P l -> duo_step_on T1 T2 h1 h2 (answers (kind_type T1) l) (answers (kind_type T2) l) alone d d' ->
  duo_step T1 T2 h1 h2 alone d d'.
Proof.
  intros Hl. apply duo_step_on_mono; intros a Ha; [by apply (answers_ok (T := T1) P) in Ha|by apply (answers_ok (T := T2) P) in Ha].
Qed.

Lemma duo_in_sync_step resync t1 t2 n1 n2 b r1 r2 l alone d d' :
  both_begin resync t1 t2 n1 n2 b r1 r2 -> history_ok P l -> duo_reaches T1 T2 r1 r2 d -> duo_in_sync l d ->
  duo_step_on T1 T2 h1 h2 (answers (kind_type T1) l) (answers (kind_type T2) l) alone d d' -> duo_in_sync l d'.
Proof.
  intros [B1 B2] Hl [R1 R2] [S1 S2] Hs. destruct Hs as [k k' m s s' Hs|k m m' s s' Hs]; split; cbn in *; try done.
  - exact (side_in_sync_step (T := T1) h1 P l _ _ _ _ _ _ k s k' s' HP1 Hl B1 R1 S1 Hs).
  - exact (side_in_sync_step (T := T2) h2 P l _ _ _ _ _ _ m s m' s' HP2 Hl B2 R2 S2 Hs).
Qed.

Lemma duo_cluster_from resync t1 t2 n1 n2 b r1 r2 alone l0 d0 l d :
  both_begin resync t1 t2 n1 n2 b r1 r2 -> history_ok P l0 -> duo_reaches T1 T2 r1 r2 d0 -> duo_in_sync l0 d0 ->
  rtc (duo_cluster_step alone) (MkCluster l0 d0) (MkCluster l d) ->
  history_ok P l /\ duo_in_sync l d /\ duo_reaches T1 T2 r1 r2 d /\ rtc (duo_step T1 T2 h1 h2 alone) d0 d.
Proof.
  intros Hb Hh Hr0 Hs0 Hrun.
  destruct (cluster_run P (fun l => duo_step_on T1 T2 h1 h2 (answers (kind_type T1) l) (answers (kind_type T2) l) alone)
    (fun l d => duo_reaches T1 T2 r1 r2 d /\ duo_in_sync l d) (duo_step T1 T2 h1 h2 alone)
    (MkCluster l0 d0) (MkCluster l d)) as (Hl & [Hr Hs] & Hbase); [| |done|done|done|by split_and!].
  - intros l1 e x [Hr [S1 S2]]. split; [done|]. split; by apply in_sync_commit.
  - intros l1 d1 d2 Hl1 [Hr Hs] Hstep. pose proof (duo_answered_step _ _ _ _ Hl1 Hstep) as Hbase.
    split_and!; [done|by eapply duo_step_reaches|by eapply duo_in_sync_step].
Qed.

Lemma duo_cluster_run resync t1 t2 n1 n2 b r1 r2 alone l0 s0 l d :
  both_begin resync t1 t2 n1 n2 b r1 r2 -> history_ok P l0 ->
  rtc (duo_cluster_step alone) (MkCluster l0 (duo_start (idle h1) (idle h2) r1 r2 s0)) (MkCluster l d) ->
  history_ok P l /\ duo_in_sync l d /\ duo_reaches T1 T2 r1 r2 d
  /\ rtc (duo_step T1 T2 h1 h2 alone) (duo_start (idle h1) (idle h2) r1 r2 s0) d.
Proof.
  intros Hb Hh. apply duo_cluster_from with (1 := Hb); [done|apply duo_start_reaches|].
  destruct Hb. split; by eapply in_sync_start.
Qed.

(** A run whose handlers do not overlap is a run. *)
Lemma duo_cluster_alone c c' : rtc (duo_cluster_step true) c c' -> rtc (duo_cluster_step false) c c'.
Proof.
  intros Hrun. eapply rtc_subrel; [|exact Hrun]. intros x y Hs.
  destruct Hs; [by constructor|]. constructor. by apply duo_step_on_alone.
Qed.

Context {left1 : Φ1 -> nat} {left2 : Φ2 -> nat} (HO1 : handler_ok h1 left1) (HO2 : handler_ok h2 left2).
Context (Hty1 : kind_type T1 <> EmptyString) (Hty2 : kind_type T2 <> EmptyString).

(** From every state the two can come to rest with the current objects. *)
Lemma duo_cluster_catches_up resync t1 t2 n1 n2 b r1 r2 alone l d :
  both_begin resync t1 t2 n1 n2 b r1 r2 -> history_ok P l -> duo_reaches T1 T2 r1 r2 d ->
  exists d', rtc (duo_cluster_step alone) (MkCluster l d) (MkCluster l d') /\ rtc (duo_step T1 T2 h1 h2 alone) d d'
    /\ duo_rest (idle h1) (idle h2) d' /\ lists_clean d' = true /\ sd_told (duo_left d') = current (kind_type T1) l
    /\ sd_told (duo_right d') = current (kind_type T2) l.
Proof.
  intros [B1 B2] Hl [R1 R2]. destruct d as [k m s]. cbn in *.
  set (ans1 := answers (kind_type T1) l). set (ans2 := answers (kind_type T2) l).
  destruct (side_returns (T := T1) h1 HO1 ans1 False k s) as (s1 & Hrun1).
  destruct (side_returns (T := T2) h2 HO2 ans2 False m s1) as (s2 & Hrun2).
  set (k1 := MkSide (sd_running k) _ _ _ _) in *. set (m1 := MkSide (sd_running m) _ _ _ _) in *.
  destruct (side_catches_up (T := T1) h1 HO1 P l k1 s2 _ _ _ _ _ HP1 Hl Hty1 B1 R1) as (k' & s3 & Hrun3 & _ & Hk & Ck & Tk).
  destruct (side_catches_up (T := T2) h2 HO2 P l m1 s3 _ _ _ _ _ HP2 Hl Hty2 B2 R2) as (m' & s4 & Hrun4 & _ & Hm & Cm & Tm).
  assert (rtc (duo_step_on T1 T2 h1 h2 ans1 ans2 alone) (MkDuo k m s) (MkDuo k' m' s4)) as Hrun.
  { etransitivity; [by apply (run_left h1 h2 ans1 ans2 alone False k m), Hrun1|].
    etransitivity; [by apply (run_right h1 h2 ans1 ans2 alone False k1 m), Hrun2|].
    etransitivity; [by apply (run_left h1 h2 ans1 ans2 alone True k1 m1), Hrun3|].
    apply (run_right h1 h2 ans1 ans2 alone True); [|exact Hrun4]. intros _ _. apply Hk. }
  exists (MkDuo k' m' s4). unfold lists_clean. cbn [duo_left duo_right]. rewrite Ck, Cm.
  split_and!; [by apply program_run| |by split|done..].
  eapply rtc_subrel; [|exact Hrun]. intros d d'. by apply duo_answered_step.
Qed.

End DuoCluster.

Arguments duo_in_sync {V K1 K2} T1 T2 {OK1 OK2 Φ1 Φ2 S}.
Arguments duo_up_to_date {V K1 K2} T1 T2 {OK1 OK2 Φ1 Φ2 S}.
Arguments side_cluster_step {V R K} T {OK Φ S}.
Arguments duo_cluster_step {V R K1 K2} T1 T2 {OK1 OK2 Φ1 Φ2 S}.

(** ** Schedules

    The answers of a server as a function of its history, to evaluate runs. *)

Inductive reply : Type :=
| ReplyList (n : nat)
| ReplyEvent
| ReplyExpired
| NoReply (a : action).

Section Replies.
Context `{V : Revisions}.

Definition next_from (ty : string) (l : history) (n : nat) : option Event := head (List.filter (concerns ty) (drop n l)).

(** The number of changes at the version of the watch. *)
Definition watched_at (l : history) (r : running) : option nat :=
  v ← watched r; head (List.filter (fun n => String.eqb (revision n) v) (seq 0 (S (length l)))).

Definition reply_action (ty : string) (l : history) (r : running) (x : reply) : option action :=
  match x with
  | ReplyList n =>
      if n <=? length l then Some (DoList (Ok (map snd (map_to_list (objects_at ty l n)), revision n))) else None
  | ReplyEvent => n ← watched_at l r; option_map DoEvent (next_from ty l n)
  | ReplyExpired => if String.eqb ty EmptyString then None else Some (DoEvent (MkEvent WatchError OtherObject))
  | NoReply (DoList (Ok _)) | NoReply (DoEvent _) => None
  | NoReply a => Some a
  end.

Lemma next_from_change ty l n e : next_from ty l n = Some e -> exists m, next_change ty l n m e.
Proof.
  unfold next_from. remember (drop n l) as k eqn:Ek. revert n Ek. induction k as [|x k IH]; intros n Ek; [done|].
  assert (l !! n = Some x) as Hx by (rewrite <- (Nat.add_0_r n), <- lookup_drop, <- Ek; done).
  cbn [List.filter]. destruct (concerns ty x) eqn:Ec.
  - intros [= ->]. exists n. split; [done|done|done|]. intros j y Hj. lia.
  - intros Hh. destruct (IH (S n)) as [m [Ha Hc Hty Hj]]; [|done|].
    { change (x :: k) with ([x] ++ k) in Ek. rewrite <- Nat.add_1_r, <- drop_drop, <- Ek. done. }
    exists m. split; [lia|done|done|]. intros j y Hjm. destruct (decide (j = n)) as [->|Hne]; [by rewrite Hx; intros [= <-]|].
    apply Hj. lia.
Qed.

Lemma watched_at_spec l r n : watched_at l r = Some n -> watched r = Some (revision n).
Proof.
  unfold watched_at. destruct (watched r) as [v|] eqn:Ew; [|done]. cbn [mbind option_bind]. intros Eh.
  assert (n ∈ List.filter (fun n => String.eqb (revision n) v) (seq 0 (S (length l)))) as Hin.
  { destruct (List.filter _ _); [done|]. injection Eh as ->. by left. }
  apply list_elem_of_In, filter_In in Hin as [_ Hv]. by apply String.eqb_eq in Hv as ->.
Qed.

(** Whether the informer has seen the last change. *)
Definition up_to_dateb (ty : string) (l : history) (r : running) : bool :=
  match watched_at l r with Some n => forallb (fun e => negb (concerns ty e)) (drop n l) | None => false end.

Lemma up_to_dateb_true ty l r : up_to_dateb ty l r = true -> up_to_date ty l r.
Proof.
  unfold up_to_dateb. destruct (watched_at l r) as [n|] eqn:En; [|done]. intros Hb. exists n.
  split; [by apply watched_at_spec in En|]. intros j e Hj He. rewrite forallb_forall in Hb.
  apply negb_true_iff, Hb, list_elem_of_In, list_elem_of_lookup. exists (j - n). rewrite lookup_drop.
  by replace (n + (j - n)) with j by lia.
Qed.

Lemma reply_answers ty l r x a : reply_action ty l r x = Some a -> answers ty l r a.
Proof.
  destruct x as [n| | |a']; cbn [reply_action].
  - destruct (Nat.leb_spec n (length l)); [|done]. intros [= <-]. by exists n.
  - destruct (watched_at l r) as [n|] eqn:En; [|done]. cbn [mbind option_bind].
    destruct (next_from ty l n) as [e|] eqn:Ee; [|done]. cbn. intros [= <-]. right.
    apply next_from_change in Ee as [m Hm]. apply watched_at_spec in En. by exists n, m.
  - destruct (String.eqb_spec ty EmptyString) as [|Hne]; [done|]. intros [= <-]. left. split; [done|].
    unfold concerns. by apply String.eqb_neq.
  - by destruct a' as [[[? ?]|?]|?|?| | | | |?|?]; intros [= <-].
Qed.

(** A change that can be the next one. *)
Definition change_okb (l : history) (e : Event) : bool :=
  match e_Type e with
  | WatchAdded | WatchModified | WatchDeleted =>
      match Accessor (e_Object e) with
      | Ok m => String.eqb (ResourceVersion m) (revision (S (length l)))
      | Err _ => false
      end
  | _ => false
  end.

Lemma change_okb_true P l e : change_okb l e = true -> P (e_Object e) -> change_ok P (length l) e.
Proof.
  unfold change_okb. intros Hb HP. split; [| |done].
  - destruct (e_Type e); try done; tauto.
  - destruct (e_Type e); try done; (destruct (Accessor (e_Object e)) as [m|]; [|done]); exists m;
      by apply String.eqb_eq in Hb.
Qed.

End Replies.

(** The metadata of an object at a version. *)
Definition versioned `{V : Revisions} (n : nat) (m : ObjectMeta) : ObjectMeta :=
  {| Name := Name m; GenerateName := GenerateName m; Namespace := Namespace m; SelfLink := SelfLink m; UID := UID m;
     ResourceVersion := revision n; Generation := Generation m; CreationTimestamp := CreationTimestamp m;
     DeletionTimestamp := DeletionTimestamp m; DeletionGracePeriodSeconds := DeletionGracePeriodSeconds m;
     Labels := Labels m; Annotations := Annotations m; OwnerReferences := OwnerReferences m; meta_Initializers := meta_Initializers m;
     Finalizers := Finalizers m; ClusterName := ClusterName m |}.

(** What happens on a side, and in a cluster. *)
Inductive happening : Type := Informs (x : reply) | Hands (i : nat) | Works.
Inductive cluster_label : Type := Commits (e : Event) | LeftDoes (x : happening) | RightDoes (x : happening).

Definition happens `{V : Revisions} (ty : string) (l : history) (r : running) (x : happening) : option side_label :=
  match x with
  | Informs x => option_map DoInformer (reply_action ty l r x)
  | Hands i => Some (DoReport i)
  | Works => Some DoHandle
  end.

Lemma happens_answers `{V : Revisions} ty l r x a : happens ty l r x = Some (DoInformer a) -> answers ty l r a.
Proof.
  destruct x as [x| |]; cbn [happens]; [|done..]. destruct (reply_action ty l r x) eqn:E; [|done].
  intros [= ->]. by eapply reply_answers.
Qed.

Definition accepted (P : obj -> Prop) (x : cluster_label) : Prop := match x with Commits e => P (e_Object e) | _ => True end.

Section SideRun.
Context `{V : Revisions} `{R : MapRange} {K T : Type} `{Countable K} `{OK : ObjectKind K T}.
Context {Φ S : Type} (h : handler Φ S) (P : obj -> Prop) {left : Φ -> nat} (HO : handler_ok h left).

(** A cluster of one side is the left one. *)
Fixpoint side_cluster_exec (xs : list cluster_label) (c : cluster (side Φ * S)) : option (cluster (side Φ * S)) :=
  let 'MkCluster l (sd, s) := c in
  match xs with
  | [] => Some c
  | Commits e :: xs => if change_okb l e then side_cluster_exec xs (MkCluster (l ++ [e]) (sd, s)) else None
  | LeftDoes x :: xs =>
      y ← happens (kind_type T) l (sd_running sd) x;
      p ← side_exec T h true y sd s; side_cluster_exec xs (MkCluster l p)
  | RightDoes _ :: _ => None
  end.

Lemma side_cluster_exec_run xs c c' :
  Forall (accepted P) xs -> side_cluster_exec xs c = Some c' -> rtc (side_cluster_step T h P) c c'.
Proof.
  intros Hxs. revert c. induction Hxs as [|x xs Hx _ IH]; intros [l [sd s]]; cbn [side_cluster_exec];
    [intros [= <-]; apply rtc_refl|].
  destruct x as [e|x|x]; [| |done].
  - destruct (change_okb l e) eqn:E; [|done]. intros Hrun. eapply rtc_l; [|by apply IH]. apply server_commits.
    by apply change_okb_true.
  - destruct (happens _ l _ x) as [y|] eqn:Ey; [|done]. cbn [mbind option_bind].
    destruct (side_exec _ _ _ _ _ _) as [[sd1 s1]|] eqn:Ed; [|done]. cbn [mbind option_bind]. intros Hrun.
    eapply rtc_l; [|by apply IH]. apply program_steps.
    apply (side_exec_step_on h HO _ true True y) with (3 := Ed); [done|]. intros a ->. by eapply happens_answers.
Qed.

End SideRun.

Arguments side_cluster_exec {V R K} T {OK Φ S}.

Section Run.
Context `{V : Revisions} `{R : MapRange} {K1 K2 T1 T2 : Type} `{Countable K1} `{Countable K2}.
Context `{OK1 : ObjectKind K1 T1} `{OK2 : ObjectKind K2 T2}.
Context {Φ1 Φ2 S : Type} (h1 : handler Φ1 S) (h2 : handler Φ2 S) (P : obj -> Prop).
Context {left1 : Φ1 -> nat} {left2 : Φ2 -> nat} (HO1 : handler_ok h1 left1) (HO2 : handler_ok h2 left2).

Fixpoint cluster_exec (alone : bool) (xs : list cluster_label) (c : cluster (duo Φ1 Φ2 S)) : option (cluster (duo Φ1 Φ2 S)) :=
  let 'MkCluster l d := c in
  match xs with
  | [] => Some c
  | Commits e :: xs => if change_okb l e then cluster_exec alone xs (MkCluster (l ++ [e]) d) else None
  | LeftDoes x :: xs =>
      y ← happens (kind_type T1) l (sd_running (duo_left d)) x;
      d ← duo_exec T1 T2 h1 h2 alone [OnLeft y] d; cluster_exec alone xs (MkCluster l d)
  | RightDoes x :: xs =>
      y ← happens (kind_type T2) l (sd_running (duo_right d)) x;
      d ← duo_exec T1 T2 h1 h2 alone [OnRight y] d; cluster_exec alone xs (MkCluster l d)
  end.

Lemma cluster_exec_run alone xs c c' :
  Forall (accepted P) xs -> cluster_exec alone xs c = Some c' -> rtc (duo_cluster_step T1 T2 h1 h2 P alone) c c'.
Proof.
  intros Hxs. revert c. induction Hxs as [|x xs Hx _ IH]; intros [l d]; cbn [cluster_exec]; [intros [= <-]; apply rtc_refl|].
  destruct x as [e|x|x].
  - destruct (change_okb l e) eqn:E; [|done]. intros Hrun. eapply rtc_l; [|by apply IH]. apply server_commits.
    by apply change_okb_true.
  - destruct (happens _ l _ x) as [y|] eqn:Ey; [|done]. cbn [mbind option_bind].
    destruct (duo_exec _ _ _ _ _ _ _) as [d1|] eqn:Ed; [|done]. cbn [mbind option_bind]. intros Hrun.
    eapply rtc_l; [|by apply IH]. apply program_steps. eapply (duo_exec_step_on h1 h2 HO1 HO2); [|exact Ed].
    destruct y; [|done..]. by eapply happens_answers.
  - destruct (happens _ l _ x) as [y|] eqn:Ey; [|done]. cbn [mbind option_bind].
    destruct (duo_exec _ _ _ _ _ _ _) as [d1|] eqn:Ed; [|done]. cbn [mbind option_bind]. intros Hrun.
    eapply rtc_l; [|by apply IH]. apply program_steps. eapply (duo_exec_step_on h1 h2 HO1 HO2); [|exact Ed].
    destruct y; [|done..]. by eapply happens_answers.
Qed.

End Run.

Arguments cluster_exec {V R K1 K2} T1 T2 {OK1 OK2 Φ1 Φ2 S}.

(** ** Properties *)

(** C4: Refinement and liveness of an informer against an API server.  A server
    with a history of changes lists the objects at any version and sends the
    changes after the version of a watch, in order; it commits changes,
    ends watches and fails at any time.  Whatever the handler does: what the
    informer was told is always the state of the server at the version it
    watches from; when it has seen the last change of its resource, its last
    list was clean and its queue is empty, its store has exactly the server's
    objects; and from every state, if the server only answers, it can come to
    rest with them, its handler having been told a history that leads to
    them. *)
Theorem informer_follows_server {K T : Type} `{Countable K} `{OK : ObjectKind K T} `{!ObjectKindLaws K T}
    `{V : Revisions} `{R : MapRange} {Φ S : Type} (h : handler Φ S) (left : Φ -> nat) P resync t0 now b r0 l0 s0 l sd s :
  handler_ok h left -> accepts T P -> kind_type T <> EmptyString -> begins resync t0 now b r0 -> history_ok P l0 ->
  rtc (side_cluster_step T h P) (MkCluster l0 (side_start (idle h) r0, s0)) (MkCluster l (sd, s)) ->
  (exists n, n <= length l /\ sd_told sd = objects_at (kind_type T) l n
     /\ forall v, watched (sd_running sd) = Some v -> v = revision n)
  /\ (up_to_date (kind_type T) l (sd_running sd) -> sd_clean sd = true -> f_queue (fifo (sd_running sd)) = [] ->
      store_items (sd_running sd) = current (kind_type T) l)
  /\ (exists sd' s', rtc (side_cluster_step T h P) (MkCluster l (sd, s)) (MkCluster l (sd', s'))
        /\ side_rest (idle h) sd' /\ sd_clean sd' = true
        /\ note_run ∅ (sd_reported sd') (current (kind_type T) l)).
Proof.
  intros HO HP Hty Hb Hl0 Hrun.
  destruct (side_cluster_run h P HP _ _ _ _ _ _ _ _ _ _ Hb Hl0 Hrun) as (Hl & Hs & Hr & _). split_and!.
  - destruct Hs as (n & Hn & Ht & Hw & _). by exists n.
  - intros Hup Hc Hq. rewrite <- (in_sync_current _ _ _ _ Hs Hup).
    destruct (informed_reaches _ is_object_meta _ _ _ _ _ _ _ (begins_informed _ _ _ _ _ _ Hb) Hr) as (q & Hi).
    exact (drained_store _ _ _ _ (if_run _ _ _ _ _ _ _ Hi) Hq (if_told _ _ _ _ _ _ _ Hi Hc)).
  - destruct (side_catches_up h HO P l sd s _ _ _ _ _ HP Hl Hty Hb Hr) as (sd' & s' & Hrun' & Hr' & Hrest & Hc & Ht).
    exists sd', s'. split_and!; [by apply program_run|done|done|]. rewrite <- Ht.
    exact (rest_history (T := T) (idle h) _ _ _ _ _ _ Hb Hr' Hrest Hc).
Qed.
