(* ===== verification/RestRequest.v ===== *)
(** * Requests to the API server (client-go's [rest], vendored)

    The typed clients build their requests with the methods of [Request]
    ([rest/request.go]): each adds a part or records the first error, and [Do]
    and [Watch] send the request unless there is one.  The encoding of objects
    and of query parameters is the class [Codec]; the transport is the class
    [Transport]: it takes the request to the server, repeats it when told to,
    and gives the decoded answer or an error. *)

From stdpp Require Import base gmap strings list.
From Stdlib Require Import Ascii ZArith Lia.
From S2P Require Import Prelude GoStd GoPath GoUrl Types Listers.

(** ** Options ([metav1.ListOptions] and its like) *)

Record ListOptions : Type := MkListOptions {
  LabelSelector : string;
  FieldSelector : string;
  IncludeUninitialized : bool;
  lo_Watch : bool;
  lo_ResourceVersion : string;
  TimeoutSeconds : option Z;
  Limit : Z;
  Continue : string;
}.

Definition set_watch (o : ListOptions) : ListOptions :=
  {| LabelSelector := LabelSelector o; FieldSelector := FieldSelector o;
     IncludeUninitialized := IncludeUninitialized o; lo_Watch := true;
     lo_ResourceVersion := lo_ResourceVersion o; TimeoutSeconds := TimeoutSeconds o;
     Limit := Limit o; Continue := Continue o |}.

Record GetOptions : Type := MkGetOptions { go_ResourceVersion : string; go_IncludeUninitialized : bool }.

(** The options of a deletion are only passed on. *)
Record DeleteOptions : Type := MkDeleteOptions {
  GracePeriodSeconds : option Z; Preconditions : option string; OrphanDependents : option bool;
  PropagationPolicy : option string; DryRun : option (list string);
}.

(** What is encoded into a body and into parameters. *)
Inductive body_object : Type := BodyObj (o : obj) | BodyDelete (o : DeleteOptions).
Inductive param_object : Type := ParamList (o : ListOptions) | ParamGet (o : GetOptions).

Notation Values := (gmap string (list string)).

Class Codec := {
  Encode : body_object -> res string string;
  EncodeParameters : param_object -> res string Values;
}.

(** ** Errors found before anything is sent *)

Inductive request_error : Type :=
| InvalidSegment (what name : string) (msgs : list string)
| AlreadySet (what : string)
| EmptyName
| EncodingError (e : string)
| EmptyNamespaceWithName
| EmptyNamespaceInCreation
| ServerError (e : string)
| EmptyResponse.

(** [path.IsValidPathSegmentName] of [api/validation/path] *)
Fixpoint has_char (c : ascii) (s : string) : bool :=
  match s with
  | EmptyString => false
  | String d s' => Ascii.eqb d c || has_char c s'
  end.

Definition IsValidPathSegmentName (name : string) : list string :=
  if String.eqb name "." then ["may not be '.'"]
  else if String.eqb name ".." then ["may not be '..'"]
  else (if has_char "/" name then ["may not contain '/'"] else [])
       ++ (if has_char "%" name then ["may not contain '%'"] else []).

(** ** Clients and requests *)

(** [rest.RESTClient]: its base URL, its versioned API path and the timeout of
    its HTTP client; [content_type] is of its configuration.  [Throttle] is a
    reference to its rate limiter, for which the transport waits. *)
Record RESTClient : Type := MkRESTClient {
  base_Scheme : string; base_Host : string; base_Path : string; versionedAPIPath : string; client_Timeout : Z;
  content_type : string; Throttle : option nat;
}.

Record Request : Type := MkRequest {
  verb : string;
  pathPrefix : string;
  params : Values;
  headers : Values;
  namespace : string;
  namespaceSet : bool;
  resource : string;
  resourceName : string;
  subresource : string;
  timeout : Z;
  err : option request_error;
  body : option string;
  r_content_type : string;
}.

(** [NewRequest], as [Verb] calls it *)
Definition Verb (v : string) (c : RESTClient) : Request :=
  {| verb := v; pathPrefix := path_Join [path_Join ["/"; base_Path c]; versionedAPIPath c];
     params := ∅; headers := {[ "Accept" := [content_type c +:+ ", */*"] ]};
     namespace := EmptyString; namespaceSet := false; resource := EmptyString; resourceName := EmptyString;
     subresource := EmptyString; timeout := client_Timeout c; err := None; body := None;
     r_content_type := content_type c |}.

Definition SetHeader (key value : string) (r : Request) : Request :=
  {| verb := verb r; pathPrefix := pathPrefix r; params := params r; headers := <[key := [value]]> (headers r);
     namespace := namespace r; namespaceSet := namespaceSet r; resource := resource r;
     resourceName := resourceName r; subresource := subresource r; timeout := timeout r; err := err r;
     body := body r; r_content_type := r_content_type r |}.

Definition RESTClient_Post (c : RESTClient) : Request := Verb "POST" c.
Definition RESTClient_Put (c : RESTClient) : Request := Verb "PUT" c.
Definition RESTClient_Patch (pt : string) (c : RESTClient) : Request := SetHeader "Content-Type" pt (Verb "PATCH" c).
Definition RESTClient_Get (c : RESTClient) : Request := Verb "GET" c.
Definition RESTClient_Delete (c : RESTClient) : Request := Verb "DELETE" c.

Definition with_err (e : request_error) (r : Request) : Request :=
  {| verb := verb r; pathPrefix := pathPrefix r; params := params r; headers := headers r;
     namespace := namespace r; namespaceSet := namespaceSet r; resource := resource r;
     resourceName := resourceName r; subresource := subresource r; timeout := timeout r; err := Some e;
     body := body r; r_content_type := r_content_type r |}.

(** Every method leaves a request with an error alone. *)
Definition unless_err (f : Request -> Request) (r : Request) : Request :=
  match err r with Some _ => r | None => f r end.

Definition Request_Namespace (ns : string) : Request -> Request :=
  unless_err (fun r =>
    if namespaceSet r then with_err (AlreadySet "namespace") r
    else match IsValidPathSegmentName ns with
         | [] =>
             {| verb := verb r; pathPrefix := pathPrefix r; params := params r; headers := headers r;
                namespace := ns; namespaceSet := true; resource := resource r;
                resourceName := resourceName r; subresource := subresource r; timeout := timeout r;
                err := err r; body := body r; r_content_type := r_content_type r |}
         | msgs => with_err (InvalidSegment "namespace" ns msgs) r
         end).

Definition Request_Resource (res : string) : Request -> Request :=
  unless_err (fun r =>
    if negb (String.eqb (resource r) EmptyString) then with_err (AlreadySet "resource") r
    else match IsValidPathSegmentName res with
         | [] =>
             {| verb := verb r; pathPrefix := pathPrefix r; params := params r; headers := headers r;
                namespace := namespace r; namespaceSet := namespaceSet r; resource := res;
                resourceName := resourceName r; subresource := subresource r; timeout := timeout r;
                err := err r; body := body r; r_content_type := r_content_type r |}
         | msgs => with_err (InvalidSegment "resource" res msgs) r
         end).

Definition Request_Name (name : string) : Request -> Request :=
  unless_err (fun r =>
    if String.eqb name EmptyString then with_err EmptyName r
    else if negb (String.eqb (resourceName r) EmptyString) then with_err (AlreadySet "resource name") r
    else match IsValidPathSegmentName name with
         | [] =>
             {| verb := verb r; pathPrefix := pathPrefix r; params := params r; headers := headers r;
                namespace := namespace r; namespaceSet := namespaceSet r; resource := resource r;
                resourceName := name; subresource := subresource r; timeout := timeout r;
                err := err r; body := body r; r_content_type := r_content_type r |}
         | msgs => with_err (InvalidSegment "resource name" name msgs) r
         end).

Fixpoint first_invalid (ss : list string) : option (string * list string) :=
  match ss with
  | [] => None
  | s :: ss => match IsValidPathSegmentName s with [] => first_invalid ss | msgs => Some (s, msgs) end
  end.

Definition Request_SubResource (subresources : list string) : Request -> Request :=
  unless_err (fun r =>
    let sub := path_Join subresources in
    if negb (String.eqb (subresource r) EmptyString) then with_err (AlreadySet "subresource") r
    else match first_invalid subresources with
         | Some (s, msgs) => with_err (InvalidSegment "subresource" s msgs) r
         | None =>
             {| verb := verb r; pathPrefix := pathPrefix r; params := params r; headers := headers r;
                namespace := namespace r; namespaceSet := namespaceSet r; resource := resource r;
                resourceName := resourceName r; subresource := sub; timeout := timeout r;
                err := err r; body := body r; r_content_type := r_content_type r |}
         end).

Definition Request_Timeout (d : Z) : Request -> Request :=
  unless_err (fun r =>
    {| verb := verb r; pathPrefix := pathPrefix r; params := params r; headers := headers r;
       namespace := namespace r; namespaceSet := namespaceSet r; resource := resource r;
       resourceName := resourceName r; subresource := subresource r; timeout := d;
       err := err r; body := body r; r_content_type := r_content_type r |}).

(** A body of bytes, as [Patch] has it *)
Definition Request_BodyBytes (data : string) : Request -> Request :=
  unless_err (fun r =>
    {| verb := verb r; pathPrefix := pathPrefix r; params := params r; headers := headers r;
       namespace := namespace r; namespaceSet := namespaceSet r; resource := resource r;
       resourceName := resourceName r; subresource := subresource r; timeout := timeout r;
       err := err r; body := Some data; r_content_type := r_content_type r |}).

(** ** The wire *)

(** The URL before it is printed: path, parameters and the timeout, which
    becomes a parameter when it is not zero. *)
Record http_request : Type := MkHttpRequest {
  h_verb : string; h_path : string; h_params : Values; h_timeout : Z; h_headers : Values; h_body : option string;
}.

(** A decoded body: an object, another value (a status that is a success), or
    no bytes at all. *)
Inductive answer : Type := AnswerObject (o : obj) | AnswerOther | AnswerEmpty.

Class Transport (W : Type) := {
  RoundTrip : http_request -> W -> W * res string answer;
  OpenWatch : http_request -> W -> W * res string nat;
}.

Section Sending.
Context `{Codec}.

Definition Request_VersionedParams (o : param_object) : Request -> Request :=
  unless_err (fun r =>
    match EncodeParameters o with
    | Err e => with_err (EncodingError e) r
    | Ok vs =>
        {| verb := verb r; pathPrefix := pathPrefix r;
           params := union_with (fun a b => Some (a ++ b)) (params r) vs;
           headers := headers r; namespace := namespace r; namespaceSet := namespaceSet r; resource := resource r;
           resourceName := resourceName r; subresource := subresource r; timeout := timeout r;
           err := err r; body := body r; r_content_type := r_content_type r |}
    end).

(** A body that is an object; a nil pointer sets none. *)
Definition Request_Body (o : option body_object) : Request -> Request :=
  unless_err (fun r =>
    match o with
    | None => r
    | Some o =>
        match Encode o with
        | Err e => with_err (EncodingError e) r
        | Ok data =>
            SetHeader "Content-Type" (r_content_type r)
              {| verb := verb r; pathPrefix := pathPrefix r; params := params r; headers := headers r;
                 namespace := namespace r; namespaceSet := namespaceSet r; resource := resource r;
                 resourceName := resourceName r; subresource := subresource r; timeout := timeout r;
                 err := err r; body := Some data; r_content_type := r_content_type r |}
        end
    end).

(** The path of [URL] *)
Definition URL_path (r : Request) : string :=
  let p := pathPrefix r in
  let p := if namespaceSet r && negb (String.eqb (namespace r) EmptyString)
           then path_Join [p; "namespaces"; namespace r] else p in
  let p := if negb (String.eqb (resource r) EmptyString) then path_Join [p; ToLower (resource r)] else p in
  if negb (String.eqb (resourceName r) EmptyString) || negb (String.eqb (subresource r) EmptyString)
  then path_Join [p; resourceName r; subresource r; EmptyString] else p.

Definition to_http (r : Request) : http_request :=
  {| h_verb := verb r; h_path := URL_path r; h_params := params r; h_timeout := timeout r;
     h_headers := headers r; h_body := body r |}.

(** The checks at the start of [request] *)
Definition request_check (r : Request) : option request_error :=
  match err r with
  | Some e => Some e
  | None =>
      if (String.eqb (verb r) "GET" || String.eqb (verb r) "PUT" || String.eqb (verb r) "DELETE")
         && namespaceSet r && negb (String.eqb (resourceName r) EmptyString) && String.eqb (namespace r) EmptyString
      then Some EmptyNamespaceWithName
      else if String.eqb (verb r) "POST" && namespaceSet r && String.eqb (namespace r) EmptyString
      then Some EmptyNamespaceInCreation
      else None
  end.

Context {W : Type} `{Transport W}.

Definition Do (r : Request) (w : W) : W * res request_error answer :=
  match request_check r with
  | Some e => (w, Err e)
  | None => let '(w, a) := RoundTrip (to_http r) w in
            (w, match a with Ok a => Ok a | Err e => Err (ServerError e) end)
  end.

Definition Watch (r : Request) (w : W) : W * res request_error nat :=
  match err r with
  | Some e => (w, Err e)
  | None => let '(w, a) := OpenWatch (to_http r) w in
            (w, match a with Ok a => Ok a | Err e => Err (ServerError e) end)
  end.

(** [Result.Error] *)
Definition Result_Error (a : res request_error answer) : option request_error :=
  match a with Ok _ => None | Err e => Some e end.

(** [Result.Into]: an answer of another kind leaves the object as it was. *)
Definition Into {T} (as_T : obj -> option T) (into : T) (a : res request_error answer) : T * option request_error :=
  match a with
  | Err e => (into, Some e)
  | Ok AnswerEmpty => (into, Some EmptyResponse)
  | Ok AnswerOther => (into, None)
  | Ok (AnswerObject o) => (default into (as_T o), None)
  end.

End Sending.

(** ** The path of the API group ([rest/url_utils.go]) *)

Record GroupVersion : Type := MkGroupVersion { gv_Group : string; gv_Version : string }.

Definition DefaultVersionedAPIPath (apiPath : string) (gv : GroupVersion) : string :=
  let p := path_Join ["/"; apiPath] in
  if negb (String.eqb (gv_Group gv) EmptyString) then path_Join [p; gv_Group gv; gv_Version gv]
  else path_Join [p; gv_Version gv].
