(* ===== verification/Pager.v ===== *)
(** * Lists in pages ([tools/pager/pager.go] and [tools/cache/listwatch.go], vendored)

    The list of an informer is asked for in pages of 500 objects: [ListPager]
    follows the continue tokens and puts the pages together, and falls back to
    one full list when a token has expired.  A list is a [listing]: what
    [meta.ListAccessor] and [meta.ExtractList] see of it. *)

From stdpp Require Import base gmap strings list pretty.
From Stdlib Require Import Lia ZArith.
From S2P Require Import Prelude GoStd Types Listers RestRequest.

Record listing : Type := MkListing {
  l_items : list obj;
  l_version : string;
  l_continue : string;
}.

Definition defaultPageSize : Z := 500.

Definition with_limit (n : Z) (o : ListOptions) : ListOptions :=
  {| LabelSelector := LabelSelector o; FieldSelector := FieldSelector o;
     IncludeUninitialized := IncludeUninitialized o; lo_Watch := lo_Watch o;
     lo_ResourceVersion := lo_ResourceVersion o; TimeoutSeconds := TimeoutSeconds o;
     Limit := n; Continue := Continue o |}.

Definition with_continue (token : string) (o : ListOptions) : ListOptions :=
  {| LabelSelector := LabelSelector o; FieldSelector := FieldSelector o;
     IncludeUninitialized := IncludeUninitialized o; lo_Watch := lo_Watch o;
     lo_ResourceVersion := lo_ResourceVersion o; TimeoutSeconds := TimeoutSeconds o;
     Limit := Limit o; Continue := token |}.

(** What [ListAndWatch] of [tools/cache/reflector.go] asks for: any version will do. *)
Definition list_options : ListOptions :=
  {| LabelSelector := EmptyString; FieldSelector := EmptyString; IncludeUninitialized := false; lo_Watch := false;
     lo_ResourceVersion := "0"; TimeoutSeconds := None; Limit := 0; Continue := EmptyString |}.

Section Pager.
(** [IsResourceExpired] reads the reason of the status that the server sent. *)
Context {W E : Type} (IsResourceExpired : E -> bool).
Context (PageFn : ListOptions -> W -> W * res E listing).

Definition is_empty (s : string) : bool := String.eqb s EmptyString.

(** The loop of [List]; [list] is nil until there has been a page. *)
Fixpoint pager_loop (fuel : nat) (options : ListOptions) (list : option (list obj * string)) (w : W)
    : option (W * res E listing) :=
  match fuel with
  | 0 => None
  | S fuel =>
      match PageFn options w with
      | (w, Err e) =>
          if negb (IsResourceExpired e) then Some (w, Err e)
          else Some (PageFn (with_continue EmptyString (with_limit 0 options)) w)
      | (w, Ok m) =>
          match list, is_empty (l_continue m) with
          | None, true => Some (w, Ok m)
          | _, last =>
              let '(items, version) := default ([], l_version m) list in
              let items := items ++ l_items m in
              if last then Some (w, Ok {| l_items := items; l_version := version; l_continue := EmptyString |})
              else pager_loop fuel (with_continue (l_continue m) options) (Some (items, version)) w
          end
      end
  end.

Definition pager_List (fuel : nat) (options : ListOptions) (w : W) : option (W * res E listing) :=
  let options := if (Limit options =? 0)%Z then with_limit defaultPageSize options else options in
  pager_loop fuel options None w.

(** ** A server with pages *)

(** The first request for a page. *)
Definition first_page (options : ListOptions) : ListOptions :=
  if (Limit options =? 0)%Z then with_limit defaultPageSize options else options.

(** A page: some objects, and whatever is the token of the rest, or none. *)
Definition page (token : nat -> string) (os : list obj) (rv : string) (k n : nat) : listing :=
  {| l_items := take n (drop k os); l_version := rv;
     l_continue := if k + n <? length os then token (k + n) else EmptyString |}.

(** What the API documents.  A list with a limit may have fewer objects than
    there are, and then a token for the rest, which is of the same version; the
    server chooses the size and may ignore the limit.  Any request may fail, as
    one with a token that has expired does. *)
Record pages (options : ListOptions) (token : nat -> string) (os : list obj) (rv : string) : Prop := {
  pg_start : token 0 = EmptyString;
  pg_token : forall k, token (S k) <> EmptyString;
  pg_page : forall k w, k <= length os ->
    (exists n w', 0 < n /\ PageFn (with_continue (token k) options) w = (w', Ok (page token os rv k n)))
    \/ exists w' e, PageFn (with_continue (token k) options) w = (w', Err e);
}.

(** How [List] can end: with all pages, with the error of one, or, when the
    request for a page has been answered that its token has expired, with what
    the server answers to the request for the whole list that follows. *)
Definition listed_all (options : ListOptions) (token : nat -> string) (os : list obj) (rv : string)
    (w' : W) (r : res E listing) : Prop :=
  (exists l, r = Ok l /\ l_items l = os /\ l_version l = rv /\ l_continue l = EmptyString)
  \/ exists k w1 w2 e, k <= length os /\ PageFn (with_continue (token k) options) w1 = (w2, Err e)
       /\ if IsResourceExpired e then PageFn (with_continue EmptyString (with_limit 0 options)) w2 = (w', r)
          else w' = w2 /\ r = Err e.

Lemma pager_loop_pages options token os rv fuel k w :
  pages options token os rv -> k <= length os -> length os < fuel + k ->
  exists w' r,
    pager_loop fuel (with_continue (token k) options) (if k =? 0 then None else Some (take k os, rv)) w = Some (w', r)
    /\ listed_all options token os rv w' r.
Proof.
  intros Hp. revert k w. induction fuel as [|fuel IH]; intros k w Hk Hf; [lia|].
  cbn [pager_loop]. destruct (pg_page _ _ _ _ Hp k w Hk) as [(n & w1 & Hn & Ep)|(w1 & e & Ep)]; rewrite Ep.
  - cbn [page l_continue l_items l_version].
    assert (take k os ++ take n (drop k os) = take (k + n) os) as Happ by apply take_take_drop.
    destruct (Nat.ltb_spec (k + n) (length os)) as [Hlt|Hge].
    + assert (is_empty (token (k + n)) = false) as ->.
      { apply String.eqb_neq. replace (k + n) with (S (k + n - 1)) by lia. apply (pg_token _ _ _ _ Hp). }
      destruct (IH (k + n) w1) as (w2 & r & Hrun & Hl); [lia|lia|].
      exists w2, r. split; [|exact Hl]. rewrite <- Hrun.
      replace (k + n =? 0) with false by (symmetry; apply Nat.eqb_neq; lia).
      destruct k as [|k]; cbn [Nat.eqb default] in *; rewrite <- Happ; [by rewrite take_0|done].
    + assert (take (k + n) os = os) as Hall by (apply take_ge; lia). cbn [is_empty String.eqb].
      rewrite Hall in Happ. destruct k as [|k]; cbn [Nat.eqb default].
      * rewrite take_0 in Happ. eexists _, _. split; [reflexivity|]. left. eexists. split; [reflexivity|]. split_and!; [exact Happ|done|]. unfold page. cbn [l_continue]. destruct (Nat.ltb_spec (0 + n) (length os)); [lia|done].
      * eexists _, _. split; [reflexivity|]. left. eexists. split; [reflexivity|]. cbn [l_items l_version l_continue].
        by rewrite Happ.
  - destruct (IsResourceExpired e) eqn:He; cbn [negb].
    + destruct (PageFn _ w1) as [w2 r] eqn:E2. exists w2, r. split; [done|]. right. exists k, w, w1, e.
      rewrite He. split_and!; [done|exact Ep|exact E2].
    + exists w1, (Err e). split; [done|]. right. exists k, w, w1, e. rewrite He. by split_and!.
Qed.

Lemma with_continue_id o token : Continue o = token -> with_continue token o = o.
Proof. intros <-. by destruct o. Qed.

Lemma pager_List_pages options token os rv fuel w :
  pages (first_page options) token os rv -> Continue options = EmptyString -> length os < fuel ->
  exists w' r, pager_List fuel options w = Some (w', r) /\ listed_all (first_page options) token os rv w' r.
Proof.
  intros Hp Hc Hf. unfold pager_List. fold (first_page options).
  destruct (pager_loop_pages _ _ _ _ fuel 0 w Hp (Nat.le_0_l _)) as (w' & r & Hrun & Hl); [lia|].
  rewrite with_continue_id in Hrun.
  - by exists w', r.
  - rewrite (pg_start _ _ _ _ Hp). unfold first_page. by destruct (_ =? _)%Z.
Qed.

End Pager.

(** ** Properties *)

(** C16: Termination of paging, and that the pages make the list.  Against a
    server that hands out a list in pages, of whatever sizes it likes and
    failing whenever it likes, [List] comes to an end after at most as many
    requests as there are objects and two.  It gives the whole list, in its
    order and with its version; or the request for one of the pages has failed,
    and it gives the error of that page, unless the error is that the token has
    expired: then, and only then, it gives what the server answers to a
    request for the whole list that it makes next. *)
Theorem pager_lists_all {W E} (IsResourceExpired : E -> bool) (PageFn : ListOptions -> W -> W * res E listing)
    options token os rv w :
  pages PageFn (first_page options) token os rv -> Continue options = EmptyString ->
  exists w' r, pager_List IsResourceExpired PageFn (S (length os)) options w = Some (w', r)
    /\ ((exists l, r = Ok l /\ l_items l = os /\ l_version l = rv /\ l_continue l = EmptyString)
        \/ exists k w1 w2 e, k <= length os /\ PageFn (with_continue (token k) (first_page options)) w1 = (w2, Err e)
             /\ if IsResourceExpired e then PageFn (with_continue EmptyString (with_limit 0 options)) w2 = (w', r)
                else w' = w2 /\ r = Err e).
Proof.
  intros Hp Hc. destruct (pager_List_pages IsResourceExpired _ _ _ _ _ (S (length os)) w Hp Hc) as (w' & r & Hrun & Hl); [lia|].
  exists w', r. split; [exact Hrun|]. revert Hl. unfold listed_all.
  by replace (with_limit 0 (first_page options)) with (with_limit 0 options) by (unfold first_page; by destruct (_ =? _)%Z).
Qed.

(** ** Examples *)

(** A server with three objects that gives two at a time, and counts. *)
Definition three : list obj :=
  [ALogSink (plain_sink "ns" "a" "https://a"); ALogSink (plain_sink "ns" "b" "https://b");
   ALogSink (plain_sink "ns" "c" "https://c")].

Definition token_of (k : nat) : string := match k with 0 => EmptyString | S k => "after " +:+ pretty k end.

Definition position (token : string) : nat :=
  default 0 (List.find (fun k => String.eqb (token_of k) token) (seq 0 4)).

Definition two_at_a_time (o : ListOptions) (requests : nat) : nat * res string listing :=
  (S requests, Ok (page token_of three "7" (position (Continue o)) (if (Limit o =? 0)%Z then 3 else 2))).

Lemma two_at_a_time_pages o : pages two_at_a_time o token_of three "7".
Proof.
  split; [done|done|]. intros k w Hk. left. exists (if (Limit o =? 0)%Z then 3 else 2), (S w).
  split; [destruct (_ =? _)%Z; lia|]. unfold two_at_a_time. cbn [with_continue Continue Limit].
  repeat f_equal. cbn in Hk. do 4 (destruct k as [|k]; [by vm_compute|]). lia.
Qed.

(** Two requests give the three objects. *)
Lemma pager_lists_all_witness :
  exists l, pager_List (fun _ => false) two_at_a_time 4 list_options 0 = Some (2, Ok l) /\ l_items l = three.
Proof.
  destruct (pager_lists_all (fun _ => false) two_at_a_time list_options token_of three "7" 0
    (two_at_a_time_pages _) eq_refl) as (w' & r & Hrun & Hr).
  revert Hrun. vm_compute. intros [= <- <-]. by eexists.
Defined.
