(* ===== verification/RestConfig.v ===== *)
(** * Client configurations (client-go's [rest/config.go], vendored)

    [rest.Config] and the clients made from it.  A rate limiter is a reference:
    the limiters made so far are a list, and a client that throttles has the
    position of its limiter, so two clients that share one have the same.
    The reading of TLS files and credentials, which ends in a transport, and
    the media types of a serializer are the class [ClientLibrary]. *)

From stdpp Require Import base gmap strings list.
From Stdlib Require Import Ascii ZArith Lia SpecFloat.
From S2P Require Import Prelude GoStd GoPath RestRequest GoUrl.

(** ** Configurations *)

Inductive serializer : Type :=
| DirectCodecFactory     (** of the clientset's scheme *)
| NoopDecoder.           (** of the discovery client *)

(** A [float32] is a [spec_float]; what only the transport reads
    (credentials, wrappers, dialing) is [transport_config]. *)
Record Config : Type := MkConfig {
  config_Host : string;
  APIPath : string;
  ContentType : string;
  config_GroupVersion : option GroupVersion;
  NegotiatedSerializer : option serializer;
  CAFile : string; CAData : string; CertFile : string; CertData : string;
  Insecure : bool;
  UserAgent : string;
  QPS : spec_float;
  Burst : Z;
  RateLimiter : option nat;
  config_Timeout : Z;
  transport_config : string;
}.

Definition with_RateLimiter (l : option nat) (c : Config) : Config :=
  {| config_Host := config_Host c; APIPath := APIPath c; ContentType := ContentType c;
     config_GroupVersion := config_GroupVersion c; NegotiatedSerializer := NegotiatedSerializer c;
     CAFile := CAFile c; CAData := CAData c; CertFile := CertFile c; CertData := CertData c;
     Insecure := Insecure c; UserAgent := UserAgent c; QPS := QPS c; Burst := Burst c; RateLimiter := l;
     config_Timeout := config_Timeout c; transport_config := transport_config c |}.

(** The fields the two clients of a clientset set in their copy. *)
Definition with_api (path : string) (gv : option GroupVersion) (s : serializer) (agent : string) (timeout : Z)
    (c : Config) : Config :=
  {| config_Host := config_Host c; APIPath := path; ContentType := ContentType c;
     config_GroupVersion := gv; NegotiatedSerializer := Some s;
     CAFile := CAFile c; CAData := CAData c; CertFile := CertFile c; CertData := CertData c;
     Insecure := Insecure c; UserAgent := agent; QPS := QPS c; Burst := Burst c; RateLimiter := RateLimiter c;
     config_Timeout := timeout; transport_config := transport_config c |}.

Inductive config_error : Type :=
| GroupVersionRequired
| SerializerRequired
| HostRequired
| HostUnparsable (host : string)
| HostHasPath (host : string)
| TransportError (e : string)
| ContentTypeError (e : string).

Class ClientLibrary := {
  (** [TransportFor]: [None] is [http.DefaultTransport] *)
  TransportFor : Config -> res string (option nat);
  (** the error of [createSerializers] for a content type *)
  createSerializers : serializer -> string -> option string;
  DefaultKubernetesUserAgent : string;
}.

(** ** Rate limiters *)

Notation limiters := (list (spec_float * Z)).

Definition NewTokenBucketRateLimiter (qps : spec_float) (burst : Z) (ls : limiters) : nat * limiters :=
  (List.length ls, ls ++ [(qps, burst)]).

Definition float_zero : spec_float := S754_zero false.
Definition positive (x : spec_float) : bool := SFltb float_zero x.

(** [5.0] as a [float32], and [10] *)
Definition DefaultQPS : spec_float := S754_finite false 10485760 (-21).
Definition DefaultBurst : Z := 10.

(** ** The base of the URLs ([rest/url_utils.go]) *)

(** The second attempt, for an address that is not a URL with a host. *)
Definition parse_with_scheme (host : string) (defaultTLS : bool) : res config_error URL :=
  let scheme := if defaultTLS then "https://" else "http://" in
  match url_Parse (scheme +:+ host) with
  | None => Err (HostUnparsable host)
  | Some hostURL =>
      if negb (String.eqb (UPath hostURL) EmptyString) && negb (String.eqb (UPath hostURL) "/")
      then Err (HostHasPath host) else Ok hostURL
  end.

Definition DefaultServerURL (host apiPath : string) (groupVersion : GroupVersion) (defaultTLS : bool)
    : res config_error (URL * string) :=
  if String.eqb host EmptyString then Err HostRequired
  else
    let hostURL :=
      match url_Parse host with
      | Some u =>
          if String.eqb (Scheme u) EmptyString || String.eqb (Host u) EmptyString
          then parse_with_scheme host defaultTLS else Ok u
      | None => parse_with_scheme host defaultTLS
      end in
    match hostURL with
    | Err e => Err e
    | Ok u => Ok (u, DefaultVersionedAPIPath apiPath groupVersion)
    end.

Definition defaultServerUrlFor (config : Config) : res config_error (URL * string) :=
  let hasCA := negb (String.eqb (CAFile config) EmptyString) || negb (String.eqb (CAData config) EmptyString) in
  let hasCert := negb (String.eqb (CertFile config) EmptyString) || negb (String.eqb (CertData config) EmptyString) in
  let defaultTLS := hasCA || hasCert || Insecure config in
  let host := if String.eqb (config_Host config) EmptyString then "localhost" else config_Host config in
  match config_GroupVersion config with
  | Some gv => DefaultServerURL host (APIPath config) gv defaultTLS
  | None => DefaultServerURL host (APIPath config) {| gv_Group := EmptyString; gv_Version := EmptyString |} defaultTLS
  end.

(** ** Clients ([rest/client.go]) *)

Section Clients.
Context `{ClientLibrary}.

(** The timeout is that of the HTTP client. *)
Definition NewRESTClient (baseURL : URL) (path contentType : string) (s : serializer)
    (maxQPS : spec_float) (maxBurst : Z) (rateLimiter : option nat) (httpTimeout : Z) (ls : limiters)
    : res config_error RESTClient * limiters :=
  let base := if HasSuffix (UPath baseURL) "/" then UPath baseURL else UPath baseURL +:+ "/" in
  let contentType := if String.eqb contentType EmptyString then "application/json" else contentType in
  match createSerializers s contentType with
  | Some e => (Err (ContentTypeError e), ls)
  | None =>
      let '(throttle, ls) :=
        match rateLimiter with
        | None => if positive maxQPS
                  then let '(l, ls) := NewTokenBucketRateLimiter maxQPS maxBurst ls in (Some l, ls)
                  else (None, ls)
        | Some l => (Some l, ls)
        end in
      (Ok {| base_Scheme := Scheme baseURL; base_Host := Host baseURL; base_Path := base;
             versionedAPIPath := path; client_Timeout := httpTimeout; content_type := contentType;
             Throttle := throttle |}, ls)
  end.

Definition http_timeout (transport : option nat) (config : Config) : Z :=
  match transport with
  | None => 0
  | Some _ => if (0 <? config_Timeout config)%Z then config_Timeout config else 0
  end.

Definition RESTClientFor (config : Config) (ls : limiters) : res config_error RESTClient * limiters :=
  match config_GroupVersion config, NegotiatedSerializer config with
  | None, _ => (Err GroupVersionRequired, ls)
  | Some _, None => (Err SerializerRequired, ls)
  | Some _, Some s =>
      let qps := if SFeqb (QPS config) float_zero then DefaultQPS else QPS config in
      let burst := if (Burst config =? 0)%Z then DefaultBurst else Burst config in
      match defaultServerUrlFor config with
      | Err e => (Err e, ls)
      | Ok (baseURL, path) =>
          match TransportFor config with
          | Err e => (Err (TransportError e), ls)
          | Ok transport =>
              NewRESTClient baseURL path (ContentType config) s qps burst (RateLimiter config)
                (http_timeout transport config) ls
          end
      end
  end.

(** Without a group version, and without a default rate. *)
Definition UnversionedRESTClientFor (config : Config) (ls : limiters) : res config_error RESTClient * limiters :=
  match NegotiatedSerializer config with
  | None => (Err SerializerRequired, ls)
  | Some s =>
      match defaultServerUrlFor config with
      | Err e => (Err e, ls)
      | Ok (baseURL, path) =>
          match TransportFor config with
          | Err e => (Err (TransportError e), ls)
          | Ok transport =>
              NewRESTClient baseURL path (ContentType config) s (QPS config) (Burst config) (RateLimiter config)
                (http_timeout transport config) ls
          end
      end
  end.

End Clients.

(** ** Lemmas *)

Definition server_char (c : ascii) : bool := not_char "/" c && not_char "?" c && not_char "#" c.

Lemma IndexByte_none s b : str_forall (not_char b) s = true -> IndexByte s b = None.
Proof.
  induction s as [|c s IH]; cbn; [done|]. intros [Hc Hs]%andb_prop. unfold not_char in Hc.
  destruct (Ascii.eqb c b); [done|]. by rewrite IH.
Qed.

Lemma CountByte_none s b : str_forall (not_char b) s = true -> CountByte s b = 0.
Proof.
  induction s as [|c s IH]; cbn; [done|]. intros [Hc Hs]%andb_prop. unfold not_char in Hc.
  destruct (Ascii.eqb c b); [done|]. by rewrite IH.
Qed.

Lemma split_none s b cutc : str_forall (not_char b) s = true -> split s b cutc = (s, EmptyString).
Proof. intros Hs. unfold split. by rewrite IndexByte_none. Qed.

Lemma cut_query_none s : str_forall (not_char "?") s = true -> cut_query s = (s, EmptyString).
Proof. intros Hs. unfold cut_query. rewrite CountByte_none by done. rewrite andb_false_r. by apply split_none. Qed.

Lemma server_char_free h :
  str_forall server_char h = true ->
  str_forall (not_char "/") h = true /\ str_forall (not_char "?") h = true /\ str_forall (not_char "#") h = true.
Proof.
  intros Hh. split_and!; revert Hh; apply str_forall_impl; intros c; unfold server_char; intros Hc;
    by repeat (apply andb_prop in Hc as [Hc ?]).
Qed.

(** An address with nothing behind the host has an empty path. *)
Lemma url_Parse_server h u :
  str_forall server_char h = true -> url_Parse ("https://" +:+ h) = Some u -> UPath u = EmptyString /\ Scheme u = "https".
Proof.
  intros (Hs & Hq & Hf)%server_char_free. unfold url_Parse.
  rewrite split_none by (by rewrite str_forall_app, Hf). cbn [String.eqb].
  unfold parse_nofrag. change (getscheme ("https://" +:+ h)) with (Some ("https", "//" +:+ h)).
  change (String.eqb ("https://" +:+ h) "*") with false. cbn [mbind option_bind].
  rewrite cut_query_none by (by rewrite str_forall_app, Hq).
  change (ToLower "https") with "https". change (HasPrefix ("//" +:+ h) "/") with true.
  assert (HasPrefix ("//" +:+ h) "//" = true) as -> by (by destruct h).
  cbn [negb andb orb String.eqb]. change (str_drop 2 ("//" +:+ h)) with h. rewrite (split_none h) by done.
  destruct (parseAuthority h) as [host|]; cbn; [|done]. by intros [= <-].
Qed.

Lemma parse_with_scheme_path host tls u :
  parse_with_scheme host tls = Ok u -> UPath u = EmptyString \/ UPath u = "/".
Proof.
  unfold parse_with_scheme. destruct (url_Parse _) as [v|]; [|done].
  destruct (String.eqb_spec (UPath v) EmptyString), (String.eqb_spec (UPath v) "/"); cbn; intros [=]; subst; auto.
Qed.

(** The base URL of a client: the configured host, or the host behind a scheme
    when it is not an address by itself; then it has no path. *)
Lemma DefaultServerURL_path host path gv tls u p :
  DefaultServerURL host path gv tls = Ok (u, p) ->
  p = DefaultVersionedAPIPath path gv
  /\ (url_Parse host = Some u \/ UPath u = EmptyString \/ UPath u = "/").
Proof.
  unfold DefaultServerURL. destruct (String.eqb host EmptyString); [done|].
  pose proof (parse_with_scheme_path host tls) as Hs.
  destruct (url_Parse host) as [v|]; [destruct (_ || _)|]; try (destruct (parse_with_scheme host tls); [|done]);
    intros [= <- <-]; auto.
Qed.

Definition host_of (c : Config) : string :=
  if String.eqb (config_Host c) EmptyString then "localhost" else config_Host c.

Lemma defaultServerUrlFor_path c u p :
  defaultServerUrlFor c = Ok (u, p) ->
  (forall gv, config_GroupVersion c = Some gv -> p = DefaultVersionedAPIPath (APIPath c) gv)
  /\ (url_Parse (host_of c) = Some u \/ UPath u = EmptyString \/ UPath u = "/").
Proof.
  unfold defaultServerUrlFor, host_of. destruct (config_GroupVersion c) as [gv|];
    intros [-> Hu]%DefaultServerURL_path; (split; [|exact Hu]); intros ? [=]; by subst.
Qed.

Section ClientLemmas.
Context `{ClientLibrary}.

(** The limiter of a new client, and the limiters there are then. *)
Definition throttle (maxQPS : spec_float) (maxBurst : Z) (rateLimiter : option nat) (ls : limiters)
    : option nat * limiters :=
  match rateLimiter with
  | Some l => (Some l, ls)
  | None => if positive maxQPS then (Some (List.length ls), ls ++ [(maxQPS, maxBurst)]) else (None, ls)
  end.

Lemma NewRESTClient_ok u p ct s qps burst rl t ls c ls' :
  NewRESTClient u p ct s qps burst rl t ls = (Ok c, ls') ->
  base_Path c = (if HasSuffix (UPath u) "/" then UPath u else UPath u +:+ "/")
  /\ versionedAPIPath c = p /\ (Throttle c, ls') = throttle qps burst rl ls.
Proof.
  unfold NewRESTClient, throttle, NewTokenBucketRateLimiter. destruct (createSerializers _ _); [done|].
  destruct rl as [l|]; [|destruct (positive qps)]; by intros [= <- <-].
Qed.

Definition default_qps (q : spec_float) : spec_float := if SFeqb q float_zero then DefaultQPS else q.
Definition default_burst (b : Z) : Z := if (b =? 0)%Z then DefaultBurst else b.

Lemma RESTClientFor_ok config ls c ls' :
  RESTClientFor config ls = (Ok c, ls') ->
  exists u gv, config_GroupVersion config = Some gv
    /\ (url_Parse (host_of config) = Some u \/ UPath u = EmptyString \/ UPath u = "/")
    /\ base_Path c = (if HasSuffix (UPath u) "/" then UPath u else UPath u +:+ "/")
    /\ versionedAPIPath c = DefaultVersionedAPIPath (APIPath config) gv
    /\ (Throttle c, ls') = throttle (default_qps (QPS config)) (default_burst (Burst config)) (RateLimiter config) ls.
Proof.
  unfold RESTClientFor. destruct (config_GroupVersion config) as [gv|] eqn:Eg; [|done].
  destruct (NegotiatedSerializer config) as [s|]; [|done].
  destruct (defaultServerUrlFor config) as [[u p]|] eqn:Eu; [|done].
  destruct (TransportFor config) as [t|]; [|done]. apply defaultServerUrlFor_path in Eu as [Hp Hu].
  intros (Hb & Hv & Ht)%NewRESTClient_ok. exists u, gv. rewrite Hv, (Hp _ Eg). by split_and!.
Qed.

Lemma UnversionedRESTClientFor_ok config ls c ls' :
  UnversionedRESTClientFor config ls = (Ok c, ls') ->
  (Throttle c, ls') = throttle (QPS config) (Burst config) (RateLimiter config) ls.
Proof.
  unfold UnversionedRESTClientFor. destruct (NegotiatedSerializer config) as [s|]; [|done].
  destruct (defaultServerUrlFor config) as [[u p]|]; [|done]. destruct (TransportFor config) as [t|]; [|done].
  by intros (_ & _ & ?)%NewRESTClient_ok.
Qed.

End ClientLemmas.
