(* ===== verification/TypedClients.v ===== *)
(** * The typed clients ([pkg/client/clientset/versioned/typed/sink/v1alpha1])

    The generated clients of the four kinds.  They are one text with the kind
    and the name of its resource as the only difference: the [Section] has the
    text, over the class [ClientKind], and the definitions after it are the
    functions of the four files.  A method gives the new state of the world
    and what the Go method returns; its result is never nil, and is the zero
    object unless the server answered with one. *)

From stdpp Require Import base gmap strings list.
From Stdlib Require Import Ascii ZArith Lia.
From S2P Require Import Prelude GoStd GoPath GoUrl Types Cache Listers RestRequest RestConfig.

(** ** The kinds as the clients use them *)

Class ClientKind (T : Type) `{SinkKind T} := {
  zero_obj : T;
  of_list : ListOf T -> obj;
  as_list : obj -> option (ListOf T);
  as_of_list : forall o l, as_list o = Some l <-> o = of_list l;
}.

Definition TypeMeta_zero : TypeMeta := {| Kind := EmptyString; APIVersion := EmptyString |}.
Definition ListMeta_zero : ListMeta :=
  {| lm_SelfLink := EmptyString; lm_ResourceVersion := EmptyString; lm_Continue := EmptyString |}.
Definition SinkSpec_zero : SinkSpec :=
  {| SinkType := EmptyString; spec_syslog := {| Host := EmptyString; Port := 0; EnableTLS := false |};
     spec_webhook := {| URL := EmptyString |}; InsecureSkipVerify := false |}.
Definition MetricSinkSpec_zero : MetricSinkSpec := {| Inputs := None; Outputs := None |}.
Definition SinkStatus_zero : SinkStatus :=
  {| ss_State := EmptyString; LastSuccessfulSend := 0; LastError := None; LastErrorTime := None |}.
Definition list_zero {T} : ListOf T := {| lst_TypeMeta := TypeMeta_zero; lst_ListMeta := ListMeta_zero; Items := None |}.

#[export, refine] Instance LogSink_client : ClientKind LogSink :=
  {| zero_obj := {| ls_TypeMeta := TypeMeta_zero; ls_ObjectMeta := ObjectMeta_zero; ls_Spec := SinkSpec_zero |};
     of_list := ALogSinkList; as_list := fun o => match o with ALogSinkList l => Some l | _ => None end |}.
Proof. intros o l'; destruct o; split; intros E; try discriminate E; by injection E as ->. Defined.

#[export, refine] Instance ClusterLogSink_client : ClientKind ClusterLogSink :=
  {| zero_obj := {| cls_TypeMeta := TypeMeta_zero; cls_ObjectMeta := ObjectMeta_zero; cls_Spec := SinkSpec_zero |};
     of_list := AClusterLogSinkList; as_list := fun o => match o with AClusterLogSinkList l => Some l | _ => None end |}.
Proof. intros o l'; destruct o; split; intros E; try discriminate E; by injection E as ->. Defined.

#[export, refine] Instance MetricSink_client : ClientKind MetricSink :=
  {| zero_obj := {| ms_TypeMeta := TypeMeta_zero; ms_ObjectMeta := ObjectMeta_zero;
                    ms_Spec := MetricSinkSpec_zero; ms_Status := SinkStatus_zero |};
     of_list := AMetricSinkList; as_list := fun o => match o with AMetricSinkList l => Some l | _ => None end |}.
Proof. intros o l'; destruct o; split; intros E; try discriminate E; by injection E as ->. Defined.

#[export, refine] Instance ClusterMetricSink_client : ClientKind ClusterMetricSink :=
  {| zero_obj := {| cms_TypeMeta := TypeMeta_zero; cms_ObjectMeta := ObjectMeta_zero;
                    cms_Spec := MetricSinkSpec_zero; cms_Status := SinkStatus_zero |};
     of_list := AClusterMetricSinkList;
     as_list := fun o => match o with AClusterMetricSinkList l => Some l | _ => None end |}.
Proof. intros o l'; destruct o; split; intros E; try discriminate E; by injection E as ->. Defined.

(** ** The group's client ([sink_client.go]) *)

Record ObservabilityV1alpha1Client : Type := MkGroupClient { restClient : RESTClient }.

(** The client of one kind in one namespace. *)
Record kindClient : Type := MkKindClient { client : RESTClient; ns : string }.

Definition newLogSinks (c : ObservabilityV1alpha1Client) (namespace : string) : kindClient :=
  {| client := restClient c; ns := namespace |}.
Definition newClusterLogSinks (c : ObservabilityV1alpha1Client) (namespace : string) : kindClient :=
  {| client := restClient c; ns := namespace |}.
Definition newMetricSinks (c : ObservabilityV1alpha1Client) (namespace : string) : kindClient :=
  {| client := restClient c; ns := namespace |}.
Definition newClusterMetricSinks (c : ObservabilityV1alpha1Client) (namespace : string) : kindClient :=
  {| client := restClient c; ns := namespace |}.

Definition client_LogSinks : ObservabilityV1alpha1Client -> string -> kindClient := newLogSinks.
Definition client_ClusterLogSinks : ObservabilityV1alpha1Client -> string -> kindClient := newClusterLogSinks.
Definition client_MetricSinks : ObservabilityV1alpha1Client -> string -> kindClient := newMetricSinks.
Definition client_ClusterMetricSinks : ObservabilityV1alpha1Client -> string -> kindClient := newClusterMetricSinks.

Definition SchemeGroupVersion : GroupVersion := {| gv_Group := GroupName; gv_Version := "v1alpha1" |}.

Section Construction.
Context `{ClientLibrary}.

Definition setConfigDefaults (config : Config) : Config :=
  with_api "/apis" (Some SchemeGroupVersion) DirectCodecFactory
    (if String.eqb (UserAgent config) EmptyString then DefaultKubernetesUserAgent else UserAgent config)
    (config_Timeout config) config.

Definition NewForConfig (c : Config) (ls : limiters) : res config_error ObservabilityV1alpha1Client * limiters :=
  let '(client, ls) := RESTClientFor (setConfigDefaults c) ls in
  (match client with
   | Err e => Err e
   | Ok client => Ok {| restClient := client |}
   end, ls).

(** A panic has no result. *)
Definition NewForConfigOrDie (c : Config) (ls : limiters) : option ObservabilityV1alpha1Client * limiters :=
  let '(client, ls) := NewForConfig c ls in
  (match client with Ok client => Some client | Err _ => None end, ls).

End Construction.

Definition New (c : RESTClient) : ObservabilityV1alpha1Client := {| restClient := c |}.

(** ** The text of a client *)

(** [time.Duration(s) * time.Second], in nanoseconds of an int64. *)
Definition seconds (s : Z) : Z := int64 (s * 1000000000).

Definition list_timeout (opts : ListOptions) : Z :=
  match TimeoutSeconds opts with Some s => seconds s | None => 0%Z end.

Section Clients.
Context `{Codec} {W : Type} `{Transport W}.

Section Kind.
Context (T : Type) `{CK : ClientKind T} (res_name : string).

Definition kind_Get (c : kindClient) (name : string) (options : GetOptions) (w : W) : W * (T * option request_error) :=
  let '(w, a) :=
    Do (Request_VersionedParams (ParamGet options)
       (Request_Name name
       (Request_Resource res_name
       (Request_Namespace (ns c)
       (RESTClient_Get (client c)))))) w in
  (w, Into as_kind zero_obj a).

Definition kind_List (c : kindClient) (opts : ListOptions) (w : W) : W * (ListOf T * option request_error) :=
  let timeout := list_timeout opts in
  let '(w, a) :=
    Do (Request_Timeout timeout
       (Request_VersionedParams (ParamList opts)
       (Request_Resource res_name
       (Request_Namespace (ns c)
       (RESTClient_Get (client c)))))) w in
  (w, Into as_list list_zero a).

Definition kind_Watch (c : kindClient) (opts : ListOptions) (w : W) : W * res request_error nat :=
  let timeout := list_timeout opts in
  let opts := set_watch opts in
  Watch (Request_Timeout timeout
        (Request_VersionedParams (ParamList opts)
        (Request_Resource res_name
        (Request_Namespace (ns c)
        (RESTClient_Get (client c)))))) w.

Definition kind_Create (c : kindClient) (x : T) (w : W) : W * (T * option request_error) :=
  let '(w, a) :=
    Do (Request_Body (Some (BodyObj (of_kind x)))
       (Request_Resource res_name
       (Request_Namespace (ns c)
       (RESTClient_Post (client c))))) w in
  (w, Into as_kind zero_obj a).

Definition kind_Update (c : kindClient) (x : T) (w : W) : W * (T * option request_error) :=
  let '(w, a) :=
    Do (Request_Body (Some (BodyObj (of_kind x)))
       (Request_Name (Name (kind_meta x))
       (Request_Resource res_name
       (Request_Namespace (ns c)
       (RESTClient_Put (client c)))))) w in
  (w, Into as_kind zero_obj a).

(** Of the kinds that have a status. *)
Definition kind_UpdateStatus (c : kindClient) (x : T) (w : W) : W * (T * option request_error) :=
  let '(w, a) :=
    Do (Request_Body (Some (BodyObj (of_kind x)))
       (Request_SubResource ["status"]
       (Request_Name (Name (kind_meta x))
       (Request_Resource res_name
       (Request_Namespace (ns c)
       (RESTClient_Put (client c))))))) w in
  (w, Into as_kind zero_obj a).

Definition kind_Delete (c : kindClient) (name : string) (options : option DeleteOptions) (w : W)
    : W * option request_error :=
  let '(w, a) :=
    Do (Request_Body (option_map BodyDelete options)
       (Request_Name name
       (Request_Resource res_name
       (Request_Namespace (ns c)
       (RESTClient_Delete (client c)))))) w in
  (w, Result_Error a).

Definition kind_DeleteCollection (c : kindClient) (options : option DeleteOptions) (listOptions : ListOptions)
    (w : W) : W * option request_error :=
  let timeout := list_timeout listOptions in
  let '(w, a) :=
    Do (Request_Body (option_map BodyDelete options)
       (Request_Timeout timeout
       (Request_VersionedParams (ParamList listOptions)
       (Request_Resource res_name
       (Request_Namespace (ns c)
       (RESTClient_Delete (client c))))))) w in
  (w, Result_Error a).

Definition kind_Patch (c : kindClient) (name pt data : string) (subresources : list string) (w : W)
    : W * (T * option request_error) :=
  let '(w, a) :=
    Do (Request_BodyBytes data
       (Request_Name name
       (Request_SubResource subresources
       (Request_Resource res_name
       (Request_Namespace (ns c)
       (RESTClient_Patch pt (client c))))))) w in
  (w, Into as_kind zero_obj a).

End Kind.

(** ** The four files *)

Definition logSinks_Get := kind_Get LogSink "logsinks".
Definition logSinks_List := kind_List LogSink "logsinks".
Definition logSinks_Watch := kind_Watch "logsinks".
Definition logSinks_Create := kind_Create LogSink "logsinks".
Definition logSinks_Update := kind_Update LogSink "logsinks".
Definition logSinks_Delete := kind_Delete "logsinks".
Definition logSinks_DeleteCollection := kind_DeleteCollection "logsinks".
Definition logSinks_Patch := kind_Patch LogSink "logsinks".

Definition clusterLogSinks_Get := kind_Get ClusterLogSink "clusterlogsinks".
Definition clusterLogSinks_List := kind_List ClusterLogSink "clusterlogsinks".
Definition clusterLogSinks_Watch := kind_Watch "clusterlogsinks".
Definition clusterLogSinks_Create := kind_Create ClusterLogSink "clusterlogsinks".
Definition clusterLogSinks_Update := kind_Update ClusterLogSink "clusterlogsinks".
Definition clusterLogSinks_Delete := kind_Delete "clusterlogsinks".
Definition clusterLogSinks_DeleteCollection := kind_DeleteCollection "clusterlogsinks".
Definition clusterLogSinks_Patch := kind_Patch ClusterLogSink "clusterlogsinks".

Definition metricSinks_Get := kind_Get MetricSink "metricsinks".
Definition metricSinks_List := kind_List MetricSink "metricsinks".
Definition metricSinks_Watch := kind_Watch "metricsinks".
Definition metricSinks_Create := kind_Create MetricSink "metricsinks".
Definition metricSinks_Update := kind_Update MetricSink "metricsinks".
Definition metricSinks_UpdateStatus := kind_UpdateStatus MetricSink "metricsinks".
Definition metricSinks_Delete := kind_Delete "metricsinks".
Definition metricSinks_DeleteCollection := kind_DeleteCollection "metricsinks".
Definition metricSinks_Patch := kind_Patch MetricSink "metricsinks".

Definition clusterMetricSinks_Get := kind_Get ClusterMetricSink "clustermetricsinks".
Definition clusterMetricSinks_List := kind_List ClusterMetricSink "clustermetricsinks".
Definition clusterMetricSinks_Watch := kind_Watch "clustermetricsinks".
Definition clusterMetricSinks_Create := kind_Create ClusterMetricSink "clustermetricsinks".
Definition clusterMetricSinks_Update := kind_Update ClusterMetricSink "clustermetricsinks".
Definition clusterMetricSinks_UpdateStatus := kind_UpdateStatus ClusterMetricSink "clustermetricsinks".
Definition clusterMetricSinks_Delete := kind_Delete "clustermetricsinks".
Definition clusterMetricSinks_DeleteCollection := kind_DeleteCollection "clustermetricsinks".
Definition clusterMetricSinks_Patch := kind_Patch ClusterMetricSink "clustermetricsinks".

End Clients.

(** ** The interfaces of the clients

    [LogSinkInterface] and its like, which the typed clients and their fakes
    implement.  A nil result is [None]; [E] are the errors.  The interfaces of
    the log sinks have no [UpdateStatus].  The watch that [Watch] opens is a
    number, as the transport gives it. *)
Record SinkInterface (W E T : Type) : Type := MkSinkInterface {
  i_Create : T -> W -> W * (option T * option E);
  i_Update : T -> W -> W * (option T * option E);
  i_UpdateStatus : option (T -> W -> W * (option T * option E));
  i_Delete : string -> option DeleteOptions -> W -> W * option E;
  i_DeleteCollection : option DeleteOptions -> ListOptions -> W -> W * option E;
  i_Get : string -> GetOptions -> W -> W * (option T * option E);
  i_List : ListOptions -> W -> W * (option (ListOf T) * option E);
  i_Watch : ListOptions -> W -> W * (option nat * option E);
  i_Patch : string -> string -> string -> list string -> W -> W * (option T * option E);
}.
Arguments MkSinkInterface {W E T}.
Arguments i_Create {W E T}.
Arguments i_Update {W E T}.
Arguments i_UpdateStatus {W E T}.
Arguments i_Delete {W E T}.
Arguments i_DeleteCollection {W E T}.
Arguments i_Get {W E T}.
Arguments i_List {W E T}.
Arguments i_Watch {W E T}.
Arguments i_Patch {W E T}.

Definition not_nil {W A E} (r : W * (A * option E)) : W * (option A * option E) :=
  let '(w, (x, e)) := r in (w, (Some x, e)).

Definition watch_or_nil {W E} (r : W * res E nat) : W * (option nat * option E) :=
  let '(w, a) := r in (w, match a with Ok watch => (Some watch, None) | Err e => (None, Some e) end).

Section Interfaces.
Context `{Codec} {W : Type} `{Transport W}.

Definition LogSinkInterface (c : kindClient) : SinkInterface W request_error LogSink :=
  {| i_Create := fun x w => not_nil (logSinks_Create c x w);
     i_Update := fun x w => not_nil (logSinks_Update c x w);
     i_UpdateStatus := None;
     i_Delete := logSinks_Delete c;
     i_DeleteCollection := logSinks_DeleteCollection c;
     i_Get := fun name o w => not_nil (logSinks_Get c name o w);
     i_List := fun o w => not_nil (logSinks_List c o w);
     i_Watch := fun o w => watch_or_nil (logSinks_Watch c o w);
     i_Patch := fun name pt data subs w => not_nil (logSinks_Patch c name pt data subs w) |}.

Definition ClusterLogSinkInterface (c : kindClient) : SinkInterface W request_error ClusterLogSink :=
  {| i_Create := fun x w => not_nil (clusterLogSinks_Create c x w);
     i_Update := fun x w => not_nil (clusterLogSinks_Update c x w);
     i_UpdateStatus := None;
     i_Delete := clusterLogSinks_Delete c;
     i_DeleteCollection := clusterLogSinks_DeleteCollection c;
     i_Get := fun name o w => not_nil (clusterLogSinks_Get c name o w);
     i_List := fun o w => not_nil (clusterLogSinks_List c o w);
     i_Watch := fun o w => watch_or_nil (clusterLogSinks_Watch c o w);
     i_Patch := fun name pt data subs w => not_nil (clusterLogSinks_Patch c name pt data subs w) |}.

Definition MetricSinkInterface (c : kindClient) : SinkInterface W request_error MetricSink :=
  {| i_Create := fun x w => not_nil (metricSinks_Create c x w);
     i_Update := fun x w => not_nil (metricSinks_Update c x w);
     i_UpdateStatus := Some (fun x w => not_nil (metricSinks_UpdateStatus c x w));
     i_Delete := metricSinks_Delete c;
     i_DeleteCollection := metricSinks_DeleteCollection c;
     i_Get := fun name o w => not_nil (metricSinks_Get c name o w);
     i_List := fun o w => not_nil (metricSinks_List c o w);
     i_Watch := fun o w => watch_or_nil (metricSinks_Watch c o w);
     i_Patch := fun name pt data subs w => not_nil (metricSinks_Patch c name pt data subs w) |}.

Definition ClusterMetricSinkInterface (c : kindClient) : SinkInterface W request_error ClusterMetricSink :=
  {| i_Create := fun x w => not_nil (clusterMetricSinks_Create c x w);
     i_Update := fun x w => not_nil (clusterMetricSinks_Update c x w);
     i_UpdateStatus := Some (fun x w => not_nil (clusterMetricSinks_UpdateStatus c x w));
     i_Delete := clusterMetricSinks_Delete c;
     i_DeleteCollection := clusterMetricSinks_DeleteCollection c;
     i_Get := fun name o w => not_nil (clusterMetricSinks_Get c name o w);
     i_List := fun o w => not_nil (clusterMetricSinks_List c o w);
     i_Watch := fun o w => watch_or_nil (clusterMetricSinks_Watch c o w);
     i_Patch := fun name pt data subs w => not_nil (clusterMetricSinks_Patch c name pt data subs w) |}.

(** ** Paths *)

(** A client of the group at the root of its server, as [NewForConfig] and
    [NewRESTClient] make it. *)
Definition at_root (c : RESTClient) : Prop :=
  base_Path c = "/" /\ versionedAPIPath c = DefaultVersionedAPIPath "/apis" SchemeGroupVersion.

Definition group_segs : list string := ["apis"; GroupName; "v1alpha1"].

Definition scope_segs (ns : string) : list string :=
  if String.eqb ns EmptyString then [] else ["namespaces"; ns].

Definition collection_path (res_name ns : string) : string := abs_path (group_segs ++ scope_segs ns ++ [res_name]).
Definition object_path (res_name ns name : string) : string :=
  abs_path (group_segs ++ scope_segs ns ++ [res_name; name]).

(** The path of a subresource of an object; empty names count for nothing. *)
Definition subresource_path (res_name ns name : string) (subs : list string) : string :=
  abs_path (group_segs ++ scope_segs ns ++ [res_name; name] ++ filled subs).

(** A name that can be part of a path. *)
Definition segment (s : string) : Prop := IsValidPathSegmentName s = [].

#[export] Instance segment_dec s : Decision (segment s) := decide (IsValidPathSegmentName s = []).

Lemma has_char_free c s : has_char c s = negb (str_forall (not_char c) s).
Proof.
  induction s as [|d s IH]; cbn; [done|]. rewrite IH. unfold not_char at 2.
  by destruct (Ascii.eqb d c).
Qed.

Lemma segment_plain s : segment s -> s <> EmptyString -> plain s = true.
Proof.
  unfold segment, IsValidPathSegmentName, plain. intros Hs Hne.
  destruct (String.eqb s ".") eqn:E1; [done|]. destruct (String.eqb s "..") eqn:E2; [done|].
  apply String.eqb_neq in Hne. rewrite Hne. rewrite has_char_free in Hs.
  by destruct (str_forall (not_char "/") s).
Qed.

Lemma plain_segment s : plain s = true -> str_forall (not_char "%") s = true -> segment s.
Proof.
  unfold segment, IsValidPathSegmentName, plain. intros Hp Hq. boolify.
  repeat match goal with Hx : String.eqb s _ = false |- _ => rewrite Hx; clear Hx end.
  rewrite !has_char_free, Hq. by match goal with Hx : str_forall _ s = true |- _ => rewrite Hx end.
Qed.

Lemma group_plain : Forall (fun s => plain s = true) group_segs.
Proof. repeat constructor. Qed.

Lemma pathPrefix_root v c : at_root c -> pathPrefix (Verb v c) = abs_path group_segs.
Proof. intros [Hb Hv]. unfold Verb. cbn [pathPrefix]. rewrite Hb, Hv. reflexivity. Qed.

(** A request for a collection in a namespace, before anything is added. *)
Definition scoped (v ns res_name : string) (hs : Values) (c : RESTClient) : Request :=
  {| verb := v; pathPrefix := abs_path group_segs; params := ∅; headers := hs;
     namespace := ns; namespaceSet := true; resource := res_name; resourceName := EmptyString;
     subresource := EmptyString; timeout := client_Timeout c; err := None; body := None;
     r_content_type := content_type c |}.

Definition accept (c : RESTClient) : Values := {[ "Accept" := [content_type c +:+ ", */*"] ]}.

Lemma scoped_eq v c ns res_name :
  at_root c -> segment ns -> segment res_name ->
  Request_Resource res_name (Request_Namespace ns (Verb v c)) = scoped v ns res_name (accept c) c.
Proof.
  intros Hc Hn Hr. pose proof (pathPrefix_root v c Hc) as Hp. unfold segment in *.
  unfold Request_Namespace, unless_err. cbn [err Verb namespaceSet]. rewrite Hn.
  unfold Request_Resource, unless_err. cbn [err resource String.eqb negb]. rewrite Hr.
  unfold scoped. by rewrite <- Hp.
Qed.

Lemma scoped_patch_eq pt c ns res_name :
  at_root c -> segment ns -> segment res_name ->
  Request_Resource res_name (Request_Namespace ns (RESTClient_Patch pt c))
  = scoped "PATCH" ns res_name (<["Content-Type" := [pt]]> (accept c)) c.
Proof.
  intros Hc Hn Hr. pose proof (pathPrefix_root "PATCH" c Hc) as Hp. unfold segment in *.
  unfold RESTClient_Patch, SetHeader. unfold Request_Namespace, unless_err. cbn [err Verb namespaceSet]. rewrite Hn.
  unfold Request_Resource, unless_err. cbn [err resource String.eqb negb]. rewrite Hr.
  unfold scoped. by rewrite <- Hp.
Qed.

(** A namespace that cannot be part of a path is an error whatever follows. *)
Lemma namespace_err ns r :
  err r = None -> namespaceSet r = false -> ~ segment ns -> exists e, err (Request_Namespace ns r) = Some e.
Proof.
  intros He Hs Hn. unfold Request_Namespace, unless_err. rewrite He, Hs.
  destruct (IsValidPathSegmentName ns) as [|m ms] eqn:E; [done|]. by eexists.
Qed.

Lemma unless_err_err f r e : err r = Some e -> unless_err f r = r.
Proof. intros E. unfold unless_err. by rewrite E. Qed.

(** A resource in lower case, as the generators name them. *)
Definition resource_name (s : string) : bool := plain s && String.eqb (ToLower s) s.

Lemma resource_name_plain s : resource_name s = true -> plain s = true.
Proof. by intros [? _]%andb_prop. Qed.

Lemma resource_name_lower s : resource_name s = true -> ToLower s = s.
Proof. by intros [_ ?%String.eqb_eq]%andb_prop. Qed.

Lemma scope_plain ns0 :
  segment ns0 -> Forall (fun s => plain s = true) (group_segs ++ scope_segs ns0) /\ group_segs ++ scope_segs ns0 <> [].
Proof.
  intros Hn. split; [|done]. apply Forall_app; split; [apply group_plain|]. unfold scope_segs.
  destruct (String.eqb ns0 EmptyString) eqn:E; [constructor|]. apply String.eqb_neq in E.
  repeat constructor. by apply segment_plain.
Qed.

Lemma collection_plain res_name ns0 :
  plain res_name = true -> segment ns0 -> Forall (fun s => plain s = true) (group_segs ++ scope_segs ns0 ++ [res_name]).
Proof.
  intros Hr Hn. rewrite app_assoc. apply Forall_app_2; [by apply scope_plain|by repeat constructor].
Qed.

(** The path of a request for a collection, or for something in it. *)
Lemma URL_path_base r ns0 res_name :
  pathPrefix r = abs_path group_segs -> namespaceSet r = true -> namespace r = ns0 -> resource r = res_name ->
  segment ns0 -> resource_name res_name = true ->
  URL_path r = if negb (String.eqb (resourceName r) EmptyString) || negb (String.eqb (subresource r) EmptyString)
               then path_Join [collection_path res_name ns0; resourceName r; subresource r; EmptyString]
               else collection_path res_name ns0.
Proof.
  intros Hp Hs <- <- Hn Hlow. unfold URL_path. rewrite Hp, Hs, resource_name_lower by done.
  pose proof (resource_name_plain _ Hlow) as Hr. cbn [andb].
  assert ((if negb (String.eqb (namespace r) EmptyString)
           then path_Join [abs_path group_segs; "namespaces"; namespace r] else abs_path group_segs)
          = abs_path (group_segs ++ scope_segs (namespace r))) as ->.
  { unfold scope_segs. destruct (String.eqb (namespace r) EmptyString) eqn:E; cbn [negb]; [done|].
    apply String.eqb_neq in E. apply path_Join_abs; try done; [apply group_plain|].
    repeat constructor. by apply segment_plain. }
  assert (String.eqb (resource r) EmptyString = false) as ->.
  { unfold plain in Hr. by boolify. }
  destruct (scope_plain (namespace r) Hn). cbn [negb].
  by rewrite path_Join_abs, <- app_assoc by (done || by constructor).
Qed.

Lemma URL_path_collection r ns0 res_name :
  pathPrefix r = abs_path group_segs -> namespaceSet r = true -> namespace r = ns0 -> resource r = res_name ->
  resourceName r = EmptyString -> subresource r = EmptyString -> segment ns0 -> resource_name res_name = true ->
  URL_path r = collection_path res_name ns0.
Proof. intros Hp Hs Hn Hr H1 H2 Hseg Hlow. by rewrite (URL_path_base _ ns0 res_name), H1, H2 by done. Qed.

Lemma segments_or_empty subs : Forall segment subs -> Forall (fun s => plain s = true \/ s = EmptyString) subs.
Proof.
  intros Hs. eapply Forall_impl; [exact Hs|]. intros s Hseg. cbn.
  destruct (decide (s = EmptyString)); [by right|left; by apply segment_plain].
Qed.

Lemma URL_path_object r ns0 res_name name subs :
  pathPrefix r = abs_path group_segs -> namespaceSet r = true -> namespace r = ns0 -> resource r = res_name ->
  resourceName r = name -> subresource r = path_Join subs -> segment ns0 -> resource_name res_name = true ->
  segment name -> name <> EmptyString -> Forall segment subs ->
  URL_path r = subresource_path res_name ns0 name subs.
Proof.
  intros Hp Hs Hn Hr H1 H2 Hseg Hlow Hname Hne Hsubs%segments_or_empty.
  rewrite (URL_path_base _ ns0 res_name), H1, H2 by done.
  destruct (String.eqb name EmptyString) eqn:E; [by apply String.eqb_eq in E|]. cbn [negb orb].
  unfold collection_path, subresource_path.
  rewrite path_Join_under by
    (done || by apply segment_plain || by apply collection_plain; [by apply resource_name_plain|]).
  by rewrite <- !app_assoc.
Qed.

(** ** What each method sends *)

(** Send a request and make the result of the answer. *)
Definition sends {A} (rq : http_request) (k : res request_error answer -> A) (w : W) : W * A :=
  let '(w, a) := RoundTrip rq w in (w, k (match a with Ok a => Ok a | Err e => Err (ServerError e) end)).

Definition json_headers (c : RESTClient) : Values := <["Content-Type" := [content_type c]]> (accept c).

Definition result_of {T} `{ClientKind T} (a : res request_error answer) : option T * option request_error :=
  let '(x, e) := Into as_kind zero_obj a in (Some x, e).
Definition list_of {T} `{ClientKind T} (a : res request_error answer) : option (ListOf T) * option request_error :=
  let '(x, e) := Into as_list list_zero a in (Some x, e).

(** The body and the headers of a deletion. *)
Definition delete_body (options : option DeleteOptions) : res string (option string) :=
  match options with
  | None => Ok None
  | Some o => match Encode (BodyDelete o) with Ok data => Ok (Some data) | Err e => Err e end
  end.

Definition body_headers (c : RESTClient) (data : option string) : Values :=
  match data with None => accept c | Some _ => json_headers c end.

(** What a watch is, or why there is none. *)
Definition watch_of (a : res string nat) : option nat * option request_error :=
  match a with Ok watch => (Some watch, None) | Err e => (None, Some (ServerError e)) end.

(** With a name, options and an object that can be encoded, each method is one
    request for the path of the object, of its subresource, or of the
    collection.  Only a patch, a list, a watch and the deletion of a collection
    are sent without a namespace. *)
Record makes_requests {T} `{ClientKind T} (res_name : string) (has_status : bool) (c : kindClient)
    (I : SinkInterface W request_error T) : Prop := {
  mr_get : forall name o vs w,
    ns c <> EmptyString -> segment name -> name <> EmptyString -> EncodeParameters (ParamGet o) = Ok vs ->
    i_Get I name o w =
    sends (MkHttpRequest "GET" (object_path res_name (ns c) name) vs (client_Timeout (client c))
             (accept (client c)) None) result_of w;
  mr_create : forall x data w, ns c <> EmptyString -> Encode (BodyObj (of_kind x)) = Ok data ->
    i_Create I x w =
    sends (MkHttpRequest "POST" (collection_path res_name (ns c)) ∅ (client_Timeout (client c))
             (json_headers (client c)) (Some data)) result_of w;
  mr_update : forall x data w,
    ns c <> EmptyString -> segment (Name (kind_meta x)) -> Name (kind_meta x) <> EmptyString ->
    Encode (BodyObj (of_kind x)) = Ok data ->
    i_Update I x w =
    sends (MkHttpRequest "PUT" (object_path res_name (ns c) (Name (kind_meta x))) ∅ (client_Timeout (client c))
             (json_headers (client c)) (Some data)) result_of w;
  mr_has_status : is_Some (i_UpdateStatus I) <-> has_status = true;
  mr_update_status : forall update x data w, i_UpdateStatus I = Some update ->
    ns c <> EmptyString -> segment (Name (kind_meta x)) -> Name (kind_meta x) <> EmptyString ->
    Encode (BodyObj (of_kind x)) = Ok data ->
    update x w =
    sends (MkHttpRequest "PUT" (subresource_path res_name (ns c) (Name (kind_meta x)) ["status"]) ∅
             (client_Timeout (client c)) (json_headers (client c)) (Some data)) result_of w;
  mr_delete : forall name o data w,
    ns c <> EmptyString -> segment name -> name <> EmptyString -> delete_body o = Ok data ->
    i_Delete I name o w =
    sends (MkHttpRequest "DELETE" (object_path res_name (ns c) name) ∅ (client_Timeout (client c))
             (body_headers (client c) data) data) Result_Error w;
  mr_list : forall o vs w, EncodeParameters (ParamList o) = Ok vs ->
    i_List I o w =
    sends (MkHttpRequest "GET" (collection_path res_name (ns c)) vs (list_timeout o) (accept (client c)) None)
      list_of w;
  mr_watch : forall o vs w, EncodeParameters (ParamList (set_watch o)) = Ok vs ->
    i_Watch I o w =
    let '(w, a) := OpenWatch (MkHttpRequest "GET" (collection_path res_name (ns c)) vs (list_timeout o)
                                (accept (client c)) None) w in (w, watch_of a);
  mr_delete_collection : forall o lo data vs w, delete_body o = Ok data -> EncodeParameters (ParamList lo) = Ok vs ->
    i_DeleteCollection I o lo w =
    sends (MkHttpRequest "DELETE" (collection_path res_name (ns c)) vs (list_timeout lo)
             (body_headers (client c) data) data) Result_Error w;
  mr_patch : forall name pt data subs w, segment name -> name <> EmptyString -> Forall segment subs ->
    i_Patch I name pt data subs w =
    sends (MkHttpRequest "PATCH" (subresource_path res_name (ns c) name subs) ∅ (client_Timeout (client c))
             (<["Content-Type" := [pt]]> (accept (client c))) (Some data)) result_of w;
}.

Lemma Do_sends {A} r rq (k : res request_error answer -> A) w :
  request_check r = None -> to_http r = rq ->
  (let '(w', a) := Do r w in (w', k a)) = sends rq k w.
Proof. intros Hc <-. unfold Do, sends. rewrite Hc. by destruct (RoundTrip _ _) as [w' []]. Qed.

Lemma not_nil_into {T} `{ClientKind T} (r : W * res request_error answer) :
  not_nil (let '(w, a) := r in (w, Into as_kind zero_obj a)) = (let '(w, a) := r in (w, result_of a)).
Proof. destruct r as [w a]. unfold not_nil, result_of. by destruct (Into as_kind zero_obj a). Qed.

Lemma not_nil_list {T} `{ClientKind T} (r : W * res request_error answer) :
  not_nil (let '(w, a) := r in (w, Into as_list list_zero a)) = (let '(w, a) := r in (w, list_of a)).
Proof. destruct r as [w a]. unfold not_nil, list_of. by destruct (Into as_list list_zero a). Qed.

(** The methods that add to a request without an error. *)
Lemma Name_ok name r :
  err r = None -> resourceName r = EmptyString -> segment name -> name <> EmptyString ->
  Request_Name name r =
  {| verb := verb r; pathPrefix := pathPrefix r; params := params r; headers := headers r;
     namespace := namespace r; namespaceSet := namespaceSet r; resource := resource r;
     resourceName := name; subresource := subresource r; timeout := timeout r;
     err := err r; body := body r; r_content_type := r_content_type r |}.
Proof.
  intros He Hr Hs Hne. unfold Request_Name, unless_err. rewrite He, Hr.
  apply String.eqb_neq in Hne. rewrite Hne. cbn [String.eqb negb]. unfold segment in Hs. by rewrite Hs.
Qed.

Lemma Params_ok o vs r :
  err r = None -> params r = ∅ -> EncodeParameters o = Ok vs ->
  Request_VersionedParams o r =
  {| verb := verb r; pathPrefix := pathPrefix r; params := vs; headers := headers r;
     namespace := namespace r; namespaceSet := namespaceSet r; resource := resource r;
     resourceName := resourceName r; subresource := subresource r; timeout := timeout r;
     err := err r; body := body r; r_content_type := r_content_type r |}.
Proof.
  intros He Hp Hv. unfold Request_VersionedParams, unless_err. rewrite He, Hp, Hv. by rewrite (left_id_L ∅ _).
Qed.

Lemma Body_ok o data r :
  err r = None -> Encode o = Ok data ->
  Request_Body (Some o) r =
  {| verb := verb r; pathPrefix := pathPrefix r; params := params r;
     headers := <["Content-Type" := [r_content_type r]]> (headers r);
     namespace := namespace r; namespaceSet := namespaceSet r; resource := resource r;
     resourceName := resourceName r; subresource := subresource r; timeout := timeout r;
     err := err r; body := Some data; r_content_type := r_content_type r |}.
Proof. intros He Hd. unfold Request_Body, unless_err. by rewrite He, Hd. Qed.

(** The body of a deletion. *)
Lemma Delete_ok o data r :
  err r = None -> body r = None -> delete_body o = Ok data ->
  Request_Body (option_map BodyDelete o) r =
  {| verb := verb r; pathPrefix := pathPrefix r; params := params r;
     headers := match data with None => headers r | Some _ => <["Content-Type" := [r_content_type r]]> (headers r) end;
     namespace := namespace r; namespaceSet := namespaceSet r; resource := resource r;
     resourceName := resourceName r; subresource := subresource r; timeout := timeout r;
     err := err r; body := data; r_content_type := r_content_type r |}.
Proof.
  intros He Hb Hd. destruct o as [o|]; cbn [delete_body option_map] in Hd |- *.
  - destruct (Encode (BodyDelete o)) as [d|e] eqn:E; [injection Hd as <-|done]. by apply Body_ok.
  - injection Hd as <-. unfold Request_Body, unless_err. rewrite He. destruct r. cbn in *. by subst.
Qed.

Lemma first_invalid_None subs : Forall segment subs <-> first_invalid subs = None.
Proof.
  split.
  - induction 1 as [|s subs Hs _ IH]; [done|]. cbn. unfold segment in Hs. by rewrite Hs.
  - induction subs as [|s subs IH]; [constructor|]. cbn. unfold segment.
    destruct (IsValidPathSegmentName s) eqn:E; [|done]. constructor; [done|by apply IH].
Qed.

Lemma SubResource_ok subs r :
  err r = None -> subresource r = EmptyString -> Forall segment subs ->
  Request_SubResource subs r =
  {| verb := verb r; pathPrefix := pathPrefix r; params := params r; headers := headers r;
     namespace := namespace r; namespaceSet := namespaceSet r; resource := resource r;
     resourceName := resourceName r; subresource := path_Join subs; timeout := timeout r;
     err := err r; body := body r; r_content_type := r_content_type r |}.
Proof.
  intros He Hs Hf%first_invalid_None. unfold Request_SubResource, unless_err. rewrite He, Hs.
  cbn [String.eqb negb]. by rewrite Hf.
Qed.

Lemma to_http_object r res_name name subs :
  pathPrefix r = abs_path group_segs -> namespaceSet r = true -> resource r = res_name -> resourceName r = name ->
  subresource r = path_Join subs -> segment (namespace r) -> resource_name res_name = true -> segment name ->
  name <> EmptyString -> Forall segment subs ->
  to_http r = MkHttpRequest (verb r) (subresource_path res_name (namespace r) name subs) (params r) (timeout r)
                (headers r) (body r).
Proof. intros. unfold to_http. by erewrite URL_path_object by eauto. Qed.

Lemma to_http_named r res_name name :
  pathPrefix r = abs_path group_segs -> namespaceSet r = true -> resource r = res_name -> resourceName r = name ->
  subresource r = EmptyString -> segment (namespace r) -> resource_name res_name = true -> segment name ->
  name <> EmptyString ->
  to_http r = MkHttpRequest (verb r) (object_path res_name (namespace r) name) (params r) (timeout r) (headers r) (body r).
Proof. intros. by apply (to_http_object r res_name name []). Qed.

Lemma to_http_collection r res_name :
  pathPrefix r = abs_path group_segs -> namespaceSet r = true -> resource r = res_name ->
  resourceName r = EmptyString -> subresource r = EmptyString -> segment (namespace r) -> resource_name res_name = true ->
  to_http r = MkHttpRequest (verb r) (collection_path res_name (namespace r)) (params r) (timeout r) (headers r) (body r).
Proof. intros. unfold to_http. by erewrite URL_path_collection by eauto. Qed.

(** What is sent: anything with a namespace, a request without a name that is
    no creation, and a patch. *)
Lemma request_check_ok r :
  err r = None ->
  namespace r <> EmptyString \/ (verb r <> "POST" /\ resourceName r = EmptyString) \/ verb r = "PATCH" ->
  request_check r = None.
Proof.
  intros He Hn. unfold request_check. rewrite He. destruct Hn as [Hn|[[Hv Hn]|Hv]].
  - apply String.eqb_neq in Hn. rewrite Hn. by rewrite !andb_false_r.
  - apply String.eqb_neq in Hv. rewrite Hv, Hn. cbn [String.eqb negb]. by rewrite !andb_false_r.
  - rewrite Hv. done.
Qed.

Section One.
Context {T : Type} `{CK : ClientKind T} (res_name : string) (has_status : bool) (c : kindClient).
Hypothesis Hroot : at_root (client c).
Hypothesis Hres : resource_name res_name = true.
Hypothesis Hseg : segment res_name.
Hypothesis Hns : segment (ns c).

(** The interface made of the text of a client. *)
Definition kind_interface : SinkInterface W request_error T :=
  {| i_Create := fun x w => not_nil (kind_Create T res_name c x w);
     i_Update := fun x w => not_nil (kind_Update T res_name c x w);
     i_UpdateStatus := if has_status then Some (fun x w => not_nil (kind_UpdateStatus T res_name c x w)) else None;
     i_Delete := kind_Delete res_name c;
     i_DeleteCollection := kind_DeleteCollection res_name c;
     i_Get := fun name o w => not_nil (kind_Get T res_name c name o w);
     i_List := fun o w => not_nil (kind_List T res_name c o w);
     i_Watch := fun o w => watch_or_nil (kind_Watch res_name c o w);
     i_Patch := fun name pt data subs w => not_nil (kind_Patch T res_name c name pt data subs w) |}.

(** A watch is the list of the collection with [watch] set. *)
Lemma kind_Watch_sends o vs w :
  EncodeParameters (ParamList (set_watch o)) = Ok vs ->
  kind_Watch res_name c o w =
  let '(w, a) := OpenWatch (MkHttpRequest "GET" (collection_path res_name (ns c)) vs (list_timeout o)
                              (accept (client c)) None) w in
  (w, match a with Ok a => Ok a | Err e => Err (ServerError e) end).
Proof.
  intros Hv. unfold kind_Watch, RESTClient_Get. rewrite scoped_eq, (Params_ok _ vs) by done.
  unfold Watch. cbn [err unless_err Request_Timeout scoped]. by erewrite to_http_collection by done.
Qed.

Lemma kind_reads : 
  (forall name o vs w, ns c <> EmptyString -> segment name -> name <> EmptyString ->
     EncodeParameters (ParamGet o) = Ok vs ->
     not_nil (kind_Get T res_name c name o w) =
     sends (MkHttpRequest "GET" (object_path res_name (ns c) name) vs (client_Timeout (client c))
              (accept (client c)) None) result_of w)
  /\ (forall o vs w, EncodeParameters (ParamList o) = Ok vs ->
     not_nil (kind_List T res_name c o w) =
     sends (MkHttpRequest "GET" (collection_path res_name (ns c)) vs (list_timeout o) (accept (client c)) None)
       list_of w).
Proof.
  split.
  - intros name o vs w Hne Hs Hn Hv. unfold kind_Get. rewrite not_nil_into. unfold RESTClient_Get.
    rewrite scoped_eq, (Name_ok name), (Params_ok _ vs) by done.
    apply Do_sends; [apply request_check_ok; [done|by left]|by apply to_http_named].
  - intros o vs w Hv. unfold kind_List. rewrite not_nil_list. unfold RESTClient_Get.
    rewrite scoped_eq, (Params_ok _ vs) by done.
    apply Do_sends; [apply request_check_ok; [done|by right; left]|by apply to_http_collection].
Qed.

Lemma kind_requests : makes_requests res_name has_status c kind_interface.
Proof.
  destruct kind_reads as [Hget Hlist].
  split; cbn [i_Get i_Create i_Update i_UpdateStatus i_Delete i_List i_Watch i_DeleteCollection i_Patch kind_interface];
    [exact Hget| | | | | |exact Hlist| | |].
  - intros x data w Hne Hd. unfold kind_Create. rewrite not_nil_into. unfold RESTClient_Post.
    rewrite scoped_eq, (Body_ok _ data) by done.
    apply Do_sends; [apply request_check_ok; [done|by left]|by apply to_http_collection].
  - intros x data w Hne Hs Hn Hd. unfold kind_Update. rewrite not_nil_into. unfold RESTClient_Put.
    rewrite scoped_eq, (Name_ok _), (Body_ok _ data) by done.
    apply Do_sends; [apply request_check_ok; [done|by left]|by apply to_http_named].
  - destruct has_status; (split; [intros [? Hu]|intros Hu]); done || by eexists.
  - intros update x data w Hu Hne Hs Hn Hd. destruct has_status; [injection Hu as <-|done].
    unfold kind_UpdateStatus. rewrite not_nil_into. unfold RESTClient_Put.
    rewrite scoped_eq, (Name_ok _), SubResource_ok, (Body_ok _ data) by (done || by repeat constructor).
    apply Do_sends; [apply request_check_ok; [done|by left]|].
    rewrite (to_http_object _ res_name (Name (kind_meta x)) ["status"]) by (done || by repeat constructor). done.
  - intros name o data w Hne Hs Hn Hd. unfold kind_Delete, RESTClient_Delete.
    rewrite scoped_eq, (Name_ok name), (Delete_ok _ data) by done.
    apply Do_sends; [apply request_check_ok; [done|by left]|].
    rewrite (to_http_named _ res_name name) by done. by destruct data.
  - intros o vs w Hv. rewrite (kind_Watch_sends _ vs) by done.
    by destruct (OpenWatch _ w) as [w' []].
  - intros o lo data vs w Hd Hv. unfold kind_DeleteCollection, RESTClient_Delete.
    rewrite scoped_eq, (Params_ok _ vs) by done. unfold Request_Timeout, unless_err. cbn [err scoped].
    rewrite (Delete_ok _ data) by done.
    apply Do_sends; [apply request_check_ok; [done|by right; left]|].
    rewrite (to_http_collection _ res_name) by done. by destruct data.
  - intros name pt data subs w Hs Hn Hsubs. unfold kind_Patch. rewrite not_nil_into.
    rewrite scoped_patch_eq, SubResource_ok, (Name_ok name) by done.
    apply Do_sends; [apply request_check_ok; [done|by right; right]|by apply to_http_object].
Qed.

End One.

(** ** Requests that are never sent *)

(** A request with an error, or for an object without a namespace. *)
Definition doomed (r : Request) : Prop :=
  is_Some (err r)
  \/ (err r = None /\ namespaceSet r = true /\ namespace r = EmptyString
      /\ (verb r = "POST"
          \/ ((verb r = "GET" \/ verb r = "PUT" \/ verb r = "DELETE") /\ resourceName r <> EmptyString))).

Lemma doomed_check r : doomed r -> exists e, request_check r = Some e.
Proof.
  intros [[e He]|(He & Hs & Hn & Hv)]; unfold request_check; rewrite He; [by eexists|]. rewrite Hs, Hn.
  destruct Hv as [-> |[Hv Hne]]; [by eexists|]. apply String.eqb_neq in Hne. rewrite Hne.
  destruct Hv as [-> |[-> | ->]]; by eexists.
Qed.

Lemma doomed_Do {A} r (k : res request_error answer -> A) w :
  doomed r -> exists e, (let '(w', a) := Do r w in (w', k a)) = (w, k (Err e)).
Proof. intros [e He]%doomed_check. exists e. unfold Do. by rewrite He. Qed.

Lemma doomed_Params o r : doomed r -> doomed (Request_VersionedParams o r).
Proof.
  intros [[e He]|Hd]; unfold Request_VersionedParams; [left; rewrite (unless_err_err _ _ e He); by eexists|].
  unfold unless_err. destruct Hd as [He Hd]. rewrite He. destruct (EncodeParameters o); [right; by split|left; by eexists].
Qed.

Lemma doomed_Body o r : doomed r -> doomed (Request_Body o r).
Proof.
  intros [[e He]|Hd]; unfold Request_Body; [left; rewrite (unless_err_err _ _ e He); by eexists|].
  unfold unless_err. destruct Hd as [He Hd]. rewrite He. destruct o as [o|]; [|right; by split].
  destruct (Encode o); [right; by split|left; by eexists].
Qed.

Lemma doomed_SubResource subs r : doomed r -> doomed (Request_SubResource subs r).
Proof.
  intros [[e He]|Hd]; unfold Request_SubResource; [left; rewrite (unless_err_err _ _ e He); by eexists|].
  unfold unless_err. destruct Hd as [He Hd]. rewrite He.
  destruct (negb _); [left; by eexists|]. destruct (first_invalid subs) as [[s msgs]|]; [left; by eexists|right; by split].
Qed.

Lemma doomed_err f r : is_Some (err r) -> doomed (unless_err f r).
Proof. intros [e He]. rewrite (unless_err_err _ _ _ He). left. by eexists. Qed.

Lemma later_err f r : is_Some (err r) -> is_Some (err (unless_err f r)).
Proof. intros [e He]. rewrite (unless_err_err _ _ _ He). by eexists. Qed.

(** Without a namespace a name makes the request fail, and a creation fails
    from the start. *)
Lemma doomed_unscoped v res_name name c :
  at_root c -> segment res_name -> v = "GET" \/ v = "PUT" \/ v = "DELETE" ->
  doomed (Request_Name name (Request_Resource res_name (Request_Namespace EmptyString (Verb v c)))).
Proof.
  intros Hc Hr Hv. rewrite scoped_eq by done. unfold Request_Name, unless_err. cbn [err scoped].
  destruct (String.eqb name EmptyString) eqn:E; [left; by eexists|]. cbn [resourceName String.eqb negb].
  apply String.eqb_neq in E. destruct (IsValidPathSegmentName name); [|left; by eexists].
  right. split_and!; [done..|]. right. by split.
Qed.

Lemma doomed_post res_name c :
  at_root c -> segment res_name -> doomed (Request_Resource res_name (Request_Namespace EmptyString (Verb "POST" c))).
Proof. intros Hc Hr. rewrite scoped_eq by done. right. split_and!; [done..|]. by left. Qed.

(** A bad name is an error whatever the request; so is a bad subresource. *)
Lemma name_err name r : ~ segment name \/ name = EmptyString -> is_Some (err (Request_Name name r)).
Proof.
  intros Hn. unfold Request_Name, unless_err. destruct (err r) as [e|] eqn:He; [by eexists|].
  destruct (String.eqb name EmptyString) eqn:E; [by eexists|].
  destruct (negb _); [by eexists|]. unfold segment in Hn. apply String.eqb_neq in E.
  destruct (IsValidPathSegmentName name); [by destruct Hn|by eexists].
Qed.

Lemma subresource_err subs r : ~ Forall segment subs -> is_Some (err (Request_SubResource subs r)).
Proof.
  intros Hn. unfold Request_SubResource, unless_err. destruct (err r) as [e|] eqn:He; [by eexists|].
  destruct (negb _); [by eexists|]. rewrite first_invalid_None in Hn.
  destruct (first_invalid subs) as [[s msgs]|]; [by eexists|done].
Qed.

Lemma resource_namespace_err res_name ns0 r :
  err r = None -> namespaceSet r = false -> ~ segment ns0 ->
  is_Some (err (Request_Resource res_name (Request_Namespace ns0 r))).
Proof.
  intros He Hs Hn. destruct (namespace_err ns0 r He Hs Hn) as [e E]. unfold Request_Resource.
  rewrite (unless_err_err _ _ _ E). by eexists.
Qed.

(** The methods that name an object. *)
Inductive point_call (T : Type) : Type :=
| CallGet (name : string) (o : GetOptions)
| CallCreate (x : T)
| CallUpdate (x : T)
| CallUpdateStatus (x : T)
| CallDelete (name : string) (o : option DeleteOptions)
| CallPatch (name pt data : string) (subs : list string).
Arguments CallGet {T}.
Arguments CallCreate {T}.
Arguments CallUpdate {T}.
Arguments CallUpdateStatus {T}.
Arguments CallDelete {T}.
Arguments CallPatch {T}.

(** [None] where the interface has no such method. *)
Definition run_call {E T} (I : SinkInterface W E T) (call : point_call T) (w : W) : option (W * option E) :=
  match call with
  | CallGet name o => let '(w, (_, e)) := i_Get I name o w in Some (w, e)
  | CallCreate x => let '(w, (_, e)) := i_Create I x w in Some (w, e)
  | CallUpdate x => let '(w, (_, e)) := i_Update I x w in Some (w, e)
  | CallUpdateStatus x =>
      update ← i_UpdateStatus I;
      let '(w, (_, e)) := update x w in Some (w, e)
  | CallDelete name o => Some (i_Delete I name o w)
  | CallPatch name pt data subs => let '(w, (_, e)) := i_Patch I name pt data subs w in Some (w, e)
  end.

Definition call_name {T} `{SinkKind T} (call : point_call T) : option string :=
  match call with
  | CallGet name _ | CallDelete name _ | CallPatch name _ _ _ => Some name
  | CallCreate _ => None
  | CallUpdate x | CallUpdateStatus x => Some (Name (kind_meta x))
  end.

Definition call_subs {T} (call : point_call T) : list string :=
  match call with CallUpdateStatus _ => ["status"] | CallPatch _ _ _ subs => subs | _ => [] end.

Definition is_patch {T} (call : point_call T) : bool :=
  match call with CallPatch _ _ _ _ => true | _ => false end.

Definition call_path {T} `{SinkKind T} (res_name ns0 : string) (call : point_call T) : string :=
  match call_name call with
  | Some name => subresource_path res_name ns0 name (call_subs call)
  | None => collection_path res_name ns0
  end.

(** What a call is before [Do]. *)
Definition call_request {T} `{SinkKind T} (res_name : string) (c : kindClient) (call : point_call T) : Request :=
  let object v := Request_Resource res_name (Request_Namespace (ns c) (Verb v (client c))) in
  match call with
  | CallGet name o => Request_VersionedParams (ParamGet o) (Request_Name name (object "GET"))
  | CallCreate x => Request_Body (Some (BodyObj (of_kind x))) (object "POST")
  | CallUpdate x =>
      Request_Body (Some (BodyObj (of_kind x))) (Request_Name (Name (kind_meta x)) (object "PUT"))
  | CallUpdateStatus x =>
      Request_Body (Some (BodyObj (of_kind x)))
        (Request_SubResource ["status"] (Request_Name (Name (kind_meta x)) (object "PUT")))
  | CallDelete name o => Request_Body (option_map BodyDelete o) (Request_Name name (object "DELETE"))
  | CallPatch name pt data subs =>
      Request_BodyBytes data (Request_Name name (Request_SubResource subs
        (Request_Resource res_name (Request_Namespace (ns c) (RESTClient_Patch pt (client c))))))
  end.

Definition call_error {T} `{ClientKind T} (call : point_call T) (a : res request_error answer) : option request_error :=
  match call with
  | CallDelete _ _ => Result_Error a
  | _ => (result_of a).2
  end.

Lemma run_call_Do {T} `{CK : ClientKind T} res_name has_status c (call : point_call T) w r :
  run_call (kind_interface res_name has_status c) call w = Some r ->
  r = (let '(w', a) := Do (call_request res_name c call) w in (w', call_error call a)).
Proof.
  destruct call; cbn [run_call kind_interface i_Get i_Create i_Update i_UpdateStatus i_Delete i_Patch call_request call_error].
  1-3,6: unfold kind_Get, kind_Create, kind_Update, kind_Patch; rewrite not_nil_into;
    unfold RESTClient_Get, RESTClient_Post, RESTClient_Put; destruct (Do _ _) as [w' a]; destruct (result_of a);
    by intros [= <-].
  - destruct has_status; [|done]. cbn [mbind option_bind]. unfold kind_UpdateStatus. rewrite not_nil_into.
    unfold RESTClient_Put. destruct (Do _ _) as [w' a]; destruct (result_of a). by intros [= <-].
  - unfold kind_Delete, RESTClient_Delete. destruct (Do _ _) as [w' a]. by intros [= <-].
Qed.

Lemma call_error_err {T} `{ClientKind T} (call : point_call T) e : call_error call (Err e) = Some e.
Proof. by destruct call. Qed.

(** A call with a name, a subresource or a namespace that cannot be part of a
    path, or a call without a namespace that is no patch. *)
Definition bad_call {T} `{SinkKind T} (ns0 : string) (call : point_call T) : Prop :=
  (exists name, call_name call = Some name /\ (~ segment name \/ name = EmptyString))
  \/ ~ Forall segment (call_subs call) \/ ~ segment ns0 \/ (ns0 = EmptyString /\ is_patch call = false).

Definition good_call {T} `{SinkKind T} (ns0 : string) (call : point_call T) : Prop :=
  (forall name, call_name call = Some name -> segment name /\ name <> EmptyString)
  /\ Forall segment (call_subs call) /\ segment ns0 /\ (ns0 <> EmptyString \/ is_patch call = true).

Lemma call_cases {T} `{SinkKind T} ns0 (call : point_call T) : bad_call ns0 call \/ good_call ns0 call.
Proof.
  unfold bad_call, good_call.
  destruct (decide (Forall segment (call_subs call))); [|by left; right; left].
  destruct (decide (segment ns0)); [|by left; right; right; left].
  assert (ns0 <> EmptyString \/ is_patch call = true \/ (ns0 = EmptyString /\ is_patch call = false)) as Hn.
  { destruct (decide (ns0 = EmptyString)); [|by left]. destruct (is_patch call); [by right; left|by right; right]. }
  assert ((exists name, call_name call = Some name /\ (~ segment name \/ name = EmptyString))
          \/ (forall name, call_name call = Some name -> segment name /\ name <> EmptyString)) as Hname.
  { destruct (call_name call) as [name|]; [|by right].
    destruct (decide (segment name)); [|left; by eexists; eauto]. destruct (decide (name = EmptyString)); [left; by eauto|].
    right. by intros ? [= <-]. }
  naive_solver.
Qed.

(** Parameters and a body add an error or nothing of the target. *)
Definition same_target (r r' : Request) : Prop :=
  err r' = None /\ verb r' = verb r /\ pathPrefix r' = pathPrefix r /\ namespaceSet r' = namespaceSet r
  /\ namespace r' = namespace r /\ resource r' = resource r /\ resourceName r' = resourceName r
  /\ subresource r' = subresource r.

Lemma Params_target o r :
  err r = None -> is_Some (err (Request_VersionedParams o r)) \/ same_target r (Request_VersionedParams o r).
Proof.
  intros He. unfold Request_VersionedParams, unless_err. rewrite He.
  destruct (EncodeParameters o); [by right|left; by eexists].
Qed.

Lemma Body_target o r : err r = None -> is_Some (err (Request_Body o r)) \/ same_target r (Request_Body o r).
Proof.
  intros He. unfold Request_Body, unless_err. rewrite He. destruct o as [o|]; [|by right].
  destruct (Encode o); [by right|left; by eexists].
Qed.

Section Calls.
Context {T : Type} `{CK : ClientKind T} (res_name : string) (has_status : bool) (c : kindClient).
Hypothesis Hroot : at_root (client c).
Hypothesis Hseg : segment res_name.

(** A bad call contacts nobody and returns an error. *)
Lemma bad_call_doomed (call : point_call T) : bad_call (ns c) call -> doomed (call_request res_name c call).
Proof.
  intros [(name & Hname & Hn)|[Hn|[Hn|[Hn Hp]]]].
  - destruct call; cbn [call_name call_request] in Hname |- *; try discriminate Hname; injection Hname as Hname;
      subst name; pose proof (fun r => name_err _ r Hn) as He;
      [apply doomed_Params|apply doomed_Body|apply doomed_Body, doomed_SubResource|apply doomed_Body|apply doomed_err; apply He];
      left; apply He.
  - destruct call as [| | | | |name pt data subs]; cbn [call_subs call_request] in Hn |- *;
      try by destruct Hn; repeat constructor.
    apply doomed_err, later_err, subresource_err, Hn.
  - assert (forall v, is_Some (err (Request_Resource res_name (Request_Namespace (ns c) (Verb v (client c)))))) as He
      by by intros v; apply resource_namespace_err.
    destruct call; cbn [call_request];
      [apply doomed_Params, doomed_err|apply doomed_Body; left|apply doomed_Body, doomed_err
      |apply doomed_Body, doomed_SubResource, doomed_err|apply doomed_Body, doomed_err|]; try apply He.
    apply doomed_err, later_err, later_err, resource_namespace_err; done.
  - destruct call; cbn [call_request]; try discriminate Hp; rewrite Hn;
      [apply doomed_Params, doomed_unscoped|by apply doomed_Body, doomed_post|apply doomed_Body, doomed_unscoped
      |apply doomed_Body, doomed_SubResource, doomed_unscoped|apply doomed_Body, doomed_unscoped]; auto.
Qed.

Lemma bad_call_run (call : point_call T) w r :
  bad_call (ns c) call -> run_call (kind_interface res_name has_status c) call w = Some r -> exists e, r = (w, Some e).
Proof.
  intros Hd%bad_call_doomed ->%run_call_Do. destruct (doomed_Do _ (call_error call) w Hd) as [e He].
  exists e. by rewrite He, call_error_err.
Qed.

(** Where a good call goes, unless it cannot be encoded. *)
Lemma good_call_target (call : point_call T) :
  good_call (ns c) call ->
  let r := call_request res_name c call in
  is_Some (err r)
  \/ (err r = None /\ pathPrefix r = abs_path group_segs /\ namespaceSet r = true /\ namespace r = ns c
      /\ resource r = res_name /\ resourceName r = default EmptyString (call_name call)
      /\ subresource r = path_Join (call_subs call) /\ (is_patch call = true -> verb r = "PATCH")).
Proof.
  intros (Hname & Hsubs & Hns & _).
  assert (forall r0 r, is_Some (err r) \/ same_target r0 r ->
    pathPrefix r0 = abs_path group_segs -> namespaceSet r0 = true -> namespace r0 = ns c -> resource r0 = res_name ->
    resourceName r0 = default EmptyString (call_name call) -> subresource r0 = path_Join (call_subs call) ->
    is_patch call = false -> is_Some (err r)
    \/ (err r = None /\ pathPrefix r = abs_path group_segs /\ namespaceSet r = true /\ namespace r = ns c
      /\ resource r = res_name /\ resourceName r = default EmptyString (call_name call)
      /\ subresource r = path_Join (call_subs call) /\ (is_patch call = true -> verb r = "PATCH"))) as Hsame.
  { intros r0 r [He|(He & _ & E1 & E2 & E3 & E4 & E5 & E6)] P1 P2 P3 P4 P5 P6 P7; [by left|].
    right. split_and!; congruence. }
  destruct call as [name o|x|x|x|name o|name pt data subs]; cbn [call_request call_name call_subs] in *;
    try (destruct (Hname _ eq_refl) as [Hn1 Hn2]).
  - rewrite scoped_eq, Name_ok by done. eapply Hsame; [apply Params_target; reflexivity|reflexivity..].
  - rewrite scoped_eq by done. eapply Hsame; [apply Body_target; reflexivity|reflexivity..].
  - rewrite scoped_eq, Name_ok by done. eapply Hsame; [apply Body_target; reflexivity|reflexivity..].
  - rewrite scoped_eq, Name_ok, SubResource_ok by done. eapply Hsame; [apply Body_target; reflexivity|reflexivity..].
  - rewrite scoped_eq, Name_ok by done. eapply Hsame; [apply Body_target; reflexivity|reflexivity..].
  - right. rewrite scoped_patch_eq, SubResource_ok, Name_ok by done. done.
Qed.

Lemma good_call_run (call : point_call T) w r :
  resource_name res_name = true -> good_call (ns c) call ->
  run_call (kind_interface res_name has_status c) call w = Some r ->
  (exists e, r = (w, Some e))
  \/ exists rq, r = sends rq (call_error call) w /\ h_path rq = call_path res_name (ns c) call.
Proof.
  intros Hpl Hgood ->%run_call_Do.
  destruct (good_call_target call Hgood) as [Herr|(He & P1 & P2 & P3 & P4 & P5 & P6 & P7)].
  - left. destruct (doomed_Do _ (call_error call) w (or_introl Herr)) as [e E]. exists e. by rewrite E, call_error_err.
  - destruct Hgood as (Hname & Hsubs & Hns & Hne). right. eexists. split.
    + apply Do_sends; [apply request_check_ok; [done|]|reflexivity]. rewrite P3.
      destruct Hne as [Hne|Hp]; [by left|by right; right; apply P7].
    + cbn [to_http h_path]. unfold call_path. destruct (call_name call) as [name|] eqn:En.
      * destruct (Hname _ eq_refl). by rewrite (URL_path_object _ (ns c) res_name name (call_subs call)) by done.
      * rewrite (URL_path_collection _ (ns c) res_name) by (try done; by destruct call). done.
Qed.

End Calls.

(** ** The paths of different objects *)

Lemma object_plain res_name ns0 name :
  plain res_name = true -> segment ns0 -> segment name -> name <> EmptyString ->
  Forall (fun s => plain s = true) (group_segs ++ scope_segs ns0 ++ [res_name; name]).
Proof.
  intros Hr Hn Hs Hne. repeat apply Forall_app_2; [apply group_plain| |].
  - unfold scope_segs. destruct (String.eqb ns0 EmptyString) eqn:E; [constructor|].
    apply String.eqb_neq in E. repeat constructor. by apply segment_plain.
  - repeat constructor; [done|by apply segment_plain].
Qed.

Lemma subresource_plain res_name ns0 name subs :
  plain res_name = true -> segment ns0 -> segment name -> name <> EmptyString -> Forall segment subs ->
  Forall (fun s => plain s = true) (group_segs ++ scope_segs ns0 ++ [res_name; name] ++ filled subs).
Proof.
  intros Hr Hn Hs Hne Hsubs. rewrite app_assoc. apply Forall_app_2; [by apply scope_plain|].
  apply Forall_app_2; [by repeat constructor; [|apply segment_plain]|by apply filled_plain, segments_or_empty].
Qed.

(** The paths of objects of one scope are different for different resources,
    namespaces or names. *)
Lemma object_path_inj r1 n1 m1 r2 n2 m2 :
  plain r1 = true -> segment n1 -> segment m1 -> m1 <> EmptyString -> n1 <> EmptyString ->
  plain r2 = true -> segment n2 -> segment m2 -> m2 <> EmptyString -> n2 <> EmptyString ->
  object_path r1 n1 m1 = object_path r2 n2 m2 -> r1 = r2 /\ n1 = n2 /\ m1 = m2.
Proof.
  intros ?? ?? Hn1 ? ?? ? Hn2 E%abs_path_inj;
    [|by apply (subresource_plain _ _ _ [])|by apply (subresource_plain _ _ _ [])|done|done].
  unfold scope_segs in E. apply String.eqb_neq in Hn1, Hn2. rewrite Hn1, Hn2 in E. by simplify_eq.
Qed.

(** Where the API server keeps objects that have no namespace: their
    collection, the objects and their subresources. *)
Definition cluster_url (res_name p : string) : Prop :=
  p = collection_path res_name EmptyString
  \/ exists name subs, segment name /\ name <> EmptyString /\ Forall segment subs
       /\ p = subresource_path res_name EmptyString name subs.

Lemma scoped_not_cluster {T} `{SinkKind T} res_name ns0 (call : point_call T) :
  resource_name res_name = true -> res_name <> "namespaces" -> good_call ns0 call -> ns0 <> EmptyString ->
  ~ cluster_url res_name (call_path res_name ns0 call).
Proof.
  intros Hr%resource_name_plain Hres (Hname & Hsubs & Hn & _) Hne Hc.
  assert (scope_segs ns0 = ["namespaces"; ns0]) as Es.
  { unfold scope_segs. apply String.eqb_neq in Hne. by rewrite Hne. }
  assert (exists l, call_path res_name ns0 call = abs_path (group_segs ++ ["namespaces"; ns0] ++ l)
    /\ Forall (fun s => plain s = true) (group_segs ++ ["namespaces"; ns0] ++ l)) as (l & Ep & Hl).
  { unfold call_path. destruct (call_name call) as [name|].
    - destruct (Hname _ eq_refl). exists ([res_name; name] ++ filled (call_subs call)). rewrite <- Es.
      split; [done|by apply subresource_plain].
    - exists [res_name]. rewrite <- Es. split; [done|by apply collection_plain]. }
  rewrite Ep in Hc. destruct Hc as [E|(m & subs & Hm & Hme & Hss & E)].
  - apply abs_path_inj in E; [|done|by apply collection_plain|done|done]. apply app_inv_head in E. by simplify_eq/=.
  - apply abs_path_inj in E; [|done|by apply subresource_plain|done|done]. apply app_inv_head in E. by simplify_eq/=.
Qed.

End Interfaces.

(** A transport that records the requests and answers them as it likes. *)
Definition spy (reply : list http_request -> http_request -> res string answer) : Transport (list http_request) :=
  {| RoundTrip := fun rq w => (w ++ [rq], reply w rq); OpenWatch := fun rq w => (w ++ [rq], Err "unused") |}.

Section Properties.
Context `{Codec}.

(** C14: Every method of the four clients is exactly one request, where its
    namespace, name and subresources can be part of a path and its options and
    object can be encoded: the verb, the path of the object, its subresource or
    the collection, the encoded options or body and the timeout are as stated,
    and the result is the object, the list, the watch or the error of the
    answer.  [Get], [Create], [Update], [UpdateStatus] (which only the metric
    sinks have) and [Delete] need a namespace that is not empty; [List],
    [Watch], [DeleteCollection] and [Patch] are sent without one as well, to the
    paths outside any namespace. *)
Theorem client_requests {W} `{Transport W} (c : kindClient) :
  at_root (client c) -> segment (ns c) ->
  makes_requests "logsinks" false c (LogSinkInterface c)
  /\ makes_requests "clusterlogsinks" false c (ClusterLogSinkInterface c)
  /\ makes_requests "metricsinks" true c (MetricSinkInterface c)
  /\ makes_requests "clustermetricsinks" true c (ClusterMetricSinkInterface c).
Proof.
  intros Hroot Hns. split_and!.
  - by apply (kind_requests (T := LogSink) "logsinks" false c).
  - by apply (kind_requests (T := ClusterLogSink) "clusterlogsinks" false c).
  - by apply (kind_requests (T := MetricSink) "metricsinks" true c).
  - by apply (kind_requests (T := ClusterMetricSink) "clustermetricsinks" true c).
Qed.

(** What can be done with a client, of which everything that is sent is
    recorded, to the objects that have no namespace. *)
Record only_patches {T} `{SinkKind T} (res_name : string) (c : kindClient)
    (I : SinkInterface (list http_request) request_error T) : Prop := {
  op_other : forall call w w' e, run_call I call w = Some (w', e) -> is_patch call = false \/ ns c <> EmptyString ->
    exists sent, w' = w ++ sent /\ Forall (fun rq => ~ cluster_url res_name (h_path rq)) sent;
  op_nothing : forall call w w' e, run_call I call w = Some (w', e) -> is_patch call = false -> ns c = EmptyString ->
    w' = w /\ e <> None;
  op_patch : forall name pt data subs w, ns c = EmptyString -> segment name -> name <> EmptyString -> Forall segment subs ->
    exists e, run_call I (CallPatch T name pt data subs) w
      = Some (w ++ [MkHttpRequest "PATCH" (subresource_path res_name EmptyString name subs) ∅
                      (client_Timeout (client c)) (<["Content-Type" := [pt]]> (accept (client c))) (Some data)], e);
}.

Lemma kind_only_patches {T} `{CK : ClientKind T} res_name has_status reply (c : kindClient) :
  at_root (client c) -> segment res_name -> resource_name res_name = true -> res_name <> "namespaces" ->
  only_patches res_name c (@kind_interface _ _ (spy reply) T _ _ res_name has_status c).
Proof.
  intros Hroot Hseg Hpl Hres. split.
  - intros call w w' e E Hc. destruct (call_cases (ns c) call) as [Hbad|Hgood].
    { destruct (bad_call_run res_name has_status c Hroot Hseg call w _ Hbad E) as [e' [= -> ->]].
      exists []. rewrite app_nil_r. by split. }
    destruct (good_call_run res_name has_status c Hroot Hseg call w _ Hpl Hgood E) as [[e' [= -> ->]]|(rq & Er & Hp)].
    { exists []. rewrite app_nil_r. by split. }
    unfold sends in Er. cbn [RoundTrip spy] in Er. injection Er as -> _. exists [rq]. split; [done|].
    constructor; [|constructor]. rewrite Hp. apply scoped_not_cluster; [done..|].
    destruct Hc as [Hc|Hc]; [|done]. destruct Hgood as (_ & _ & _ & [?|Hg]); [done|congruence].
  - intros call w w' e E Hp Hns. assert (bad_call (ns c) call) as Hbad by (right; right; by right).
    by destruct (bad_call_run res_name has_status c Hroot Hseg call w _ Hbad E) as [e' [= -> ->]].
  - intros name pt data subs w Hns Hname Hne Hsubs.
    assert (segment (ns c)) as Hseg' by by rewrite Hns.
    destruct (@kind_requests _ _ (spy reply) _ _ _ res_name has_status c Hroot Hpl Hseg Hseg') as [_ _ _ _ _ _ _ _ _ Hpatch].
    pose proof (Hpatch name pt data subs w Hname Hne Hsubs) as E.
    cbn [run_call]. rewrite E, Hns. unfold sends. cbn [RoundTrip spy]. by destruct (result_of _); eexists.
Qed.


(** Listing works without a namespace: it lists the objects of all. *)
Lemma kind_List_sends {T} `{CK : ClientKind T} {W} `{Transport W} res_name (c : kindClient) o vs w :
  at_root (client c) -> segment (ns c) -> segment res_name -> resource_name res_name = true ->
  EncodeParameters (ParamList o) = Ok vs ->
  kind_List T res_name c o w =
  sends (MkHttpRequest "GET" (collection_path res_name (ns c)) vs (list_timeout o) (accept (client c)) None)
    (Into as_list list_zero) w.
Proof.
  intros Hroot Hns Hseg Hpl Hv. unfold kind_List, RESTClient_Get. rewrite scoped_eq, (Params_ok _ vs) by done.
  unfold Do, request_check. cbn [err unless_err Request_Timeout scoped].
  cbn [verb namespaceSet resourceName namespace String.eqb negb]. rewrite !andb_false_r. cbn [andb]. unfold sends.
  erewrite to_http_collection by done. cbn. by destruct (RoundTrip _ w) as [w' []].
Qed.

(** The timeout of a listing is the given number of seconds up to 292
    years; above, the multiplication wraps around: 9223372037 seconds give a
    negative timeout, which is none at all, and 18446744074 seconds give less
    than one. *)
Lemma list_timeout_bounds {W} `{Transport W} (c : kindClient) (o : ListOptions) vs s w :
  at_root (client c) -> segment (ns c) -> EncodeParameters (ParamList o) = Ok vs -> TimeoutSeconds o = Some s ->
  logSinks_List c o w =
    sends (MkHttpRequest "GET" (collection_path "logsinks" (ns c)) vs (seconds s) (accept (client c)) None)
      (Into as_list list_zero) w
  /\ ((-9223372036 <= s <= 9223372036)%Z -> seconds s = (s * 1000000000)%Z)
  /\ (seconds 9223372037 < 0)%Z /\ (0 < seconds 18446744074 < 1000000000)%Z.
Proof.
  intros Hroot Hns Hv Hs. split_and!.
  - unfold logSinks_List. rewrite (kind_List_sends _ _ _ vs) by done. unfold list_timeout. by rewrite Hs.
  - intros Hr. apply int64_id. lia.
  - by vm_compute.
  - by vm_compute.
  - by vm_compute.
Qed.

End Properties.

(** ** Examples *)

(** A codec and a server for evaluating the clients. *)
Definition some_codec : Codec :=
  {| Encode := fun _ => Ok "body"; EncodeParameters := fun _ => Ok {[ "limit" := ["5"] ]} |}.

Definition some_server : Transport (list http_request) :=
  spy (fun _ rq => if String.eqb (h_verb rq) "GET"
                   then Ok (AnswerObject (ALogSink (plain_sink "ns1" "a" "https://a"))) else Err "no").

Definition some_client (ns0 : string) : kindClient :=
  newLogSinks (New {| base_Scheme := "https"; base_Host := "10.0.0.1:443"; base_Path := "/"; Throttle := None;
                      versionedAPIPath := DefaultVersionedAPIPath "/apis" SchemeGroupVersion;
                      client_Timeout := 0; content_type := "application/json" |}) ns0.

Lemma some_client_root ns0 : at_root (client (some_client ns0)).
Proof. done. Qed.

Definition no_options : GetOptions := MkGetOptions EmptyString false.
Definition timed (s : Z) : ListOptions := MkListOptions EmptyString EmptyString false false EmptyString (Some s) 0 EmptyString.

Lemma not_empty c s : String c s <> EmptyString.
Proof. discriminate. Qed.

Lemma client_requests_witness :
  @i_Get _ _ _ (@LogSinkInterface some_codec _ some_server (some_client "ns1")) "a" no_options [] =
    ([MkHttpRequest "GET" "/apis/observability.knative.dev/v1alpha1/namespaces/ns1/logsinks/a"
        {[ "limit" := ["5"] ]} 0 {[ "Accept" := ["application/json, */*"] ]} None],
     (Some (plain_sink "ns1" "a" "https://a"), None))
  /\ @i_Watch _ _ _ (@ClusterMetricSinkInterface some_codec _ some_server (some_client EmptyString)) (timed 30) [] =
    ([MkHttpRequest "GET" "/apis/observability.knative.dev/v1alpha1/clustermetricsinks"
        {[ "limit" := ["5"] ]} 30000000000 {[ "Accept" := ["application/json, */*"] ]} None],
     (None, Some (ServerError "unused"))).
Proof.
  pose proof (@client_requests some_codec _ some_server (some_client "ns1") (some_client_root _) eq_refl) as (E & _).
  pose proof (@client_requests some_codec _ some_server (some_client EmptyString) (some_client_root _) eq_refl)
    as (_ & _ & _ & E').
  split.
  - rewrite (mr_get _ _ _ _ E "a" no_options {[ "limit" := ["5"] ]} [] (not_empty _ _) eq_refl (not_empty _ _) eq_refl).
    reflexivity.
  - rewrite (@mr_watch _ _ some_server _ _ _ _ _ _ _ E' (timed 30) {[ "limit" := ["5"] ]} [] eq_refl). reflexivity.
Defined.


Lemma list_timeout_bounds_witness :
  (seconds 18446744074 = 290448384)%Z
  /\ ((-9223372036 <= 30 <= 9223372036)%Z -> seconds 30 = 30000000000%Z).
Proof.
  split; [by vm_compute|].
  exact (proj1 (proj2 (@list_timeout_bounds some_codec _ some_server (some_client "ns1") (timed 30)
    {[ "limit" := ["5"] ]} 30 [] (some_client_root _) eq_refl eq_refl eq_refl))).
Defined.
