(* ===== verification/Clientset.v ===== *)
(** * The clientset ([pkg/client/clientset/versioned/clientset.go])

    A [Clientset] is the client of the group and a discovery client made from
    one configuration.  [NewForConfig] gives both the same rate limiter when
    the configuration has a rate, [NewForConfigOrDie] does not. *)

From stdpp Require Import base gmap strings list.
From Stdlib Require Import Ascii ZArith Lia SpecFloat.
From S2P Require Import Prelude GoStd GoPath Types RestRequest RestConfig GoUrl TypedClients.

(** ** The discovery client (client-go's [discovery], vendored) *)

Record DiscoveryClient : Type := MkDiscoveryClient { dc_restClient : RESTClient; LegacyPrefix : string }.

(** 32 seconds *)
Definition defaultTimeout : Z := 32000000000.

Section Construction.
Context `{ClientLibrary}.

Definition setDiscoveryDefaults (config : Config) : Config :=
  with_api EmptyString None NoopDecoder
    (if String.eqb (UserAgent config) EmptyString then DefaultKubernetesUserAgent else UserAgent config)
    (if (config_Timeout config =? 0)%Z then defaultTimeout else config_Timeout config) config.

Definition NewDiscoveryClientForConfig (c : Config) (ls : limiters) : res config_error DiscoveryClient * limiters :=
  let '(client, ls) := UnversionedRESTClientFor (setDiscoveryDefaults c) ls in
  (match client with
   | Err e => Err e
   | Ok client => Ok {| dc_restClient := client; LegacyPrefix := "/api" |}
   end, ls).

(** ** The clientset *)

Record Clientset : Type := MkClientset {
  cs_DiscoveryClient : DiscoveryClient;
  observabilityV1alpha1 : ObservabilityV1alpha1Client;
}.

Definition ObservabilityV1alpha1 (c : Clientset) : ObservabilityV1alpha1Client := observabilityV1alpha1 c.

(** [None] is a nil receiver. *)
Definition Discovery (c : option Clientset) : option DiscoveryClient := option_map cs_DiscoveryClient c.

Definition NewForConfig (c : Config) (ls : limiters) : res config_error Clientset * limiters :=
  let '(configShallowCopy, ls) :=
    match RateLimiter c with
    | None => if positive (QPS c)
              then let '(l, ls) := NewTokenBucketRateLimiter (QPS c) (Burst c) ls in (with_RateLimiter (Some l) c, ls)
              else (c, ls)
    | Some _ => (c, ls)
    end in
  let '(client, ls) := TypedClients.NewForConfig configShallowCopy ls in
  match client with
  | Err e => (Err e, ls)
  | Ok client =>
      let '(discovery, ls) := NewDiscoveryClientForConfig configShallowCopy ls in
      match discovery with
      | Err e => (Err e, ls)
      | Ok discovery => (Ok {| cs_DiscoveryClient := discovery; observabilityV1alpha1 := client |}, ls)
      end
  end.

(** A panic has no result. *)
Definition NewForConfigOrDie (c : Config) (ls : limiters) : option Clientset * limiters :=
  let '(client, ls) := TypedClients.NewForConfigOrDie c ls in
  match client with
  | None => (None, ls)
  | Some client =>
      let '(discovery, ls) := NewDiscoveryClientForConfig c ls in
      match discovery with
      | Err _ => (None, ls)
      | Ok discovery => (Some {| cs_DiscoveryClient := discovery; observabilityV1alpha1 := client |}, ls)
      end
  end.

Definition New (c : RESTClient) : Clientset :=
  {| observabilityV1alpha1 := TypedClients.New c;
     cs_DiscoveryClient := {| dc_restClient := c; LegacyPrefix := "/api" |} |}.

(** ** Lemmas *)

(** The host has no path of its own. *)
Definition bare_host (c : Config) : Prop :=
  forall u, url_Parse (host_of c) = Some u -> UPath u = EmptyString \/ UPath u = "/".

Definition group_limiter (cs : Clientset) : option nat := Throttle (restClient (observabilityV1alpha1 cs)).
Definition discovery_limiter (cs : Clientset) : option nat := Throttle (dc_restClient (cs_DiscoveryClient cs)).

Lemma group_client_ok c ls client ls' :
  TypedClients.NewForConfig c ls = (Ok client, ls') ->
  (bare_host c -> at_root (restClient client))
  /\ (Throttle (restClient client), ls') = throttle (default_qps (QPS c)) (default_burst (Burst c)) (RateLimiter c) ls.
Proof.
  unfold TypedClients.NewForConfig. destruct (RESTClientFor _ ls) as [[cl|e] ls1] eqn:E; [|done]. intros [= <- <-].
  apply RESTClientFor_ok in E as (u & gv & [= <-] & Hu & Hb & Hv & Ht). split; [|exact Ht].
  intros Hbare. split; [|exact Hv]. cbn [restClient]. rewrite Hb.
  assert (UPath u = EmptyString \/ UPath u = "/") as [->| ->] by (destruct Hu as [Hu|Hu]; [by apply Hbare|exact Hu]); done.
Qed.

Lemma discovery_client_ok c ls client ls' :
  NewDiscoveryClientForConfig c ls = (Ok client, ls') ->
  (Throttle (dc_restClient client), ls') = throttle (QPS c) (Burst c) (RateLimiter c) ls.
Proof.
  unfold NewDiscoveryClientForConfig. destruct (UnversionedRESTClientFor _ ls) as [[cl|e] ls1] eqn:E; [|done].
  intros [= <- <-]. by apply UnversionedRESTClientFor_ok in E.
Qed.

Lemma default_qps_positive q : positive q = true -> default_qps q = q.
Proof. unfold default_qps, positive, float_zero. by destruct q as [[]|[]| |[] m e]. Qed.

Lemma default_qps_zero q : SFeqb q float_zero = true -> default_qps q = DefaultQPS /\ positive q = false.
Proof. unfold default_qps, positive, float_zero. by destruct q as [[]|[]| |[] m e]. Qed.

(** How a configuration limits the rate of the two clients. *)
Lemma clientset_throttles c ls cs ls' :
  NewForConfig c ls = (Ok cs, ls') ->
  (bare_host c -> at_root (restClient (observabilityV1alpha1 cs)))
  /\ match RateLimiter c with
     | Some l => group_limiter cs = Some l /\ discovery_limiter cs = Some l /\ ls' = ls
     | None =>
         if positive (QPS c) then
           group_limiter cs = Some (List.length ls) /\ discovery_limiter cs = Some (List.length ls)
           /\ ls' = ls ++ [(QPS c, Burst c)]
         else
           (group_limiter cs, ls') = throttle (default_qps (QPS c)) (default_burst (Burst c)) None ls
           /\ discovery_limiter cs = None
     end.
Proof.
  unfold NewForConfig. set (p := match RateLimiter c with Some _ => _ | None => _ end).
  destruct p as [c1 ls1] eqn:Ep. destruct (TypedClients.NewForConfig c1 ls1) as [[cl|e] ls2] eqn:E1; [|done].
  destruct (NewDiscoveryClientForConfig c1 ls2) as [[d|e] ls3] eqn:E2; [|done]. intros [= <- <-].
  apply group_client_ok in E1 as [Hroot Hg]. apply discovery_client_ok in E2 as Hd.
  assert (host_of c1 = host_of c) as Hhost.
  { subst p. revert Ep. destruct (RateLimiter c); [by intros [= <- _]|].
    destruct (positive (QPS c)); by intros [= <- _]. }
  split; [intros Hb; apply Hroot; unfold bare_host; rewrite Hhost; exact Hb|].
  unfold group_limiter, discovery_limiter. cbn [observabilityV1alpha1 cs_DiscoveryClient]. subst p. revert Ep.
  destruct (RateLimiter c) as [l|] eqn:El.
  - intros [= <- <-]. rewrite El in Hg, Hd. cbn in Hg, Hd. by injection Hg as -> ->; injection Hd as -> ->.
  - destruct (positive (QPS c)) eqn:Eq.
    + intros [= <- <-]. cbn in Hg, Hd. by injection Hg as -> ->; injection Hd as -> ->.
    + intros [= <- <-]. rewrite El in Hg, Hd. unfold throttle in Hd. rewrite Eq in Hd. injection Hd as -> ->.
      by rewrite Hg.
Qed.

Lemma clientset_or_die_throttles c ls cs ls' :
  NewForConfigOrDie c ls = (Some cs, ls') ->
  RateLimiter c = None -> positive (QPS c) = true ->
  group_limiter cs = Some (List.length ls) /\ discovery_limiter cs = Some (S (List.length ls))
  /\ ls' = ls ++ [(QPS c, default_burst (Burst c)); (QPS c, Burst c)].
Proof.
  unfold NewForConfigOrDie, TypedClients.NewForConfigOrDie.
  destruct (TypedClients.NewForConfig c ls) as [[cl|e] ls2] eqn:E1; [|done].
  destruct (NewDiscoveryClientForConfig c ls2) as [[d|e] ls3] eqn:E2; [|done]. intros [= <- <-] El Eq.
  apply group_client_ok in E1 as [_ Hg]. apply discovery_client_ok in E2 as Hd.
  rewrite El in Hg, Hd. unfold throttle in Hg, Hd. rewrite default_qps_positive in Hg by done. rewrite Eq in Hg, Hd.
  injection Hg as Hg ->. injection Hd as Hd ->. unfold group_limiter, discovery_limiter.
  cbn [observabilityV1alpha1 cs_DiscoveryClient]. rewrite Hg, Hd, length_app, <- app_assoc. cbn.
  by rewrite Nat.add_comm.
Qed.

End Construction.

(** ** Properties *)

(** The rate limits of a clientset.  [NewForConfig] gives both clients the
    limiter of the configuration if it has one; if it has only a positive rate,
    one new limiter, with the burst of the configuration even when that is 0,
    the value with which it never admits a request; and with the rate 0, as
    programs in a cluster have it, the group's client a limiter of its own with
    the defaults and the discovery client none.  [NewForConfigOrDie] makes two
    limiters of a positive rate, so the two clients together may send twice as
    much. *)
Lemma clientset_rates `{ClientLibrary} c ls :
  (forall cs ls', NewForConfig c ls = (Ok cs, ls') ->
    match RateLimiter c with
    | Some l => group_limiter cs = Some l /\ discovery_limiter cs = Some l /\ ls' = ls
    | None =>
        if positive (QPS c) then
          group_limiter cs = Some (List.length ls) /\ discovery_limiter cs = Some (List.length ls)
          /\ ls' = ls ++ [(QPS c, Burst c)]
        else if SFeqb (QPS c) float_zero then
          group_limiter cs = Some (List.length ls) /\ discovery_limiter cs = None
          /\ ls' = ls ++ [(DefaultQPS, default_burst (Burst c))]
        else group_limiter cs = None /\ discovery_limiter cs = None /\ ls' = ls
    end)
  /\ (forall cs ls', NewForConfigOrDie c ls = (Some cs, ls') -> RateLimiter c = None -> positive (QPS c) = true ->
       group_limiter cs <> discovery_limiter cs
       /\ ls' = ls ++ [(QPS c, default_burst (Burst c)); (QPS c, Burst c)]).
Proof.
  split.
  - intros cs ls' [_ Ht]%clientset_throttles. destruct (RateLimiter c) as [l|]; [exact Ht|].
    destruct (positive (QPS c)) eqn:Eq; [exact Ht|]. destruct Ht as [Ht Hd].
    destruct (SFeqb (QPS c) float_zero) eqn:Ez.
    + destruct (default_qps_zero _ Ez) as [Eq' _]. rewrite Eq' in Ht. unfold throttle in Ht.
      change (positive DefaultQPS) with true in Ht. by injection Ht as -> ->.
    + assert (default_qps (QPS c) = QPS c) as Eq' by (unfold default_qps; by rewrite Ez).
      rewrite Eq' in Ht. unfold throttle in Ht. rewrite Eq in Ht. by injection Ht as -> ->.
  - intros cs ls' Hd El Eq. destruct (clientset_or_die_throttles _ _ _ _ Hd El Eq) as (-> & -> & ->).
    split; [intros [=]; lia|done].
Qed.

(** ** Examples *)

Definition plain_library : ClientLibrary :=
  {| TransportFor := fun _ => Ok (Some 0); createSerializers := fun _ _ => None; DefaultKubernetesUserAgent := "agent" |}.

(** A rate of 5 and no burst. *)
Definition rated_config : Config :=
  {| config_Host := "https://10.0.0.1:443"; APIPath := EmptyString; ContentType := EmptyString;
     config_GroupVersion := None; NegotiatedSerializer := None; CAFile := EmptyString; CAData := EmptyString;
     CertFile := EmptyString; CertData := EmptyString; Insecure := false; UserAgent := EmptyString;
     QPS := DefaultQPS; Burst := 0; RateLimiter := None; config_Timeout := 0; transport_config := EmptyString |}.

Lemma clientset_rates_witness :
  match @NewForConfig plain_library rated_config [] with
  | (Ok cs, ls) => group_limiter cs = Some 0 /\ discovery_limiter cs = Some 0 /\ ls = [(DefaultQPS, 0%Z)]
  | (Err _, _) => False
  end.
Proof.
  destruct (@NewForConfig plain_library rated_config []) as [[cs|e] ls] eqn:E.
  - exact (proj1 (@clientset_rates plain_library rated_config []) cs ls E).
  - revert E. vm_compute. discriminate.
Defined.
