(* ===== verification/Scheme.v ===== *)
(** * Registration of the API types ([pkg/apis/sink/v1alpha1/register.go])

    The type registry of k8s.io/apimachinery ([runtime/scheme.go]) as maps
    between the names of kinds and Go types, the functions that fill it, and
    the schemes of the clientset and of its fake, which their [init] make.  A
    registration that panics has no result: [None].  Conversion and defaulting
    functions, which the types of this group do not have, are left out. *)

From stdpp Require Import base gmap strings list.
From Stdlib Require Import Ascii.
From S2P Require Import Prelude GoStd GoUrl GoPath Types Cache Listers RestRequest TypedClients.

(** ** Go types

    The types that are registered: those of the group and those of
    [metav1.AddToGroupVersion]. *)

Inductive GoType : Type :=
| TLogSink | TLogSinkList | TMetricSink | TMetricSinkList
| TClusterLogSink | TClusterLogSinkList | TClusterMetricSink | TClusterMetricSinkList
| TWatchEvent | TInternalEvent
| TListOptions | TExportOptions | TGetOptions | TDeleteOptions | TCreateOptions | TUpdateOptions
| TStatus | TAPIVersions | TAPIGroupList | TAPIGroup | TAPIResourceList.

(** [reflect.Type.Name]. *)
Definition type_Name (t : GoType) : string :=
  match t with
  | TLogSink => "LogSink" | TLogSinkList => "LogSinkList"
  | TMetricSink => "MetricSink" | TMetricSinkList => "MetricSinkList"
  | TClusterLogSink => "ClusterLogSink" | TClusterLogSinkList => "ClusterLogSinkList"
  | TClusterMetricSink => "ClusterMetricSink" | TClusterMetricSinkList => "ClusterMetricSinkList"
  | TWatchEvent => "WatchEvent" | TInternalEvent => "InternalEvent"
  | TListOptions => "ListOptions" | TExportOptions => "ExportOptions" | TGetOptions => "GetOptions"
  | TDeleteOptions => "DeleteOptions" | TCreateOptions => "CreateOptions" | TUpdateOptions => "UpdateOptions"
  | TStatus => "Status" | TAPIVersions => "APIVersions" | TAPIGroupList => "APIGroupList"
  | TAPIGroup => "APIGroup" | TAPIResourceList => "APIResourceList"
  end.

Definition all_types : list GoType :=
  [TLogSink; TLogSinkList; TMetricSink; TMetricSinkList; TClusterLogSink; TClusterLogSinkList; TClusterMetricSink;
   TClusterMetricSinkList; TWatchEvent; TInternalEvent; TListOptions; TExportOptions; TGetOptions; TDeleteOptions;
   TCreateOptions; TUpdateOptions; TStatus; TAPIVersions; TAPIGroupList; TAPIGroup; TAPIResourceList].

Definition type_of_Name (n : string) : option GoType :=
  head (List.filter (fun t => String.eqb (type_Name t) n) all_types).

Lemma type_of_Name_eq t : type_of_Name (type_Name t) = Some t.
Proof. by destruct t. Qed.

#[export] Instance GoType_eq_dec : EqDecision GoType.
Proof. solve_decision. Defined.
#[export] Instance GoType_countable : Countable GoType := inj_countable type_Name type_of_Name type_of_Name_eq.

(** The type a pointer of an interface points to, where it is a type of the
    group, and the zero object of a type. *)
Definition type_of (o : obj) : option GoType :=
  match o with
  | ALogSink _ => Some TLogSink | ALogSinkList _ => Some TLogSinkList
  | AMetricSink _ => Some TMetricSink | AMetricSinkList _ => Some TMetricSinkList
  | AClusterLogSink _ => Some TClusterLogSink | AClusterLogSinkList _ => Some TClusterLogSinkList
  | AClusterMetricSink _ => Some TClusterMetricSink | AClusterMetricSinkList _ => Some TClusterMetricSinkList
  | ACoreEvent _ | DeletedFinalState _ _ | OtherObject => None
  end.

Definition reflect_New (t : GoType) : obj :=
  match t with
  | TLogSink => of_kind (zero_obj : LogSink) | TLogSinkList => of_list (list_zero : LogSinkList)
  | TMetricSink => of_kind (zero_obj : MetricSink) | TMetricSinkList => of_list (list_zero : MetricSinkList)
  | TClusterLogSink => of_kind (zero_obj : ClusterLogSink)
  | TClusterLogSinkList => of_list (list_zero : ClusterLogSinkList)
  | TClusterMetricSink => of_kind (zero_obj : ClusterMetricSink)
  | TClusterMetricSinkList => of_list (list_zero : ClusterMetricSinkList)
  | _ => OtherObject
  end.

(** ** Names of kinds and resources ([runtime/schema]) *)

Record GroupVersionKind : Type := MkGVK { gvk_GroupVersion : GroupVersion; gvk_Kind : string }.
Record GroupVersionResource : Type := MkGVR { gvr_GroupVersion : GroupVersion; gvr_Resource : string }.
Record GroupKind : Type := MkGroupKind { gk_Group : string; gk_Kind : string }.

Definition WithKind (gv : GroupVersion) (kind : string) : GroupVersionKind :=
  {| gvk_GroupVersion := gv; gvk_Kind := kind |}.
Definition WithResource (gv : GroupVersion) (resource : string) : GroupVersionResource :=
  {| gvr_GroupVersion := gv; gvr_Resource := resource |}.
Definition gvr_GroupResource (r : GroupVersionResource) : GroupResource :=
  {| Group := gv_Group (gvr_GroupVersion r); gr_Resource := gvr_Resource r |}.

#[export] Instance GroupVersion_eq_dec : EqDecision GroupVersion.
Proof. solve_decision. Defined.
#[export] Instance GroupVersionKind_eq_dec : EqDecision GroupVersionKind.
Proof. solve_decision. Defined.
#[export] Instance GroupVersionResource_eq_dec : EqDecision GroupVersionResource.
Proof. solve_decision. Defined.

#[export] Instance GroupVersionKind_countable : Countable GroupVersionKind.
Proof.
  apply (inj_countable' (fun k => (gv_Group (gvk_GroupVersion k), gv_Version (gvk_GroupVersion k), gvk_Kind k))
           (fun '(g, v, k) => MkGVK (MkGroupVersion g v) k)).
  by intros [[g v] k].
Defined.

#[export] Instance GroupVersionResource_countable : Countable GroupVersionResource.
Proof.
  apply (inj_countable' (fun k => (gv_Group (gvr_GroupVersion k), gv_Version (gvr_GroupVersion k), gvr_Resource k))
           (fun '(g, v, k) => MkGVR (MkGroupVersion g v) k)).
  by intros [[g v] k].
Defined.

Definition APIVersionInternal : string := "__internal".

(** [register.go]'s [Kind]. *)
Definition kind_GroupKind (kind : string) : GroupKind :=
  let gvk := WithKind SchemeGroupVersion kind in
  {| gk_Group := gv_Group (gvk_GroupVersion gvk); gk_Kind := gvk_Kind gvk |}.

(** ** The registry *)

Record Scheme : Type := MkScheme {
  gvkToType : gmap GroupVersionKind GoType;
  typeToGVK : gmap GoType (list GroupVersionKind);
  unversionedTypes : gmap GoType GroupVersionKind;
  unversionedKinds : gmap string GoType;
  observedVersions : list GroupVersion;
}.

Definition NewScheme : Scheme :=
  {| gvkToType := ∅; typeToGVK := ∅; unversionedTypes := ∅; unversionedKinds := ∅; observedVersions := [] |}.

Definition addObservedVersion (version : GroupVersion) (s : Scheme) : Scheme :=
  if String.eqb (gv_Version version) EmptyString || String.eqb (gv_Version version) APIVersionInternal then s
  else if bool_decide (version ∈ observedVersions s) then s
  else {| gvkToType := gvkToType s; typeToGVK := typeToGVK s; unversionedTypes := unversionedTypes s;
          unversionedKinds := unversionedKinds s; observedVersions := observedVersions s ++ [version] |}.

Definition gvks_of (s : Scheme) (t : GoType) : list GroupVersionKind := default [] (typeToGVK s !! t).

(** The panics are those of a version that is missing and of a second
    registration with another type. *)
Definition AddKnownTypeWithName (gvk : GroupVersionKind) (t : GoType) (s : Scheme) : option Scheme :=
  let s := addObservedVersion (gvk_GroupVersion gvk) s in
  if String.eqb (gv_Version (gvk_GroupVersion gvk)) EmptyString then None
  else if match gvkToType s !! gvk with Some oldT => bool_decide (oldT <> t) | None => false end then None
  else
    Some {| gvkToType := <[gvk := t]> (gvkToType s);
            typeToGVK := if bool_decide (gvk ∈ gvks_of s t) then typeToGVK s
                         else <[t := gvks_of s t ++ [gvk]]> (typeToGVK s);
            unversionedTypes := unversionedTypes s; unversionedKinds := unversionedKinds s;
            observedVersions := observedVersions s |}.

Fixpoint add_each (f : GoType -> Scheme -> option Scheme) (types : list GoType) (s : Scheme) : option Scheme :=
  match types with
  | [] => Some s
  | t :: types => match f t s with Some s => add_each f types s | None => None end
  end.

Definition AddKnownTypes (gv : GroupVersion) (types : list GoType) (s : Scheme) : option Scheme :=
  add_each (fun t => AddKnownTypeWithName (WithKind gv (type_Name t)) t) types (addObservedVersion gv s).

Definition add_unversioned (version : GroupVersion) (t : GoType) (s : Scheme) : option Scheme :=
  let gvk := WithKind version (type_Name t) in
  if match unversionedKinds s !! gvk_Kind gvk with Some old => bool_decide (t <> old) | None => false end then None
  else
    Some {| gvkToType := gvkToType s; typeToGVK := typeToGVK s;
            unversionedTypes := <[t := gvk]> (unversionedTypes s);
            unversionedKinds := <[gvk_Kind gvk := t]> (unversionedKinds s);
            observedVersions := observedVersions s |}.

Definition AddUnversionedTypes (version : GroupVersion) (types : list GoType) (s : Scheme) : option Scheme :=
  match AddKnownTypes version types (addObservedVersion version s) with
  | Some s => add_each (add_unversioned version) types s
  | None => None
  end.

Definition errNotRegistered : string := "not registered".

(** The kinds of an object and whether it is unversioned. *)
Definition ObjectKinds (s : Scheme) (o : obj) : res string (list GroupVersionKind * bool) :=
  match type_of o with
  | None => Err errNotRegistered
  | Some t =>
      match typeToGVK s !! t with
      | None => Err errNotRegistered
      | Some gvks => Ok (gvks, match unversionedTypes s !! t with Some _ => true | None => false end)
      end
  end.

Definition Recognizes (s : Scheme) (gvk : GroupVersionKind) : bool :=
  match gvkToType s !! gvk with Some _ => true | None => false end.

Definition scheme_New (s : Scheme) (kind : GroupVersionKind) : res string obj :=
  match gvkToType s !! kind with
  | Some t => Ok (reflect_New t)
  | None =>
      match unversionedKinds s !! gvk_Kind kind with
      | Some t => Ok (reflect_New t)
      | None => Err errNotRegistered
      end
  end.

(** [metav1.AddToGroupVersion] *)
Definition WatchEventKind : string := "WatchEvent".
Definition Unversioned : GroupVersion := {| gv_Group := EmptyString; gv_Version := "v1" |}.

Definition AddToGroupVersion (groupVersion : GroupVersion) (s : Scheme) : option Scheme :=
  s ← AddKnownTypeWithName (WithKind groupVersion WatchEventKind) TWatchEvent s;
  s ← AddKnownTypeWithName
        (WithKind {| gv_Group := gv_Group groupVersion; gv_Version := APIVersionInternal |} WatchEventKind)
        TInternalEvent s;
  s ← AddKnownTypes groupVersion
        [TListOptions; TExportOptions; TGetOptions; TDeleteOptions; TCreateOptions; TUpdateOptions] s;
  AddUnversionedTypes Unversioned [TStatus; TAPIVersions; TAPIGroupList; TAPIGroup; TAPIResourceList] s.

(** ** Builders ([runtime/scheme_builder.go]) and the registration *)

Definition builder_func : Type := Scheme -> option (Scheme * option string).

Fixpoint SchemeBuilder_AddToScheme (sb : list builder_func) (s : Scheme) : option (Scheme * option string) :=
  match sb with
  | [] => Some (s, None)
  | f :: sb =>
      match f s with
      | None => None
      | Some (s, Some e) => Some (s, Some e)
      | Some (s, None) => SchemeBuilder_AddToScheme sb s
      end
  end.

Definition group_types : list GoType :=
  [TLogSink; TLogSinkList; TMetricSink; TMetricSinkList; TClusterLogSink; TClusterLogSinkList; TClusterMetricSink;
   TClusterMetricSinkList].

Definition addKnownTypes : builder_func := fun s =>
  s ← AddKnownTypes SchemeGroupVersion group_types s;
  s ← AddToGroupVersion SchemeGroupVersion s;
  Some (s, None).

Definition SchemeBuilder : list builder_func := [addKnownTypes].
Definition v1alpha1_AddToScheme : builder_func := SchemeBuilder_AddToScheme SchemeBuilder.

(** [scheme/register.go] and [fake/register.go], which are the same. *)
Definition localSchemeBuilder : list builder_func := [v1alpha1_AddToScheme].
Definition AddToScheme : builder_func := SchemeBuilder_AddToScheme localSchemeBuilder.

Definition scheme_init (s : Scheme) : option Scheme :=
  s ← AddToGroupVersion {| gv_Group := EmptyString; gv_Version := "v1" |} s;
  match AddToScheme s with
  | Some (s, None) => Some s
  | _ => None
  end.

(** ** The resource of a kind ([meta/restmapper.go]) *)

Definition unpluralizedSuffixes : list string := ["endpoints"].

Definition plural (singularName : string) : string :=
  if existsb (fun skip => HasSuffix singularName skip) unpluralizedSuffixes then singularName
  else if HasSuffixByte singularName "s" then singularName +:+ "es"
  else if HasSuffixByte singularName "y" then TrimSuffix singularName "y" +:+ "ies"
  else singularName +:+ "s".

Definition UnsafeGuessKindToResource (kind : GroupVersionKind) : GroupVersionResource * GroupVersionResource :=
  if String.eqb (gvk_Kind kind) EmptyString
  then (MkGVR (MkGroupVersion EmptyString EmptyString) EmptyString,
        MkGVR (MkGroupVersion EmptyString EmptyString) EmptyString)
  else
    let singularName := ToLower (gvk_Kind kind) in
    (WithResource (gvk_GroupVersion kind) (plural singularName),
     WithResource (gvk_GroupVersion kind) singularName).

(** ** Well-formed registries

    The two maps are inverse of each other, and no type has a kind twice. *)

Definition scheme_ok (s : Scheme) : Prop :=
  (forall gvk t, gvkToType s !! gvk = Some t <-> gvk ∈ gvks_of s t) /\ (forall t, NoDup (gvks_of s t)).

(** [s'] has what [s] has. *)
Definition scheme_le (s s' : Scheme) : Prop := gvkToType s ⊆ gvkToType s'.

#[export] Instance scheme_le_preorder : PreOrder scheme_le.
Proof. split; [by intros s; unfold scheme_le|]. intros s1 s2 s3 H1 H2. unfold scheme_le in *. by etrans. Qed.

Lemma NewScheme_ok : scheme_ok NewScheme.
Proof.
  split; [|intros t; apply NoDup_nil_2].
  intros gvk t. change ((∅ : gmap GroupVersionKind GoType) !! gvk = Some t <-> gvk ∈ @nil GroupVersionKind).
  rewrite lookup_empty. split; [done|]. by intros ?%elem_of_nil.
Qed.

Lemma observe_ok v s : scheme_ok s -> scheme_ok (addObservedVersion v s) /\ scheme_le s (addObservedVersion v s).
Proof.
  intros Hs. unfold addObservedVersion. destruct (_ || _); [by split|].
  by destruct (bool_decide _); split; try exact Hs; unfold scheme_le.
Qed.

Lemma AddKnownTypeWithName_ok gvk t s s' :
  scheme_ok s -> AddKnownTypeWithName gvk t s = Some s' ->
  scheme_ok s' /\ scheme_le s s' /\ gvkToType s' !! gvk = Some t.
Proof.
  intros Hs. unfold AddKnownTypeWithName.
  destruct (observe_ok (gvk_GroupVersion gvk) s Hs) as [Hs1 Hle]. clear Hs.
  set (s1 := addObservedVersion _ s) in *. clearbody s1. destruct Hs1 as [Hinv Hnd].
  destruct (String.eqb _ _); [done|].
  destruct (gvkToType s1 !! gvk) as [oldT|] eqn:Eold.
  - destruct (bool_decide _) eqn:Eb; [done|]. apply bool_decide_eq_false in Eb.
    assert (oldT = t) as -> by (destruct (decide (oldT = t)); tauto).
    intros [= <-]. assert (gvk ∈ gvks_of s1 t) as Hin by by apply Hinv.
    rewrite bool_decide_true by done. rewrite insert_id by done. cbn. by split; [split|split].
  - intros [= <-]. assert (gvk ∉ gvks_of s1 t) as Hin by (intros Hin%Hinv; congruence).
    rewrite bool_decide_false by done. cbn.
    assert (forall t', gvks_of {| gvkToType := <[gvk:=t]> (gvkToType s1);
                                  typeToGVK := <[t:=gvks_of s1 t ++ [gvk]]> (typeToGVK s1);
                                  unversionedTypes := unversionedTypes s1; unversionedKinds := unversionedKinds s1;
                                  observedVersions := observedVersions s1 |} t'
              = gvks_of s1 t' ++ (if decide (t' = t) then [gvk] else [])) as Hof.
    { intros t'. unfold gvks_of; cbn. destruct (decide (t' = t)) as [->|Hne].
      - by rewrite lookup_insert_eq.
      - by rewrite lookup_insert_ne, app_nil_r by done. }
    split; [|split]; [split| |by rewrite lookup_insert_eq].
    + intros gvk' t'. rewrite Hof. cbn. rewrite lookup_insert_Some, elem_of_app, <- Hinv.
      destruct (decide (t' = t)) as [->|Hne].
      * rewrite list_elem_of_singleton. split; [naive_solver|]. intros [H1| ->]; [|naive_solver].
        right; split; [|done]. congruence.
      * split; [naive_solver|]. intros [H1|?%elem_of_nil]; [|done]. right; split; [|done]. congruence.
    + intros t'. rewrite Hof. apply NoDup_app. split; [done|]. destruct (decide (t' = t)) as [->|Hne].
      * split; [intros x Hx ->%list_elem_of_singleton; done|]. apply NoDup_singleton.
      * split; [by intros x Hx ?%elem_of_nil|constructor].
    + etrans; [done|]. unfold scheme_le; cbn. by apply insert_subseteq.
Qed.

(** A step of registration keeps a registry well formed and what it has. *)
Definition grows (f : Scheme -> option Scheme) : Prop :=
  forall s s', scheme_ok s -> f s = Some s' -> scheme_ok s' /\ scheme_le s s'.

Lemma grows_bind f g : grows f -> grows g -> grows (fun s => s ← f s; g s).
Proof.
  intros Hf Hg s s' Hs (s1 & E1 & E2)%bind_Some.
  destruct (Hf s s1 Hs E1) as [Hs1 Hle]. destruct (Hg s1 s' Hs1 E2) as [Hs2 Hle2]. split; [done|by etrans].
Qed.

Lemma grows_add_each f types : (forall t, grows (f t)) -> grows (add_each f types).
Proof.
  intros Hf. induction types as [|t types IH]; intros s s' Hs; cbn [add_each]; [by intros [= <-]|].
  destruct (f t s) as [s1|] eqn:E1; [|done]. intros E2.
  destruct (Hf t s s1 Hs E1) as [Hs1 Hle]. destruct (IH s1 s' Hs1 E2) as [Hs2 Hle2]. split; [done|by etrans].
Qed.

Lemma grows_known gvk t : grows (AddKnownTypeWithName gvk t).
Proof. intros s s' Hs E. by destruct (AddKnownTypeWithName_ok gvk t s s' Hs E) as (?&?&_). Qed.

Lemma grows_AddKnownTypes gv types : grows (AddKnownTypes gv types).
Proof.
  intros s s' Hs. unfold AddKnownTypes. destruct (observe_ok gv s Hs) as [Hs1 Hle]. intros E.
  assert (grows (add_each (fun t => AddKnownTypeWithName (WithKind gv (type_Name t)) t) types)) as Hg.
  { apply grows_add_each. intros t. apply grows_known. }
  destruct (Hg _ _ Hs1 E). split; [done|by etrans].
Qed.

Lemma grows_unversioned gv t : grows (add_unversioned gv t).
Proof.
  intros s s' Hs. unfold add_unversioned. destruct (unversionedKinds s !! _) as [old|]; [destruct (bool_decide _)|];
    (intros [= <-]; split; [exact Hs|unfold scheme_le; done]) || done.
Qed.

Lemma grows_AddUnversionedTypes gv types : grows (AddUnversionedTypes gv types).
Proof.
  intros s s' Hs. unfold AddUnversionedTypes. destruct (observe_ok gv s Hs) as [Hs1 Hle].
  destruct (AddKnownTypes _ _ _) as [s1|] eqn:E1; [|done]. intros E2.
  destruct (grows_AddKnownTypes _ _ _ _ Hs1 E1) as [Hs2 Hle2].
  destruct (grows_add_each _ types (grows_unversioned gv) _ _ Hs2 E2). split; [done|]. by do 2 (etrans; [done|]).
Qed.

Lemma grows_AddToGroupVersion gv : grows (AddToGroupVersion gv).
Proof.
  unfold AddToGroupVersion.
  apply grows_bind; [apply grows_known|]. apply grows_bind; [apply grows_known|].
  apply grows_bind; [apply grows_AddKnownTypes|apply grows_AddUnversionedTypes].
Qed.

Lemma add_each_registers gv types s s' t :
  scheme_ok s -> add_each (fun t => AddKnownTypeWithName (WithKind gv (type_Name t)) t) types s = Some s' ->
  t ∈ types -> gvkToType s' !! WithKind gv (type_Name t) = Some t.
Proof.
  revert s. induction types as [|t1 types IH]; intros s Hs; cbn [add_each]; [by intros _ ?%elem_of_nil|].
  destruct (AddKnownTypeWithName _ _ s) as [s1|] eqn:E1; [|done].
  destruct (AddKnownTypeWithName_ok _ _ _ _ Hs E1) as (Hs1 & Hle & Hreg).
  intros E2 [->|Hin]%elem_of_cons; [|by apply (IH s1)].
  destruct (grows_add_each _ types (fun t => grows_known (WithKind gv (type_Name t)) t) _ _ Hs1 E2) as [_ Hle2].
  by eapply lookup_weaken.
Qed.

Lemma grows_builder sb :
  Forall (fun f : builder_func => forall s s' e, scheme_ok s -> f s = Some (s', e) -> scheme_ok s' /\ scheme_le s s') sb ->
  forall s s' e, scheme_ok s -> SchemeBuilder_AddToScheme sb s = Some (s', e) -> scheme_ok s' /\ scheme_le s s'.
Proof.
  intros Hsb. induction Hsb as [|f sb Hf _ IH]; intros s s' e Hs; cbn [SchemeBuilder_AddToScheme].
  { by intros [= <- _]. }
  destruct (f s) as [[s1 [e1|]]|] eqn:E1; [|intros E2|done].
  - intros [= <- _]. by apply (Hf s s1 (Some e1)).
  - destruct (Hf s s1 None Hs E1) as [Hs1 Hle]. destruct (IH s1 s' e Hs1 E2). split; [done|by etrans].
Qed.

Lemma addKnownTypes_registers s s' e :
  scheme_ok s -> addKnownTypes s = Some (s', e) ->
  scheme_ok s' /\ scheme_le s s' /\
  (forall t, t ∈ group_types -> gvkToType s' !! WithKind SchemeGroupVersion (type_Name t) = Some t).
Proof.
  intros Hs (s1 & E1 & (s2 & E2 & [= <- _])%bind_Some)%bind_Some.
  destruct (grows_AddKnownTypes _ _ _ _ Hs E1) as [Hs1 Hle1].
  destruct (grows_AddToGroupVersion _ _ _ Hs1 E2) as [Hs2 Hle2].
  split; [done|]. split; [by etrans|]. intros t Ht. eapply lookup_weaken, Hle2.
  destruct (observe_ok SchemeGroupVersion s Hs) as [Hs0 _]. by apply (add_each_registers _ _ _ _ _ Hs0 E1).
Qed.

(** [AddToScheme] is [addKnownTypes] behind two builders of one function. *)
Lemma AddToScheme_eq s s' e : AddToScheme s = Some (s', e) -> addKnownTypes s = Some (s', e).
Proof.
  unfold AddToScheme, localSchemeBuilder, v1alpha1_AddToScheme, SchemeBuilder. cbn [SchemeBuilder_AddToScheme].
  by destruct (addKnownTypes s) as [[s1 [e1|]]|].
Qed.

Lemma scheme_init_registers s s' :
  scheme_ok s -> scheme_init s = Some s' ->
  scheme_ok s' /\ scheme_le s s' /\
  (forall t, t ∈ group_types -> gvkToType s' !! WithKind SchemeGroupVersion (type_Name t) = Some t).
Proof.
  intros Hs (s1 & E1 & E2)%bind_Some. destruct (grows_AddToGroupVersion _ _ _ Hs E1) as [Hs1 Hle1].
  destruct (AddToScheme s1) as [[s2 [e|]]|] eqn:E; [done| |done]. injection E2 as ->.
  destruct (addKnownTypes_registers _ _ _ Hs1 (AddToScheme_eq _ _ _ E)) as (?&?&?). split; [done|]. by split; [etrans|].
Qed.

Lemma type_of_New t : t ∈ group_types -> type_of (reflect_New t) = Some t.
Proof.
  revert t. apply (proj1 (Forall_forall (fun t => type_of (reflect_New t) = Some t) group_types)). by repeat constructor.
Qed.

Lemma type_of_group o t : type_of o = Some t -> t ∈ group_types.
Proof. unfold group_types. intros E. by destruct o; inversion E; subst; set_solver. Qed.

(** The scheme of the clientset and of its fake. *)
Definition clientset_Scheme : Scheme := default NewScheme (scheme_init NewScheme).

(** A kind of the group, by the names it goes by. *)
Record kind_names : Type := MkKindNames { kn_type : GoType; kn_list : GoType; kn_resource : string }.

Definition sink_kinds : list kind_names :=
  [MkKindNames TLogSink TLogSinkList "logsinks"; MkKindNames TClusterLogSink TClusterLogSinkList "clusterlogsinks";
   MkKindNames TMetricSink TMetricSinkList "metricsinks";
   MkKindNames TClusterMetricSink TClusterMetricSinkList "clustermetricsinks"].

Definition kind_registered (s : Scheme) (k : kind_names) : Prop :=
  let gvk := WithKind SchemeGroupVersion (type_Name (kn_type k)) in
  gvks_of s (kn_type k) = [gvk] /\ unversionedTypes s !! kn_type k = None /\
  scheme_New s gvk = Ok (reflect_New (kn_type k)) /\
  scheme_New s (WithKind SchemeGroupVersion (gvk_Kind gvk +:+ "List")) = Ok (reflect_New (kn_list k)) /\
  fst (UnsafeGuessKindToResource gvk) = WithResource SchemeGroupVersion (kn_resource k).

Lemma clientset_Scheme_eq : scheme_init NewScheme = Some clientset_Scheme.
Proof.
  unfold clientset_Scheme. assert (bool_decide (is_Some (scheme_init NewScheme)) = true) as Hi by (vm_compute; reflexivity).
  apply bool_decide_eq_true in Hi as [s ->]. done.
Qed.

#[export] Instance Scheme_eq_dec : EqDecision Scheme.
Proof. solve_decision. Defined.

(** Registering the group again changes nothing. *)
Lemma clientset_Scheme_again : scheme_init clientset_Scheme = Some clientset_Scheme.
Proof.
  assert (bool_decide (scheme_init clientset_Scheme = Some clientset_Scheme) = true) as Hi by (vm_compute; reflexivity).
  by apply bool_decide_eq_true in Hi.
Qed.

Lemma clientset_Scheme_ok : scheme_ok clientset_Scheme.
Proof. by apply (scheme_init_registers NewScheme), clientset_Scheme_eq; apply NewScheme_ok. Qed.

Lemma sinks_registered_kinds : Forall (kind_registered clientset_Scheme) sink_kinds.
Proof.
  repeat first [apply Forall_nil_2|apply Forall_cons_2]; unfold kind_registered; repeat split; vm_compute; reflexivity.
Qed.

(** ** Properties *)

(** C36: typing of the registry.  Whatever well-formed registry [init] starts
    from, either it panics or the result is well formed and has what was there
    before; and in the result every object of the group's types has kinds: the
    name of its Go type in [observability.knative.dev/v1alpha1] is one, and for
    each of them [New] makes an object of that same Go type. *)
Theorem registration_typed (s s' : Scheme) :
  scheme_ok s -> scheme_init s = Some s' ->
  scheme_ok s' /\ gvkToType s ⊆ gvkToType s' /\
  (forall o t, type_of o = Some t ->
     exists gvks unversioned, ObjectKinds s' o = Ok (gvks, unversioned) /\
       WithKind SchemeGroupVersion (type_Name t) ∈ gvks /\
       (forall gvk, gvk ∈ gvks -> exists o', scheme_New s' gvk = Ok o' /\ type_of o' = Some t)).
Proof.
  intros Hs E. destruct (scheme_init_registers s s' Hs E) as (Hs' & Hle & Hreg). split; [done|]. split; [done|].
  intros o t Ho. pose proof (type_of_group o t Ho) as Ht. destruct Hs' as [Hinv _].
  pose proof (proj1 (Hinv _ _) (Hreg t Ht)) as Hin. unfold ObjectKinds. rewrite Ho. unfold gvks_of in Hin.
  destruct (typeToGVK s' !! t) as [gvks|] eqn:Eg; cbn in Hin; [|by apply elem_of_nil in Hin].
  do 2 eexists. split; [done|]. split; [done|]. intros gvk Hgvk.
  assert (gvkToType s' !! gvk = Some t) as El by (apply Hinv; unfold gvks_of; by rewrite Eg).
  exists (reflect_New t). unfold scheme_New. rewrite El. by rewrite type_of_New.
Qed.

Lemma registration_typed_witness :
  exists gvks unversioned,
    ObjectKinds clientset_Scheme (AMetricSinkList list_zero) = Ok (gvks, unversioned) /\
    WithKind SchemeGroupVersion "MetricSinkList" ∈ gvks.
Proof.
  destruct (registration_typed NewScheme clientset_Scheme NewScheme_ok clientset_Scheme_eq) as (_ & _ & H1).
  destruct (H1 (AMetricSinkList list_zero) TMetricSinkList eq_refl) as (g & u & E & Hin & _).
  exists g, u. split; [exact E|exact Hin].
Defined.

(** the schemes of the clientset and of its fake: registration does not
    panic and is idempotent; each of the four kinds has exactly one kind name,
    is not unversioned, has its list type under the name the object tracker
    derives ([Kind] followed by "List"), and the resource the tracker guesses
    from the kind is the one the clients and the fakes send. *)
Lemma sinks_registered :
  scheme_init NewScheme = Some clientset_Scheme /\ scheme_init clientset_Scheme = Some clientset_Scheme /\
  Forall (kind_registered clientset_Scheme) sink_kinds.
Proof. split; [apply clientset_Scheme_eq|]. split; [apply clientset_Scheme_again|apply sinks_registered_kinds]. Qed.
