(* ===== verification/ObjectTracker.v ===== *)
(** * The store behind the fake clients (client-go's [testing], vendored)

    [tracker] of [testing/fixture.go] keeps the objects of each resource in a
    slice and tells the watches of a change; [ObjectReaction] gives the answer
    to an action of a client.  A watch is a channel of 100 events, and a
    change that finds one full panics: such a run has no result, [None].  The
    lock is held for the whole of a method.  A stored object is a copy that
    only the watches share, so a store of values is the same as one of
    pointers as long as the reader of a watch does not write to an event. *)

From stdpp Require Import base gmap strings list.
From Stdlib Require Import Ascii Lia.
From S2P Require Import Prelude GoStd GoPath Types Cache Listers RestRequest TypedClients Scheme.

(** ** Errors ([api/errors])

    A bad request has the two namespaces that do not agree in its message. *)

Inductive api_error : Type :=
| ErrNotFound (r : GroupResource) (name : string)
| ErrAlreadyExists (r : GroupResource) (name : string)
| ErrBadRequest (request_namespace object_namespace : string)
| ErrText (e : string).

(** ** Objects and lists *)

Definition ObjectMeta_SetNamespace (ns : string) (m : ObjectMeta) : ObjectMeta :=
  {| Name := Name m; GenerateName := GenerateName m; Namespace := ns; SelfLink := SelfLink m; UID := UID m;
     ResourceVersion := ResourceVersion m; Generation := Generation m; CreationTimestamp := CreationTimestamp m;
     DeletionTimestamp := DeletionTimestamp m; DeletionGracePeriodSeconds := DeletionGracePeriodSeconds m;
     Labels := Labels m; Annotations := Annotations m; OwnerReferences := OwnerReferences m; meta_Initializers := meta_Initializers m;
     Finalizers := Finalizers m; ClusterName := ClusterName m |}.

(** [SetNamespace] of an object's metadata. *)
Definition set_namespace (ns : string) (o : obj) : obj :=
  match o with
  | ALogSink s => ALogSink {| ls_TypeMeta := ls_TypeMeta s;
                              ls_ObjectMeta := ObjectMeta_SetNamespace ns (ls_ObjectMeta s); ls_Spec := ls_Spec s |}
  | AClusterLogSink s =>
      AClusterLogSink {| cls_TypeMeta := cls_TypeMeta s;
                         cls_ObjectMeta := ObjectMeta_SetNamespace ns (cls_ObjectMeta s); cls_Spec := cls_Spec s |}
  | AMetricSink s => AMetricSink {| ms_TypeMeta := ms_TypeMeta s;
                                    ms_ObjectMeta := ObjectMeta_SetNamespace ns (ms_ObjectMeta s);
                                    ms_Spec := ms_Spec s; ms_Status := ms_Status s |}
  | AClusterMetricSink s =>
      AClusterMetricSink {| cms_TypeMeta := cms_TypeMeta s;
                            cms_ObjectMeta := ObjectMeta_SetNamespace ns (cms_ObjectMeta s);
                            cms_Spec := cms_Spec s; cms_Status := cms_Status s |}
  | _ => o
  end.

(** [meta.IsListType] and [meta.ExtractList]. *)
Definition ExtractList (o : obj) : option (list obj) :=
  match o with
  | ALogSinkList l => Some (map ALogSink (default [] (Items l)))
  | AClusterLogSinkList l => Some (map AClusterLogSink (default [] (Items l)))
  | AMetricSinkList l => Some (map AMetricSink (default [] (Items l)))
  | AClusterMetricSinkList l => Some (map AClusterMetricSink (default [] (Items l)))
  | _ => None
  end.

Definition IsListType (o : obj) : bool := match ExtractList o with Some _ => true | None => false end.

(** The element of a list made of an object: of its type, or of a struct type
    with the same fields, which converts. *)
Definition to_LogSink (o : obj) : option LogSink :=
  match o with
  | ALogSink s => Some s
  | AClusterLogSink s =>
      Some {| ls_TypeMeta := cls_TypeMeta s; ls_ObjectMeta := cls_ObjectMeta s; ls_Spec := cls_Spec s |}
  | _ => None
  end.
Definition to_ClusterLogSink (o : obj) : option ClusterLogSink :=
  match o with
  | AClusterLogSink s => Some s
  | ALogSink s =>
      Some {| cls_TypeMeta := ls_TypeMeta s; cls_ObjectMeta := ls_ObjectMeta s; cls_Spec := ls_Spec s |}
  | _ => None
  end.
Definition to_MetricSink (o : obj) : option MetricSink :=
  match o with
  | AMetricSink s => Some s
  | AClusterMetricSink s =>
      Some {| ms_TypeMeta := cms_TypeMeta s; ms_ObjectMeta := cms_ObjectMeta s; ms_Spec := cms_Spec s;
              ms_Status := cms_Status s |}
  | _ => None
  end.
Definition to_ClusterMetricSink (o : obj) : option ClusterMetricSink :=
  match o with
  | AClusterMetricSink s => Some s
  | AMetricSink s =>
      Some {| cms_TypeMeta := ms_TypeMeta s; cms_ObjectMeta := ms_ObjectMeta s; cms_Spec := ms_Spec s;
              cms_Status := ms_Status s |}
  | _ => None
  end.

Definition set_items {A} (wrap : ListOf A -> obj) (l : ListOf A) (to : obj -> option A) (objects : list obj)
    : res api_error obj :=
  match mapM to objects with
  | Some xs => Ok (wrap {| lst_TypeMeta := lst_TypeMeta l; lst_ListMeta := lst_ListMeta l; Items := Some xs |})
  | None => Err (ErrText "can't assign or convert")
  end.

(** [meta.SetList] *)
Definition SetList (list_obj : obj) (objects : list obj) : res api_error obj :=
  match list_obj with
  | ALogSinkList l => set_items ALogSinkList l to_LogSink objects
  | AClusterLogSinkList l => set_items AClusterLogSinkList l to_ClusterLogSink objects
  | AMetricSinkList l => set_items AMetricSinkList l to_MetricSink objects
  | AClusterMetricSinkList l => set_items AClusterMetricSinkList l to_ClusterMetricSink objects
  | _ => Err (ErrText "not a list")
  end.

(** ** Watches ([apimachinery/pkg/watch]) *)

Inductive watch_event : Type := Added (o : obj) | Modified (o : obj) | Deleted (o : obj).

Record RaceFreeFakeWatcher : Type := MkWatcher { result : list watch_event; Stopped : bool }.

Definition DefaultChanSize : nat := 100.

Definition NewRaceFreeFake : RaceFreeFakeWatcher := {| result := []; Stopped := false |}.

Definition watcher_send (e : watch_event) (f : RaceFreeFakeWatcher) : option RaceFreeFakeWatcher :=
  if Stopped f then Some f
  else if (length (result f) <? DefaultChanSize)%nat
  then Some {| result := result f ++ [e]; Stopped := Stopped f |}
  else None.

Definition watcher_Stop (f : RaceFreeFakeWatcher) : RaceFreeFakeWatcher := {| result := result f; Stopped := true |}.

(** Taking an event out of the channel. *)
Definition watcher_receive (f : RaceFreeFakeWatcher) : option (watch_event * RaceFreeFakeWatcher) :=
  match result f with
  | e :: es => Some (e, {| result := es; Stopped := Stopped f |})
  | [] => None
  end.

(** ** The tracker ([testing/fixture.go]) *)

(** A watch is its number in [channels]. *)
Record tracker : Type := MkTracker {
  scheme : Scheme;
  objects : gmap GroupVersionResource (list obj);
  watchers : gmap GroupVersionResource (gmap string (list nat));
  channels : list RaceFreeFakeWatcher;
}.

Definition NewObjectTracker (s : Scheme) : tracker :=
  {| scheme := s; objects := ∅; watchers := ∅; channels := [] |}.

Definition set_objects (m : gmap GroupVersionResource (list obj)) (t : tracker) : tracker :=
  {| scheme := scheme t; objects := m; watchers := watchers t; channels := channels t |}.
Definition set_channels (cs : list RaceFreeFakeWatcher) (t : tracker) : tracker :=
  {| scheme := scheme t; objects := objects t; watchers := watchers t; channels := cs |}.

Fixpoint filterByNamespaceAndName (objs : list obj) (ns name : string) : res api_error (list obj) :=
  match objs with
  | [] => Ok []
  | o :: objs =>
      match Accessor o with
      | Err e => Err (ErrText e)
      | Ok acc =>
          match filterByNamespaceAndName objs ns name with
          | Err e => Err e
          | Ok res =>
              if negb (String.eqb ns EmptyString) && negb (String.eqb (Namespace acc) ns) then Ok res
              else if negb (String.eqb name EmptyString) && negb (String.eqb (Name acc) name) then Ok res
              else Ok (o :: res)
          end
      end
  end.

Definition tracker_getWatches (t : tracker) (gvr : GroupVersionResource) (ns : string) : list nat :=
  match watchers t !! gvr with
  | None => []
  | Some m => default [] (m !! ns) ++ default [] (m !! EmptyString)
  end.

(** Send an event to each of the watches. *)
Fixpoint send_all (ws : list nat) (e : watch_event) (cs : list RaceFreeFakeWatcher) : option (list RaceFreeFakeWatcher) :=
  match ws with
  | [] => Some cs
  | w :: ws =>
      match cs !! w with
      | None => send_all ws e cs
      | Some f =>
          match watcher_send e f with
          | Some f => send_all ws e (<[w := f]> cs)
          | None => None
          end
      end
  end.

Definition notify (gvr : GroupVersionResource) (ns : string) (e : watch_event) (t : tracker) : option tracker :=
  cs ← send_all (tracker_getWatches t gvr ns) e (channels t);
  Some (set_channels cs t).

Section Tracker.
Context `{MetaCopy} `{MapRange}.

Definition obj_DeepCopyObject (o : obj) : obj :=
  match o with
  | ALogSink s => ALogSink (LogSink_DeepCopyInto s)
  | AClusterLogSink s => AClusterLogSink (ClusterLogSink_DeepCopyInto s)
  | AMetricSink s => AMetricSink (MetricSink_DeepCopyInto s)
  | AClusterMetricSink s => AClusterMetricSink (ClusterMetricSink_DeepCopyInto s)
  | ALogSinkList l => ALogSinkList (LogSinkList_DeepCopyInto l)
  | AClusterLogSinkList l => AClusterLogSinkList (ClusterLogSinkList_DeepCopyInto l)
  | AMetricSinkList l => AMetricSinkList (MetricSinkList_DeepCopyInto l)
  | AClusterMetricSinkList l => AClusterMetricSinkList (ClusterMetricSinkList_DeepCopyInto l)
  | ACoreEvent _ | DeletedFinalState _ _ | OtherObject => o
  end.

Definition tracker_List (t : tracker) (gvr : GroupVersionResource) (gvk : GroupVersionKind) (ns : string)
    : res api_error obj :=
  let gv := gvk_GroupVersion gvk in
  let listGVK :=
    WithKind (if String.eqb (gv_Version gv) EmptyString then MkGroupVersion (gv_Group gv) APIVersionInternal else gv)
             (gvk_Kind gvk +:+ "List") in
  match scheme_New (scheme t) listGVK with
  | Err e => Err (ErrText e)
  | Ok list_obj =>
      if negb (IsListType list_obj) then Err (ErrText "not a list type")
      else
        match objects t !! gvr with
        | None => Ok list_obj
        | Some objs =>
            match filterByNamespaceAndName objs ns EmptyString with
            | Err e => Err e
            | Ok matchingObjs =>
                match SetList list_obj matchingObjs with
                | Err e => Err e
                | Ok l => Ok (obj_DeepCopyObject l)
                end
            end
        end
  end.

Definition tracker_Watch (gvr : GroupVersionResource) (ns : string) (t : tracker) : tracker * res api_error nat :=
  let fakewatcher := length (channels t) in
  let m := default ∅ (watchers t !! gvr) in
  ({| scheme := scheme t; objects := objects t;
      watchers := <[gvr := <[ns := default [] (m !! ns) ++ [fakewatcher]]> m]> (watchers t);
      channels := channels t ++ [NewRaceFreeFake] |}, Ok fakewatcher).

(** An object here is never a [metav1.Status]. *)
Definition tracker_Get (t : tracker) (gvr : GroupVersionResource) (ns name : string) : res api_error obj :=
  let errNotFound := ErrNotFound (gvr_GroupResource gvr) name in
  match objects t !! gvr with
  | None => Err errNotFound
  | Some objs =>
      match filterByNamespaceAndName objs ns name with
      | Err e => Err e
      | Ok [] => Err errNotFound
      | Ok [o] => Ok (obj_DeepCopyObject o)
      | Ok _ => Err (ErrText "more than one object matched")
      end
  end.

(** The first object with a namespace and a name; an object without metadata
    before it is an error. *)
Fixpoint find_object (objs : list obj) (ns name : string) (i : nat) : res api_error (option nat) :=
  match objs with
  | [] => Ok None
  | o :: objs =>
      match Accessor o with
      | Err e => Err (ErrText e)
      | Ok m =>
          if String.eqb (Namespace m) ns && String.eqb (Name m) name then Ok (Some i)
          else find_object objs ns name (S i)
      end
  end.

Definition tracker_add (gvr : GroupVersionResource) (o : obj) (ns : string) (replaceExisting : bool) (t : tracker)
    : option (tracker * option api_error) :=
  let gr := gvr_GroupResource gvr in
  let o := obj_DeepCopyObject o in
  match Accessor o with
  | Err e => Some (t, Some (ErrText e))
  | Ok newMeta0 =>
      let o := if String.eqb (Namespace newMeta0) EmptyString then set_namespace ns o else o in
      let newMeta :=
        if String.eqb (Namespace newMeta0) EmptyString then ObjectMeta_SetNamespace ns newMeta0 else newMeta0 in
      if negb (String.eqb ns (Namespace newMeta))
      then Some (t, Some (ErrBadRequest ns (Namespace newMeta)))
      else
        let objs := default [] (objects t !! gvr) in
        match find_object objs (Namespace newMeta) (Name newMeta) 0 with
        | Err e => Some (t, Some e)
        | Ok (Some i) =>
            if replaceExisting then
              t ← notify gvr ns (Modified o) t;
              Some (set_objects (<[gvr := <[i := o]> objs]> (objects t)) t, None)
            else Some (t, Some (ErrAlreadyExists gr (Name newMeta)))
        | Ok None =>
            if replaceExisting then Some (t, Some (ErrNotFound gr (Name newMeta)))
            else
              t ← notify gvr ns (Added o) (set_objects (<[gvr := objs ++ [o]]> (objects t)) t);
              Some (t, None)
        end
  end.

Definition tracker_Create (gvr : GroupVersionResource) (o : obj) (ns : string) (t : tracker) :=
  tracker_add gvr o ns false t.
Definition tracker_Update (gvr : GroupVersionResource) (o : obj) (ns : string) (t : tracker) :=
  tracker_add gvr o ns true t.

Definition tracker_Delete (gvr : GroupVersionResource) (ns name : string) (t : tracker)
    : option (tracker * option api_error) :=
  let objs := default [] (objects t !! gvr) in
  match find_object objs ns name 0 with
  | Err e => Some (t, Some e)
  | Ok None => Some (t, Some (ErrNotFound (gvr_GroupResource gvr) name))
  | Ok (Some i) =>
      let o := default OtherObject (objs !! i) in
      t ← notify gvr ns (Deleted o) (set_objects (<[gvr := delete i objs]> (objects t)) t);
      Some (t, None)
  end.

(** The kinds of an object, added one after the other. *)
Fixpoint add_gvks (gvks : list GroupVersionKind) (o : obj) (ns : string) (t : tracker)
    : option (tracker * option api_error) :=
  match gvks with
  | [] => Some (t, None)
  | gvk :: gvks =>
      let gvr0 := fst (UnsafeGuessKindToResource gvk) in
      let gv := gvr_GroupVersion gvr0 in
      let gvr :=
        if String.eqb (gv_Version gv) APIVersionInternal
        then MkGVR (MkGroupVersion (gv_Group gv) EmptyString) (gvr_Resource gvr0) else gvr0 in
      match tracker_add gvr o ns false t with
      | None => None
      | Some (t, Some e) => Some (t, Some e)
      | Some (t, None) => add_gvks gvks o ns t
      end
  end.

(** [Add] of an object that is not a list. *)
Definition tracker_Add1 (o : obj) (t : tracker) : option (tracker * option api_error) :=
  match Accessor o with
  | Err e => Some (t, Some (ErrText e))
  | Ok objMeta =>
      match ObjectKinds (scheme t) o with
      | Err e => Some (t, Some (ErrText e))
      | Ok ([], _) => Some (t, Some (ErrText "no registered kinds"))
      | Ok (gvks, _) => add_gvks gvks o (Namespace objMeta) t
      end
  end.

Fixpoint tracker_addEach (objs : list obj) (t : tracker) : option (tracker * option api_error) :=
  match objs with
  | [] => Some (t, None)
  | o :: objs =>
      match tracker_Add1 o t with
      | None => None
      | Some (t, Some e) => Some (t, Some e)
      | Some (t, None) => tracker_addEach objs t
      end
  end.

(** [Add], and [addList] for a list, whose items are not lists and need no
    decoding. *)
Definition tracker_Add (o : obj) (t : tracker) : option (tracker * option api_error) :=
  match ExtractList o with
  | Some objs => tracker_addEach objs t
  | None => tracker_Add1 o t
  end.

End Tracker.

(** ** Kinds the tracker stores *)

Class FakeKind (T : Type) `{CK : ClientKind T} `{MetaCopy} `{MapRange} := {
  set_ns : string -> T -> T;
  copy_kind : T -> T;
  set_ns_obj : forall ns x, set_namespace ns (of_kind x) = of_kind (set_ns ns x);
  set_ns_meta : forall ns x, kind_meta (set_ns ns x) = ObjectMeta_SetNamespace ns (kind_meta x);
  set_ns_same : forall x, set_ns (Namespace (kind_meta x)) x = x;
  copy_obj : forall x, obj_DeepCopyObject (of_kind x) = of_kind (copy_kind x);
  copy_meta : forall x, kind_meta (copy_kind x) = kind_meta x;
  copy_twice : forall x, copy_kind (copy_kind x) = copy_kind x;
  copy_set_ns : forall ns x, copy_kind (set_ns ns x) = set_ns ns (copy_kind x);
  same_type : forall o x, type_of o = type_of (of_kind x) -> exists y, o = of_kind y;
  is_list : forall l, IsListType (of_list l) = true;
  set_list : forall l xs, SetList (of_list l) (map of_kind xs)
    = Ok (of_list {| lst_TypeMeta := lst_TypeMeta l; lst_ListMeta := lst_ListMeta l; Items := Some xs |});
  copy_list : forall l, obj_DeepCopyObject (of_list l) = of_list (List_DeepCopyInto copy_kind l);
}.

Lemma mapM_of_kind {T} (of_kind : T -> obj) (to : obj -> option T) xs :
  (forall x, to (of_kind x) = Some x) -> mapM to (map of_kind xs) = Some xs.
Proof. intros Hto. induction xs as [|x xs IH]; cbn; [done|]. by rewrite Hto, IH. Qed.

Section Instances.
Context `{MetaCopy} `{MapRange}.

#[export, refine] Instance LogSink_fake : FakeKind LogSink :=
  {| set_ns := fun ns s => {| ls_TypeMeta := ls_TypeMeta s;
                              ls_ObjectMeta := ObjectMeta_SetNamespace ns (ls_ObjectMeta s); ls_Spec := ls_Spec s |};
     copy_kind := LogSink_DeepCopyInto |}.
Proof.
  all: try done; intros; try (by rewrite !LogSink_copy_id); try (by destruct x as [? [] ?]); try (destruct o; try discriminate; by eexists).
  cbn. unfold set_items. by rewrite mapM_of_kind.
Defined.

#[export, refine] Instance ClusterLogSink_fake : FakeKind ClusterLogSink :=
  {| set_ns := fun ns s => {| cls_TypeMeta := cls_TypeMeta s;
                              cls_ObjectMeta := ObjectMeta_SetNamespace ns (cls_ObjectMeta s);
                              cls_Spec := cls_Spec s |};
     copy_kind := ClusterLogSink_DeepCopyInto |}.
Proof.
  all: try done; intros; try (by rewrite !ClusterLogSink_copy_id); try (by destruct x as [? [] ?]); try (destruct o; try discriminate; by eexists).
  cbn. unfold set_items. by rewrite mapM_of_kind.
Defined.

#[export, refine] Instance MetricSink_fake : FakeKind MetricSink :=
  {| set_ns := fun ns s => {| ms_TypeMeta := ms_TypeMeta s;
                              ms_ObjectMeta := ObjectMeta_SetNamespace ns (ms_ObjectMeta s);
                              ms_Spec := ms_Spec s; ms_Status := ms_Status s |};
     copy_kind := MetricSink_DeepCopyInto |}.
Proof.
  all: try done; intros; try (by destruct x as [? [] ? ?]); try (destruct o; try discriminate; by eexists).
  - cbn. by rewrite ObjectMeta_copy.
  - unfold MetricSink_DeepCopyInto; cbn. by rewrite !ObjectMeta_copy, MetricSinkSpec_copy_twice, !SinkStatus_copy_id.
  - unfold MetricSink_DeepCopyInto; cbn. by rewrite !ObjectMeta_copy.
  - cbn. unfold set_items. by rewrite mapM_of_kind.
Defined.

#[export, refine] Instance ClusterMetricSink_fake : FakeKind ClusterMetricSink :=
  {| set_ns := fun ns s => {| cms_TypeMeta := cms_TypeMeta s;
                              cms_ObjectMeta := ObjectMeta_SetNamespace ns (cms_ObjectMeta s);
                              cms_Spec := cms_Spec s; cms_Status := cms_Status s |};
     copy_kind := ClusterMetricSink_DeepCopyInto |}.
Proof.
  all: try done; intros; try (by destruct x as [? [] ? ?]); try (destruct o; try discriminate; by eexists).
  - cbn. by rewrite ObjectMeta_copy.
  - unfold ClusterMetricSink_DeepCopyInto; cbn.
    by rewrite !ObjectMeta_copy, MetricSinkSpec_copy_twice, !SinkStatus_copy_id.
  - unfold ClusterMetricSink_DeepCopyInto; cbn. by rewrite !ObjectMeta_copy.
  - cbn. unfold set_items. by rewrite mapM_of_kind.
Defined.

End Instances.

(** ** The tracker as a map

    The objects of one resource, as a map from namespace and name. *)

Lemma send_all_room ws e cs :
  Forall (fun f => length (result f) + length ws <= DefaultChanSize)%nat cs -> exists cs', send_all ws e cs = Some cs'.
Proof.
  revert cs. induction ws as [|w ws IH]; intros cs Hroom; cbn [send_all length] in *; [by eexists|].
  assert (Forall (fun f => length (result f) + length ws <= DefaultChanSize)%nat cs) as Hless.
  { eapply Forall_impl; [done|]. cbn. lia. }
  destruct (cs !! w) as [f|] eqn:Ef; [|by apply IH].
  assert (length (result f) + S (length ws) <= DefaultChanSize)%nat as Hf by by eapply (Forall_lookup_1 _ _ _ _ Hroom).
  unfold watcher_send. destruct (Stopped f) eqn:Es.
  - apply IH. by rewrite list_insert_id.
  - destruct (Nat.ltb_spec (length (result f)) DefaultChanSize); [|lia].
    apply IH. apply Forall_insert; [done|]. cbn. rewrite length_app. cbn. lia.
Qed.

Lemma send_all_length ws e cs cs' : send_all ws e cs = Some cs' -> length cs' = length cs.
Proof.
  revert cs. induction ws as [|w ws IH]; intros cs; cbn [send_all]; [by intros [= ->]|].
  destruct (cs !! w) as [f|]; [|apply IH]. destruct (watcher_send e f) as [f'|]; [|done].
  intros ->%IH. by rewrite length_insert.
Qed.

(** No watch of the namespace is so full that an event finds no room. *)
Definition quiet (gvr : GroupVersionResource) (ns : string) (t : tracker) : Prop :=
  Forall (fun f => length (result f) + length (tracker_getWatches t gvr ns) <= DefaultChanSize)%nat (channels t).

Lemma notify_quiet gvr ns e t :
  quiet gvr ns t -> exists cs, notify gvr ns e t = Some (set_channels cs t) /\ length cs = length (channels t).
Proof.
  intros Hq. destruct (send_all_room _ e _ Hq) as [cs E]. exists cs. unfold notify. rewrite E.
  split; [done|by eapply send_all_length].
Qed.

Lemma filter_Permutation_bool {A} (f : A -> bool) (l l' : list A) :
  l ≡ₚ l' -> List.filter f l ≡ₚ List.filter f l'.
Proof.
  induction 1 as [|x l l' _ IH|x y l|l l' l'' _ IH _ IH']; cbn; [done| | |by etrans].
  - by destruct (f x); rewrite IH.
  - destruct (f x), (f y); try done. apply perm_swap.
Qed.

Section Stored.
Context `{MC : MetaCopy} `{MR : MapRange} {T : Type} `{FK : FakeKind T}.

Definition key_of (x : T) : string * string := (Namespace (kind_meta x), Name (kind_meta x)).

Definition keyed (xs : list T) : gmap (string * string) T := list_to_map (map (fun x => (key_of x, x)) xs).

Lemma keyed_fst xs : (map (fun x => (key_of x, x)) xs).*1 = map key_of xs.
Proof. induction xs as [|x xs IH]; cbn; [done|]. by f_equal. Qed.

Lemma keyed_lookup xs k x : NoDup (map key_of xs) -> keyed xs !! k = Some x <-> x ∈ xs /\ key_of x = k.
Proof.
  intros Hnd. unfold keyed. rewrite <- elem_of_list_to_map by by rewrite keyed_fst.
  change (map (fun x => (key_of x, x)) xs) with ((fun x => (key_of x, x)) <$> xs). rewrite list_elem_of_fmap.
  split; [by intros (y & [= -> ->] & ?)|]. intros [? <-]. by exists x.
Qed.

Lemma keyed_None xs k : keyed xs !! k = None <-> k ∉ map key_of xs.
Proof. unfold keyed. by rewrite <- not_elem_of_list_to_map, keyed_fst. Qed.

Lemma keyed_middle l1 x l2 :
  NoDup (map key_of (l1 ++ x :: l2)) ->
  keyed (l1 ++ x :: l2) = <[key_of x := x]> (keyed (l1 ++ l2)) /\ keyed (l1 ++ l2) !! key_of x = None
  /\ NoDup (map key_of (l1 ++ l2)).
Proof.
  intros Hnd. assert (map key_of (l1 ++ x :: l2) ≡ₚ key_of x :: map key_of (l1 ++ l2)) as Hp.
  { rewrite !map_app. cbn. by rewrite Permutation_middle. }
  pose proof Hnd as Hnd'. rewrite Hp in Hnd'. apply NoDup_cons in Hnd' as [Hni Hnd2].
  split; [|split; [by apply keyed_None|done]].
  unfold keyed at 1. rewrite (list_to_map_proper _ ((key_of x, x) :: map (fun x => (key_of x, x)) (l1 ++ l2))).
  - done.
  - by rewrite keyed_fst.
  - rewrite !map_app. cbn. by rewrite Permutation_middle.
Qed.

Lemma find_object_spec xs ns name i :
  match find_object (map of_kind xs) ns name i with
  | Ok (Some j) => exists l1 x l2, xs = l1 ++ x :: l2 /\ j = (i + length l1)%nat /\ key_of x = (ns, name)
  | Ok None => (ns, name) ∉ map key_of xs
  | Err _ => False
  end.
Proof.
  revert i. induction xs as [|x xs IH]; intros i; cbn [map find_object]; [apply not_elem_of_nil|].
  rewrite meta_of. destruct (String.eqb (Namespace (kind_meta x)) ns && String.eqb (Name (kind_meta x)) name) eqn:E.
  - apply andb_true_iff in E as [E1%String.eqb_eq E2%String.eqb_eq]. exists [], x, xs. cbn.
    split; [done|]. split; [lia|]. unfold key_of. by rewrite E1, E2.
  - specialize (IH (S i)). destruct (find_object _ _ _ _) as [[j|]|]; [| |done].
    + destruct IH as (l1 & y & l2 & -> & -> & Hk). exists (x :: l1), y, l2. cbn. split; [done|]. split; [lia|done].
    + intros [Hk|Hin]%elem_of_cons; [|done]. unfold key_of in Hk. simplify_eq. by rewrite !String.eqb_refl in E.
Qed.

Definition selects (ns name : string) (x : T) : bool :=
  (String.eqb ns EmptyString || String.eqb (Namespace (kind_meta x)) ns)
  && (String.eqb name EmptyString || String.eqb (Name (kind_meta x)) name).

Lemma filter_spec xs ns name :
  filterByNamespaceAndName (map of_kind xs) ns name = Ok (map of_kind (List.filter (selects ns name) xs)).
Proof.
  induction xs as [|x xs IH]; cbn [map filterByNamespaceAndName List.filter]; [done|].
  rewrite meta_of, IH.
  change (selects ns name x) with ((String.eqb ns EmptyString || String.eqb (Namespace (kind_meta x)) ns)
    && (String.eqb name EmptyString || String.eqb (Name (kind_meta x)) name)).
  destruct (String.eqb ns EmptyString), (String.eqb (Namespace (kind_meta x)) ns), (String.eqb name EmptyString),
    (String.eqb (Name (kind_meta x)) name); done.
Qed.

(** A namespace, or the empty one where nothing is in a namespace. *)
Definition scope_ok (ns : string) (k : string * string) : Prop := ns <> EmptyString \/ k.1 = ns.

Lemma selects_key ns name x :
  scope_ok ns (key_of x) -> name <> EmptyString -> selects ns name x = true <-> key_of x = (ns, name).
Proof.
  intros Hn Hm. unfold selects, scope_ok, key_of in *. apply String.eqb_neq in Hm. rewrite Hm. cbn [orb fst] in *.
  rewrite andb_true_iff, orb_true_iff, !String.eqb_eq. split.
  - intros [[->| ->] ->]; [|done]. by destruct Hn as [Hn| ->].
  - intros [= -> ->]. by split; [right|].
Qed.

(** At most one object has a namespace and a name. *)
Lemma filter_key xs ns name :
  NoDup (map key_of xs) -> (forall x, x ∈ xs -> scope_ok ns (key_of x)) -> name <> EmptyString ->
  List.filter (selects ns name) xs = match keyed xs !! (ns, name) with Some x => [x] | None => [] end.
Proof.
  intros Hnd Hn Hm. induction xs as [|x xs IH]; [done|]. cbn [map] in Hnd. apply NoDup_cons in Hnd as [Hni Hnd].
  assert (scope_ok ns (key_of x)) as Hx by (apply Hn; left).
  cbn [List.filter]. rewrite IH; [|done|intros y Hy; apply Hn; by right].
  unfold keyed. cbn [map list_to_map foldr fst snd]. fold (keyed xs).
  destruct (selects ns name x) eqn:E.
  - apply selects_key in E; [|done..]. rewrite <- E. rewrite lookup_insert_eq.
    apply keyed_None in Hni. by rewrite Hni.
  - rewrite lookup_insert_ne; [done|]. intros Hk. assert (selects ns name x = true) by by apply selects_key. congruence.
Qed.

(** [t] holds exactly the objects of [m] under [gvr]. *)
Definition holds (gvr : GroupVersionResource) (t : tracker) (m : gmap (string * string) T) : Prop :=
  exists xs, default [] (objects t !! gvr) = map of_kind xs /\ NoDup (map key_of xs) /\ m = keyed xs
    /\ Forall (fun x => copy_kind x = x) xs.

Lemma holds_copied gvr t m k x : holds gvr t m -> m !! k = Some x -> copy_kind x = x /\ key_of x = k.
Proof.
  intros (xs & _ & Hnd & -> & Hc) [Hin Hk]%keyed_lookup; [|done]. split; [|done].
  by eapply (proj1 (Forall_forall _ _) Hc).
Qed.

Lemma tracker_Get_spec gvr t m ns name :
  holds gvr t m -> map_Forall (fun k _ => scope_ok ns k) m -> name <> EmptyString ->
  tracker_Get t gvr ns name
  = match m !! (ns, name) with
    | Some x => Ok (of_kind x)
    | None => Err (ErrNotFound (gvr_GroupResource gvr) name)
    end.
Proof.
  intros Hh Hn Hm. pose proof Hh as (xs & Ho & Hnd & Em & Hc). unfold tracker_Get.
  destruct (objects t !! gvr) as [objs|]; cbn in Ho.
  - subst objs. rewrite filter_spec, filter_key; [|done| |done].
    2: { intros x Hx. apply (Hn (key_of x) x). rewrite Em. by apply keyed_lookup. }
    rewrite <- Em.
    destruct (m !! (ns, name)) as [x|] eqn:E; [|done]. cbn [map].
    destruct (holds_copied _ _ _ _ _ Hh E) as [Hx _]. by rewrite copy_obj, Hx.
  - destruct xs; [|done]. by rewrite Em.
Qed.

(** An object as it is stored in a namespace. *)
Definition placed (ns : string) (x : T) : T :=
  if String.eqb (Namespace (kind_meta x)) EmptyString then set_ns ns (copy_kind x) else copy_kind x.

Definition fits_namespace (ns : string) (x : T) : bool :=
  String.eqb (Namespace (kind_meta x)) EmptyString || String.eqb (Namespace (kind_meta x)) ns.

Lemma placed_key ns x : fits_namespace ns x = true -> key_of (placed ns x) = (ns, Name (kind_meta x)).
Proof.
  unfold fits_namespace, placed, key_of. destruct (String.eqb (Namespace (kind_meta x)) EmptyString).
  - intros _. by rewrite set_ns_meta, copy_meta.
  - cbn. rewrite copy_meta. by intros ->%String.eqb_eq.
Qed.

Lemma placed_copied ns x : copy_kind (placed ns x) = placed ns x.
Proof. unfold placed. destruct (String.eqb _ _); by rewrite ?copy_set_ns, copy_twice. Qed.

(** Other resources, the scheme and the watches stay. *)
Definition others (gvr : GroupVersionResource) (t t' : tracker) : Prop :=
  (forall gvr', gvr' <> gvr -> objects t' !! gvr' = objects t !! gvr') /\ scheme t' = scheme t
  /\ watchers t' = watchers t /\ length (channels t') = length (channels t).

Lemma others_refl gvr t : others gvr t t.
Proof. by split. Qed.

Lemma notified_others gvr t l cs :
  length cs = length (channels t) -> others gvr t (set_channels cs (set_objects (<[gvr := l]> (objects t)) t)).
Proof. split; [|by split_and!]. intros gvr' Hne. cbn. by rewrite lookup_insert_ne. Qed.

Lemma keyed_app_one xs y : keyed xs !! key_of y = None -> NoDup (map key_of xs) ->
  NoDup (map key_of (xs ++ [y])) /\ keyed (xs ++ [y]) = <[key_of y := y]> (keyed xs).
Proof.
  intros Hk Hnd. assert (NoDup (map key_of (xs ++ [y]))) as Hnd'.
  { rewrite map_app. apply NoDup_app. split; [done|]. split; [|apply NoDup_singleton].
    intros k Hin ->%list_elem_of_singleton. by apply keyed_None in Hk. }
  split; [done|]. destruct (keyed_middle xs y [] Hnd') as (E & _). by rewrite E, app_nil_r.
Qed.

(** What [add] does, on each of its branches. *)
Lemma tracker_add_spec gvr t m ns x replaceExisting :
  holds gvr t m -> quiet gvr ns t ->
  if negb (fits_namespace ns x) then
    tracker_add gvr (of_kind x) ns replaceExisting t = Some (t, Some (ErrBadRequest ns (Namespace (kind_meta x))))
  else
    match m !! (ns, Name (kind_meta x)), replaceExisting with
    | Some _, false =>
        tracker_add gvr (of_kind x) ns replaceExisting t
        = Some (t, Some (ErrAlreadyExists (gvr_GroupResource gvr) (Name (kind_meta x))))
    | None, true =>
        tracker_add gvr (of_kind x) ns replaceExisting t
        = Some (t, Some (ErrNotFound (gvr_GroupResource gvr) (Name (kind_meta x))))
    | _, _ =>
        exists t', tracker_add gvr (of_kind x) ns replaceExisting t = Some (t', None)
          /\ holds gvr t' (<[(ns, Name (kind_meta x)) := placed ns x]> m) /\ others gvr t t'
    end.
Proof.
  intros (xs & Ho & Hnd & Em & Hc) Hq. unfold tracker_add. rewrite copy_obj, meta_of, copy_meta.
  assert ((if String.eqb (Namespace (kind_meta x)) EmptyString
           then set_namespace ns (of_kind (copy_kind x)) else of_kind (copy_kind x)) = of_kind (placed ns x)) as ->.
  { unfold placed. destruct (String.eqb _ _); by rewrite ?set_ns_obj. }
  assert (Name (if String.eqb (Namespace (kind_meta x)) EmptyString
                then ObjectMeta_SetNamespace ns (kind_meta x) else kind_meta x) = Name (kind_meta x)) as ->.
  { by destruct (String.eqb _ _). }
  assert (String.eqb ns (Namespace (if String.eqb (Namespace (kind_meta x)) EmptyString
            then ObjectMeta_SetNamespace ns (kind_meta x) else kind_meta x)) = fits_namespace ns x) as ->.
  { unfold fits_namespace. destruct (String.eqb _ EmptyString); cbn; [by rewrite String.eqb_refl|].
    apply String.eqb_sym. }
  destruct (fits_namespace ns x) eqn:Ef; cbn [negb].
  2: { do 3 f_equal. unfold fits_namespace in Ef. by destruct (String.eqb _ EmptyString). }
  assert (Namespace (if String.eqb (Namespace (kind_meta x)) EmptyString
            then ObjectMeta_SetNamespace ns (kind_meta x) else kind_meta x) = ns) as ->.
  { unfold fits_namespace in Ef. destruct (String.eqb _ EmptyString); cbn in Ef |- *; [done|by apply String.eqb_eq]. }
  rewrite Ho. pose proof (find_object_spec xs ns (Name (kind_meta x)) 0) as Hfind.
  pose proof (placed_key ns x Ef) as Hkey. pose proof (placed_copied ns x) as Hcp.
  destruct (find_object _ _ _ _) as [[j|]|]; [| |done].
  - destruct Hfind as (l1 & y & l2 & -> & -> & Hk).
    destruct (keyed_middle _ _ _ Hnd) as (Emid & Enone & Hnd2).
    rewrite Em, Emid, Hk, lookup_insert_eq. destruct replaceExisting; [|done].
    destruct (notify_quiet gvr ns (Modified (of_kind (placed ns x))) t Hq) as (cs & -> & Hlen). cbn [mbind option_bind].
    eexists. split; [done|]. split; [|by apply (notified_others gvr t _ cs)].
    exists (l1 ++ placed ns x :: l2).
    assert (NoDup (map key_of (l1 ++ placed ns x :: l2))) as Hnd'.
    { rewrite map_app in *. cbn [map] in *. by rewrite Hkey, <- Hk. }
    split.
    + cbn. rewrite lookup_insert_eq. cbn [default from_option id]. rewrite map_app. cbn [map Nat.add].
      replace (length l1) with (length (map of_kind l1) + 0)%nat by (rewrite length_map; lia).
      rewrite insert_app_r. by rewrite map_app.
    + split; [done|]. split.
      * destruct (keyed_middle _ _ _ Hnd') as (-> & _). by rewrite Hkey, insert_insert_eq.
      * apply Forall_app in Hc as [Hc1 Hc2]. apply Forall_app. split; [done|]. inversion Hc2; by constructor.
  - apply keyed_None in Hfind. rewrite Em, Hfind. destruct replaceExisting; [done|].
    destruct (notify_quiet gvr ns (Added (of_kind (placed ns x)))
                (set_objects (<[gvr := map of_kind xs ++ [of_kind (placed ns x)]]> (objects t)) t) Hq) as (cs & -> & Hlen).
    cbn [mbind option_bind]. eexists. split; [done|]. split; [|by apply notified_others].
    exists (xs ++ [placed ns x]). split; [cbn; by rewrite lookup_insert_eq, map_app|].
    rewrite <- Hkey in Hfind |- *. destruct (keyed_app_one xs (placed ns x) Hfind Hnd) as [Hnd' ->].
    split; [done|]. split; [done|]. apply Forall_app. split; [done|by constructor].
Qed.

Lemma tracker_Delete_spec gvr t m ns name :
  holds gvr t m -> quiet gvr ns t ->
  match m !! (ns, name) with
  | None => tracker_Delete gvr ns name t = Some (t, Some (ErrNotFound (gvr_GroupResource gvr) name))
  | Some _ =>
      exists t', tracker_Delete gvr ns name t = Some (t', None) /\ holds gvr t' (delete (ns, name) m) /\ others gvr t t'
  end.
Proof.
  intros (xs & Ho & Hnd & Em & Hc) Hq. unfold tracker_Delete. rewrite Ho.
  pose proof (find_object_spec xs ns name 0) as Hfind. destruct (find_object _ _ _ _) as [[j|]|]; [| |done].
  - destruct Hfind as (l1 & y & l2 & -> & -> & Hk). cbn [Nat.add].
    destruct (keyed_middle _ _ _ Hnd) as (Emid & Enone & Hnd2).
    rewrite Em, Emid, Hk, lookup_insert_eq.
    assert (map of_kind (l1 ++ y :: l2) = map of_kind l1 ++ of_kind y :: map of_kind l2) as -> by by rewrite map_app.
    assert (delete (length l1) (map of_kind l1 ++ of_kind y :: map of_kind l2) = map of_kind (l1 ++ l2)) as ->.
    { replace (length l1) with (length (map of_kind l1)) by apply length_map.
      by rewrite delete_middle, map_app. }
    edestruct (notify_quiet gvr ns) as (cs & -> & Hlen); [exact Hq|]. cbn [mbind option_bind].
    eexists. split; [done|]. split; [|by apply notified_others]. exists (l1 ++ l2).
    split; [cbn; by rewrite lookup_insert_eq|]. split; [done|]. split.
    + rewrite Hk in Enone. by rewrite delete_insert_id.
    + apply Forall_app in Hc as [Hc1 Hc2]. apply Forall_app. split; [done|]. by inversion Hc2.
  - apply keyed_None in Hfind. by rewrite Em, Hfind.
Qed.

(** The list of a resource, whose list type the scheme knows. *)
Lemma tracker_List_spec gvr gvk t m ns :
  holds gvr t m -> gv_Version (gvk_GroupVersion gvk) <> EmptyString ->
  scheme_New (scheme t) (WithKind (gvk_GroupVersion gvk) (gvk_Kind gvk +:+ "List")) = Ok (of_list list_zero) ->
  exists l, tracker_List t gvr gvk ns = Ok (of_list l) /\ lst_ListMeta l = ListMeta_zero
    /\ default [] (Items l) ≡ₚ List.filter (selects ns EmptyString) (map snd (map_to_list m)).
Proof.
  intros (xs & Ho & Hnd & Em & Hc) Hv Hnew. unfold tracker_List. apply String.eqb_neq in Hv. rewrite Hv.
  rewrite Hnew, is_list. cbn [negb].
  assert (xs ≡ₚ map snd (map_to_list m)) as Hp.
  { rewrite Em. unfold keyed. rewrite map_to_list_to_map by by rewrite keyed_fst.
    rewrite map_map. cbn. by rewrite map_id. }
  destruct (objects t !! gvr) as [objs|]; cbn in Ho.
  - subst objs. rewrite filter_spec, set_list, copy_list. eexists. split; [done|]. split; [done|]. cbn [List_DeepCopyInto Items copy_slice default from_option id].
    rewrite <- (filter_Permutation_bool (selects ns EmptyString) _ _ Hp).
    assert (Forall (fun x => copy_kind x = x) (List.filter (selects ns EmptyString) xs)) as Hf.
    { apply Forall_forall. intros x Hx. apply list_elem_of_In, filter_In in Hx as [Hx _].
      apply (proj1 (Forall_forall _ _) Hc). by apply list_elem_of_In. }
    clear - Hf. induction Hf as [|x l Hx _ IH]; cbn; [done|]. rewrite Hx. by constructor.
  - destruct xs; [|done]. exists list_zero. split; [done|]. split; [done|]. apply Permutation_nil in Hp. by rewrite Hp.
Qed.

End Stored.
