(* ===== verification/FakeClients.v ===== *)
(** * The fake clients ([pkg/client/clientset/versioned/fake] and
    [typed/sink/v1alpha1/fake])

    A method of a fake client makes an action and hands it to the reactors of
    the clientset ([testing/actions.go], [testing/fake.go], vendored); those of
    [NewSimpleClientset] answer from an object tracker.  The four fakes are one
    text with the kind, its resource and its zero object as the only
    difference.  Parsing of selectors and application of patches are the
    classes [Selectors] and [Patches].  A run that panics has no result:
    [None]. *)

From stdpp Require Import base gmap strings list.
From Stdlib Require Import Ascii Lia.
From S2P Require Import Prelude GoStd GoPath Types Cache Listers RestRequest TypedClients Scheme ObjectTracker.

(** ** Selectors and patches *)

(** [labels.Parse] and [fields.ParseSelector]; the empty text selects
    everything. *)
Class Selectors := {
  labels_Parse : string -> res string Selector;
  fields_ParseSelector : string -> res string Selector;
  labels_Parse_empty : exists sel, labels_Parse EmptyString = Ok sel /\ forall l, sel l = true;
  fields_Parse_empty : exists sel, fields_ParseSelector EmptyString = Ok sel /\ forall l, sel l = true;
}.

(** Marshal an object, patch it, and unmarshal the result into the object,
    which keeps its Go type. *)
Class Patches := {
  apply_json_patch : string -> obj -> res string obj;
  apply_strategic_patch : string -> obj -> res string obj;
  json_patch_type : forall p o o', apply_json_patch p o = Ok o' -> type_of o' = type_of o;
  strategic_patch_type : forall p o o', apply_strategic_patch p o = Ok o' -> type_of o' = type_of o;
}.

Definition JSONPatchType : string := "application/json-patch+json".
Definition StrategicMergePatchType : string := "application/strategic-merge-patch+json".

(** ** Actions ([testing/actions.go]) *)

Record ActionImpl : Type := MkActionImpl {
  a_Namespace : string; a_Verb : string; a_Resource : GroupVersionResource; a_Subresource : string;
}.

Record ListRestrictions : Type := MkListRestrictions { r_Labels : Selector; r_Fields : Selector }.
Record WatchRestrictions : Type := MkWatchRestrictions {
  w_Labels : Selector; w_Fields : Selector; w_ResourceVersion : string;
}.

Inductive Action : Type :=
| GetActionImpl (a : ActionImpl) (name : string)
| ListActionImpl (a : ActionImpl) (kind : GroupVersionKind) (r : ListRestrictions)
| CreateActionImpl (a : ActionImpl) (o : obj)
| UpdateActionImpl (a : ActionImpl) (o : obj)
| DeleteActionImpl (a : ActionImpl) (name : string)
| DeleteCollectionActionImpl (a : ActionImpl) (r : ListRestrictions)
| PatchActionImpl (a : ActionImpl) (name pt patch : string)
| WatchActionImpl (a : ActionImpl) (r : WatchRestrictions).

Definition action_impl (action : Action) : ActionImpl :=
  match action with
  | GetActionImpl a _ | ListActionImpl a _ _ | CreateActionImpl a _ | UpdateActionImpl a _ | DeleteActionImpl a _
  | DeleteCollectionActionImpl a _ | PatchActionImpl a _ _ _ | WatchActionImpl a _ => a
  end.

Definition NewGetAction (resource : GroupVersionResource) (namespace name : string) : Action :=
  GetActionImpl (MkActionImpl namespace "get" resource EmptyString) name.
Definition NewCreateAction (resource : GroupVersionResource) (namespace : string) (object : obj) : Action :=
  CreateActionImpl (MkActionImpl namespace "create" resource EmptyString) object.
Definition NewUpdateAction (resource : GroupVersionResource) (namespace : string) (object : obj) : Action :=
  UpdateActionImpl (MkActionImpl namespace "update" resource EmptyString) object.
Definition NewUpdateSubresourceAction (resource : GroupVersionResource) (subresource namespace : string) (object : obj)
    : Action :=
  UpdateActionImpl (MkActionImpl namespace "update" resource subresource) object.
Definition NewDeleteAction (resource : GroupVersionResource) (namespace name : string) : Action :=
  DeleteActionImpl (MkActionImpl namespace "delete" resource EmptyString) name.
Definition NewPatchSubresourceAction (resource : GroupVersionResource) (namespace name pt patch : string)
    (subresources : list string) : Action :=
  PatchActionImpl (MkActionImpl namespace "patch" resource (path_Join subresources)) name pt patch.

Section Fakes.
Context `{MetaCopy} `{MapRange} `{Selectors} `{Patches}.

(** Panics on a selector that does not parse. *)
Definition ExtractFromListOptions (opts : ListOptions) : option (Selector * Selector * string) :=
  match labels_Parse (LabelSelector opts) with
  | Err _ => None
  | Ok labelSelector =>
      match fields_ParseSelector (FieldSelector opts) with
      | Err _ => None
      | Ok fieldSelector => Some (labelSelector, fieldSelector, lo_ResourceVersion opts)
      end
  end.

Definition NewListAction (resource : GroupVersionResource) (kind : GroupVersionKind) (namespace : string)
    (opts : ListOptions) : option Action :=
  '(labelSelector, fieldSelector, _) ← ExtractFromListOptions opts;
  Some (ListActionImpl (MkActionImpl namespace "list" resource EmptyString) kind
          (MkListRestrictions labelSelector fieldSelector)).

Definition NewDeleteCollectionAction (resource : GroupVersionResource) (namespace : string) (opts : ListOptions)
    : option Action :=
  '(labelSelector, fieldSelector, _) ← ExtractFromListOptions opts;
  Some (DeleteCollectionActionImpl (MkActionImpl namespace "delete-collection" resource EmptyString)
          (MkListRestrictions labelSelector fieldSelector)).

Definition NewWatchAction (resource : GroupVersionResource) (namespace : string) (opts : ListOptions) : option Action :=
  '(labelSelector, fieldSelector, resourceVersion) ← ExtractFromListOptions opts;
  Some (WatchActionImpl (MkActionImpl namespace "watch" resource EmptyString)
          (MkWatchRestrictions labelSelector fieldSelector resourceVersion)).

Definition action_DeepCopy (action : Action) : Action :=
  match action with
  | CreateActionImpl a o => CreateActionImpl a (obj_DeepCopyObject o)
  | UpdateActionImpl a o => UpdateActionImpl a (obj_DeepCopyObject o)
  | _ => action
  end.

(** ** The reaction of a tracker ([testing/fixture.go]) *)

(** What a reaction returns: whether it handled the action, an object that may
    be nil, and an error. *)
Definition reaction : Type := bool * option obj * option api_error.

Definition obj_or_error (r : res api_error obj) : reaction :=
  match r with Ok o => (true, Some o, None) | Err e => (true, None, Some e) end.

(** Update or create, and read the object back. *)
Definition stored (gvr : GroupVersionResource) (ns name : string) (r : option (tracker * option api_error))
    : option (tracker * reaction) :=
  match r with
  | None => None
  | Some (t, Some e) => Some (t, (true, None, Some e))
  | Some (t, None) => Some (t, obj_or_error (tracker_Get t gvr ns name))
  end.

Definition patched (pt patch : string) (o : obj) : res api_error obj :=
  let r :=
    if String.eqb pt JSONPatchType then apply_json_patch patch o
    else if String.eqb pt StrategicMergePatchType then apply_strategic_patch patch o
    else Err "PatchType is not supported" in
  match r with Ok o => Ok o | Err e => Err (ErrText e) end.

Definition ObjectReaction (action : Action) (t : tracker) : option (tracker * reaction) :=
  let ns := a_Namespace (action_impl action) in
  let gvr := a_Resource (action_impl action) in
  match action with
  | ListActionImpl _ kind _ => Some (t, obj_or_error (tracker_List t gvr kind ns))
  | GetActionImpl _ name => Some (t, obj_or_error (tracker_Get t gvr ns name))
  | CreateActionImpl a o =>
      match Accessor o with
      | Err e => Some (t, (true, None, Some (ErrText e)))
      | Ok objMeta =>
          stored gvr ns (Name objMeta)
            (if String.eqb (a_Subresource a) EmptyString then tracker_Create gvr o ns t else tracker_Update gvr o ns t)
      end
  | UpdateActionImpl _ o =>
      match Accessor o with
      | Err e => Some (t, (true, None, Some (ErrText e)))
      | Ok objMeta => stored gvr ns (Name objMeta) (tracker_Update gvr o ns t)
      end
  | DeleteActionImpl _ name =>
      match tracker_Delete gvr ns name t with
      | None => None
      | Some (t, e) => Some (t, (true, None, e))
      end
  | PatchActionImpl _ name pt patch =>
      match tracker_Get t gvr ns name with
      | Err e => Some (t, (false, None, Some e))
      | Ok o =>
          match patched pt patch o with
          | Err e => Some (t, (true, None, Some e))
          | Ok o =>
              match tracker_Update gvr o ns t with
              | None => None
              | Some (t, Some e) => Some (t, (true, None, Some e))
              | Some (t, None) => Some (t, (true, Some o, None))
              end
          end
      end
  | DeleteCollectionActionImpl _ _ | WatchActionImpl _ _ => Some (t, (false, None, Some (ErrText "no reaction implemented")))
  end.

(** ** Reactors and the chain ([testing/fake.go]) *)

Record SimpleReactor : Type := MkSimpleReactor {
  sr_Verb : string; sr_Resource : string; Reaction : Action -> tracker -> option (tracker * reaction);
}.

Record SimpleWatchReactor : Type := MkSimpleWatchReactor {
  swr_Resource : string; WatchReaction : Action -> tracker -> option (tracker * (bool * option nat * option api_error));
}.

Definition SimpleReactor_Handles (r : SimpleReactor) (action : Action) : bool :=
  let verbCovers := String.eqb (sr_Verb r) "*" || String.eqb (sr_Verb r) (a_Verb (action_impl action)) in
  if negb verbCovers then false
  else String.eqb (sr_Resource r) "*" || String.eqb (sr_Resource r) (gvr_Resource (a_Resource (action_impl action))).

Definition SimpleWatchReactor_Handles (r : SimpleWatchReactor) (action : Action) : bool :=
  String.eqb (swr_Resource r) "*" || String.eqb (swr_Resource r) (gvr_Resource (a_Resource (action_impl action))).

(** The clientset of a test: [testing.Fake] and the tracker its reactors
    write to. *)
Record Fake : Type := MkFake {
  actions : list Action;
  ReactionChain : list SimpleReactor;
  WatchReactionChain : list SimpleWatchReactor;
  Tracker : tracker;
}.

Definition with_tracker (t : tracker) (c : Fake) : Fake :=
  {| actions := actions c; ReactionChain := ReactionChain c; WatchReactionChain := WatchReactionChain c; Tracker := t |}.
Definition record_action (action : Action) (c : Fake) : Fake :=
  {| actions := actions c ++ [action_DeepCopy action]; ReactionChain := ReactionChain c;
     WatchReactionChain := WatchReactionChain c; Tracker := Tracker c |}.

Definition AddReactor (verb resource : string) (r : Action -> tracker -> option (tracker * reaction)) (c : Fake) : Fake :=
  {| actions := actions c; ReactionChain := ReactionChain c ++ [MkSimpleReactor verb resource r];
     WatchReactionChain := WatchReactionChain c; Tracker := Tracker c |}.
Definition AddWatchReactor (resource : string)
    (r : Action -> tracker -> option (tracker * (bool * option nat * option api_error))) (c : Fake) : Fake :=
  {| actions := actions c; ReactionChain := ReactionChain c;
     WatchReactionChain := WatchReactionChain c ++ [MkSimpleWatchReactor resource r]; Tracker := Tracker c |}.

Fixpoint react (chain : list SimpleReactor) (action : Action) (defaultReturnObj : obj) (t : tracker)
    : option (tracker * (option obj * option api_error)) :=
  match chain with
  | [] => Some (t, (Some defaultReturnObj, None))
  | reactor :: chain =>
      if negb (SimpleReactor_Handles reactor action) then react chain action defaultReturnObj t
      else
        match Reaction reactor (action_DeepCopy action) t with
        | None => None
        | Some (t, (handled, ret, err)) =>
            if negb handled then react chain action defaultReturnObj t else Some (t, (ret, err))
        end
  end.

Definition Invokes (action : Action) (defaultReturnObj : obj) (c : Fake) : option (Fake * (option obj * option api_error)) :=
  let c := record_action action c in
  '(t, r) ← react (ReactionChain c) action defaultReturnObj (Tracker c);
  Some (with_tracker t c, r).

Fixpoint react_watch (chain : list SimpleWatchReactor) (action : Action) (t : tracker)
    : option (tracker * (option nat * option api_error)) :=
  match chain with
  | [] => Some (t, (None, Some (ErrText "unhandled watch")))
  | reactor :: chain =>
      if negb (SimpleWatchReactor_Handles reactor action) then react_watch chain action t
      else
        match WatchReaction reactor (action_DeepCopy action) t with
        | None => None
        | Some (t, (handled, ret, err)) =>
            if negb handled then react_watch chain action t else Some (t, (ret, err))
        end
  end.

Definition InvokesWatch (action : Action) (c : Fake) : option (Fake * (option nat * option api_error)) :=
  let c := record_action action c in
  '(t, r) ← react_watch (WatchReactionChain c) action (Tracker c);
  Some (with_tracker t c, r).

(** ** The text of a fake *)

(** The fake of a kind in a namespace. *)
Record FakeSinks : Type := MkFakeSinks { fs_ns : string }.

(** [if obj == nil { return nil, err }; return obj.(type), err] *)
Definition assert_result {T} `{SinkKind T} (r : option (Fake * (option obj * option api_error)))
    : option (Fake * (option T * option api_error)) :=
  '(c, (o, err)) ← r;
  match o with
  | None => Some (c, (None, err))
  | Some o => x ← as_kind o; Some (c, (Some x, err))
  end.

Section Kind.
Context (T : Type) `{CK : ClientKind T} (resource : GroupVersionResource) (kind : GroupVersionKind).

Definition fake_Get (f : FakeSinks) (name : string) (options : GetOptions) (c : Fake)
    : option (Fake * (option T * option api_error)) :=
  assert_result (Invokes (NewGetAction resource (fs_ns f) name) (of_kind zero_obj) c).

Definition fake_List (f : FakeSinks) (opts : ListOptions) (c : Fake)
    : option (Fake * (option (ListOf T) * option api_error)) :=
  action ← NewListAction resource kind (fs_ns f) opts;
  '(c, (o, err)) ← Invokes action (of_list list_zero) c;
  match o with
  | None => Some (c, (None, err))
  | Some o =>
      '(label, _, _) ← ExtractFromListOptions opts;
      l ← as_list o;
      let matching := List.filter (fun item => label (set_of (kind_meta item))) (default [] (Items l)) in
      Some (c, (Some {| lst_TypeMeta := TypeMeta_zero; lst_ListMeta := lst_ListMeta l;
                        Items := match matching with [] => None | _ => Some matching end |}, err))
  end.

Definition fake_Watch (f : FakeSinks) (opts : ListOptions) (c : Fake)
    : option (Fake * (option nat * option api_error)) :=
  action ← NewWatchAction resource (fs_ns f) opts;
  InvokesWatch action c.

Definition fake_Create (f : FakeSinks) (x : T) (c : Fake) : option (Fake * (option T * option api_error)) :=
  assert_result (Invokes (NewCreateAction resource (fs_ns f) (of_kind x)) (of_kind zero_obj) c).

Definition fake_Update (f : FakeSinks) (x : T) (c : Fake) : option (Fake * (option T * option api_error)) :=
  assert_result (Invokes (NewUpdateAction resource (fs_ns f) (of_kind x)) (of_kind zero_obj) c).

Definition fake_UpdateStatus (f : FakeSinks) (x : T) (c : Fake) : option (Fake * (option T * option api_error)) :=
  assert_result (Invokes (NewUpdateSubresourceAction resource "status" (fs_ns f) (of_kind x)) (of_kind zero_obj) c).

Definition fake_Delete (f : FakeSinks) (name : string) (options : option DeleteOptions) (c : Fake)
    : option (Fake * option api_error) :=
  '(c, (_, err)) ← Invokes (NewDeleteAction resource (fs_ns f) name) (of_kind zero_obj) c;
  Some (c, err).

Definition fake_DeleteCollection (f : FakeSinks) (options : option DeleteOptions) (listOptions : ListOptions) (c : Fake)
    : option (Fake * option api_error) :=
  action ← NewDeleteCollectionAction resource (fs_ns f) listOptions;
  '(c, (_, err)) ← Invokes action (of_list list_zero) c;
  Some (c, err).

Definition fake_Patch (f : FakeSinks) (name pt data : string) (subresources : list string) (c : Fake)
    : option (Fake * (option T * option api_error)) :=
  assert_result (Invokes (NewPatchSubresourceAction resource (fs_ns f) name pt data subresources) (of_kind zero_obj) c).

End Kind.

(** ** The four files *)

Definition logsinksResource : GroupVersionResource :=
  MkGVR (MkGroupVersion "observability.knative.dev" "v1alpha1") "logsinks".
Definition logsinksKind : GroupVersionKind :=
  MkGVK (MkGroupVersion "observability.knative.dev" "v1alpha1") "LogSink".
Definition FakeLogSinks_Get := fake_Get LogSink logsinksResource.
Definition FakeLogSinks_List := fake_List LogSink logsinksResource logsinksKind.
Definition FakeLogSinks_Watch := fake_Watch logsinksResource.
Definition FakeLogSinks_Create := fake_Create LogSink logsinksResource.
Definition FakeLogSinks_Update := fake_Update LogSink logsinksResource.
Definition FakeLogSinks_Delete := fake_Delete LogSink logsinksResource.
Definition FakeLogSinks_DeleteCollection := fake_DeleteCollection LogSink logsinksResource.
Definition FakeLogSinks_Patch := fake_Patch LogSink logsinksResource.

Definition clusterlogsinksResource : GroupVersionResource :=
  MkGVR (MkGroupVersion "observability.knative.dev" "v1alpha1") "clusterlogsinks".
Definition clusterlogsinksKind : GroupVersionKind :=
  MkGVK (MkGroupVersion "observability.knative.dev" "v1alpha1") "ClusterLogSink".
Definition FakeClusterLogSinks_Get := fake_Get ClusterLogSink clusterlogsinksResource.
Definition FakeClusterLogSinks_List := fake_List ClusterLogSink clusterlogsinksResource clusterlogsinksKind.
Definition FakeClusterLogSinks_Watch := fake_Watch clusterlogsinksResource.
Definition FakeClusterLogSinks_Create := fake_Create ClusterLogSink clusterlogsinksResource.
Definition FakeClusterLogSinks_Update := fake_Update ClusterLogSink clusterlogsinksResource.
Definition FakeClusterLogSinks_Delete := fake_Delete ClusterLogSink clusterlogsinksResource.
Definition FakeClusterLogSinks_DeleteCollection := fake_DeleteCollection ClusterLogSink clusterlogsinksResource.
Definition FakeClusterLogSinks_Patch := fake_Patch ClusterLogSink clusterlogsinksResource.

Definition metricsinksResource : GroupVersionResource :=
  MkGVR (MkGroupVersion "observability.knative.dev" "v1alpha1") "metricsinks".
Definition metricsinksKind : GroupVersionKind :=
  MkGVK (MkGroupVersion "observability.knative.dev" "v1alpha1") "MetricSink".
Definition FakeMetricSinks_Get := fake_Get MetricSink metricsinksResource.
Definition FakeMetricSinks_List := fake_List MetricSink metricsinksResource metricsinksKind.
Definition FakeMetricSinks_Watch := fake_Watch metricsinksResource.
Definition FakeMetricSinks_Create := fake_Create MetricSink metricsinksResource.
Definition FakeMetricSinks_Update := fake_Update MetricSink metricsinksResource.
Definition FakeMetricSinks_UpdateStatus := fake_UpdateStatus MetricSink metricsinksResource.
Definition FakeMetricSinks_Delete := fake_Delete MetricSink metricsinksResource.
Definition FakeMetricSinks_DeleteCollection := fake_DeleteCollection MetricSink metricsinksResource.
Definition FakeMetricSinks_Patch := fake_Patch MetricSink metricsinksResource.

Definition clustermetricsinksResource : GroupVersionResource :=
  MkGVR (MkGroupVersion "observability.knative.dev" "v1alpha1") "clustermetricsinks".
Definition clustermetricsinksKind : GroupVersionKind :=
  MkGVK (MkGroupVersion "observability.knative.dev" "v1alpha1") "ClusterMetricSink".
Definition FakeClusterMetricSinks_Get := fake_Get ClusterMetricSink clustermetricsinksResource.
Definition FakeClusterMetricSinks_List := fake_List ClusterMetricSink clustermetricsinksResource clustermetricsinksKind.
Definition FakeClusterMetricSinks_Watch := fake_Watch clustermetricsinksResource.
Definition FakeClusterMetricSinks_Create := fake_Create ClusterMetricSink clustermetricsinksResource.
Definition FakeClusterMetricSinks_Update := fake_Update ClusterMetricSink clustermetricsinksResource.
Definition FakeClusterMetricSinks_UpdateStatus := fake_UpdateStatus ClusterMetricSink clustermetricsinksResource.
Definition FakeClusterMetricSinks_Delete := fake_Delete ClusterMetricSink clustermetricsinksResource.
Definition FakeClusterMetricSinks_DeleteCollection := fake_DeleteCollection ClusterMetricSink clustermetricsinksResource.
Definition FakeClusterMetricSinks_Patch := fake_Patch ClusterMetricSink clustermetricsinksResource.

(** [fake_sink_client.go] *)
Definition Fake_LogSinks (namespace : string) : FakeSinks := MkFakeSinks namespace.
Definition Fake_ClusterLogSinks (namespace : string) : FakeSinks := MkFakeSinks namespace.
Definition Fake_MetricSinks (namespace : string) : FakeSinks := MkFakeSinks namespace.
Definition Fake_ClusterMetricSinks (namespace : string) : FakeSinks := MkFakeSinks namespace.

(** ** The clientset ([fake/clientset_generated.go]) *)

Fixpoint add_all (objs : list obj) (t : tracker) : option tracker :=
  match objs with
  | [] => Some t
  | o :: objs =>
      match tracker_Add o t with
      | Some (t, None) => add_all objs t
      | _ => None
      end
  end.

Definition WatchTracker (action : Action) (t : tracker) : option (tracker * (bool * option nat * option api_error)) :=
  let gvr := a_Resource (action_impl action) in
  let ns := a_Namespace (action_impl action) in
  match tracker_Watch gvr ns t with
  | (t, Err err) => Some (t, (false, None, None))
  | (t, Ok watch) => Some (t, (true, Some watch, None))
  end.

Definition NewSimpleClientset (objects : list obj) : option Fake :=
  o ← add_all objects (NewObjectTracker clientset_Scheme);
  let cs := {| actions := []; ReactionChain := []; WatchReactionChain := []; Tracker := o |} in
  Some (AddWatchReactor "*" WatchTracker (AddReactor "*" "*" ObjectReaction cs)).

(** ** The interfaces of the fakes

    After a panic, [None], there are no more results. *)

Definition guarded {A} (stuck : A) (run : Fake -> option (Fake * A)) (w : option Fake) : option Fake * A :=
  match w with
  | None => (None, stuck)
  | Some c => match run c with Some (c, a) => (Some c, a) | None => (None, stuck) end
  end.

Section Interface.
Context (T : Type) `{CK : ClientKind T} (resource : GroupVersionResource) (kind : GroupVersionKind).

Definition fake_interface (has_status : bool) (f : FakeSinks) : SinkInterface (option Fake) api_error T :=
  {| i_Create := fun x => guarded (None, None) (fake_Create T resource f x);
     i_Update := fun x => guarded (None, None) (fake_Update T resource f x);
     i_UpdateStatus := if has_status then Some (fun x => guarded (None, None) (fake_UpdateStatus T resource f x)) else None;
     i_Delete := fun name o => guarded None (fake_Delete T resource f name o);
     i_DeleteCollection := fun o lo => guarded None (fake_DeleteCollection T resource f o lo);
     i_Get := fun name o => guarded (None, None) (fake_Get T resource f name o);
     i_List := fun o => guarded (None, None) (fake_List T resource kind f o);
     i_Watch := fun o => guarded (None, None) (fake_Watch resource f o);
     i_Patch := fun name pt data subs => guarded (None, None) (fake_Patch T resource f name pt data subs) |}.

End Interface.

Definition FakeLogSinkInterface (f : FakeSinks) : SinkInterface (option Fake) api_error LogSink :=
  {| i_Create := fun x => guarded (None, None) (FakeLogSinks_Create f x);
     i_Update := fun x => guarded (None, None) (FakeLogSinks_Update f x);
     i_UpdateStatus := None;
     i_Delete := fun name o => guarded None (FakeLogSinks_Delete f name o);
     i_DeleteCollection := fun o lo => guarded None (FakeLogSinks_DeleteCollection f o lo);
     i_Get := fun name o => guarded (None, None) (FakeLogSinks_Get f name o);
     i_List := fun o => guarded (None, None) (FakeLogSinks_List f o);
     i_Watch := fun o => guarded (None, None) (FakeLogSinks_Watch f o);
     i_Patch := fun name pt data subs => guarded (None, None) (FakeLogSinks_Patch f name pt data subs) |}.

Definition FakeClusterLogSinkInterface (f : FakeSinks) : SinkInterface (option Fake) api_error ClusterLogSink :=
  {| i_Create := fun x => guarded (None, None) (FakeClusterLogSinks_Create f x);
     i_Update := fun x => guarded (None, None) (FakeClusterLogSinks_Update f x);
     i_UpdateStatus := None;
     i_Delete := fun name o => guarded None (FakeClusterLogSinks_Delete f name o);
     i_DeleteCollection := fun o lo => guarded None (FakeClusterLogSinks_DeleteCollection f o lo);
     i_Get := fun name o => guarded (None, None) (FakeClusterLogSinks_Get f name o);
     i_List := fun o => guarded (None, None) (FakeClusterLogSinks_List f o);
     i_Watch := fun o => guarded (None, None) (FakeClusterLogSinks_Watch f o);
     i_Patch := fun name pt data subs => guarded (None, None) (FakeClusterLogSinks_Patch f name pt data subs) |}.

Definition FakeMetricSinkInterface (f : FakeSinks) : SinkInterface (option Fake) api_error MetricSink :=
  {| i_Create := fun x => guarded (None, None) (FakeMetricSinks_Create f x);
     i_Update := fun x => guarded (None, None) (FakeMetricSinks_Update f x);
     i_UpdateStatus := Some (fun x => guarded (None, None) (FakeMetricSinks_UpdateStatus f x));
     i_Delete := fun name o => guarded None (FakeMetricSinks_Delete f name o);
     i_DeleteCollection := fun o lo => guarded None (FakeMetricSinks_DeleteCollection f o lo);
     i_Get := fun name o => guarded (None, None) (FakeMetricSinks_Get f name o);
     i_List := fun o => guarded (None, None) (FakeMetricSinks_List f o);
     i_Watch := fun o => guarded (None, None) (FakeMetricSinks_Watch f o);
     i_Patch := fun name pt data subs => guarded (None, None) (FakeMetricSinks_Patch f name pt data subs) |}.

Definition FakeClusterMetricSinkInterface (f : FakeSinks) : SinkInterface (option Fake) api_error ClusterMetricSink :=
  {| i_Create := fun x => guarded (None, None) (FakeClusterMetricSinks_Create f x);
     i_Update := fun x => guarded (None, None) (FakeClusterMetricSinks_Update f x);
     i_UpdateStatus := Some (fun x => guarded (None, None) (FakeClusterMetricSinks_UpdateStatus f x));
     i_Delete := fun name o => guarded None (FakeClusterMetricSinks_Delete f name o);
     i_DeleteCollection := fun o lo => guarded None (FakeClusterMetricSinks_DeleteCollection f o lo);
     i_Get := fun name o => guarded (None, None) (FakeClusterMetricSinks_Get f name o);
     i_List := fun o => guarded (None, None) (FakeClusterMetricSinks_List f o);
     i_Watch := fun o => guarded (None, None) (FakeClusterMetricSinks_Watch f o);
     i_Patch := fun name pt data subs => guarded (None, None) (FakeClusterMetricSinks_Patch f name pt data subs) |}.

(** ** The fakes as maps

    What the fake of a kind in the namespace [ns] does, on a map from
    namespace and name to the stored object. *)

Section Abstract.
Context {T : Type} `{CK : ClientKind T} {FK : FakeKind T} (gr : GroupResource) (ns : string).

Notation store := (gmap (string * string) T).

Definition spec_Get (name : string) (m : store) : option T * option api_error :=
  match m !! (ns, name) with
  | Some x => (Some x, None)
  | None => (None, Some (ErrNotFound gr name))
  end.

Definition spec_Create (x : T) (m : store) : store * (option T * option api_error) :=
  let name := Name (kind_meta x) in
  if negb (fits_namespace ns x) then (m, (None, Some (ErrBadRequest ns (Namespace (kind_meta x)))))
  else match m !! (ns, name) with
       | Some _ => (m, (None, Some (ErrAlreadyExists gr name)))
       | None => (<[(ns, name) := placed ns x]> m, (Some (placed ns x), None))
       end.

Definition spec_Update (x : T) (m : store) : store * (option T * option api_error) :=
  let name := Name (kind_meta x) in
  if negb (fits_namespace ns x) then (m, (None, Some (ErrBadRequest ns (Namespace (kind_meta x)))))
  else match m !! (ns, name) with
       | Some _ => (<[(ns, name) := placed ns x]> m, (Some (placed ns x), None))
       | None => (m, (None, Some (ErrNotFound gr name)))
       end.

Definition spec_Delete (name : string) (m : store) : store * option api_error :=
  match m !! (ns, name) with
  | Some _ => (delete (ns, name) m, None)
  | None => (m, Some (ErrNotFound gr name))
  end.

(** Where the tracker has no object, the patch is not handled and the zero
    object is the answer; the answer to a patch is the patched object before
    it is stored. *)
Definition spec_Patch (name pt data : string) (m : store) (m' : store) (r : option T * option api_error) : Prop :=
  match m !! (ns, name) with
  | None => m' = m /\ r = (Some zero_obj, None)
  | Some x =>
      match patched pt data (of_kind x) with
      | Err e => m' = m /\ r = (None, Some e)
      | Ok o => exists y, o = of_kind y /\
          match spec_Update y m with
          | (m1, (_, None)) => m' = m1 /\ r = (Some y, None)
          | (m1, (_, Some e)) => m' = m1 /\ r = (None, Some e)
          end
      end
  end.

(** The objects of the namespace, or of all where it is empty, that the label
    selector selects. *)
Definition spec_List (label : Selector) (m : store) (r : option (ListOf T) * option api_error) : Prop :=
  exists matching, r = (Some {| lst_TypeMeta := TypeMeta_zero; lst_ListMeta := ListMeta_zero;
                                Items := match matching with [] => None | _ => Some matching end |}, None)
    /\ matching ≡ₚ List.filter (fun x => label (set_of (kind_meta x)))
                     (List.filter (selects ns EmptyString) (map snd (map_to_list m))).

End Abstract.

(** ** What the reactors of a simple clientset do *)

Definition simple (c : Fake) : Prop :=
  ReactionChain c = [MkSimpleReactor "*" "*" ObjectReaction]
  /\ WatchReactionChain c = [MkSimpleWatchReactor "*" WatchTracker].

Lemma Invokes_simple action d c :
  simple c ->
  Invokes action d c
  = match ObjectReaction (action_DeepCopy action) (Tracker c) with
    | None => None
    | Some (t, (handled, ret, err)) =>
        Some (with_tracker t (record_action action c), if handled then (ret, err) else (Some d, None))
    end.
Proof.
  intros [Hc _]. unfold Invokes. cbn [ReactionChain record_action Tracker]. rewrite Hc. cbn [react].
  unfold SimpleReactor_Handles. cbn [sr_Verb sr_Resource String.eqb Ascii.eqb Bool.eqb orb negb Reaction].
  destruct (ObjectReaction _ _) as [[t [[[] ret] err]]|]; reflexivity.
Qed.

Section Refines.
Context {T : Type} `{CK : ClientKind T} {FK : FakeKind T} (resource : GroupVersionResource) (kind : GroupVersionKind) (f : FakeSinks).

Let gr := gvr_GroupResource resource.

(** The clientset holds [m], and its scheme knows the list type. *)
Record ready (c : Fake) (m : gmap (string * string) T) : Prop := {
  rd_simple : simple c;
  rd_holds : holds resource (Tracker c) m;
  rd_quiet : quiet resource (fs_ns f) (Tracker c);
  rd_scope : map_Forall (fun k _ => scope_ok (fs_ns f) k) m;
  rd_version : gv_Version (gvk_GroupVersion kind) <> EmptyString;
  rd_list : scheme_New (scheme (Tracker c)) (WithKind (gvk_GroupVersion kind) (gvk_Kind kind +:+ "List"))
            = Ok (of_list (list_zero : ListOf T));
}.

(** After a call: the clientset holds [m'], nothing else has changed, and one
    action with [verb] and the subresource [sub] is recorded. *)
Definition after (c : Fake) (verb sub : string) (c' : Fake) (m' : gmap (string * string) T) : Prop :=
  simple c' /\ holds resource (Tracker c') m' /\ others resource (Tracker c) (Tracker c')
  /\ map_Forall (fun k _ => scope_ok (fs_ns f) k) m'
  /\ exists action, actions c' = actions c ++ [action]
     /\ action_impl action = MkActionImpl (fs_ns f) verb resource sub.

(** After a watch was opened: there is a new one, which gets the events of the
    namespace, nothing is stored or removed, and one action is recorded. *)
Definition after_watch (c : Fake) (watch : nat) (c' : Fake) : Prop :=
  simple c' /\ objects (Tracker c') = objects (Tracker c) /\ scheme (Tracker c') = scheme (Tracker c)
  /\ channels (Tracker c') = channels (Tracker c) ++ [NewRaceFreeFake] /\ watch = length (channels (Tracker c))
  /\ watch ∈ tracker_getWatches (Tracker c') resource (fs_ns f)
  /\ exists action, actions c' = actions c ++ [action]
     /\ action_impl action = MkActionImpl (fs_ns f) "watch" resource EmptyString.

Lemma after_same c m action verb sub :
  ready c m -> action_impl action = MkActionImpl (fs_ns f) verb resource sub ->
  after c verb sub (with_tracker (Tracker c) (record_action action c)) m.
Proof.
  intros Hr Ha. split; [apply (rd_simple _ _ Hr)|]. split; [apply (rd_holds _ _ Hr)|]. split; [apply others_refl|].
  split; [apply (rd_scope _ _ Hr)|]. eexists. split; [done|]. by destruct action.
Qed.

Lemma after_moved c m action verb sub t' m' :
  ready c m -> action_impl action = MkActionImpl (fs_ns f) verb resource sub ->
  holds resource t' m' -> others resource (Tracker c) t' -> map_Forall (fun k _ => scope_ok (fs_ns f) k) m' ->
  after c verb sub (with_tracker t' (record_action action c)) m'.
Proof.
  intros Hr Ha Hh Ho Hs. split; [apply (rd_simple _ _ Hr)|]. do 3 (split; [done|]). eexists. split; [done|].
  by destruct action.
Qed.

Lemma scope_insert (m : gmap (string * string) T) name y :
  map_Forall (fun k _ => scope_ok (fs_ns f) k) m -> map_Forall (fun k (_ : T) => scope_ok (fs_ns f) k) (<[(fs_ns f, name) := y]> m).
Proof. intros Hs. apply map_Forall_insert_2; [|done]. by right. Qed.

Lemma placed_copy ns x : placed ns (copy_kind x) = placed ns x.
Proof. unfold placed. by rewrite copy_meta, copy_twice. Qed.

Lemma fits_copy ns x : fits_namespace ns (copy_kind x) = fits_namespace ns x.
Proof. unfold fits_namespace. by rewrite copy_meta. Qed.

(** A write, read back, is the write of the map. *)
Lemma stored_spec c m x replaceExisting :
  ready c m -> Name (kind_meta x) <> EmptyString ->
  exists t', stored resource (fs_ns f) (Name (kind_meta x))
               (tracker_add resource (of_kind (copy_kind x)) (fs_ns f) replaceExisting (Tracker c))
    = Some (t', (true, option_map of_kind
                         (if replaceExisting then spec_Update gr (fs_ns f) x m else spec_Create gr (fs_ns f) x m).2.1,
                       (if replaceExisting then spec_Update gr (fs_ns f) x m else spec_Create gr (fs_ns f) x m).2.2))
    /\ (forall action verb sub, action_impl action = MkActionImpl (fs_ns f) verb resource sub ->
         after c verb sub (with_tracker t' (record_action action c))
           (if replaceExisting then spec_Update gr (fs_ns f) x m else spec_Create gr (fs_ns f) x m).1).
Proof.
  intros Hr Hname. pose proof (tracker_add_spec resource (Tracker c) m (fs_ns f) (copy_kind x) replaceExisting
    (rd_holds _ _ Hr) (rd_quiet _ _ Hr)) as Hadd. rewrite fits_copy, placed_copy, copy_meta in Hadd.
  unfold spec_Create, spec_Update. destruct (fits_namespace (fs_ns f) x) eqn:Ef; cbn [negb] in Hadd |- *.
  2: { exists (Tracker c). rewrite Hadd. destruct replaceExisting; (split; [done|]; intros; by apply after_same). }
  assert (forall t', holds resource t' (<[(fs_ns f, Name (kind_meta x)) := placed (fs_ns f) x]> m) ->
            tracker_Get t' resource (fs_ns f) (Name (kind_meta x)) = Ok (of_kind (placed (fs_ns f) x))) as Hget.
  { intros t' Hh. rewrite (tracker_Get_spec _ _ _ _ _ Hh); [by rewrite lookup_insert_eq| |done].
    apply scope_insert, (rd_scope _ _ Hr). }
  destruct (m !! (fs_ns f, Name (kind_meta x))) as [y|], replaceExisting.
  1,4: destruct Hadd as (t' & -> & Hh & Ho); exists t'; cbn [stored]; rewrite (Hget t' Hh); split; [done|]; intros;
    cbn; apply (after_moved c m); [done..|]; apply scope_insert, (rd_scope _ _ Hr).
  all: exists (Tracker c); rewrite Hadd; (split; [done|]); intros; by apply after_same.
Qed.

(** What an interface does to the map. *)
Record acts_as_map (has_status : bool) (I : SinkInterface (option Fake) api_error T) : Prop := {
  am_get : forall c m name o, ready c m -> name <> EmptyString -> exists c',
    i_Get I name o (Some c) = (Some c', spec_Get gr (fs_ns f) name m) /\ after c "get" EmptyString c' m;
  am_create : forall c m x, ready c m -> Name (kind_meta x) <> EmptyString -> exists c',
    i_Create I x (Some c) = (Some c', (spec_Create gr (fs_ns f) x m).2)
    /\ after c "create" EmptyString c' (spec_Create gr (fs_ns f) x m).1;
  am_update : forall c m x, ready c m -> Name (kind_meta x) <> EmptyString -> exists c',
    i_Update I x (Some c) = (Some c', (spec_Update gr (fs_ns f) x m).2)
    /\ after c "update" EmptyString c' (spec_Update gr (fs_ns f) x m).1;
  am_has_status : is_Some (i_UpdateStatus I) <-> has_status = true;
  am_update_status : forall update c m x, i_UpdateStatus I = Some update -> ready c m ->
    Name (kind_meta x) <> EmptyString -> exists c',
    update x (Some c) = (Some c', (spec_Update gr (fs_ns f) x m).2)
    /\ after c "update" "status" c' (spec_Update gr (fs_ns f) x m).1;
  am_delete : forall c m name o, ready c m -> exists c',
    i_Delete I name o (Some c) = (Some c', (spec_Delete gr (fs_ns f) name m).2)
    /\ after c "delete" EmptyString c' (spec_Delete gr (fs_ns f) name m).1;
  am_list : forall c m o label fieldSel, ready c m -> labels_Parse (LabelSelector o) = Ok label ->
    fields_ParseSelector (FieldSelector o) = Ok fieldSel -> exists c' r,
    i_List I o (Some c) = (Some c', r) /\ spec_List (fs_ns f) label m r /\ after c "list" EmptyString c' m;
  am_watch : forall c m o label fieldSel, ready c m -> labels_Parse (LabelSelector o) = Ok label ->
    fields_ParseSelector (FieldSelector o) = Ok fieldSel -> exists c' watch,
    i_Watch I o (Some c) = (Some c', (Some watch, None)) /\ after_watch c watch c';
  am_delete_collection : forall c m o lo label fieldSel, ready c m -> labels_Parse (LabelSelector lo) = Ok label ->
    fields_ParseSelector (FieldSelector lo) = Ok fieldSel -> exists c',
    i_DeleteCollection I o lo (Some c) = (Some c', None) /\ after c "delete-collection" EmptyString c' m;
  am_patch : forall c m name pt data subs, ready c m -> name <> EmptyString -> exists c' m' r,
    i_Patch I name pt data subs (Some c) = (Some c', r) /\ spec_Patch gr (fs_ns f) name pt data m m' r
    /\ after c "patch" (path_Join subs) c' m';
}.

Lemma assert_of_kind (c : Fake) (x : option T) (err : option api_error) :
  assert_result (Some (c, (option_map of_kind x, err))) = Some (c, (x, err)).
Proof. destruct x as [x|]; cbn; [|done]. by rewrite (proj2 (as_of _ x) eq_refl). Qed.

Lemma fake_write_spec c m x replaceExisting (mk : ActionImpl -> obj -> Action) verb subresource :
  ready c m -> Name (kind_meta x) <> EmptyString ->
  (forall t o, ObjectReaction (mk (MkActionImpl (fs_ns f) verb resource subresource) o) t =
     match Accessor o with
     | Err e => Some (t, (true, None, Some (ErrText e)))
     | Ok objMeta => stored resource (fs_ns f) (Name objMeta) (tracker_add resource o (fs_ns f) replaceExisting t)
     end) ->
  (forall a o, action_DeepCopy (mk a o) = mk a (obj_DeepCopyObject o)) ->
  exists t',
    assert_result (Invokes (mk (MkActionImpl (fs_ns f) verb resource subresource) (of_kind x)) (of_kind zero_obj) c)
    = Some (with_tracker t' (record_action (mk (MkActionImpl (fs_ns f) verb resource subresource) (of_kind x)) c),
            (if replaceExisting then spec_Update gr (fs_ns f) x m else spec_Create gr (fs_ns f) x m).2)
    /\ (forall action verb sub, action_impl action = MkActionImpl (fs_ns f) verb resource sub ->
         after c verb sub (with_tracker t' (record_action action c))
           (if replaceExisting then spec_Update gr (fs_ns f) x m else spec_Create gr (fs_ns f) x m).1).
Proof.
  intros Hr Hname Hreact Hcopy. rewrite (Invokes_simple _ _ _ (rd_simple _ _ Hr)), Hcopy, copy_obj, Hreact, meta_of, copy_meta.
  destruct (stored_spec c m x replaceExisting Hr Hname) as (t' & -> & Hafter). exists t'. split; [|done].
  rewrite assert_of_kind. by destruct (if replaceExisting then _ else _) as [m' [y e]].
Qed.

Lemma spec_List_of c m label :
  ready c m -> exists l, tracker_List (Tracker c) resource kind (fs_ns f) = Ok (of_list l)
    /\ spec_List (fs_ns f) label m
         (let matching := List.filter (fun item => label (set_of (kind_meta item))) (default [] (Items l)) in
          (Some {| lst_TypeMeta := TypeMeta_zero; lst_ListMeta := lst_ListMeta l;
                   Items := match matching with [] => None | _ => Some matching end |}, None)).
Proof.
  intros Hr. destruct (tracker_List_spec resource kind (Tracker c) m (fs_ns f) (rd_holds _ _ Hr) (rd_version _ _ Hr)
    (rd_list _ _ Hr)) as (l & E & Hmeta & Hp). exists l. split; [done|]. cbn zeta. rewrite Hmeta.
  eexists. split; [done|]. by apply filter_Permutation_bool.
Qed.

Lemma fake_Patch_spec c m name pt data subs :
  ready c m -> name <> EmptyString -> exists c' m' r,
    fake_Patch T resource f name pt data subs c = Some (c', r) /\ spec_Patch gr (fs_ns f) name pt data m m' r
    /\ after c "patch" (path_Join subs) c' m'.
Proof.
  intros Hr Hname. unfold fake_Patch. rewrite (Invokes_simple _ _ _ (rd_simple _ _ Hr)).
  cbn [NewPatchSubresourceAction action_DeepCopy ObjectReaction action_impl a_Namespace a_Resource].
  rewrite (tracker_Get_spec _ _ _ _ _ (rd_holds _ _ Hr) (rd_scope _ _ Hr) Hname). unfold spec_Patch.
  set (action := PatchActionImpl (MkActionImpl (fs_ns f) "patch" resource (path_Join subs)) name pt data).
  assert (action_impl action = MkActionImpl (fs_ns f) "patch" resource (path_Join subs)) as Ha by done.
  destruct (m !! (fs_ns f, name)) as [x|].
  2: { eexists _, m, (Some zero_obj, None). split; [apply (assert_of_kind _ (Some zero_obj))|]. split; [done|].
       by apply after_same. }
  destruct (patched pt data (of_kind x)) as [o|e] eqn:Ep.
  2: { eexists _, m, (None, Some e). split; [apply (assert_of_kind _ None)|]. split; [done|]. by apply after_same. }
  assert (exists y, o = of_kind y) as [y ->].
  { apply (same_type o x). unfold patched in Ep. destruct (String.eqb pt JSONPatchType).
    - destruct (apply_json_patch data (of_kind x)) as [o'|] eqn:E; [|done]. injection Ep as ->. by eapply json_patch_type.
    - destruct (String.eqb pt StrategicMergePatchType); [|done].
      destruct (apply_strategic_patch data (of_kind x)) as [o'|] eqn:E; [|done]. injection Ep as ->.
      by eapply strategic_patch_type. }
  pose proof (tracker_add_spec resource (Tracker c) m (fs_ns f) y true (rd_holds _ _ Hr) (rd_quiet _ _ Hr)) as Hadd.
  unfold tracker_Update. enough (exists c' m' r,
    match tracker_add resource (of_kind y) (fs_ns f) true (Tracker c) with
    | None => None
    | Some (t, Some e) => Some (with_tracker t (record_action action c), (None, Some e))
    | Some (t, None) => Some (with_tracker t (record_action action c), (Some y, None))
    end = Some (c', r)
    /\ match spec_Update gr (fs_ns f) y m with
       | (m1, (_, None)) => m' = m1 /\ r = (Some y, None)
       | (m1, (_, Some e)) => m' = m1 /\ r = (None, Some e)
       end /\ after c "patch" (path_Join subs) c' m') as (c' & m' & r & E & Hs & Hafter).
  { exists c', m', r. split; [|split; [by exists y|done]]. rewrite <- E.
    destruct (tracker_add _ _ _ _ _) as [[t [e|]]|]; [apply (assert_of_kind _ None)|apply (assert_of_kind _ (Some y))|done]. }
  unfold spec_Update. destruct (fits_namespace (fs_ns f) y) eqn:Ef; cbn [negb] in Hadd |- *.
  2: { rewrite Hadd. eexists _, m, (None, _). split; [done|]. split; [done|]. by apply after_same. }
  destruct (m !! (fs_ns f, Name (kind_meta y))) as [z|].
  - destruct Hadd as (t' & -> & Hh & Ho). eexists _, _, (Some y, None). split; [done|]. split; [done|].
    apply (after_moved c m); [done..|]. apply scope_insert, (rd_scope _ _ Hr).
  - rewrite Hadd. eexists _, m, (None, _). split; [done|]. split; [done|]. by apply after_same.
Qed.

Lemma fake_Watch_spec c m o label fieldSel :
  ready c m -> labels_Parse (LabelSelector o) = Ok label -> fields_ParseSelector (FieldSelector o) = Ok fieldSel ->
  exists c' watch, fake_Watch resource f o c = Some (c', (Some watch, None)) /\ after_watch c watch c'.
Proof.
  intros [[Hr Hchain] _ _ _ _ _] Hl Hf. unfold fake_Watch, NewWatchAction, ExtractFromListOptions. rewrite Hl, Hf.
  cbn [mbind option_bind]. unfold InvokesWatch. cbn [WatchReactionChain record_action Tracker]. rewrite Hchain.
  cbn. do 2 eexists. split; [done|]. split; [by split|]. cbn. split_and!; [done|done|done|done| |by eexists].
  unfold tracker_getWatches. cbn. rewrite lookup_insert_eq. apply elem_of_app. left. rewrite lookup_insert_eq. cbn.
  apply elem_of_app. right. by left.
Qed.

Lemma fake_acts_as_map has_status : acts_as_map has_status (fake_interface T resource kind has_status f).
Proof.
  split; cbn [fake_interface i_Get i_Create i_Update i_UpdateStatus i_Delete i_List i_Watch i_DeleteCollection i_Patch guarded].
  - intros c m name o Hr Hname. unfold fake_Get. rewrite (Invokes_simple _ _ _ (rd_simple _ _ Hr)).
    cbn [NewGetAction action_DeepCopy ObjectReaction action_impl a_Namespace a_Resource].
    rewrite (tracker_Get_spec _ _ _ _ _ (rd_holds _ _ Hr) (rd_scope _ _ Hr) Hname). unfold spec_Get.
    exists (with_tracker (Tracker c) (record_action (NewGetAction resource (fs_ns f) name) c)).
    split; [|by apply after_same]. destruct (m !! (fs_ns f, name)) as [x|]; cbn [obj_or_error].
    + pose proof (assert_of_kind (with_tracker (Tracker c) (record_action (NewGetAction resource (fs_ns f) name) c))
        (Some x) None) as E. cbn [option_map] in E. by rewrite E.
    + done.
  - intros c m x Hr Hname.
    destruct (fake_write_spec c m x false CreateActionImpl "create" EmptyString Hr Hname) as (t' & E & Hafter); [done..|].
    unfold fake_Create, NewCreateAction. rewrite E. eexists. split; [done|]. by apply Hafter.
  - intros c m x Hr Hname.
    destruct (fake_write_spec c m x true UpdateActionImpl "update" EmptyString Hr Hname) as (t' & E & Hafter); [done..|].
    unfold fake_Update, NewUpdateAction. rewrite E. eexists. split; [done|]. by apply Hafter.
  - destruct has_status; (split; [intros [? Hu]|intros Hu]); done || by eexists.
  - intros update c m x Hu Hr Hname. destruct has_status; [injection Hu as <-|done]. cbn [guarded].
    destruct (fake_write_spec c m x true UpdateActionImpl "update" "status" Hr Hname) as (t' & E & Hafter); [done..|].
    unfold fake_UpdateStatus, NewUpdateSubresourceAction. rewrite E. eexists. split; [done|]. by apply Hafter.
  - intros c m name o Hr. unfold fake_Delete. rewrite (Invokes_simple _ _ _ (rd_simple _ _ Hr)).
    cbn [NewDeleteAction action_DeepCopy ObjectReaction action_impl a_Namespace a_Resource].
    pose proof (tracker_Delete_spec resource (Tracker c) m (fs_ns f) name (rd_holds _ _ Hr) (rd_quiet _ _ Hr)) as Hdel.
    unfold spec_Delete. destruct (m !! (fs_ns f, name)) as [x|].
    + destruct Hdel as (t' & -> & Hh & Ho). eexists. split; [done|]. apply (after_moved c m); [done..|].
      apply map_Forall_delete, (rd_scope _ _ Hr).
    + rewrite Hdel. eexists. split; [done|]. by apply after_same.
  - intros c m o label fieldSel Hr Hl Hf. unfold fake_List, NewListAction, ExtractFromListOptions. rewrite Hl, Hf.
    cbn [mbind option_bind]. rewrite (Invokes_simple _ _ _ (rd_simple _ _ Hr)).
    cbn [action_DeepCopy ObjectReaction action_impl a_Namespace a_Resource].
    destruct (spec_List_of c m label Hr) as (l & -> & Hspec). cbn [obj_or_error mbind option_bind].
    rewrite (proj2 (as_of_list _ l) eq_refl). cbn [mbind option_bind].
    do 2 eexists. split; [done|]. split; [exact Hspec|]. by apply after_same.
  - intros c m o label fieldSel Hr Hl Hf. destruct (fake_Watch_spec c m o label fieldSel Hr Hl Hf) as (c' & watch & -> & Ha).
    by exists c', watch.
  - intros c m o lo label fieldSel Hr Hl Hf. unfold fake_DeleteCollection, NewDeleteCollectionAction, ExtractFromListOptions.
    rewrite Hl, Hf. cbn [mbind option_bind]. rewrite (Invokes_simple _ _ _ (rd_simple _ _ Hr)).
    cbn. eexists. split; [done|]. by apply after_same.
  - intros c m name pt data subs Hr Hname. destruct (fake_Patch_spec c m name pt data subs Hr Hname) as (c' & m' & r & -> & H').
    by exists c', m', r.
Qed.

End Refines.

(** ** The clientset at its start *)

Definition sinks_of (T : Type) `{SinkKind T} (objs : list obj) : list T := omap as_kind objs.

(** [t] holds the sinks of a kind among [objs]. *)
Definition stores (T : Type) `{CK : ClientKind T} {FK : FakeKind T} (resource : GroupVersionResource)
    (objs : list obj) (t : tracker) : Prop :=
  holds resource t (keyed (map copy_kind (sinks_of T objs))).

Definition distinct (T : Type) `{CK : ClientKind T} {FK : FakeKind T} (objs : list obj) : Prop :=
  NoDup (map key_of (sinks_of T objs)).

Lemma copy_keys {T} `{CK : ClientKind T} {FK : FakeKind T} (xs : list T) :
  map key_of (map copy_kind xs) = map key_of xs.
Proof. rewrite map_map. apply map_ext. intros x. unfold key_of. by rewrite copy_meta. Qed.

Lemma stores_other (T : Type) `{CK : ClientKind T} {FK : FakeKind T} resource resource' objs o t t' :
  as_kind (T := T) o = None -> resource <> resource' -> others resource' t t' ->
  stores T resource objs t -> stores T resource (objs ++ [o]) t'.
Proof.
  intros Ho Hne [Hothers _]. unfold stores, sinks_of, holds. rewrite omap_app. cbn. rewrite Ho, app_nil_r.
  by rewrite (Hothers resource Hne).
Qed.

Section Stocked.
Context (S0 : Scheme) (HS : Forall (kind_registered S0) sink_kinds).

Lemma stores_add {T : Type} `{CK : ClientKind T} {FK : FakeKind T} resource names objs (x : T) t :
  kind_registered S0 names -> type_of (of_kind x) = Some (kn_type names) ->
  resource = WithResource SchemeGroupVersion (kn_resource names) -> ExtractList (of_kind x) = None ->
  scheme t = S0 -> channels t = [] ->
  distinct T (objs ++ [of_kind x]) -> stores T resource objs t ->
  exists t', tracker_Add (of_kind x) t = Some (t', None) /\ stores T resource (objs ++ [of_kind x]) t'
    /\ others resource t t'.
Proof.
  intros (Hgvks & _ & _ & _ & Hguess) Htype -> Hnl Hs Hch Hnd Hst.
  set (resource := WithResource SchemeGroupVersion (kn_resource names)) in *.
  unfold tracker_Add. rewrite Hnl. unfold tracker_Add1. rewrite meta_of, Hs. unfold ObjectKinds. rewrite Htype.
  unfold gvks_of in Hgvks. destruct (typeToGVK S0 !! kn_type names) as [gvks|]; cbn in Hgvks; [|done].
  subst gvks. cbn [add_gvks]. rewrite Hguess. cbn [gv_Version gvr_GroupVersion WithResource SchemeGroupVersion].
  change (String.eqb (gv_Version (gvr_GroupVersion resource)) APIVersionInternal) with false.
  set (ns := Namespace (kind_meta x)).
  assert (quiet resource ns t) as Hq by (unfold quiet; by rewrite Hch).
  pose proof (tracker_add_spec resource t _ ns x false Hst Hq) as Hadd.
  assert (fits_namespace ns x = true) as Hf.
  { unfold fits_namespace, ns. by rewrite String.eqb_refl, orb_true_r. }
  rewrite Hf in Hadd. cbn [negb] in Hadd.
  unfold distinct, sinks_of in Hnd. rewrite omap_app in Hnd. cbn in Hnd. rewrite (proj2 (as_of _ x) eq_refl) in Hnd.
  rewrite map_app in Hnd. apply NoDup_app in Hnd as (Hnd & Hni & _).
  assert (keyed (map copy_kind (sinks_of T objs)) !! (ns, Name (kind_meta x)) = None) as Hnone.
  { apply keyed_None. rewrite copy_keys. intros Hin. by apply (Hni _ Hin), list_elem_of_singleton. }
  rewrite Hnone in Hadd. destruct Hadd as (t' & Ht' & Hh & Ho).
  exists t'. split; [by rewrite Ht'|]. split; [|done].
  unfold stores, sinks_of. rewrite omap_app. cbn. rewrite (proj2 (as_of _ x) eq_refl), map_app. cbn [map].
  assert (placed ns x = copy_kind x) as Hp.
  { unfold placed, ns. destruct (String.eqb _ _); [|done]. rewrite <- copy_set_ns. by rewrite set_ns_same. }
  rewrite Hp in Hh.
  assert (key_of (copy_kind x) = (ns, Name (kind_meta x))) as Hk by (unfold key_of; by rewrite copy_meta).
  rewrite <- Hk in Hh, Hnone.
  destruct (keyed_app_one (map copy_kind (sinks_of T objs)) (copy_kind x) Hnone) as [_ E]; [by rewrite copy_keys|].
  unfold sinks_of in E, Hh. by rewrite E.
Qed.

(** What [NewSimpleClientset] has built, kind by kind. *)
Record stocked (objs : list obj) (t : tracker) : Prop := {
  sk_scheme : scheme t = S0;
  sk_channels : channels t = [];
  sk_ls : stores LogSink logsinksResource objs t;
  sk_cls : stores ClusterLogSink clusterlogsinksResource objs t;
  sk_ms : stores MetricSink metricsinksResource objs t;
  sk_cms : stores ClusterMetricSink clustermetricsinksResource objs t;
}.

Record all_distinct (objs : list obj) : Prop := {
  ad_ls : distinct LogSink objs; ad_cls : distinct ClusterLogSink objs;
  ad_ms : distinct MetricSink objs; ad_cms : distinct ClusterMetricSink objs;
}.

Definition is_sink (o : obj) : Prop :=
  match o with ALogSink _ | AClusterLogSink _ | AMetricSink _ | AClusterMetricSink _ => True | _ => False end.

Lemma distinct_app T `{CK : ClientKind T} {FK : FakeKind T} objs objs' : distinct T (objs ++ objs') -> distinct T objs.
Proof. unfold distinct, sinks_of. rewrite omap_app, map_app. by intros (? & _)%NoDup_app. Qed.

(** Adding a sink of one kind keeps the others. *)
Ltac stores_rest Ho := eapply stores_other; [reflexivity| |exact Ho|assumption]; discriminate.

Lemma stocked_add objs o t :
  is_sink o -> all_distinct (objs ++ [o]) -> stocked objs t ->
  exists t', tracker_Add o t = Some (t', None) /\ stocked (objs ++ [o]) t'.
Proof.
  intros Ho [D1 D2 D3 D4] [Es Ec S1 S2 S3 S4].
  pose proof HS as Hk. unfold sink_kinds in Hk. rewrite !Forall_cons in Hk.
  destruct Hk as (K1 & K2 & K3 & K4 & _).
  assert (forall r t', others r t t' -> scheme t' = S0 /\ channels t' = []) as Hrest.
  { intros r t' (_ & H1' & _ & H2'). rewrite H1', Es. split; [done|]. rewrite Ec in H2'. by apply nil_length_inv. }
  destruct o as [x|x|x|x| | | | | | |]; try done.
  - destruct (stores_add logsinksResource _ objs x t K1) as (t' & E & S' & O'); [done..|].
    exists t'. split; [exact E|]. destruct (Hrest _ _ O'). split; try done; by stores_rest O'.
  - destruct (stores_add clusterlogsinksResource _ objs x t K2) as (t' & E & S' & O'); [done..|].
    exists t'. split; [exact E|]. destruct (Hrest _ _ O'). split; try done; by stores_rest O'.
  - destruct (stores_add metricsinksResource _ objs x t K3) as (t' & E & S' & O'); [done..|].
    exists t'. split; [exact E|]. destruct (Hrest _ _ O'). split; try done; by stores_rest O'.
  - destruct (stores_add clustermetricsinksResource _ objs x t K4) as (t' & E & S' & O'); [done..|].
    exists t'. split; [exact E|]. destruct (Hrest _ _ O'). split; try done; by stores_rest O'.
Qed.

Lemma stocked_all rest objs t :
  Forall is_sink rest -> all_distinct (objs ++ rest) -> stocked objs t ->
  exists t', add_all rest t = Some t' /\ stocked (objs ++ rest) t'.
Proof.
  intros Hr. revert objs t. induction Hr as [|o rest Ho _ IH]; intros objs t Hd Hs; cbn [add_all].
  { rewrite app_nil_r. by exists t. }
  assert (objs ++ o :: rest = (objs ++ [o]) ++ rest) as E by by rewrite <- app_assoc. rewrite E in Hd |- *.
  destruct (stocked_add objs o t Ho) as (t' & -> & Hs'); [|done|by apply IH].
  destruct Hd as [? ? ? ?]. split; by eapply distinct_app.
Qed.

Lemma stocked_new : stocked [] (NewObjectTracker S0).
Proof. split; try done; exists []; (split; [reflexivity|]); repeat split; constructor. Qed.

(** The keys of the sinks of a kind that fit a fake. *)
Definition in_scope (T : Type) `{CK : ClientKind T} {FK : FakeKind T} (f : FakeSinks) (objs : list obj) : Prop :=
  Forall (fun x : T => scope_ok (fs_ns f) (key_of x)) (sinks_of T objs).

Lemma stocked_ready {T : Type} `{CK : ClientKind T} {FK : FakeKind T} resource names f objs c :
  kind_registered S0 names -> reflect_New (kn_list names) = of_list (list_zero : ListOf T) ->
  simple c -> scheme (Tracker c) = S0 -> channels (Tracker c) = [] -> stores T resource objs (Tracker c) ->
  distinct T objs -> in_scope T f objs ->
  ready resource (WithKind SchemeGroupVersion (type_Name (kn_type names))) f c (keyed (map copy_kind (sinks_of T objs))).
Proof.
  intros (_ & _ & _ & Hlist & _) Hz Hc Hs Hch Hst Hd Hscope. split; try done.
  - unfold quiet. by rewrite Hch.
  - intros k x E. apply keyed_lookup in E as [Hx <-]; [|by rewrite copy_keys].
    apply list_elem_of_fmap in Hx as (y & -> & Hy). unfold key_of. rewrite copy_meta.
    by apply (proj1 (Forall_forall _ _) Hscope).
  - rewrite Hs. by rewrite <- Hz.
Qed.

End Stocked.

Lemma NewSimpleClientset_stocked objs :
  Forall is_sink objs -> all_distinct objs ->
  exists c, NewSimpleClientset objs = Some c /\ simple c /\ stocked clientset_Scheme objs (Tracker c).
Proof.
  intros Ho Hd.
  destruct (stocked_all clientset_Scheme sinks_registered_kinds objs [] _ Ho Hd (stocked_new _)) as (t & E & Hs).
  unfold NewSimpleClientset. rewrite E. cbn [mbind option_bind]. eexists. split; [reflexivity|].
  split; [by split|exact Hs].
Qed.

(** Create an object and read it back, through any client. *)
Definition create_and_get {W E T} `{SinkKind T} (I : SinkInterface W E T) (x : T) (w : W)
    : option (W * (option E * option E)) :=
  '(w, e1) ← run_call I (CallCreate T x) w;
  '(w, e2) ← run_call I (CallGet T (Name (kind_meta x)) no_options) w;
  Some (w, (e1, e2)).

Lemma fake_create_and_get {T : Type} `{CK : ClientKind T} {FK : FakeKind T} resource kind has_status f c (x : T) :
  ready resource kind f c ∅ -> channels (Tracker c) = [] -> fits_namespace (fs_ns f) x = true ->
  Name (kind_meta x) <> EmptyString ->
  exists c', create_and_get (fake_interface T resource kind has_status f) x (Some c) = Some (Some c', (None, None)).
Proof.
  intros Hr Hch Hf Hname. unfold create_and_get, run_call.
  destruct (am_create _ _ _ _ _ (fake_acts_as_map resource kind f has_status) c ∅ x Hr Hname) as (c1 & -> & Hafter).
  unfold spec_Create in Hafter |- *. rewrite Hf, lookup_empty in Hafter |- *. cbn [negb fst snd mbind option_bind] in Hafter |- *.
  destruct Hafter as (Hs & Hh & (_ & Hscheme & _ & Hlen) & Hscope & _).
  assert (ready resource kind f c1 (<[(fs_ns f, Name (kind_meta x)) := placed (fs_ns f) x]> ∅)) as Hr1.
  { destruct Hr. split; try done; [|by rewrite Hscheme]. unfold quiet. rewrite Hch in Hlen. by apply nil_length_inv in Hlen as ->. }
  destruct (am_get _ _ _ _ _ (fake_acts_as_map resource kind f has_status) c1 _ _ no_options Hr1 Hname) as (c2 & -> & _).
  unfold spec_Get. rewrite lookup_insert_eq. by exists c2.
Qed.

Lemma client_create_and_get `{Codec} {T : Type} `{CK : ClientKind T} res_name has_status reply (c : kindClient) (x : T) w :
  at_root (client c) -> ns c = EmptyString -> segment res_name ->
  exists e1 e2, create_and_get (@kind_interface _ _ (spy reply) _ _ _ res_name has_status c) x w = Some (w, (Some e1, Some e2)).
Proof.
  intros Hroot Hns Hseg. unfold create_and_get.
  set (I := @kind_interface _ _ (spy reply) T _ _ res_name has_status c).
  assert (forall call : point_call T, is_patch call = false ->
            forall r, run_call I call w = Some r -> exists e, r = (w, Some e)) as Hbad.
  { intros call Hp r E. refine (@bad_call_run _ _ (spy reply) T _ _ res_name has_status c Hroot Hseg call w r _ E).
    right. right. right. by split. }
  assert (exists r, run_call I (CallCreate T x) w = Some r) as [r1 E1].
  { cbn [run_call]. destruct (i_Create I x w) as [? [? ?]]. by eexists. }
  assert (exists r, run_call I (CallGet T (Name (kind_meta x)) no_options) w = Some r) as [r2 E2].
  { cbn [run_call]. destruct (i_Get I _ _ w) as [? [? ?]]. by eexists. }
  apply (Hbad (CallCreate T x) eq_refl) in E1 as Er. destruct Er as [e1 ->].
  apply (Hbad (CallGet T (Name (kind_meta x)) no_options) eq_refl) in E2 as Er. destruct Er as [e2 ->].
  exists e1, e2. rewrite E1. cbn [mbind option_bind]. by rewrite E2.
Qed.

(** ** Properties *)

(** C17: what the fakes do, on a map from namespace and name to the stored
    object.  On a simple clientset that holds [m] and whose watches have room,
    no method of a fake of the four kinds, in a namespace or for objects without
    one, panics when the selectors parse; each records one action and changes no
    other resource.  [Get], [List], [Create], [Update], [Delete] and [Patch] of
    a name that is there are the lookup, the listing, the insertion, the
    replacement, the removal and the change in the map, with the errors of the
    API server; [UpdateStatus], which only the metric sinks have, replaces the
    whole object like [Update].  [Watch] opens a watch and changes nothing that
    is stored.  The rest is not what the API server does:
    [DeleteCollection] reports success and deletes nothing, and [Patch] of a name
    that is not there reports success with the zero object. *)
Theorem fakes_are_maps (f : FakeSinks) :
  acts_as_map logsinksResource logsinksKind f false (FakeLogSinkInterface f)
  /\ acts_as_map clusterlogsinksResource clusterlogsinksKind f false (FakeClusterLogSinkInterface f)
  /\ acts_as_map metricsinksResource metricsinksKind f true (FakeMetricSinkInterface f)
  /\ acts_as_map clustermetricsinksResource clustermetricsinksKind f true (FakeClusterMetricSinkInterface f).
Proof.
  split; [exact (fake_acts_as_map logsinksResource logsinksKind f false)|].
  split; [exact (fake_acts_as_map clusterlogsinksResource clusterlogsinksKind f false)|].
  split; [exact (fake_acts_as_map metricsinksResource metricsinksKind f true)|].
  exact (fake_acts_as_map clustermetricsinksResource clustermetricsinksKind f true).
Qed.

(** [NewSimpleClientset] of sinks with different names does not panic,
    and its clientset holds exactly the copies of them: each fake whose
    namespace fits starts as the map of the sinks of its kind. *)
Lemma simple_clientset_holds (objs : list obj) (f : FakeSinks) :
  Forall is_sink objs -> all_distinct objs ->
  exists c, NewSimpleClientset objs = Some c
  /\ (in_scope LogSink f objs ->
      ready logsinksResource logsinksKind f c (keyed (map copy_kind (sinks_of LogSink objs))))
  /\ (in_scope ClusterLogSink f objs ->
      ready clusterlogsinksResource clusterlogsinksKind f c (keyed (map copy_kind (sinks_of ClusterLogSink objs))))
  /\ (in_scope MetricSink f objs ->
      ready metricsinksResource metricsinksKind f c (keyed (map copy_kind (sinks_of MetricSink objs))))
  /\ (in_scope ClusterMetricSink f objs ->
      ready clustermetricsinksResource clustermetricsinksKind f c
        (keyed (map copy_kind (sinks_of ClusterMetricSink objs)))).
Proof.
  intros Ho Hd. destruct (NewSimpleClientset_stocked objs Ho Hd) as (c & E & Hc & [Es Ech S1 S2 S3 S4]).
  destruct Hd as [D1 D2 D3 D4]. exists c. split; [exact E|].
  pose proof sinks_registered_kinds as Hk. unfold sink_kinds in Hk. rewrite !Forall_cons in Hk.
  destruct Hk as (K1 & K2 & K3 & K4 & _).
  split_and!; intros Hscope.
  - exact (stocked_ready clientset_Scheme logsinksResource _ f objs c K1 eq_refl Hc Es Ech S1 D1 Hscope).
  - exact (stocked_ready clientset_Scheme clusterlogsinksResource _ f objs c K2 eq_refl Hc Es Ech S2 D2 Hscope).
  - exact (stocked_ready clientset_Scheme metricsinksResource _ f objs c K3 eq_refl Hc Es Ech S3 D3 Hscope).
  - exact (stocked_ready clientset_Scheme clustermetricsinksResource _ f objs c K4 eq_refl Hc Es Ech S4 D4 Hscope).
Qed.

(** the fakes hide that the clients of the cluster-scoped kinds cannot
    work.  Creating a cluster sink without a namespace and reading it back
    succeeds on a new simple clientset; the same two calls on the client return
    two errors and send nothing, whatever the server. *)
Lemma fakes_hide_cluster_clients `{Codec} reply (c : kindClient) w (x : ClusterLogSink) (y : ClusterMetricSink) :
  at_root (client c) -> ns c = EmptyString ->
  Name (cls_ObjectMeta x) <> EmptyString -> Namespace (cls_ObjectMeta x) = EmptyString ->
  Name (cms_ObjectMeta y) <> EmptyString -> Namespace (cms_ObjectMeta y) = EmptyString ->
  exists fc, NewSimpleClientset [] = Some fc
  /\ (exists fc', create_and_get (FakeClusterLogSinkInterface (Fake_ClusterLogSinks EmptyString)) x (Some fc)
       = Some (Some fc', (None, None)))
  /\ (exists fc', create_and_get (FakeClusterMetricSinkInterface (Fake_ClusterMetricSinks EmptyString)) y (Some fc)
       = Some (Some fc', (None, None)))
  /\ (exists e1 e2, create_and_get (@ClusterLogSinkInterface _ _ (spy reply) c) x w = Some (w, (Some e1, Some e2)))
  /\ (exists e1 e2, create_and_get (@ClusterMetricSinkInterface _ _ (spy reply) c) y w = Some (w, (Some e1, Some e2))).
Proof.
  intros Hroot Hns Hx Hx' Hy Hy'.
  assert (all_distinct []) as Hd by (split; apply NoDup_nil_2).
  destruct (NewSimpleClientset_stocked [] (Forall_nil_2 _) Hd) as (fc & E & Hc & [Es Ech S1 S2 S3 S4]).
  pose proof sinks_registered_kinds as Hk. unfold sink_kinds in Hk. rewrite !Forall_cons in Hk.
  destruct Hk as (_ & K2 & _ & K4 & _). destruct Hd as [D1 D2 D3 D4]. exists fc. split; [exact E|].
  assert (fits_namespace EmptyString x = true) as Fx.
  { unfold fits_namespace. cbn [kind_meta ClusterLogSink_kind]. by rewrite Hx'. }
  assert (fits_namespace EmptyString y = true) as Fy.
  { unfold fits_namespace. cbn [kind_meta ClusterMetricSink_kind]. by rewrite Hy'. }
  split; [|split; [|split]].
  - exact (fake_create_and_get _ _ false _ fc x (stocked_ready clientset_Scheme clusterlogsinksResource _
      (Fake_ClusterLogSinks EmptyString) [] fc K2 eq_refl Hc Es Ech S2 D2 (Forall_nil_2 _)) Ech Fx Hx).
  - exact (fake_create_and_get _ _ true _ fc y (stocked_ready clientset_Scheme clustermetricsinksResource _
      (Fake_ClusterMetricSinks EmptyString) [] fc K4 eq_refl Hc Es Ech S4 D4 (Forall_nil_2 _)) Ech Fy Hy).
  - exact (client_create_and_get "clusterlogsinks" false reply c x w Hroot Hns eq_refl).
  - exact (client_create_and_get "clustermetricsinks" true reply c y w Hroot Hns eq_refl).
Qed.

End Fakes.

(** ** Examples *)

(** Selectors and patches for evaluating the fakes. *)
#[refine] Definition some_selectors : Selectors :=
  {| labels_Parse := fun s => if String.eqb s EmptyString then Ok (fun _ => true) else Err "bad";
     fields_ParseSelector := fun s => if String.eqb s EmptyString then Ok (fun _ => true) else Err "bad" |}.
Proof. all: by eexists. Defined.

#[refine] Definition some_patches : Patches :=
  {| apply_json_patch := fun _ o => Ok o; apply_strategic_patch := fun _ _ => Err "bad" |}.
Proof. all: intros p o o' E; by inversion E. Defined.

Definition all_options : ListOptions :=
  MkListOptions EmptyString EmptyString false false EmptyString None 0 EmptyString.

Definition some_sinks : list obj :=
  [ALogSink (plain_sink "ns1" "a" "https://a"); ALogSink (plain_sink "ns2" "a" "https://b")].

Definition cluster_metric_sink (name : string) : ClusterMetricSink :=
  {| cms_TypeMeta := TypeMeta_zero;
     cms_ObjectMeta := cls_ObjectMeta (plain_cluster_sink name EmptyString); cms_Spec := MetricSinkSpec_zero;
     cms_Status := SinkStatus_zero |}.

(** Deleting the collection of [ns1] reports success and leaves its sink. *)
Definition delete_and_list : option (option api_error * list LogSink) :=
  c ← @NewSimpleClientset plain_copy map_order some_patches some_sinks;
  '(c, e) ← @FakeLogSinks_DeleteCollection plain_copy map_order some_selectors (Fake_LogSinks "ns1") None all_options c;
  '(_, (l, _)) ← @FakeLogSinks_List plain_copy map_order some_selectors (Fake_LogSinks "ns1") all_options c;
  Some (e, default [] (l ≫= Items)).

Example DeleteCollection_deletes_nothing : delete_and_list = Some (None, [plain_sink "ns1" "a" "https://a"]).
Proof. vm_compute. reflexivity. Qed.

Lemma simple_clientset_holds_witness :
  exists c, @NewSimpleClientset plain_copy map_order some_patches some_sinks = Some c.
Proof.
  destruct (@simple_clientset_holds plain_copy map_order some_patches some_sinks (Fake_LogSinks "ns1")) as (c & E & _).
  - repeat constructor.
  - split; apply (bool_decide_eq_true_1 (NoDup _)); vm_compute; reflexivity.
  - exists c. exact E.
Defined.

Lemma fakes_hide_cluster_clients_witness :
  exists fc, @NewSimpleClientset plain_copy map_order some_patches [] = Some fc.
Proof.
  destruct (@fakes_hide_cluster_clients plain_copy map_order some_selectors some_patches some_codec
    (fun _ _ => Err "no") (some_client EmptyString) [] (plain_cluster_sink "all" "https://all") (cluster_metric_sink "all")
    (some_client_root _) eq_refl (not_empty _ _) eq_refl (not_empty _ _) eq_refl) as (fc & E & _).
  exists fc. exact E.
Defined.
