(* ===== verification/FakeWatch.v ===== *)
(** * The watches of the fakes

    What the watches of an object tracker receive.  The tracker keeps a list of
    watches for each resource and namespace and sends an event of a namespace
    to the watches of the namespace and then to those of all namespaces, the
    list of the empty name; for an object without a namespace these are the
    same list. *)

From stdpp Require Import base gmap strings list.
From Stdlib Require Import Ascii Lia.
From S2P Require Import Prelude GoStd GoPath Types Cache Listers RestRequest RestConfig TypedClients Scheme ObjectTracker FakeClients.

(** ** The watches of a tracker *)

(** The watches of a resource in a namespace. *)
Definition watches_at (t : tracker) (gvr : GroupVersionResource) (ns : string) : list nat :=
  default [] (default ∅ (watchers t !! gvr) !! ns).

(** [ws] has the resource and the namespace of each watch, in the order in
    which they were opened. *)
Record watching (t : tracker) (ws : list (GroupVersionResource * string)) : Prop := {
  w_length : length ws = length (channels t);
  w_count : forall gvr ns i,
    count_occ Nat.eq_dec (watches_at t gvr ns) i = if decide (ws !! i = Some (gvr, ns)) then 1 else 0;
}.

(** How often a watch receives an event of a resource in a namespace. *)
Definition times (gvr : GroupVersionResource) (ns : string) (w : GroupVersionResource * string) : nat :=
  (if decide (w = (gvr, ns)) then 1 else 0) + (if decide (w = (gvr, EmptyString)) then 1 else 0).

(** A watch after an event was sent to it [n] times. *)
Definition deliver (e : watch_event) (n : nat) (f : RaceFreeFakeWatcher) : RaceFreeFakeWatcher :=
  if Stopped f then f else {| result := result f ++ repeat e n; Stopped := Stopped f |}.

Lemma deliver_zero e f : deliver e 0 f = f.
Proof. unfold deliver. destruct f as [r [|]]; cbn; [done|]. by rewrite app_nil_r. Qed.

Lemma watcher_send_deliver e n f f' : watcher_send e f = Some f' -> deliver e n f' = deliver e (S n) f.
Proof.
  unfold watcher_send, deliver. destruct f as [r [|]]; cbn [Stopped result]; [by intros [= <-]|].
  destruct (Nat.ltb _ _); [|done]. intros [= <-]. cbn. by rewrite <- app_assoc.
Qed.

(** Each watch receives the event once for each time it is in the list. *)
Lemma send_all_deliver l e cs cs' i :
  send_all l e cs = Some cs' -> cs' !! i = deliver e (count_occ Nat.eq_dec l i) <$> cs !! i.
Proof.
  revert cs. induction l as [|w l IH]; intros cs; cbn [send_all count_occ].
  { intros [= ->]. destruct (cs' !! i) as [f|]; [cbn; by rewrite deliver_zero|done]. }
  destruct (cs !! w) as [f|] eqn:Ef.
  - destruct (watcher_send e f) as [f'|] eqn:Es; [|done]. intros ->%IH.
    destruct (Nat.eq_dec w i) as [->|Hne].
    + rewrite list_lookup_insert_eq by (by eapply lookup_lt_Some). rewrite Ef. cbn.
      by rewrite (watcher_send_deliver _ _ _ _ Es).
    + by rewrite list_lookup_insert_ne.
  - intros ->%IH. destruct (Nat.eq_dec w i) as [->|]; [|done]. by rewrite Ef.
Qed.

Lemma count_getWatches t ws gvr ns i w :
  watching t ws -> ws !! i = Some w -> count_occ Nat.eq_dec (tracker_getWatches t gvr ns) i = times gvr ns w.
Proof.
  intros [_ Hc] Hi. unfold times.
  assert (tracker_getWatches t gvr ns = watches_at t gvr ns ++ watches_at t gvr EmptyString) as ->.
  { unfold tracker_getWatches, watches_at. destruct (watchers t !! gvr) as [m|]; [done|]. cbn.
    by rewrite !lookup_empty. }
  rewrite count_occ_app, !Hc, Hi.
  assert (forall w', (if decide (Some w = Some w') then 1 else 0) = if decide (w = w') then 1 else 0) as Hd.
  { intros w'. destruct (decide (Some w = Some w')), (decide (w = w')); congruence. }
  by rewrite !Hd.
Qed.

Lemma notify_events t t' ws gvr ns e :
  watching t ws -> notify gvr ns e t = Some t' ->
  watching t' ws /\ forall i w, ws !! i = Some w -> channels t' !! i = deliver e (times gvr ns w) <$> channels t !! i.
Proof.
  intros Hw Hn. unfold notify in Hn. destruct (send_all _ e (channels t)) as [cs|] eqn:Es; [|done].
  injection Hn as <-. split.
  - destruct Hw as [Hl Hc]. split; [|done]. cbn. rewrite Hl. symmetry. by eapply send_all_length.
  - intros i w Hi. cbn. rewrite (send_all_deliver _ _ _ _ i Es). by erewrite count_getWatches.
Qed.

(** A new tracker has no watches; a new watch gets the next number. *)
Lemma watching_new s : watching (NewObjectTracker s) [].
Proof. by split. Qed.

Lemma watching_Watch t ws gvr ns :
  watching t ws -> watching (tracker_Watch gvr ns t).1 (ws ++ [(gvr, ns)]).
Proof.
  intros [Hl Hc]. split; [cbn; by rewrite !length_app, Hl|]. intros gvr' ns' i.
  assert (watches_at (tracker_Watch gvr ns t).1 gvr' ns'
          = watches_at t gvr' ns' ++ if decide ((gvr, ns) = (gvr', ns')) then [length (channels t)] else []) as ->.
  { unfold watches_at. cbn. destruct (decide (gvr = gvr')) as [<-|Hg].
    - rewrite lookup_insert_eq. cbn. destruct (decide (ns = ns')) as [<-|Hn].
      + rewrite lookup_insert_eq. by destruct (decide _).
      + rewrite lookup_insert_ne by done. destruct (decide _); [congruence|]. by rewrite app_nil_r.
    - rewrite lookup_insert_ne by done. destruct (decide _); [congruence|]. by rewrite app_nil_r. }
  rewrite count_occ_app, Hc. rewrite <- Hl. destruct (decide (i = length ws)) as [->|Hi].
  - rewrite lookup_ge_None_2 by done. rewrite list_lookup_middle by done. destruct (decide (None = _)); [done|].
    destruct (decide ((gvr, ns) = _)) as [->|Hne].
    + cbn. destruct (Nat.eq_dec _ _); [|done]. by destruct (decide _).
    + cbn. destruct (decide _); congruence.
  - assert (count_occ Nat.eq_dec (if decide ((gvr, ns) = (gvr', ns')) then [length ws] else []) i = 0) as ->.
    { destruct (decide _); [|done]. cbn. destruct (Nat.eq_dec _ _); congruence. }
    rewrite Nat.add_0_r. destruct (decide (i < length ws)) as [Hlt|].
    + by rewrite lookup_app_l.
    + rewrite !lookup_ge_None_2; [done| |lia]. rewrite length_app. cbn. lia.
Qed.

(** ** The operations of the tracker *)

Inductive fake_op : Type :=
| OpCreate (o : obj) | OpUpdate (o : obj) | OpDelete (name : string).

Section Events.
Context `{MetaCopy} `{MapRange}.

Definition run_op (gvr : GroupVersionResource) (ns : string) (op : fake_op) (t : tracker)
    : option (tracker * option api_error) :=
  match op with
  | OpCreate o => tracker_Create gvr o ns t
  | OpUpdate o => tracker_Update gvr o ns t
  | OpDelete name => tracker_Delete gvr ns name t
  end.

(** The event that an operation causes. *)
Definition causes (op : fake_op) (e : watch_event) : Prop :=
  match op, e with
  | OpCreate _, Added _ | OpUpdate _, Modified _ | OpDelete _, Deleted _ => True
  | _, _ => False
  end.

Lemma set_objects_watching m t ws : watching (set_objects m t) ws <-> watching t ws.
Proof. split; intros [Hl Hc]; by split. Qed.

(** Creating, updating and deleting an object in a namespace each send one
    event, when they succeed, and none otherwise.  A watch of the namespace and
    a watch of all namespaces receive it once; but for an object without a
    namespace, as those of the cluster-scoped kinds are, each watch of the
    resource receives it twice. *)
Lemma fake_watch_events t t' ws gvr ns op err :
  watching t ws -> run_op gvr ns op t = Some (t', err) ->
  watching t' ws
  /\ match err with
     | Some _ => channels t' = channels t
     | None => exists e, causes op e
                 /\ forall i w, ws !! i = Some w -> channels t' !! i = deliver e (times gvr ns w) <$> channels t !! i
     end.
Proof.
  intros Hw Hop.
  assert (forall e m t0, causes op e -> channels t0 = channels t -> watching t0 ws ->
    notify gvr ns e t0 = Some t' \/ set_objects m <$> notify gvr ns e t0 = Some t' ->
    watching t' ws /\ exists e, causes op e
       /\ forall i w, ws !! i = Some w -> channels t' !! i = deliver e (times gvr ns w) <$> channels t !! i) as Hsend.
  { intros e m t0 He Hch Hw0 Hn. rewrite <- Hch.
    destruct Hn as [Hn|Hn]; [|destruct (notify gvr ns e t0) as [t1|] eqn:Hn1; [|done]; injection Hn as <-].
    - apply (notify_events _ _ _ _ _ _ Hw0) in Hn as [Hw1 Hi]. split; [done|by exists e].
    - apply (notify_events _ _ _ _ _ _ Hw0) in Hn1 as [Hw1 Hi]. split; [by apply set_objects_watching|by exists e]. }
  destruct op as [o|o|name]; cbn [run_op] in Hop; unfold tracker_Create, tracker_Update, tracker_add, tracker_Delete in Hop.
  - destruct (Accessor _) as [m|]; [|by injection Hop as <- <-]. destruct (negb _); [by injection Hop as <- <-|].
    destruct (find_object _ _ _ _) as [[i|]|]; [by injection Hop as <- <-| |by injection Hop as <- <-].
    cbv match in Hop. destruct (notify _ _ _ _) as [t1|] eqn:Hn; [|done]. injection Hop as <- <-.
    exact (Hsend (Added _) ∅ (set_objects _ t) I eq_refl (proj2 (set_objects_watching _ _ _) Hw) (or_introl Hn)).
  - destruct (Accessor _) as [m|]; [|by injection Hop as <- <-]. destruct (negb _); [by injection Hop as <- <-|].
    destruct (find_object _ _ _ _) as [[i|]|]; [|by injection Hop as <- <-|by injection Hop as <- <-].
    cbv match in Hop. destruct (notify _ _ _ _) as [t1|] eqn:Hn; [|done]. injection Hop as <- <-.
    refine (Hsend (Modified _) _ t I eq_refl Hw (or_intror _)). by rewrite Hn.
  - destruct (find_object _ _ _ _) as [[i|]|]; [|by injection Hop as <- <-|by injection Hop as <- <-].
    destruct (notify _ _ _ _) as [t1|] eqn:Hn; [|done]. injection Hop as <- <-.
    exact (Hsend (Deleted _) ∅ (set_objects _ t) I eq_refl (proj2 (set_objects_watching _ _ _) Hw) (or_introl Hn)).
Qed.

End Events.

(** How often, spelled out. *)
Lemma times_cases gvr ns :
  times gvr EmptyString (gvr, EmptyString) = 2
  /\ (ns <> EmptyString -> times gvr ns (gvr, ns) = 1 /\ times gvr ns (gvr, EmptyString) = 1)
  /\ (forall ns', ns' <> ns -> ns' <> EmptyString -> times gvr ns (gvr, ns') = 0)
  /\ (forall gvr' ns', gvr' <> gvr -> times gvr ns (gvr', ns') = 0).
Proof.
  unfold times. split_and!; [by rewrite !decide_True|intros Hn; split| |].
  - rewrite decide_True, decide_False by congruence. done.
  - rewrite decide_False, decide_True by congruence. done.
  - intros ns' H1 H2. by rewrite !decide_False by congruence.
  - intros gvr' ns' H1. by rewrite !decide_False by congruence.
Qed.

(** ** Examples *)

(** The number of events a watch of the fake client of a namespace has received
    after one object was created. *)
Definition events_of (c : Fake) (w : option nat) : option nat :=
  w ← w; f ← channels (Tracker c) !! w; Some (length (result f)).

Definition watch_and_create_cluster : option nat :=
  c ← @NewSimpleClientset plain_copy map_order some_patches [];
  '(c, (w, _)) ← @FakeClusterLogSinks_Watch plain_copy map_order some_selectors (Fake_ClusterLogSinks EmptyString) all_options c;
  '(c, _) ← @FakeClusterLogSinks_Create plain_copy map_order (Fake_ClusterLogSinks EmptyString)
              (plain_cluster_sink "a" "https://a") c;
  events_of c w.

Definition watch_and_create : option nat :=
  c ← @NewSimpleClientset plain_copy map_order some_patches [];
  '(c, (w, _)) ← @FakeLogSinks_Watch plain_copy map_order some_selectors (Fake_LogSinks "ns1") all_options c;
  '(c, _) ← @FakeLogSinks_Create plain_copy map_order (Fake_LogSinks "ns1") (plain_sink "ns1" "a" "https://a") c;
  events_of c w.

Example cluster_events_twice : (watch_and_create_cluster, watch_and_create) = (Some 2, Some 1).
Proof. vm_compute. reflexivity. Qed.
