(* ===== verification/SinkConfig.v ===== *)
(** * The fluent-bit output configuration ([pkg/sink/config.go])

    [Config] holds the log sinks the controllers have seen, by key, and
    [Config_String] writes the fluent-bit configuration that forwards to them.
    Every method takes the mutex for its whole body, so a method is one
    function on the two maps.  The four loops of [String] over a map are
    numbered 0 to 3 in the order of the source file. *)

From S2P Require Import Prelude Utf8 GoStd FlbLex FlbParse GoUrl Types.
From stdpp Require Import base gmap strings list sorting.
From Stdlib Require Import Ascii ZArith.

Definition nullConfig : string := "
[OUTPUT]
    Name null
    Match *
".

Definition httpOutputConfig : string := "
[OUTPUT]
    Name http
    Match %s
    Format json
    Host %s
    Port %s
    URI %s
%s
".

Record Config : Type := MkConfig {
  sinks : gmap string LogSink;
  clusterSinks : gmap string ClusterLogSink;
}.

Definition NewConfig : Config := {| sinks := ∅; clusterSinks := ∅ |}.

Definition key (s : LogSink) : string :=
  Sprintf "%s|%s" [FStr (Namespace (ls_ObjectMeta s)); FStr (Name (ls_ObjectMeta s))].

Definition clusterKey (s : ClusterLogSink) : string :=
  Sprintf "%s|%s" [FStr (ClusterName (cls_ObjectMeta s)); FStr (Name (cls_ObjectMeta s))].

Definition UpsertSink (s : LogSink) (sc : Config) : Config :=
  {| sinks := <[key s := s]> (sinks sc); clusterSinks := clusterSinks sc |}.

Definition UpsertClusterSink (cs : ClusterLogSink) (sc : Config) : Config :=
  {| sinks := sinks sc; clusterSinks := <[clusterKey cs := cs]> (clusterSinks sc) |}.

Definition DeleteSink (s : LogSink) (sc : Config) : Config :=
  {| sinks := delete (key s) (sinks sc); clusterSinks := clusterSinks sc |}.

Definition DeleteClusterSink (s : ClusterLogSink) (sc : Config) : Config :=
  {| sinks := sinks sc; clusterSinks := delete (clusterKey s) (clusterSinks sc) |}.

Definition canonicalNamespace (ns : string) : string :=
  if String.eqb ns EmptyString then "default" else ns.

(** ** One syslog output *)

Record tls : Type := MkTls { t_InsecureSkipVerify : bool }.

Record sink : Type := MkSink {
  s_Addr : string;
  s_Namespace : string;
  s_TLS : option tls;
  s_Name : string;
}.

(** [json.Marshal] of a [tls]: the only field is omitted when false. *)
Definition tls_Marshal (t : tls) : res string string :=
  Ok (if t_InsecureSkipVerify t
      then "{" +:+ dq +:+ "insecure_skip_verify" +:+ dq +:+ ":true}"
      else "{}").

Definition tls_String (t : option tls) : string :=
  match t with
  | None => EmptyString
  | Some t =>
      match tls_Marshal t with
      | Err _ => EmptyString
      | Ok b => Sprintf "
    TLSConfig %s" [FStr b]
      end
  end.

Definition sink_String (s : sink) : string :=
  let clusterOrNamespace :=
    if negb (String.eqb (s_Namespace s) EmptyString)
    then Sprintf "Namespace %s" [FStr (s_Namespace s)]
    else "Cluster true" in
  Sprintf "
[OUTPUT]
    Name syslog
    Match *
    InstanceName %s
    Addr %s
    %s%s
" [FStr (s_Name s); FStr (s_Addr s); FStr clusterOrNamespace; FStr (tls_String (s_TLS s))].

Definition sinkList_String (ss : list sink) : string :=
  strings_Join (map sink_String ss) EmptyString.

(** ** One http output *)

Definition buildHTTPConfig (namespace : string) (spec : SinkSpec) (isCluster : bool) : string :=
  match url_Parse (Types.URL (spec_webhook spec)) with
  | None => EmptyString
  | Some url =>
      let port := EmptyString in
      let port := if negb (String.eqb (GoUrl.Port url) EmptyString) then GoUrl.Port url else port in
      let port := if String.eqb port EmptyString && String.eqb (Scheme url) "https" then "443" else port in
      let port := if String.eqb port EmptyString && String.eqb (Scheme url) "http" then "80" else port in
      let extras :=
        if String.eqb (Scheme url) "https" then
          let extras := "    tls On
" in
          if InsecureSkipVerify spec then extras +:+ "    tls.verify Off
" else extras
        else EmptyString in
      let match_ := Sprintf "*_%s_*" [FStr namespace] in
      let match_ := if isCluster then "*" else match_ in
      let path := UPath url in
      let path := if String.eqb path EmptyString then "/" else path in
      Sprintf httpOutputConfig [FStr match_; FStr (Hostname url); FStr port; FStr path; FStr extras]
  end.

(** ** The whole configuration *)

Definition tls_of (spec : SinkSpec) : option tls :=
  if EnableTLS (spec_syslog spec) then Some {| t_InsecureSkipVerify := InsecureSkipVerify spec |} else None.

Definition addr_of (spec : SinkSpec) : string :=
  Sprintf "%s:%d" [FStr (Types.Host (spec_syslog spec)); FInt (Types.Port (spec_syslog spec))].

Definition sink_of (s : LogSink) : sink :=
  {| s_Addr := addr_of (ls_Spec s);
     s_Namespace := canonicalNamespace (Namespace (ls_ObjectMeta s));
     s_TLS := tls_of (ls_Spec s);
     s_Name := Name (ls_ObjectMeta s) |}.

Definition cluster_sink_of (s : ClusterLogSink) : sink :=
  {| s_Addr := addr_of (cls_Spec s);
     s_Namespace := EmptyString;
     s_TLS := tls_of (cls_Spec s);
     s_Name := Name (cls_ObjectMeta s) |}.

(** The [less] arguments of the two sorts. *)
Definition sink_less (x y : sink) : bool :=
  if negb (String.eqb (s_Namespace x) (s_Namespace y))
  then str_less (s_Namespace x) (s_Namespace y)
  else str_less (s_Name x) (s_Name y).

Definition cluster_sink_less (x y : sink) : bool := str_less (s_Name x) (s_Name y).

Section Text.
Context `{R : MapRange} `{S : SliceSort}.

Definition syslogConfig (sc : Config) : string :=
  let sinks_ :=
    foldl (fun acc '(_, s) =>
             if negb (String.eqb (SinkType (ls_Spec s)) "syslog") then acc
             else acc ++ [sink_of s]) [] (range 2 (sinks sc)) in
  let sinks_ := sort_slice sink_less sinks_ in
  let clusterSinks_ :=
    foldl (fun acc '(_, s) =>
             if negb (String.eqb (SinkType (cls_Spec s)) "syslog") then acc
             else acc ++ [cluster_sink_of s]) [] (range 3 (clusterSinks sc)) in
  let clusterSinks_ := sort_slice cluster_sink_less clusterSinks_ in
  if (List.length sinks_ + List.length clusterSinks_ =? 0)%nat then EmptyString
  else sinkList_String sinks_ +:+ sinkList_String clusterSinks_.

Definition webhookConfig (sc : Config) : string :=
  let config :=
    foldl (fun config '(_, s) =>
             if negb (String.eqb (SinkType (ls_Spec s)) "webhook") then config
             else config +:+ buildHTTPConfig (Namespace (ls_ObjectMeta s)) (ls_Spec s) false)
          EmptyString (range 0 (sinks sc)) in
  foldl (fun config '(_, s) =>
           if negb (String.eqb (SinkType (cls_Spec s)) "webhook") then config
           else config +:+ buildHTTPConfig EmptyString (cls_Spec s) true)
        config (range 1 (clusterSinks sc)).

Definition Config_String (sc : Config) : string :=
  if (size (sinks sc) + size (clusterSinks sc) =? 0)%nat then nullConfig
  else syslogConfig sc +:+ webhookConfig sc.

End Text.

(** ** What the configuration means

    A plugin is the list of options of one [OUTPUT] section. *)

Definition plugin : Type := list (string * string).

Definition option_line (o : string * string) : line := LKeyValue "    " o.1 " " o.2.

(** The lines of a plugin, with [tail] blank lines after it. *)
Definition plugin_lines (tail : list line) (p : plugin) : list line :=
  LBlank EmptyString :: LHeader EmptyString "OUTPUT" :: map option_line p ++ tail.

Definition plugin_section (p : plugin) : Section_ :=
  {| SName := "OUTPUT"; KeyValues := map (fun o => MkKeyValue o.1 (trim_left o.2)) p |}.

Definition null_plugin : plugin := [("Name", "null"); ("Match", "*")].

Definition tls_plugin (t : option tls) : plugin :=
  match t with
  | None => []
  | Some t => [("TLSConfig", if t_InsecureSkipVerify t
                             then "{" +:+ dq +:+ "insecure_skip_verify" +:+ dq +:+ ":true}" else "{}")]
  end.

Definition syslog_plugin (s : sink) : plugin :=
  [("Name", "syslog"); ("Match", "*"); ("InstanceName", s_Name s); ("Addr", s_Addr s);
   if String.eqb (s_Namespace s) EmptyString then ("Cluster", "true") else ("Namespace", s_Namespace s)]
  ++ tls_plugin (s_TLS s).

Definition http_port (u : GoUrl.URL) : string :=
  if negb (String.eqb (GoUrl.Port u) EmptyString) then GoUrl.Port u
  else if String.eqb (Scheme u) "https" then "443"
  else if String.eqb (Scheme u) "http" then "80" else EmptyString.

Definition http_tls (u : GoUrl.URL) (insecure : bool) : plugin :=
  if String.eqb (Scheme u) "https"
  then ("tls", "On") :: (if insecure then [("tls.verify", "Off")] else []) else [].

Definition http_plugin (match_ : string) (u : GoUrl.URL) (insecure : bool) : plugin :=
  [("Name", "http"); ("Match", match_); ("Format", "json"); ("Host", Hostname u); ("Port", http_port u);
   ("URI", if String.eqb (UPath u) EmptyString then "/" else UPath u)]
  ++ http_tls u insecure.

(** The plugins of one sink, none for a type other than the two known ones or
    for a webhook whose address does not parse. *)
Definition spec_plugins (syslog : sink) (match_ : string) (spec : SinkSpec) : list plugin :=
  if String.eqb (SinkType spec) "syslog" then [syslog_plugin syslog]
  else if String.eqb (SinkType spec) "webhook" then
    match url_Parse (Types.URL (spec_webhook spec)) with
    | None => []
    | Some u => [http_plugin match_ u (InsecureSkipVerify spec)]
    end
  else [].

Definition log_sink_plugins (s : LogSink) : list plugin :=
  spec_plugins (sink_of s) ("*_" +:+ Namespace (ls_ObjectMeta s) +:+ "_*") (ls_Spec s).

Definition cluster_sink_plugins (s : ClusterLogSink) : list plugin :=
  spec_plugins (cluster_sink_of s) "*" (cls_Spec s).

Definition values {A} (m : gmap string A) : list A := (map_to_list m).*2.

Definition config_plugins (sc : Config) : list plugin :=
  if (size (sinks sc) + size (clusterSinks sc) =? 0)%nat then [null_plugin]
  else flat_map log_sink_plugins (values (sinks sc))
       ++ flat_map cluster_sink_plugins (values (clusterSinks sc)).

(** Sinks whose texts hold no newline. *)
Definition spec_ok (spec : SinkSpec) : bool :=
  if String.eqb (SinkType spec) "syslog" then str_forall not_nl (Types.Host (spec_syslog spec))
  else if String.eqb (SinkType spec) "webhook" then
    match url_Parse (Types.URL (spec_webhook spec)) with
    | None => true
    | Some u => str_forall not_nl (UPath u)
    end
  else true.

Definition meta_ok (m : ObjectMeta) : bool := str_forall not_nl (Name m) && str_forall not_nl (Namespace m).

Definition config_ok (sc : Config) : bool :=
  forallb (fun s => meta_ok (ls_ObjectMeta s) && spec_ok (ls_Spec s)) (values (sinks sc))
  && forallb (fun s => str_forall not_nl (Name (cls_ObjectMeta s)) && spec_ok (cls_Spec s)) (values (clusterSinks sc)).

(** ** Texts as lines *)

Lemma render_app l1 l2 : render (l1 ++ l2) = render l1 +:+ render l2.
Proof. induction l1 as [|ln l1 IH]; cbn [app render]; [done|]. by rewrite IH, str_app_assoc. Qed.

Lemma sink_String_lines s : sink_String s = render (plugin_lines [] (syslog_plugin s)).
Proof.
  destruct s as [addr ns [[[]]|] name]; unfold sink_String, syslog_plugin; cbn [s_Namespace s_TLS s_Name s_Addr];
    destruct (String.eqb ns EmptyString); cbn; rewrite ?str_app_assoc; cbn; by rewrite ?str_app_nil_r.
Qed.

Lemma buildHTTPConfig_lines ns spec cl :
  buildHTTPConfig ns spec cl =
  match url_Parse (Types.URL (spec_webhook spec)) with
  | None => EmptyString
  | Some u => render (plugin_lines [LBlank EmptyString]
                        (http_plugin (if cl then "*" else "*_" +:+ ns +:+ "_*") u (InsecureSkipVerify spec)))
  end.
Proof.
  unfold buildHTTPConfig. destruct (url_Parse _) as [u|]; [|done].
  unfold http_plugin, http_port, http_tls. generalize (Hostname u) (GoUrl.Port u) (UPath u) (Scheme u).
  intros host port path scheme.
  destruct (String.eqb_spec port EmptyString) as [->|Hp]; cbn [negb].
  - destruct (String.eqb_spec scheme "https") as [->|H1].
    + destruct cl, (InsecureSkipVerify spec); cbn; rewrite ?str_app_assoc; cbn; rewrite ?str_app_assoc; done.
    + destruct (String.eqb_spec scheme "http") as [->|H2]; destruct cl; cbn; rewrite ?str_app_assoc; cbn;
        rewrite ?str_app_assoc; done.
  - replace (String.eqb port EmptyString) with false by (symmetry; by apply String.eqb_neq). cbn [andb].
    replace (String.eqb port EmptyString) with false by (symmetry; by apply String.eqb_neq). cbn [andb].
    destruct (String.eqb scheme "https"), cl, (InsecureSkipVerify spec); cbn; rewrite ?str_app_assoc; cbn;
      rewrite ?str_app_assoc; done.
Qed.

(** ** Loops over the maps *)

Definition of_type {A} (spec : A -> SinkSpec) (t : string) (s : A) : bool := String.eqb (SinkType (spec s)) t.

Lemma collect_loop {A B} (spec : A -> SinkSpec) t (f : A -> B) (l : list (string * A)) acc :
  foldl (fun acc '(_, s) => if negb (String.eqb (SinkType (spec s)) t) then acc else acc ++ [f s]) acc l =
  acc ++ map f (List.filter (of_type spec t) l.*2).
Proof.
  revert acc. induction l as [|[k s] l IH]; intros acc; cbn [foldl fmap list_fmap List.filter map snd].
  - by rewrite app_nil_r.
  - unfold of_type at 1. destruct (String.eqb _ t); cbn [negb map]; rewrite IH; [|done].
    by rewrite <- app_assoc.
Qed.

Lemma text_loop {A} (spec : A -> SinkSpec) t (f : A -> string) (ls : A -> list line) (l : list (string * A)) acc :
  (forall s, f s = render (ls s)) ->
  foldl (fun acc '(_, s) => if negb (String.eqb (SinkType (spec s)) t) then acc else acc +:+ f s) acc l =
  acc +:+ render (flat_map ls (List.filter (of_type spec t) l.*2)).
Proof.
  intros Hf. revert acc. induction l as [|[k s] l IH]; intros acc; cbn [foldl fmap list_fmap List.filter snd].
  - by rewrite str_app_nil_r.
  - unfold of_type at 1. destruct (String.eqb _ t); cbn [negb flat_map]; rewrite IH; [|done].
    by rewrite render_app, Hf, str_app_assoc.
Qed.

Lemma sinkList_lines ss :
  sinkList_String ss = render (flat_map (plugin_lines []) (map syslog_plugin ss)).
Proof.
  unfold sinkList_String, strings_Join. induction ss as [|s ss IH]; [done|].
  cbn [map flat_map]. rewrite render_app, <- IH, <- sink_String_lines.
  destruct ss as [|s' ss]; cbn [map String.concat]; [by rewrite str_app_nil_r|done].
Qed.

Lemma filter_cover {A} (p q : A -> bool) (l : list A) {B} (f : A -> list B) :
  (forall x, p x && q x = false) -> (forall x, p x || q x = false -> f x = []) ->
  flat_map f l ≡ₚ flat_map f (List.filter p l) ++ flat_map f (List.filter q l).
Proof.
  intros Hd Hn. induction l as [|x l IH]; cbn [flat_map List.filter]; [done|].
  specialize (Hd x). specialize (Hn x). destruct (p x), (q x); cbn in *; try done.
  - by rewrite IH, app_assoc.
  - rewrite IH, !app_assoc. apply Permutation_app_tail, Permutation_app_comm.
  - rewrite IH. by rewrite Hn.
Qed.

Lemma flat_map_perm {A B} (f : A -> list B) l1 l2 : l1 ≡ₚ l2 -> flat_map f l1 ≡ₚ flat_map f l2.
Proof. rewrite !flat_map_concat_map. intros ->. done. Qed.

Lemma filter_bool_perm {A} (p : A -> bool) l1 l2 : l1 ≡ₚ l2 -> List.filter p l1 ≡ₚ List.filter p l2.
Proof.
  induction 1 as [|x l1 l2 _ IH|x y l|l1 l2 l3 _ IH1 _ IH2]; cbn; try done.
  - destruct (p x); by rewrite IH.
  - destruct (p x), (p y); try done. apply Permutation_swap.
  - by rewrite IH1.
Qed.

#[global] Instance filter_bool_Proper {A} (p : A -> bool) : Proper ((≡ₚ) ==> (≡ₚ)) (List.filter p).
Proof. intros l1 l2. apply filter_bool_perm. Qed.
#[global] Instance map_Proper {A B} (f : A -> B) : Proper ((≡ₚ) ==> (≡ₚ)) (map f).
Proof. intros l1 l2. apply Permutation_map. Qed.
#[global] Instance flat_map_Proper {A B} (f : A -> list B) : Proper ((≡ₚ) ==> (≡ₚ)) (flat_map f).
Proof. intros l1 l2. apply flat_map_perm. Qed.

(** ** Sections of the plugins' lines *)

Definition blank_line (ln : line) : bool := match ln with LBlank _ => true | _ => false end.

Lemma sections_of_options cur p ls :
  sections_of cur (map option_line p ++ ls) =
  sections_of {| SName := SName cur;
                 KeyValues := KeyValues cur ++ map (fun o => MkKeyValue o.1 (trim_left o.2)) p |} ls.
Proof.
  revert cur. induction p as [|[k v] p IH]; intros cur; cbn; [by destruct cur; cbn; rewrite app_nil_r|].
  rewrite IH. cbn. by rewrite <- app_assoc.
Qed.

Lemma sections_of_blanks cur tail ls :
  forallb blank_line tail = true -> sections_of cur (tail ++ ls) = sections_of cur ls.
Proof. induction tail as [|[] tail IH]; cbn; done. Qed.

Lemma sections_of_plugin cur tail p ls :
  forallb blank_line tail = true ->
  sections_of cur (plugin_lines tail p ++ ls) = cur :: sections_of (plugin_section p) ls.
Proof.
  intros Ht. cbn [plugin_lines app sections_of]. f_equal.
  rewrite <- app_assoc, sections_of_options. by rewrite sections_of_blanks.
Qed.

Definition tagged_lines (tp : list line * plugin) : list line := plugin_lines tp.1 tp.2.

Lemma sections_of_plugins cur tps :
  Forall (fun tp => forallb blank_line tp.1 = true) tps ->
  sections_of cur (flat_map tagged_lines tps) = cur :: map plugin_section (map snd tps).
Proof.
  intros Ht. revert cur. induction Ht as [|[t p] tps Ht _ IH]; intros cur; [done|].
  cbn [flat_map map snd]. unfold tagged_lines at 1. cbn [fst snd].
  rewrite sections_of_plugin by done. by rewrite IH.
Qed.

(** The plugins in the order in which [Config_String] writes them, each with
    the blank lines after it. *)
Section Order.
Context `{R : MapRange} `{S : SliceSort}.

Definition http_tagged (match_ : string) (spec : SinkSpec) : list (list line * plugin) :=
  match url_Parse (Types.URL (spec_webhook spec)) with
  | None => []
  | Some u => [([LBlank EmptyString], http_plugin match_ u (InsecureSkipVerify spec))]
  end.

Definition written_sinks (sc : Config) : list sink :=
  sort_slice sink_less (map sink_of (List.filter (of_type ls_Spec "syslog") (range 2 (sinks sc)).*2)).

Definition written_cluster_sinks (sc : Config) : list sink :=
  sort_slice cluster_sink_less
    (map cluster_sink_of (List.filter (of_type cls_Spec "syslog") (range 3 (clusterSinks sc)).*2)).

Definition written_http (sc : Config) : list (list line * plugin) :=
  flat_map (fun s => http_tagged ("*_" +:+ Namespace (ls_ObjectMeta s) +:+ "_*") (ls_Spec s))
           (List.filter (of_type ls_Spec "webhook") (range 0 (sinks sc)).*2)
  ++ flat_map (fun s => http_tagged "*" (cls_Spec s))
              (List.filter (of_type cls_Spec "webhook") (range 1 (clusterSinks sc)).*2).

Definition written (sc : Config) : list (list line * plugin) :=
  if (size (sinks sc) + size (clusterSinks sc) =? 0)%nat then [([], null_plugin)]
  else map (fun s => ([], syslog_plugin s)) (written_sinks sc ++ written_cluster_sinks sc)
       ++ written_http sc.

Lemma syslogConfig_lines sc :
  syslogConfig sc = render (flat_map (plugin_lines []) (map syslog_plugin (written_sinks sc ++ written_cluster_sinks sc))).
Proof.
  unfold syslogConfig. cbn zeta. rewrite !collect_loop. cbn [app].
  change (sort_slice sink_less (map sink_of _)) with (written_sinks sc).
  change (sort_slice cluster_sink_less (map cluster_sink_of _)) with (written_cluster_sinks sc).
  rewrite map_app, flat_map_app, render_app, <- !sinkList_lines.
  destruct (_ =? 0)%nat eqn:E; [|done]. apply Nat.eqb_eq in E.
  destruct (written_sinks sc), (written_cluster_sinks sc); by cbn in *.
Qed.

Lemma http_text_lines (ns : string) spec (cl : bool) (m : string) :
  m = (if cl then "*" else "*_" +:+ ns +:+ "_*") ->
  buildHTTPConfig ns spec cl = render (flat_map tagged_lines (http_tagged m spec)).
Proof.
  intros ->. rewrite buildHTTPConfig_lines. unfold http_tagged. destruct (url_Parse _) as [u|]; [|done].
  cbn [flat_map]. by rewrite app_nil_r.
Qed.

Lemma flat_map_flat_map {A B C} (f : A -> list B) (g : B -> list C) l :
  flat_map (fun x => flat_map g (f x)) l = flat_map g (flat_map f l).
Proof. induction l as [|x l IH]; cbn; [done|]. by rewrite flat_map_app, IH. Qed.

Lemma webhookConfig_lines sc : webhookConfig sc = render (flat_map tagged_lines (written_http sc)).
Proof.
  unfold webhookConfig, written_http. cbn zeta.
  rewrite (text_loop ls_Spec "webhook" _ _ _ _ (fun s : LogSink => http_text_lines _ (ls_Spec s) false _ eq_refl)).
  rewrite (text_loop cls_Spec "webhook" _ _ _ _
             (fun s : ClusterLogSink => http_text_lines EmptyString (cls_Spec s) true _ eq_refl)).
  by rewrite flat_map_app, render_app, !flat_map_flat_map.
Qed.

Lemma Config_String_lines sc : Config_String sc = render (flat_map tagged_lines (written sc)).
Proof.
  unfold Config_String, written. destruct (_ =? 0)%nat; [done|].
  rewrite syslogConfig_lines, webhookConfig_lines, flat_map_app, render_app. do 2 f_equal.
  induction (written_sinks sc ++ written_cluster_sinks sc) as [|s l IH]; [done|].
  cbn [map flat_map]. by rewrite IH.
Qed.

Lemma split_types {A} (spec : A -> SinkSpec) (f : A -> sink) (m : A -> string) (l l1 l2 : list A) less :
  l1 ≡ₚ l -> l2 ≡ₚ l ->
  flat_map (fun s => spec_plugins (f s) (m s) (spec s)) l ≡ₚ
  map syslog_plugin (sort_slice less (map f (List.filter (of_type spec "syslog") l1)))
  ++ map snd (flat_map (fun s => http_tagged (m s) (spec s)) (List.filter (of_type spec "webhook") l2)).
Proof.
  intros H1 H2. rewrite sort_perm, H1, H2. clear H1 H2 l1 l2.
  rewrite (filter_cover (of_type spec "syslog") (of_type spec "webhook") l).
  - apply Permutation_app; unfold of_type; induction l as [|s l IH]; cbn; try done.
    + destruct (String.eqb (SinkType (spec s)) "syslog") eqn:E; [|done].
      cbn. unfold spec_plugins at 1. rewrite E. cbn. by rewrite IH.
    + destruct (String.eqb_spec (SinkType (spec s)) "webhook") as [E|E]; [|done].
      cbn. unfold spec_plugins at 1, http_tagged at 1. rewrite E. cbn.
      destruct (url_Parse _); cbn; by rewrite IH.
  - intros s. unfold of_type. by destruct (String.eqb_spec (SinkType (spec s)) "syslog") as [->|].
  - intros s. unfold of_type, spec_plugins. by intros [-> ->]%orb_false_iff.
Qed.

Lemma range_values {A} n (m : gmap string A) : (range n m).*2 ≡ₚ values m.
Proof. unfold values. by rewrite range_perm. Qed.

Lemma written_perm sc : map snd (written sc) ≡ₚ config_plugins sc.
Proof.
  unfold written, config_plugins. destruct (_ =? 0)%nat; [done|].
  unfold written_sinks, written_cluster_sinks, written_http.
  rewrite !map_app, !map_map. cbn [snd].
  unfold log_sink_plugins, cluster_sink_plugins.
  rewrite (split_types ls_Spec sink_of (fun s => "*_" +:+ Namespace (ls_ObjectMeta s) +:+ "_*") _ _ _ sink_less
             (range_values 2 (sinks sc)) (range_values 0 (sinks sc))).
  rewrite (split_types cls_Spec cluster_sink_of (fun _ => "*") _ _ _ cluster_sink_less
             (range_values 3 (clusterSinks sc)) (range_values 1 (clusterSinks sc))).
  rewrite <- !app_assoc. apply Permutation_app_head. rewrite !app_assoc. apply Permutation_app_tail.
  apply Permutation_app_comm.
Qed.

Definition plain_tail (tail : list line) : Prop := tail = [] \/ tail = [LBlank EmptyString].

Lemma written_tails sc : Forall (fun tp => plain_tail tp.1) (written sc).
Proof.
  unfold written, written_http, http_tagged. unfold plain_tail.
  destruct (_ =? 0)%nat; [by repeat constructor; left|].
  rewrite !Forall_app. split_and!; apply Forall_forall; intros tp Htp; apply list_elem_of_In in Htp;
    rewrite ?in_map_iff, ?in_flat_map in Htp.
  - destruct Htp as (s & <- & _). by left.
  - destruct Htp as (s & _ & Htp). destruct (url_Parse _); [|done]. destruct Htp as [<-|[]]. by right.
  - destruct Htp as (s & _ & Htp). destruct (url_Parse _); [|done]. destruct Htp as [<-|[]]. by right.
Qed.

End Order.

(** ** The texts parse *)

Lemma host_byte_not_nl s : str_forall host_byte s = true -> str_forall not_nl s = true.
Proof.
  apply str_forall_impl. intros c Hc. unfold not_nl. by destruct (Ascii.eqb_spec c chr_nl) as [->|].
Qed.

Lemma decimal_not_nl s : str_forall decimal_char s = true -> str_forall not_nl s = true.
Proof.
  apply str_forall_impl. intros c Hc. unfold not_nl. by destruct (Ascii.eqb_spec c chr_nl) as [->|].
Qed.

Section Parsed.
Context `{U : UnicodeTables}.

Definition option_ok (o : string * string) : bool :=
  ascii_class key_rune o.1 && str_nonempty o.1 && str_forall not_nl o.2.

Lemma option_lines_ok p : forallb option_ok p = true -> forallb line_ok (map option_line p) = true.
Proof.
  induction p as [|[k v] p IH]; cbn [forallb map]; [done|]. intros [Ho Hp]%andb_true_iff.
  rewrite IH, andb_true_r by done. unfold option_ok in Ho. cbn [fst snd] in Ho.
  apply andb_true_iff in Ho as [[Hk Hn]%andb_true_iff Hv]. cbn [option_line line_ok fst snd].
  by rewrite Hk, Hn, Hv.
Qed.

Lemma tagged_lines_ok tp :
  plain_tail tp.1 -> forallb option_ok tp.2 = true -> forallb line_ok (tagged_lines tp) = true.
Proof.
  destruct tp as [tail p]. unfold tagged_lines, plain_tail. cbn [fst snd]. intros Ht Hp.
  unfold plugin_lines. cbn [forallb line_ok str_forall].
  rewrite forallb_app, option_lines_ok by done. by destruct Ht as [-> | ->].
Qed.

Lemma syslog_plugin_ok addr ns t name :
  str_forall not_nl addr = true -> str_forall not_nl ns = true -> str_forall not_nl name = true ->
  forallb option_ok (syslog_plugin (MkSink addr ns t name)) = true.
Proof.
  intros Ha Hn Hm. unfold syslog_plugin. cbn [s_Addr s_Namespace s_TLS s_Name].
  rewrite forallb_app. apply andb_true_iff. split; [|by destruct t as [[[]]|]].
  unfold option_ok. cbn [forallb fst snd]. rewrite Ha, Hm.
  destruct (String.eqb ns EmptyString); cbn [fst snd]; by rewrite ?Hn.
Qed.

Lemma http_plugin_ok m u insecure :
  str_forall host_byte (GoUrl.Host u) = true -> str_forall not_nl (UPath u) = true -> str_forall not_nl m = true ->
  forallb option_ok (http_plugin m u insecure) = true.
Proof.
  intros Hh Hu Hm. unfold http_plugin. rewrite forallb_app. apply andb_true_iff. split.
  - unfold option_ok. cbn [forallb fst snd]. rewrite Hm.
    rewrite (host_byte_not_nl _ (Hostname_bytes u Hh)).
    assert (str_forall not_nl (http_port u) = true) as ->.
    { unfold http_port. repeat case_match; try done. by apply host_byte_not_nl, Port_bytes. }
    assert (str_forall not_nl (if String.eqb (UPath u) EmptyString then "/" else UPath u) = true) as ->
      by by case_match.
    done.
  - unfold http_tls. by destruct (String.eqb (Scheme u) "https"), insecure.
Qed.

Lemma addr_of_not_nl spec :
  str_forall not_nl (Types.Host (spec_syslog spec)) = true -> str_forall not_nl (addr_of spec) = true.
Proof.
  intros Hh. unfold addr_of. cbn. rewrite str_forall_app, Hh. cbn.
  rewrite str_forall_app, decimal_not_nl by apply pretty_Z_decimal. done.
Qed.

Lemma canonical_not_nl ns : str_forall not_nl ns = true -> str_forall not_nl (canonicalNamespace ns) = true.
Proof. unfold canonicalNamespace. by case_match. Qed.

Lemma spec_plugins_ok syslog m spec :
  s_Addr syslog = addr_of spec -> str_forall not_nl (s_Namespace syslog) = true ->
  str_forall not_nl (s_Name syslog) = true -> str_forall not_nl m = true -> spec_ok spec = true ->
  forallb (forallb option_ok) (spec_plugins syslog m spec) = true.
Proof.
  intros Ha Hn Hname Hm. unfold spec_ok, spec_plugins.
  destruct (String.eqb _ "syslog").
  - intros Hh. destruct syslog as [addr ns t name]. cbn [s_Addr s_Namespace s_Name] in *. subst addr.
    cbn [forallb]. rewrite syslog_plugin_ok; auto using addr_of_not_nl.
  - destruct (String.eqb _ "webhook"); [|done].
    destruct (url_Parse _) as [u|] eqn:Hu; [|done]. intros Hp. cbn [forallb].
    rewrite http_plugin_ok; eauto using url_Parse_host.
Qed.

Lemma config_plugins_ok sc : config_ok sc = true -> forallb (forallb option_ok) (config_plugins sc) = true.
Proof.
  unfold config_ok, config_plugins. intros [Hs Hc]%andb_true_iff.
  destruct (_ =? 0)%nat; [done|]. rewrite forallb_app. apply andb_true_iff.
  rewrite !forallb_forall in *. split; intros p (s & Hin & Hp)%in_flat_map.
  - apply Hs in Hin. apply andb_true_iff in Hin as [[Hname Hns]%andb_true_iff Hspec].
    pose proof (spec_plugins_ok (sink_of s) ("*_" +:+ Namespace (ls_ObjectMeta s) +:+ "_*") (ls_Spec s) eq_refl
                  (canonical_not_nl _ Hns) Hname) as Hok.
    rewrite forallb_forall in Hok. apply Hok; [|done..]. cbn. by rewrite str_forall_app, Hns.
  - apply Hc in Hin. apply andb_true_iff in Hin as [Hname Hspec].
    pose proof (spec_plugins_ok (cluster_sink_of s) "*" (cls_Spec s) eq_refl eq_refl Hname eq_refl Hspec) as Hok.
    rewrite forallb_forall in Hok. by apply Hok.
Qed.

Lemma written_ok `{R : MapRange} `{S : SliceSort} sc :
  config_ok sc = true -> forallb line_ok (flat_map tagged_lines (written sc)) = true.
Proof.
  intros Hok. apply forallb_forall. intros ln (tp & Hin & Hln)%in_flat_map.
  pose proof (written_tails sc) as Ht. rewrite Forall_forall in Ht.
  apply list_elem_of_In in Hin as Hin'. apply Ht in Hin'.
  assert (In tp.2 (map snd (written sc))) as Hp by by apply in_map.
  apply list_elem_of_In in Hp. rewrite written_perm in Hp. apply list_elem_of_In in Hp.
  pose proof (config_plugins_ok sc Hok) as Hps. rewrite forallb_forall in Hps.
  pose proof (tagged_lines_ok tp Hin' (Hps _ Hp)) as Hl. rewrite forallb_forall in Hl. by apply Hl.
Qed.

(** Parsing the text of a configuration: the sections, in the written order. *)
Lemma Parse_written `{R : MapRange} `{S : SliceSort} name sc :
  config_ok sc = true ->
  Parse name (Config_String sc) =
  Ok (Ok {| FName := name; Sections := Section_zero :: map plugin_section (map snd (written sc)) |}).
Proof.
  intros Hok. rewrite Config_String_lines, Parse_lines by by apply written_ok.
  rewrite sections_of_plugins; [done|]. eapply Forall_impl; [apply written_tails|].
  intros tp [-> | ->]; done.
Qed.

End Parsed.

(** ** The orders of the two sorts *)

Lemma cluster_sink_less_weak : strict_weak cluster_sink_less.
Proof.
  unfold cluster_sink_less. split; intros *.
  - apply str_less_irrefl.
  - apply str_less_trans.
  - apply str_less_incomp.
Qed.

Lemma sink_less_weak : strict_weak sink_less.
Proof.
  unfold sink_less. split.
  - intros x. rewrite String.eqb_refl. apply str_less_irrefl.
  - intros x y z. destruct (String.eqb_spec (s_Namespace x) (s_Namespace y)) as [->|Hxy]; cbn [negb];
      destruct (String.eqb_spec (s_Namespace y) (s_Namespace z)) as [Hyz|Hyz]; cbn [negb].
    + apply str_less_trans.
    + done.
    + rewrite <- Hyz. intros H1 _. by destruct (String.eqb_spec (s_Namespace x) (s_Namespace y)).
    + intros H1 H2. pose proof (str_less_trans _ _ _ H1 H2).
      destruct (String.eqb_spec (s_Namespace x) (s_Namespace z)) as [E|]; [|done].
      rewrite E in *. by rewrite str_less_irrefl in *.
  - intros x y z. destruct (String.eqb_spec (s_Namespace x) (s_Namespace y)) as [->|Hxy]; cbn [negb];
      destruct (String.eqb_spec (s_Namespace y) (s_Namespace z)) as [Hyz|Hyz]; cbn [negb].
    + apply str_less_incomp.
    + done.
    + rewrite <- Hyz. by destruct (String.eqb_spec (s_Namespace x) (s_Namespace y)).
    + intros H1 H2. pose proof (str_less_incomp _ _ _ H1 H2) as H3.
      destruct (String.eqb_spec (s_Namespace x) (s_Namespace z)) as [E|]; [|done].
      exfalso. rewrite E in *. apply Hyz. by apply str_less_total.
Qed.

Lemma sink_less_same x y :
  sink_less x y = false -> sink_less y x = false -> s_Namespace x = s_Namespace y /\ s_Name x = s_Name y.
Proof.
  unfold sink_less. rewrite (String.eqb_sym (s_Namespace y)).
  destruct (String.eqb_spec (s_Namespace x) (s_Namespace y)) as [E|E]; cbn [negb]; intros H1 H2.
  - split; [done|]. by apply str_less_total.
  - exfalso. by apply E, str_less_total.
Qed.

(** ** Well-formed configurations *)

(** Each sink is stored under its own key. *)
Definition config_wf (sc : Config) : Prop :=
  map_Forall (fun k s => k = key s) (sinks sc) /\ map_Forall (fun k s => k = clusterKey s) (clusterSinks sc).

(** The objects of one API server: a log sink has a namespace, and every
    cluster log sink has the same cluster name. *)
Definition config_named (sc : Config) : Prop :=
  map_Forall (fun _ s => Namespace (ls_ObjectMeta s) <> EmptyString) (sinks sc)
  /\ exists cluster, map_Forall (fun _ s => ClusterName (cls_ObjectMeta s) = cluster) (clusterSinks sc).

Lemma NewConfig_wf : config_wf NewConfig.
Proof. split; apply map_Forall_empty. Qed.

Lemma UpsertSink_wf s sc : config_wf sc -> config_wf (UpsertSink s sc).
Proof. intros [H1 H2]. split; [|done]. by apply map_Forall_insert_2. Qed.

Lemma UpsertClusterSink_wf s sc : config_wf sc -> config_wf (UpsertClusterSink s sc).
Proof. intros [H1 H2]. split; [done|]. by apply map_Forall_insert_2. Qed.

Lemma DeleteSink_wf s sc : config_wf sc -> config_wf (DeleteSink s sc).
Proof. intros [H1 H2]. split; [|done]. by apply map_Forall_delete. Qed.

Lemma DeleteClusterSink_wf s sc : config_wf sc -> config_wf (DeleteClusterSink s sc).
Proof. intros [H1 H2]. split; [done|]. by apply map_Forall_delete. Qed.

Create HintDb sinkcfg.
#[export] Hint Resolve NewConfig_wf UpsertSink_wf UpsertClusterSink_wf DeleteSink_wf DeleteClusterSink_wf
  sink_less_weak cluster_sink_less_weak : sinkcfg.

Lemma In_values {A} (m : gmap string A) s : In s (values m) <-> exists k, m !! k = Some s.
Proof.
  unfold values. rewrite <- list_elem_of_In, list_elem_of_fmap. split.
  - intros ([k v] & -> & Hin). exists k. by apply elem_of_map_to_list.
  - intros [k Hk]. exists (k, s). split; [done|]. by apply elem_of_map_to_list.
Qed.

Lemma In_range_type {A} `{R : MapRange} (spec : A -> SinkSpec) t n (m : gmap string A) s :
  In s (List.filter (of_type spec t) (range n m).*2) -> exists k, m !! k = Some s.
Proof.
  intros [Hin _]%filter_In. apply In_values. apply list_elem_of_In. rewrite <- (range_values n m).
  by apply list_elem_of_In.
Qed.

(** Sinks with the same namespace and name are the same. *)
Lemma sinks_distinct `{R : MapRange} n sc x y :
  config_wf sc -> config_named sc ->
  x ∈ map sink_of (List.filter (of_type ls_Spec "syslog") (range n (sinks sc)).*2) ->
  y ∈ map sink_of (List.filter (of_type ls_Spec "syslog") (range n (sinks sc)).*2) ->
  sink_less x y = false -> sink_less y x = false -> x = y.
Proof.
  intros [Hwf _] [Hns _] Hx Hy H1 H2. destruct (sink_less_same x y H1 H2) as [Hs Hname].
  apply list_elem_of_In, in_map_iff in Hx as (s1 & <- & Hx), Hy as (s2 & <- & Hy).
  apply In_range_type in Hx as [k1 Hk1], Hy as [k2 Hk2].
  pose proof (Hns _ _ Hk1) as Hn1. pose proof (Hns _ _ Hk2) as Hn2. cbn in Hs, Hname, Hn1, Hn2.
  unfold canonicalNamespace in Hs. apply String.eqb_neq in Hn1, Hn2. rewrite Hn1, Hn2 in Hs.
  assert (key s1 = key s2) as Hk by (unfold key; by rewrite Hs, Hname).
  rewrite <- (Hwf _ _ Hk1), <- (Hwf _ _ Hk2) in Hk. rewrite Hk in Hk1. by rewrite Hk1 in Hk2; simplify_eq.
Qed.

Lemma cluster_sinks_distinct `{R : MapRange} n sc x y :
  config_wf sc -> config_named sc ->
  x ∈ map cluster_sink_of (List.filter (of_type cls_Spec "syslog") (range n (clusterSinks sc)).*2) ->
  y ∈ map cluster_sink_of (List.filter (of_type cls_Spec "syslog") (range n (clusterSinks sc)).*2) ->
  cluster_sink_less x y = false -> cluster_sink_less y x = false -> x = y.
Proof.
  intros [_ Hwf] [_ [cl Hcl]] Hx Hy H1 H2. pose proof (str_less_total _ _ H1 H2) as Hname.
  apply list_elem_of_In, in_map_iff in Hx as (s1 & <- & Hx), Hy as (s2 & <- & Hy).
  apply In_range_type in Hx as [k1 Hk1], Hy as [k2 Hk2]. cbn in Hname.
  assert (clusterKey s1 = clusterKey s2) as Hk
    by (unfold clusterKey; by rewrite (Hcl _ _ Hk1), (Hcl _ _ Hk2), Hname).
  rewrite <- (Hwf _ _ Hk1), <- (Hwf _ _ Hk2) in Hk. rewrite Hk in Hk1. by rewrite Hk1 in Hk2; simplify_eq.
Qed.

Lemma written_sinks_order (R1 R2 : MapRange) (S1 S2 : SliceSort) sc :
  config_wf sc -> config_named sc ->
  @written_sinks R1 S1 sc = @written_sinks R2 S2 sc
  /\ @written_cluster_sinks R1 S1 sc = @written_cluster_sinks R2 S2 sc.
Proof.
  intros Hwf Hn. split; apply sort_slice_unique; auto with sinkcfg.
  - by rewrite !range_values.
  - intros x y. by apply sinks_distinct.
  - by rewrite !range_values.
  - intros x y. by apply cluster_sinks_distinct.
Qed.

Definition webhooks {A} (spec : A -> SinkSpec) (m : gmap string A) : list A :=
  List.filter (of_type spec "webhook") (values m).

Lemma webhook_range_order {A} (R1 R2 : MapRange) (spec : A -> SinkSpec) n (m : gmap string A) :
  List.length (webhooks spec m) <= 1 ->
  List.filter (of_type spec "webhook") (@range R1 A n m).*2 = List.filter (of_type spec "webhook") (@range R2 A n m).*2.
Proof.
  intros Hl. apply short_perm; [by rewrite !range_values|].
  unfold webhooks in Hl. by rewrite range_values.
Qed.

(** ** Keys *)

Definition not_bar (c : ascii) : bool := negb (Ascii.eqb c "|").

Lemma bar_split a1 a2 b1 b2 :
  str_forall not_bar a1 = true -> str_forall not_bar a2 = true ->
  a1 +:+ String "|" b1 = a2 +:+ String "|" b2 -> a1 = a2 /\ b1 = b2.
Proof. apply (sep_split "|"). Qed.

Definition sink_id (s : LogSink) : string * string := (Namespace (ls_ObjectMeta s), Name (ls_ObjectMeta s)).
Definition cluster_sink_id (s : ClusterLogSink) : string * string :=
  (ClusterName (cls_ObjectMeta s), Name (cls_ObjectMeta s)).

Lemma key_text s : key s = (sink_id s).1 +:+ String "|" (sink_id s).2.
Proof. unfold key. cbn. by rewrite str_app_nil_r. Qed.

Lemma clusterKey_text s : clusterKey s = (cluster_sink_id s).1 +:+ String "|" (cluster_sink_id s).2.
Proof. unfold clusterKey. cbn. by rewrite str_app_nil_r. Qed.

Lemma id_key_eq (i j : string * string) :
  str_forall not_bar i.1 = true -> str_forall not_bar j.1 = true ->
  i.1 +:+ String "|" i.2 = j.1 +:+ String "|" j.2 <-> i = j.
Proof.
  intros Hi Hj. destruct i as [i1 i2], j as [j1 j2]; cbn in *. split; [|by intros [= -> ->]].
  intros E. by destruct (bar_split _ _ _ _ Hi Hj E) as [-> ->].
Qed.

(** The sink a configuration holds for a namespace and a name. *)
Definition sink_at (sc : Config) (i : string * string) : option LogSink := sinks sc !! (i.1 +:+ String "|" i.2).
Definition cluster_sink_at (sc : Config) (i : string * string) : option ClusterLogSink :=
  clusterSinks sc !! (i.1 +:+ String "|" i.2).

(** ** The empty configuration *)

Lemma first_plugin_not_null p ps :
  (exists v o, p.2 = ("Name", v) :: o /\ (v = "syslog" \/ v = "http")) ->
  render (flat_map tagged_lines (p :: ps)) <> nullConfig.
Proof.
  intros (v & o & Hp & Hv). destruct p as [t p]. cbn [snd] in Hp. subst p.
  destruct Hv as [-> | ->]; cbn; discriminate.
Qed.

Lemma written_names `{R : MapRange} `{S : SliceSort} sc :
  (size (sinks sc) + size (clusterSinks sc) =? 0)%nat = false ->
  Forall (fun p => exists v o, p.2 = ("Name", v) :: o /\ (v = "syslog" \/ v = "http")) (written sc).
Proof.
  intros Hne. unfold written. rewrite Hne. apply Forall_forall. intros p Hp.
  apply list_elem_of_In in Hp. unfold written_http, http_tagged in Hp.
  rewrite !in_app_iff, in_map_iff, !in_flat_map in Hp.
  destruct Hp as [(s & <- & _)|[(s & _ & Hp)|(s & _ & Hp)]].
  - cbn. eexists _, _. split; [reflexivity|]. by left.
  - destruct (url_Parse _); [|done]. destruct Hp as [<-|[]]. eexists _, _. split; [reflexivity|]. by right.
  - destruct (url_Parse _); [|done]. destruct Hp as [<-|[]]. eexists _, _. split; [reflexivity|]. by right.
Qed.

(** ** Properties *)

(** C8: The text of a configuration whose sinks hold no newline is accepted
    by the fluent-bit parser of the repository, and its sections are, in some
    order, exactly one output per syslog sink and per webhook sink whose
    address parses, with the options the sink describes; without any sink it
    is the null output. *)
Theorem Config_String_sections `{U : UnicodeTables} `{R : MapRange} `{S : SliceSort} name sc :
  config_ok sc = true ->
  exists ps, Parse name (Config_String sc) =
             Ok (Ok {| FName := name; Sections := Section_zero :: map plugin_section ps |})
             /\ ps ≡ₚ config_plugins sc.
Proof. intros Hok. exists (map snd (written sc)). split; [by apply Parse_written|apply written_perm]. Qed.

Lemma Config_String_order (R1 R2 : MapRange) (S1 S2 : SliceSort) sc :
  config_wf sc -> config_named sc ->
  List.length (webhooks ls_Spec (sinks sc)) <= 1 -> List.length (webhooks cls_Spec (clusterSinks sc)) <= 1 ->
  @Config_String R1 S1 sc = @Config_String R2 S2 sc.
Proof.
  intros Hwf Hn H1 H2. rewrite !Config_String_lines. unfold written, written_http.
  destruct (written_sinks_order R1 R2 S1 S2 sc Hwf Hn) as [-> ->].
  by rewrite (webhook_range_order R1 R2 ls_Spec 0 _ H1), (webhook_range_order R1 R2 cls_Spec 1 _ H2).
Qed.

(** C18: For a configuration that files each sink under the key of its
    namespace and name, as the handlers do, with objects as one API server has
    them, and with at most one webhook of each of the two kinds: the text
    depends neither on the order in which Go iterates over its maps nor on how
    it sorts.  With more webhooks of a kind it does ([webhook_order_shows]). *)
Theorem Config_String_deterministic (R1 R2 : MapRange) (S1 S2 : SliceSort) sc :
  config_wf sc -> config_named sc ->
  List.length (webhooks ls_Spec (sinks sc)) <= 1 -> List.length (webhooks cls_Spec (clusterSinks sc)) <= 1 ->
  @Config_String R1 S1 sc = @Config_String R2 S2 sc.
Proof. apply Config_String_order. Qed.

(** The null output is written exactly when there is no sink at all.  A
    configuration whose sinks are all of unknown types, or webhooks with
    addresses that do not parse, has the empty text. *)
Lemma Config_String_null `{R : MapRange} `{S : SliceSort} sc :
  (Config_String sc = nullConfig <-> sinks sc = ∅ /\ clusterSinks sc = ∅)
  /\ (Config_String sc = EmptyString <-> config_plugins sc = []).
Proof.
  rewrite Config_String_lines. pose proof (written_perm sc) as Hp. split.
  - assert (size (sinks sc) + size (clusterSinks sc) = 0 <-> sinks sc = ∅ /\ clusterSinks sc = ∅) as Hsz.
    { rewrite <- !map_size_empty_iff. lia. }
    rewrite <- Hsz. destruct (Nat.eqb_spec (size (sinks sc) + size (clusterSinks sc)) 0) as [E|E].
    + unfold written. apply Nat.eqb_eq in E as E'. by rewrite E'.
    + split; [|done]. intros Ht. exfalso. apply Nat.eqb_neq in E.
      pose proof (written_names sc E) as Hw. destruct (written sc) as [|p ps]; [done|].
      inversion Hw as [|? ? Hv]; subst. by revert Ht; apply first_plugin_not_null.
  - split.
    + destruct (written sc) as [|[t p] ps]; [|done]. intros _. by apply Permutation_nil in Hp.
    + intros E. rewrite E in Hp. symmetry in Hp. apply Permutation_nil in Hp. by destruct (written sc).
Qed.

(** The four operations are insertion and deletion in a map from
    (namespace, name), respectively (cluster name, name), when namespaces and
    cluster names hold no vertical bar; they keep each sink under its key. *)
Lemma Config_operations sc s cs i :
  config_wf sc ->
  str_forall not_bar i.1 = true -> str_forall not_bar (Namespace (ls_ObjectMeta s)) = true ->
  str_forall not_bar (ClusterName (cls_ObjectMeta cs)) = true ->
  (config_wf (UpsertSink s sc) /\ config_wf (DeleteSink s sc)
   /\ config_wf (UpsertClusterSink cs sc) /\ config_wf (DeleteClusterSink cs sc))
  /\ sink_at (UpsertSink s sc) i = (if decide (i = sink_id s) then Some s else sink_at sc i)
  /\ sink_at (DeleteSink s sc) i = (if decide (i = sink_id s) then None else sink_at sc i)
  /\ cluster_sink_at (UpsertClusterSink cs sc) i =
     (if decide (i = cluster_sink_id cs) then Some cs else cluster_sink_at sc i)
  /\ cluster_sink_at (DeleteClusterSink cs sc) i =
     (if decide (i = cluster_sink_id cs) then None else cluster_sink_at sc i).
Proof.
  intros Hwf Hi Hs Hcs. split; [split_and!; auto with sinkcfg|].
  unfold sink_at, cluster_sink_at, UpsertSink, DeleteSink, UpsertClusterSink, DeleteClusterSink.
  cbn [sinks clusterSinks]. rewrite !key_text, !clusterKey_text.
  pose proof (id_key_eq i (sink_id s) Hi Hs) as E1. pose proof (id_key_eq i (cluster_sink_id cs) Hi Hcs) as E2.
  split_and!; destruct (decide _) as [->|Hne];
    rewrite ?lookup_insert_eq, ?lookup_delete_eq, ?lookup_insert_ne, ?lookup_delete_ne; try done;
    intros E; apply Hne; by first [apply E1 | apply E2].
Qed.

(** ** Concrete sinks *)

Definition sample_meta (ns name : string) : ObjectMeta :=
  {| Name := name; GenerateName := EmptyString; Namespace := ns;
     SelfLink := EmptyString; UID := EmptyString; ResourceVersion := EmptyString;
     Generation := 0; CreationTimestamp := 0; DeletionTimestamp := None;
     DeletionGracePeriodSeconds := None; Labels := None; Annotations := None;
     OwnerReferences := None; meta_Initializers := None; Finalizers := None; ClusterName := EmptyString |}.

Definition syslog_spec (host : string) (port : Z) (tls insecure : bool) : SinkSpec :=
  {| SinkType := "syslog"; spec_syslog := MkSyslogSpec host port tls; spec_webhook := MkWebhookSpec EmptyString;
     InsecureSkipVerify := insecure |}.

Definition webhook_spec (url : string) (insecure : bool) : SinkSpec :=
  {| SinkType := "webhook"; spec_syslog := MkSyslogSpec EmptyString 0 false; spec_webhook := MkWebhookSpec url;
     InsecureSkipVerify := insecure |}.

Definition sample_sink (ns name : string) (spec : SinkSpec) : LogSink :=
  {| ls_TypeMeta := MkTypeMeta EmptyString EmptyString; ls_ObjectMeta := sample_meta ns name; ls_Spec := spec |}.

Definition sample_cluster_sink (name : string) (spec : SinkSpec) : ClusterLogSink :=
  {| cls_TypeMeta := MkTypeMeta EmptyString EmptyString; cls_ObjectMeta := sample_meta EmptyString name;
     cls_Spec := spec |}.

Definition sample_config : Config :=
  UpsertClusterSink (sample_cluster_sink "all" (syslog_spec "logs.example.com" 6514 true true))
    (UpsertSink (sample_sink "ns2" "hook" (webhook_spec "https://example.org/in?x=1" true))
      (UpsertSink (sample_sink "ns1" "b" (syslog_spec "b.example.com" 514 false false))
        (UpsertSink (sample_sink "ns1" "a" (syslog_spec "a.example.com" 514 false false)) NewConfig))).

Lemma sample_config_wf : config_wf sample_config /\ config_named sample_config.
Proof.
  split; [unfold sample_config; auto 7 with sinkcfg|]. split.
  - intros k s Hk. unfold sample_config in Hk. cbn in Hk.
    repeat (apply lookup_insert_Some in Hk as [[<- <-]|[_ Hk]]; [done|]). done.
  - exists EmptyString. intros k s Hk. unfold sample_config in Hk. cbn in Hk.
    repeat (apply lookup_insert_Some in Hk as [[<- <-]|[_ Hk]]; [done|]). done.
Qed.

Lemma Config_String_sections_witness :
  config_ok sample_config = true
  /\ exists ps, @Parse latin1_tables "fluent.conf" (@Config_String map_order insertion_slice_sort sample_config) =
             Ok (Ok {| FName := "fluent.conf"; Sections := Section_zero :: map plugin_section ps |})
             /\ ps ≡ₚ config_plugins sample_config.
Proof.
  split; [reflexivity|].
  apply (@Config_String_sections latin1_tables map_order insertion_slice_sort "fluent.conf" sample_config). reflexivity.
Defined.

Lemma Config_String_deterministic_witness :
  List.length (webhooks ls_Spec (sinks sample_config)) <= 1
  /\ @Config_String map_order insertion_slice_sort sample_config
     = @Config_String reverse_order insertion_slice_sort sample_config.
Proof.
  split; [vm_compute; lia|].
  apply (Config_String_deterministic map_order reverse_order insertion_slice_sort insertion_slice_sort sample_config
           (proj1 sample_config_wf) (proj2 sample_config_wf)); vm_compute; lia.
Defined.

Lemma Config_operations_witness :
  sink_at (UpsertSink (sample_sink "ns1" "a" (syslog_spec "c.example.com" 514 false false)) sample_config)
          ("ns1", "a")
  = Some (sample_sink "ns1" "a" (syslog_spec "c.example.com" 514 false false)).
Proof.
  exact (proj1 (proj2 (Config_operations sample_config
    (sample_sink "ns1" "a" (syslog_spec "c.example.com" 514 false false))
    (sample_cluster_sink "all" (syslog_spec "logs.example.com" 6514 true true)) ("ns1", "a")
    (proj1 sample_config_wf) eq_refl eq_refl eq_refl))).
Defined.

(** ** Limits of the theorems *)

(** The number of sections of a text, when it parses. *)
Definition section_names (text : string) : list string :=
  match @Parse latin1_tables EmptyString text with
  | Ok (Ok f) => map SName (Sections f)
  | _ => []
  end.

(** A syslog host with a newline, or a webhook address whose path has an
    escaped one, writes sections of its own choice. *)
Lemma host_injects_section :
  section_names (@Config_String map_order insertion_slice_sort
    (UpsertSink (sample_sink "ns1" "a" (syslog_spec ("h:1" +:+ nl +:+ "[INPUT]" +:+ nl +:+ "    Name tail") 514 false false))
       NewConfig))
  = [EmptyString; "OUTPUT"; "INPUT"].
Proof. vm_compute. reflexivity. Qed.

Lemma path_injects_section :
  section_names (@Config_String map_order insertion_slice_sort
    (UpsertSink (sample_sink "ns1" "a" (webhook_spec "https://example.com/%0A[INPUT]%0A%20Name%20exec%0A%20Command%20id" false))
       NewConfig))
  = [EmptyString; "OUTPUT"; "INPUT"].
Proof. vm_compute. reflexivity. Qed.

(** With two webhooks of one kind the text follows the iteration order. *)
Lemma webhook_order_shows :
  let sc := UpsertSink (sample_sink "ns1" "a" (webhook_spec "http://a.example.com" false))
              (UpsertSink (sample_sink "ns1" "b" (webhook_spec "http://b.example.com" false)) NewConfig) in
  @Config_String map_order insertion_slice_sort sc <> @Config_String reverse_order insertion_slice_sort sc.
Proof. vm_compute. discriminate. Qed.
