(* ===== verification/SinkController.v ===== *)
(** * The log sink controllers ([pkg/sink/controller.go], [cluster_controller.go])

    [Controller] and [ClusterController] are informer event handlers: they
    record the sink in the shared [Config], replace the outputs of the
    fluent-bit config map and delete the fluent-bit pods.  What is outside the
    program is the class [KubeWorld]: [Patch] and [DeleteCollection] of the API
    server return a new world and an error text, and [draw_order] gives the
    order in which the next text ranges over its maps, which Go draws anew each
    time. *)

From S2P Require Import Prelude Utf8 GoStd GoJson FlbLex FlbParse Types SinkConfig.
From stdpp Require Import base gmap strings list.
From Stdlib Require Import Ascii.

Definition ConfigMapName : string := "fluent-bit".
Definition DaemonSetName : string := "fluent-bit".

(** [types.JSONPatchType] *)
Definition JSONPatchType : string := "application/json-patch+json".

Class KubeWorld (W : Type) := {
  Patch : string -> string -> string -> W -> W * option string;
  DeleteCollection : string -> W -> W * option string;
  draw_order : W -> W * MapRange;
}.

Definition clusterNameFilterTemplate : string := "
[FILTER]
    Name record_modifier
    Match *
    Record cluster_name %s
".

(** [json.Marshal] of the patches: strings always have a JSON form. *)
Definition json_Marshal (ps : list patch) : res string string := Ok (marshal_patches ps).

(** What the handlers of one process share: the configuration, the API server
    and the log. *)
Record state (W : Type) : Type := MkState { sc : Config; world : W; logs : list string }.
Arguments MkState {W}.
Arguments sc {W}.
Arguments world {W}.
Arguments logs {W}.

Definition with_sc {W} (c : Config) (st : state W) : state W :=
  {| sc := c; world := world st; logs := logs st |}.
Definition with_world {W} (w : W) (st : state W) : state W :=
  {| sc := sc st; world := w; logs := logs st |}.

(** [if err != nil { log.Println(err.Error()) }] *)
Definition log_error (err : option string) (logs : list string) : list string :=
  match err with
  | Some e => logs ++ [e]
  | None => logs
  end.

Section Handlers.
Context {W : Type} `{KubeWorld W}.

Definition patchConfig (patches : list patch) (st : state W) : state W :=
  let '(data, err) := match json_Marshal patches with
                      | Ok d => (d, None)
                      | Err e => (EmptyString, Some e)
                      end in
  let lg := log_error err (logs st) in
  let '(w, err) := Patch ConfigMapName JSONPatchType data (world st) in
  let lg := log_error err lg in
  let '(w, err) := DeleteCollection "app=fluent-bit" w in
  let lg := log_error err lg in
  {| sc := sc st; world := w; logs := lg |}.

Definition SetClusterNameFilter (clusterName : string) (st : state W) : state W :=
  if String.eqb clusterName EmptyString then st
  else patchConfig [{| Op := "replace"; Path := "/data/cluster-name-filter.conf";
                       PatchValue := Sprintf clusterNameFilterTemplate [FStr clusterName] |}] st.

Context `{S : SliceSort}.

(** [sc.String()]: each call ranges over the maps in an order of its own. *)
Definition config_text (st : state W) : state W * string :=
  let '(w, R) := draw_order (world st) in (with_world w st, Config_String (sc st)).

Definition Controller_OnAdd (o : obj) (st : state W) : state W :=
  match o with
  | ALogSink d =>
      let st := with_sc (UpsertSink d (sc st)) st in
      let '(st, text) := config_text st in
      let patches := [{| Op := "replace"; Path := "/data/outputs.conf"; PatchValue := text |}] in
      patchConfig patches st
  | _ => st
  end.

Definition Controller_OnDelete (o : obj) (st : state W) : state W :=
  match o with
  | ALogSink d =>
      let st := with_sc (DeleteSink d (sc st)) st in
      let '(st, text) := config_text st in
      let patches := [{| Op := "replace"; Path := "/data/outputs.conf"; PatchValue := text |}] in
      patchConfig patches st
  | _ => st
  end.

Definition Controller_OnUpdate (old new : obj) (st : state W) : state W :=
  match old with
  | ALogSink o =>
      match new with
      | ALogSink n =>
          if negb (SinkSpec_DeepEqual (ls_Spec o) (ls_Spec n)) then Controller_OnAdd new st else st
      | _ => st
      end
  | _ => st
  end.

Definition ClusterController_OnAdd (o : obj) (st : state W) : state W :=
  match o with
  | AClusterLogSink d =>
      let st := with_sc (UpsertClusterSink d (sc st)) st in
      let '(st, text) := config_text st in
      let patches := [{| Op := "replace"; Path := "/data/outputs.conf"; PatchValue := text |}] in
      patchConfig patches st
  | _ => st
  end.

Definition ClusterController_OnDelete (o : obj) (st : state W) : state W :=
  match o with
  | AClusterLogSink d =>
      let st := with_sc (DeleteClusterSink d (sc st)) st in
      let '(st, text) := config_text st in
      let patches := [{| Op := "replace"; Path := "/data/outputs.conf"; PatchValue := text |}] in
      patchConfig patches st
  | _ => st
  end.

Definition ClusterController_OnUpdate (old new : obj) (st : state W) : state W :=
  match old with
  | AClusterLogSink o =>
      match new with
      | AClusterLogSink n =>
          if negb (SinkSpec_DeepEqual (cls_Spec o) (cls_Spec n)) then ClusterController_OnAdd new st else st
      | _ => st
      end
  | _ => st
  end.

(** The calls the two informers make. *)
Inductive delivery : Type :=
| LogAdd (o : obj) | LogUpdate (old new : obj) | LogDelete (o : obj)
| ClusterAdd (o : obj) | ClusterUpdate (old new : obj) | ClusterDelete (o : obj).

Definition handle (d : delivery) : state W -> state W :=
  match d with
  | LogAdd o => Controller_OnAdd o
  | LogUpdate old new => Controller_OnUpdate old new
  | LogDelete o => Controller_OnDelete o
  | ClusterAdd o => ClusterController_OnAdd o
  | ClusterUpdate old new => ClusterController_OnUpdate old new
  | ClusterDelete o => ClusterController_OnDelete o
  end.

(** The change a delivery makes to the configuration, [None] when the handler
    returns without doing anything. *)
Definition change (d : delivery) : option (Config -> Config) :=
  match d with
  | LogAdd (ALogSink s) => Some (UpsertSink s)
  | LogUpdate (ALogSink o) (ALogSink n) =>
      if SinkSpec_DeepEqual (ls_Spec o) (ls_Spec n) then None else Some (UpsertSink n)
  | LogDelete (ALogSink s) => Some (DeleteSink s)
  | ClusterAdd (AClusterLogSink s) => Some (UpsertClusterSink s)
  | ClusterUpdate (AClusterLogSink o) (AClusterLogSink n) =>
      if SinkSpec_DeepEqual (cls_Spec o) (cls_Spec n) then None else Some (UpsertClusterSink n)
  | ClusterDelete (AClusterLogSink s) => Some (DeleteClusterSink s)
  | _ => None
  end.

Definition outputs_patch (text : string) : list patch :=
  [{| Op := "replace"; Path := "/data/outputs.conf"; PatchValue := text |}].

(** Send the text of the configuration, restart the pods. *)
Definition push_config (st : state W) : state W :=
  let '(st, text) := config_text st in patchConfig (outputs_patch text) st.

(** Every handler is: change the configuration, send its text, restart. *)
Lemma handle_change d st :
  handle d st = match change d with
                | Some f => push_config (with_sc (f (sc st)) st)
                | None => st
                end.
Proof.
  destruct d as [o|o n|o|o|o n|o]; destruct o; try reflexivity; destruct n; try reflexivity;
    cbn [handle change Controller_OnUpdate ClusterController_OnUpdate];
    by destruct (SinkSpec_DeepEqual _ _).
Qed.

Lemma patchConfig_sc ps st : sc (patchConfig ps st) = sc st.
Proof.
  unfold patchConfig. destruct (json_Marshal ps); destruct (Patch _ _ _ _); by destruct (DeleteCollection _ _).
Qed.

Lemma config_text_sc st : sc (config_text st).1 = sc st.
Proof. unfold config_text. by destruct (draw_order _). Qed.

Lemma push_config_sc st : sc (push_config st) = sc st.
Proof.
  unfold push_config. pose proof (config_text_sc st) as E. destruct (config_text st). by rewrite patchConfig_sc.
Qed.

Lemma handle_sc d st : sc (handle d st) = match change d with Some f => f (sc st) | None => sc st end.
Proof. rewrite handle_change. destruct (change d); [|done]. by rewrite push_config_sc. Qed.

Definition handle_all (ds : list delivery) (st : state W) : state W := foldl (fun st d => handle d st) st ds.

Definition apply_change (c : Config) (d : delivery) : Config :=
  match change d with Some f => f c | None => c end.

Lemma handle_all_sc ds st : sc (handle_all ds st) = foldl apply_change (sc st) ds.
Proof.
  revert st. induction ds as [|d ds IH]; intros st; cbn; [done|]. unfold handle_all in IH. by rewrite IH, handle_sc.
Qed.

Lemma change_wf d f c : change d = Some f -> config_wf c -> config_wf (f c).
Proof.
  destruct d as [o|o n|o|o|o n|o]; destruct o; cbn [change]; try discriminate; try (destruct n; try discriminate);
    try (destruct (SinkSpec_DeepEqual _ _); try discriminate); intros [= <-]; auto with sinkcfg.
Qed.

End Handlers.

(** ** The calls a handler makes

    A world that records the calls, answers them as it likes and draws any
    orders. *)

Inductive call : Type :=
| CPatch (name ptype data : string)
| CDeleteCollection (selector : string).

Definition recording (answer : list call -> call -> option string) (order : list call -> MapRange)
    : KubeWorld (list call) :=
  {| draw_order := fun w => (w, order w);
     Patch := fun n t d w => (w ++ [CPatch n t d], answer w (CPatch n t d));
     DeleteCollection := fun sel w => (w ++ [CDeleteCollection sel], answer w (CDeleteCollection sel)) |}.

Lemma patchConfig_calls answer order ps (st : state (list call)) :
  let data := marshal_patches ps in
  let c1 := CPatch "fluent-bit" "application/json-patch+json" data in
  let c2 := CDeleteCollection "app=fluent-bit" in
  @patchConfig _ (recording answer order) ps st =
  {| sc := sc st; world := world st ++ [c1; c2];
     logs := logs st ++ option_list (answer (world st) c1) ++ option_list (answer (world st ++ [c1]) c2) |}.
Proof.
  cbn zeta. unfold patchConfig. cbn. rewrite <- app_assoc. f_equal. unfold log_error.
  destruct (answer (world st) _), (answer (world st ++ _) _); cbn; by rewrite ?app_nil_r, <- ?app_assoc.
Qed.

(** ** What an API server does with the calls *)

(** A key of a config map that a JSON pointer writes as it is. *)
Definition pointer_char (c : ascii) : bool := negb (Ascii.eqb c "~") && negb (Ascii.eqb c "/").

Class PatchServer (W : Type) `{KubeWorld W} := {
  config_map : W -> string -> option (gmap string string);
  patch_replaces : forall w w' name data k v,
    Patch name JSONPatchType data w = (w', None) ->
    unmarshal_patches data = Some [MkPatch "replace" ("/data/" +:+ k) v] ->
    str_forall pointer_char k = true ->
    exists m, config_map w name = Some m /\ is_Some (m !! k) /\ config_map w' name = Some (<[k:=v]> m);
  patch_fails : forall w w' name ptype data e,
    Patch name ptype data w = (w', Some e) -> forall n, config_map w' n = config_map w n;
  delete_pods_data : forall w sel n, config_map (DeleteCollection sel w).1 n = config_map w n;
  draw_order_data : forall w n, config_map (draw_order w).1 n = config_map w n;
}.

(** A concrete server: config maps by name, the pods that run, and whether it
    refuses calls. *)
Record server : Type := MkServer {
  config_maps : gmap string (gmap string string);
  pods_deleted : nat;
  down : bool;
}.

Definition server_patch (name ptype data : string) (w : server) : server * option string :=
  if down w then (w, Some "connection refused")
  else if negb (String.eqb ptype JSONPatchType) then (w, Some "unsupported patch type")
  else match config_maps w !! name, unmarshal_patches data with
       | Some m, Some [MkPatch op path v] =>
           let k := str_drop 6 path in
           if String.eqb op "replace" && HasPrefix path "/data/" && str_forall pointer_char k
              && bool_decide (is_Some (m !! k))
           then ({| config_maps := <[name := <[k := v]> m]> (config_maps w); pods_deleted := pods_deleted w;
                    down := down w |}, None)
           else (w, Some "invalid patch")
       | _, _ => (w, Some "invalid patch")
       end.

#[export] Instance server_world : KubeWorld server :=
  {| draw_order := fun w => (w, map_order);
     Patch := server_patch;
     DeleteCollection := fun _ w =>
       if down w then (w, Some "connection refused")
       else ({| config_maps := config_maps w; pods_deleted := S (pods_deleted w); down := down w |}, None) |}.

#[export, refine] Instance server_laws : PatchServer server :=
  {| config_map := fun w name => config_maps w !! name |}.
Proof.
  - intros w w' name data k v HP Hd Hk. cbn in HP. unfold server_patch in HP. rewrite Hd in HP.
    destruct (down w); [done|]. cbn [negb String.eqb] in HP.
    destruct (config_maps w !! name) as [m|] eqn:Hm; [|done]. exists m.
    change (str_drop 6 ("/data/" +:+ k)) with k in HP. rewrite Hk in HP.
    destruct (_ && bool_decide _) eqn:Hb in HP; [|done]. apply andb_true_iff in Hb as [_ Hb].
    apply bool_decide_eq_true_1 in Hb. injection HP as <-. cbn. by rewrite lookup_insert_eq.
  - intros w w' name ptype data e HP n. cbn in HP. unfold server_patch in HP.
    repeat case_match; by simplify_eq.
  - intros w sel n. cbn. by destruct (down w).
  - done.
Defined.

Section Synced.
Context {W : Type} `{PatchServer W} `{S : SliceSort}.

Definition outputs_conf (w : W) : option string := config_map w ConfigMapName ≫= (.!! "outputs.conf").

(** The key has a text of the configuration, in some order. *)
Definition synced (st : state W) : Prop :=
  exists R : MapRange, outputs_conf (world st) = Some (to_valid (Config_String (sc st))).

Lemma config_text_spec (st : state W) :
  logs (config_text st).1 = logs st /\ sc (config_text st).1 = sc st
  /\ (forall n, config_map (world (config_text st).1) n = config_map (world st) n)
  /\ exists R : MapRange, (config_text st).2 = Config_String (sc st).
Proof.
  unfold config_text. pose proof (draw_order_data (world st)) as Hd. destruct (draw_order (world st)) as [w R].
  split_and!; [done..|by exists R].
Qed.

(** A [patchConfig] that logs nothing has replaced the key. *)
Lemma patchConfig_replaces k v (st : state W) :
  str_forall pointer_char k = true -> to_valid ("/data/" +:+ k) = "/data/" +:+ k ->
  logs (patchConfig [MkPatch "replace" ("/data/" +:+ k) v] st) = logs st ->
  exists m, config_map (world st) ConfigMapName = Some m /\ is_Some (m !! k)
    /\ config_map (world (patchConfig [MkPatch "replace" ("/data/" +:+ k) v] st)) ConfigMapName
       = Some (<[k := to_valid v]> m).
Proof.
  intros Hk Hv. unfold patchConfig, json_Marshal. cbn [log_error].
  destruct (Patch _ _ _ _) as [w1 e1] eqn:HP.
  pose proof (delete_pods_data w1 "app=fluent-bit" ConfigMapName) as Hd.
  destruct (DeleteCollection _ w1) as [w2 e2]. cbn [logs world fst] in *. intros Hlog.
  assert (e1 = None) as ->.
  { destruct e1 as [e|]; [|done]. apply (f_equal List.length) in Hlog.
    destruct e2; cbn in Hlog; rewrite !length_app in Hlog; cbn in Hlog; lia. }
  rewrite Hd. eapply patch_replaces; [exact HP| |done].
  rewrite unmarshal_marshal_patches. cbn [map]. unfold valid_patch. cbn [Op Path PatchValue].
  by rewrite Hv.
Qed.

Lemma log_error_prefix e l : exists l', log_error e l = l ++ l'.
Proof. destruct e as [e|]; cbn; eexists; [done|by rewrite app_nil_r]. Qed.

Lemma patchConfig_logs ps (st : state W) : exists l, logs (patchConfig ps st) = logs st ++ l.
Proof.
  unfold patchConfig, json_Marshal. destruct (Patch _ _ _ _) as [w1 e1]. destruct (DeleteCollection _ w1) as [w2 e2].
  cbn [logs log_error]. destruct (log_error_prefix e1 (logs st)) as [l1 ->].
  destruct (log_error_prefix e2 (logs st ++ l1)) as [l2 ->]. exists (l1 ++ l2). by rewrite app_assoc.
Qed.

Lemma push_config_logs (st : state W) : exists l, logs (push_config st) = logs st ++ l.
Proof.
  unfold push_config. destruct (config_text_spec st) as (El & _). destruct (config_text st) as [st1 text].
  cbn [fst] in El. rewrite <- El. apply patchConfig_logs.
Qed.

Lemma handle_logs d (st : state W) : exists l, logs (handle d st) = logs st ++ l.
Proof.
  rewrite handle_change. destruct (change d); [apply (push_config_logs (with_sc _ st))|].
  exists []. by rewrite app_nil_r.
Qed.

Lemma handle_all_logs ds (st : state W) : exists l, logs (handle_all ds st) = logs st ++ l.
Proof.
  revert st. induction ds as [|d ds IH]; intros st; [exists []; by rewrite app_nil_r|].
  destruct (IH (handle d st)) as [l2 E]. destruct (handle_logs d st) as [l1 E1].
  exists (l1 ++ l2). unfold handle_all in *. cbn [foldl]. by rewrite E, E1, app_assoc.
Qed.

Lemma push_config_synced (st : state W) : logs (push_config st) = logs st -> synced (push_config st).
Proof.
  unfold synced. rewrite push_config_sc. unfold push_config.
  destruct (config_text_spec st) as (El & _ & _ & R & Et). destruct (config_text st) as [st1 text].
  cbn [fst snd] in El, Et. rewrite <- El. intros Hlog. exists R. rewrite <- Et.
  destruct (patchConfig_replaces "outputs.conf" text st1 eq_refl eq_refl Hlog) as (m & _ & _ & Hm).
  unfold outputs_patch, outputs_conf. change "/data/outputs.conf" with ("/data/" +:+ "outputs.conf"). rewrite Hm.
  cbn. by rewrite lookup_insert_eq.
Qed.

Lemma handle_synced d (st : state W) :
  is_Some (change d) -> logs (handle d st) = logs st -> synced (handle d st).
Proof. intros [f Hf]. rewrite handle_change, Hf. apply (push_config_synced (with_sc _ st)). Qed.

Lemma handle_none d (st : state W) : change d = None -> handle d st = st.
Proof. intros Hd. by rewrite handle_change, Hd. Qed.

Lemma handle_all_snoc ds d (st : state W) : handle_all (ds ++ [d]) st = handle d (handle_all ds st).
Proof. unfold handle_all. by rewrite foldl_app. Qed.

Lemma handle_all_none ds (st : state W) : Forall (fun d => change d = None) ds -> handle_all ds st = st.
Proof.
  induction 1 as [|d ds Hd _ IH]; [done|]. unfold handle_all in *. cbn [foldl]. by rewrite handle_change, Hd.
Qed.

Lemma handle_all_synced ds (st : state W) :
  Exists (fun d => is_Some (change d)) ds -> logs (handle_all ds st) = logs st -> synced (handle_all ds st).
Proof.
  induction ds as [|d ds IH] using rev_ind; [by inversion 1|]. rewrite handle_all_snoc. intros Hex Hlog.
  assert (logs (handle_all ds st) = logs st /\ logs (handle d (handle_all ds st)) = logs (handle_all ds st)) as [H1 H2].
  { destruct (handle_logs d (handle_all ds st)) as [l2 E2]. destruct (handle_all_logs ds st) as [l1 E1].
    rewrite E2, E1, <- app_assoc in Hlog. rewrite <- (app_nil_r (logs st)) in Hlog at 2.
    apply app_inv_head, app_eq_nil in Hlog as [-> ->]. rewrite E2, E1. by rewrite !app_nil_r. }
  destruct (change d) as [f|] eqn:Hd; [apply handle_synced; [by rewrite Hd|done]|].
  rewrite handle_none by done. apply IH; [|done].
  apply Exists_app in Hex as [?|Hex]; [done|]. inversion Hex as [? ? Hs|? ? Hs]; subst; [|by inversion Hs].
  rewrite Hd in Hs. by destruct Hs.
Qed.

End Synced.

(** ** Properties *)

(** C10: Whatever the API server answers, each report makes exactly the calls
    it should: none if it is an object of another type or an update that keeps
    the spec, and otherwise one patch of the fluent-bit config map, whose body
    is the JSON Patch document that replaces outputs.conf with the text of the
    new configuration, followed by one deletion of the fluent-bit pods, even
    when the patch failed. *)
Theorem handler_calls `{S : SliceSort} answer order d (st : state (list call)) :
  let st' := @handle _ (recording answer order) S d st in
  match change d with
  | None => st' = st
  | Some f =>
      sc st' = f (sc st)
      /\ exists data, world st' = world st ++ [CPatch "fluent-bit" "application/json-patch+json" data;
                                               CDeleteCollection "app=fluent-bit"]
         /\ unmarshal_patches data =
            Some [MkPatch "replace" "/data/outputs.conf"
                    (to_valid (@Config_String (order (world st)) S (f (sc st))))]
  end.
Proof.
  cbn zeta. rewrite (@handle_change _ (recording answer order)). destruct (change d) as [f|]; [|done].
  split; [by rewrite (@push_config_sc _ (recording answer order))|].
  unfold push_config, config_text. cbn [draw_order recording with_sc world sc]. rewrite patchConfig_calls.
  eexists. split; [done|]. by rewrite unmarshal_marshal_patches.
Qed.

(** After any sequence of reports that changed something, if nothing was
    logged, the outputs.conf of the fluent-bit config map is a text of the
    current configuration. *)
Lemma outputs_follow_config {W} `{PatchServer W} `{S : SliceSort} ds (st : state W) :
  Exists (fun d => is_Some (change d)) ds -> logs (handle_all ds st) = logs st ->
  sc (handle_all ds st) = foldl apply_change (sc st) ds
  /\ exists R : MapRange,
       outputs_conf (world (handle_all ds st)) = Some (to_valid (Config_String (foldl apply_change (sc st) ds))).
Proof.
  intros Hex Hlog. split; [apply handle_all_sc|].
  rewrite <- handle_all_sc. by apply handle_all_synced.
Qed.

(** Without a cluster name nothing is done.  With one, and unless an
    error is logged, the filter file of the config map becomes a single
    record_modifier filter that adds the cluster name, and every other key of
    the config map is left as it was. *)
Lemma SetClusterNameFilter_sets {W} `{PatchServer W} `{U : UnicodeTables} name (st : state W) :
  str_forall not_nl name = true ->
  SetClusterNameFilter EmptyString st = st
  /\ (name <> EmptyString -> logs (SetClusterNameFilter name st) = logs st ->
      exists m text, config_map (world st) "fluent-bit" = Some m
        /\ config_map (world (SetClusterNameFilter name st)) "fluent-bit"
           = Some (<["cluster-name-filter.conf" := to_valid text]> m)
        /\ Parse EmptyString text =
           Ok (Ok {| FName := EmptyString;
                     Sections := [Section_zero;
                                  {| SName := "FILTER";
                                     KeyValues := [MkKeyValue "Name" "record_modifier"; MkKeyValue "Match" "*";
                                                   MkKeyValue "Record" ("cluster_name " +:+ name)] |}] |})).
Proof.
  intros Hn. split; [done|]. intros Hne. unfold SetClusterNameFilter. apply String.eqb_neq in Hne. rewrite Hne.
  intros Hlog. destruct (patchConfig_replaces "cluster-name-filter.conf" _ st eq_refl eq_refl Hlog)
    as (m & Hm & _ & Hm'). eexists _, _. split_and!; [exact Hm|exact Hm'|].
  set (kv := fun k v => LKeyValue "    " k " " v).
  assert (Sprintf clusterNameFilterTemplate [FStr name]
          = render [LBlank EmptyString; LHeader EmptyString "FILTER"; kv "Name" "record_modifier"; kv "Match" "*";
                    kv "Record" ("cluster_name " +:+ name)]) as ->.
  { cbn. by rewrite !str_app_assoc. }
  rewrite Parse_lines; [done|]. cbn. by rewrite Hn.
Qed.

(** ** Concrete runs *)

Definition sample_server : server :=
  {| config_maps := {["fluent-bit" := {["outputs.conf" := EmptyString]} ∪ {["cluster-name-filter.conf" := EmptyString]}]};
     pods_deleted := 0; down := false |}.

Definition sample_state : state server := {| sc := NewConfig; world := sample_server; logs := [] |}.

Definition sample_reports : list delivery :=
  [LogAdd (ALogSink (sample_sink "ns1" "a" (syslog_spec "a.example.com" 514 false false)));
   LogUpdate (ALogSink (sample_sink "ns1" "a" (syslog_spec "a.example.com" 514 false false)))
             (ALogSink (sample_sink "ns1" "a" (webhook_spec "https://example.com" false)));
   ClusterAdd (AClusterLogSink (sample_cluster_sink "all" (syslog_spec "c.example.com" 514 true false)))].

Lemma outputs_follow_config_witness :
  logs (@handle_all _ _ insertion_slice_sort sample_reports sample_state) = logs sample_state
  /\ sc (@handle_all _ _ insertion_slice_sort sample_reports sample_state)
      = foldl apply_change NewConfig sample_reports
  /\ exists R, outputs_conf (world (@handle_all _ _ insertion_slice_sort sample_reports sample_state))
      = Some (to_valid (@Config_String R insertion_slice_sort (foldl apply_change NewConfig sample_reports))).
Proof.
  split; [vm_compute; reflexivity|].
  apply (@outputs_follow_config _ _ _ insertion_slice_sort sample_reports sample_state).
  - apply Exists_cons_hd. by eexists.
  - vm_compute. reflexivity.
Defined.

Lemma SetClusterNameFilter_sets_witness :
  logs (SetClusterNameFilter "prod" sample_state) = logs sample_state
  /\ SetClusterNameFilter EmptyString sample_state = sample_state.
Proof.
  split; [vm_compute; reflexivity|].
  exact (proj1 (@SetClusterNameFilter_sets _ _ _ latin1_tables "prod" sample_state eq_refl)).
Defined.
