(* ===== verification/SinkSystem.v ===== *)
(** * The log sink controllers in the cluster

    The handlers of [SinkController] against the two things around them: the
    API server whose objects the informers report, and the two informer
    goroutines of [cmd/sink-controller/main.go] that share one [Config]. *)

From stdpp Require Import base gmap strings list relations.
From Stdlib Require Import Ascii.
From S2P Require Import Prelude Utf8 GoStd GoJson FlbLex FlbParse Types SinkConfig SinkController.

(** ** Objects of the API server and sinks of a configuration *)

Definition id_key (i : string * string) : string := i.1 +:+ String "|" i.2.
Definition bar_free (i : string * string) : Prop := str_forall not_bar i.1 = true.

Section Mirror.
Context {A : Type} (id : A -> string * string) (spec : A -> SinkSpec).

(** Two versions of an object that give the same output. *)
Definition same_output (x y : A) : Prop := id x = id y /\ spec x = spec y.

(** [m], of a configuration, holds the objects of [st] up to [same_output]. *)
Record mirror (m : gmap string A) (st : gmap (string * string) A) : Prop := {
  mirror_key : forall k x, m !! k = Some x -> k = id_key (id x) /\ bar_free (id x);
  mirror_id : forall i y, st !! i = Some y -> i = id y /\ bar_free i;
  mirror_at : forall i, bar_free i -> option_Forall2 same_output (m !! id_key i) (st !! i);
}.

Lemma id_key_inj i j : bar_free i -> bar_free j -> id_key i = id_key j -> i = j.
Proof. intros Hi Hj. by apply id_key_eq. Qed.

Lemma same_output_refl x : same_output x x.
Proof. done. Qed.

Lemma mirror_empty : mirror ∅ ∅.
Proof. split; intros *; rewrite ?lookup_empty; try done. constructor. Qed.

Lemma mirror_insert m st x y :
  mirror m st -> same_output x y -> bar_free (id x) ->
  mirror (<[id_key (id x) := x]> m) (<[id y := y]> st).
Proof.
  intros Hm Hs Hb. destruct (Hs) as [Hid _]. split.
  - intros k z [[<- <-]|[_ Hz]]%lookup_insert_Some; [done|by apply (mirror_key _ _ Hm)].
  - intros i z [[<- <-]|[_ Hz]]%lookup_insert_Some; [by rewrite <- Hid|by apply (mirror_id _ _ Hm)].
  - intros i Hi. rewrite <- Hid. destruct (decide (i = id x)) as [->|Hne].
    + rewrite !lookup_insert_eq. by constructor.
    + rewrite !lookup_insert_ne; [by apply (mirror_at _ _ Hm)|done|].
      intros E. by apply Hne; symmetry; apply id_key_inj.
Qed.

Lemma mirror_delete m st i : mirror m st -> bar_free i -> mirror (delete (id_key i) m) (delete i st).
Proof.
  intros Hm Hb. split.
  - intros k z [_ Hz]%lookup_delete_Some. by apply (mirror_key _ _ Hm).
  - intros j z [_ Hz]%lookup_delete_Some. by apply (mirror_id _ _ Hm).
  - intros j Hj. destruct (decide (j = i)) as [->|Hne].
    + rewrite !lookup_delete_eq. constructor.
    + rewrite !lookup_delete_ne; [by apply (mirror_at _ _ Hm)|done|].
      intros E. by apply Hne; symmetry; apply id_key_inj.
Qed.

(** An object that changed without changing its output. *)
Lemma mirror_keep m st x y :
  mirror m st -> st !! id x = Some x -> same_output x y -> mirror m (<[id y := y]> st).
Proof.
  intros Hm Hx Hs. destruct Hs as [Hid Hspec]. destruct (mirror_id _ _ Hm _ _ Hx) as [_ Hb]. split.
  - apply (mirror_key _ _ Hm).
  - intros i z [[<- <-]|[_ Hz]]%lookup_insert_Some; [by rewrite <- Hid|by apply (mirror_id _ _ Hm)].
  - intros i Hi. pose proof (mirror_at _ _ Hm i Hi) as Ha. rewrite <- Hid.
    destruct (decide (i = id x)) as [->|Hne]; [|by rewrite lookup_insert_ne].
    rewrite lookup_insert_eq. rewrite Hx in Ha. inversion Ha as [z ? [H1 H2] E|]; subst. constructor.
    split; congruence.
Qed.

Lemma mirror_elements m st :
  mirror m st ->
  exists l l', (map_to_list m).*2 ≡ₚ l /\ (map_to_list st).*2 ≡ₚ l' /\ Forall2 same_output l l'.
Proof.
  revert m. induction st as [|i y st Hi IH] using map_ind; intros m Hm.
  - assert (m = ∅) as ->.
    { apply map_empty. intros k. destruct (m !! k) as [x|] eqn:Hk; [|done].
      destruct (mirror_key _ _ Hm _ _ Hk) as [-> Hb]. pose proof (mirror_at _ _ Hm _ Hb) as Ha.
      rewrite Hk, lookup_empty in Ha. inversion Ha. }
    exists [], []. rewrite !map_to_list_empty. by split_and!; [..|constructor].
  - destruct (mirror_id _ _ Hm i y) as [Ei Hb]; [by rewrite lookup_insert_eq|].
    pose proof (mirror_at _ _ Hm i Hb) as Ha. rewrite lookup_insert_eq in Ha.
    inversion Ha as [x ? Hs Hx|]; subst. symmetry in Hx.
    pose proof (mirror_delete _ _ (id y) Hm Hb) as Hd. rewrite delete_insert_id in Hd by done.
    destruct (IH _ Hd) as (l & l' & Hl & Hl' & Hf).
    exists (x :: l), (y :: l'). rewrite <- (map_to_list_delete m (id_key (id y)) x Hx), map_to_list_insert by done.
    cbn. split_and!; [by rewrite Hl|by rewrite Hl'|by constructor].
Qed.

Lemma mirror_plugins {B} (f : A -> list B) m st :
  mirror m st -> (forall x y, same_output x y -> f x = f y) ->
  flat_map f (values m) ≡ₚ flat_map f (map_to_list st).*2.
Proof.
  intros Hm Hf. destruct (mirror_elements m st Hm) as (l & l' & Hl & Hl' & Hs). unfold values. rewrite Hl, Hl'.
  clear Hl Hl'. induction Hs as [|x y l l' Hxy _ IH]; cbn; [done|]. by rewrite (Hf _ _ Hxy), IH.
Qed.

Lemma mirror_size m st : mirror m st -> size m = size st.
Proof.
  intros Hm. destruct (mirror_elements m st Hm) as (l & l' & Hl & Hl' & Hs).
  rewrite <- (length_map_to_list m), <- (length_map_to_list st).
  apply Forall2_length in Hs. apply Permutation_length in Hl, Hl'.
  rewrite !length_fmap in *. congruence.
Qed.

End Mirror.

#[global] Arguments mirror_key {_ _ _ _ _}.
#[global] Arguments mirror_id {_ _ _ _ _}.
#[global] Arguments mirror_at {_ _ _ _ _}.

(** ** The API server's history *)

Record api : Type := MkApi {
  api_sinks : gmap (string * string) LogSink;
  api_cluster_sinks : gmap (string * string) ClusterLogSink;
}.

Definition api_empty : api := {| api_sinks := ∅; api_cluster_sinks := ∅ |}.

Definition set_sinks (m : gmap (string * string) LogSink) (a : api) : api :=
  {| api_sinks := m; api_cluster_sinks := api_cluster_sinks a |}.
Definition set_cluster_sinks (m : gmap (string * string) ClusterLogSink) (a : api) : api :=
  {| api_sinks := api_sinks a; api_cluster_sinks := m |}.

(** A change of the objects and the call by which an informer reports it.  The
    periodic resync is an update of an object to itself; a deletion may report
    an older version of the object. *)
Inductive api_step : api -> delivery -> api -> Prop :=
| log_added a s :
    api_sinks a !! sink_id s = None -> bar_free (sink_id s) ->
    api_step a (LogAdd (ALogSink s)) (set_sinks (<[sink_id s := s]> (api_sinks a)) a)
| log_updated a o n :
    api_sinks a !! sink_id o = Some o -> sink_id n = sink_id o ->
    api_step a (LogUpdate (ALogSink o) (ALogSink n)) (set_sinks (<[sink_id n := n]> (api_sinks a)) a)
| log_deleted a s :
    is_Some (api_sinks a !! sink_id s) ->
    api_step a (LogDelete (ALogSink s)) (set_sinks (delete (sink_id s) (api_sinks a)) a)
| cluster_added a s :
    api_cluster_sinks a !! cluster_sink_id s = None -> bar_free (cluster_sink_id s) ->
    api_step a (ClusterAdd (AClusterLogSink s))
               (set_cluster_sinks (<[cluster_sink_id s := s]> (api_cluster_sinks a)) a)
| cluster_updated a o n :
    api_cluster_sinks a !! cluster_sink_id o = Some o -> cluster_sink_id n = cluster_sink_id o ->
    api_step a (ClusterUpdate (AClusterLogSink o) (AClusterLogSink n))
               (set_cluster_sinks (<[cluster_sink_id n := n]> (api_cluster_sinks a)) a)
| cluster_deleted a s :
    is_Some (api_cluster_sinks a !! cluster_sink_id s) ->
    api_step a (ClusterDelete (AClusterLogSink s))
               (set_cluster_sinks (delete (cluster_sink_id s) (api_cluster_sinks a)) a).

Inductive api_run : api -> list delivery -> api -> Prop :=
| api_nil a : api_run a [] a
| api_cons a b c d ds : api_step a d b -> api_run b ds c -> api_run a (d :: ds) c.

(** The outputs the cluster's objects ask for. *)
Definition api_plugins (a : api) : list plugin :=
  if (size (api_sinks a) + size (api_cluster_sinks a) =? 0)%nat then [null_plugin]
  else flat_map log_sink_plugins (map_to_list (api_sinks a)).*2
       ++ flat_map cluster_sink_plugins (map_to_list (api_cluster_sinks a)).*2.

Record represents (c : Config) (a : api) : Prop := {
  rep_sinks : mirror sink_id ls_Spec (sinks c) (api_sinks a);
  rep_cluster : mirror cluster_sink_id cls_Spec (clusterSinks c) (api_cluster_sinks a);
}.

Lemma represents_empty : represents NewConfig api_empty.
Proof. split; apply mirror_empty. Qed.

Lemma key_id s : key s = id_key (sink_id s).
Proof. apply key_text. Qed.

Lemma clusterKey_id s : clusterKey s = id_key (cluster_sink_id s).
Proof. apply clusterKey_text. Qed.

Lemma SinkSpec_DeepEqual_eq a b : SinkSpec_DeepEqual a b = true <-> a = b.
Proof. unfold SinkSpec_DeepEqual. apply bool_decide_eq_true. Qed.

#[local] Arguments key : simpl never.
#[local] Arguments clusterKey : simpl never.

(** One report keeps the configuration in step with the objects. *)
Lemma represents_step a d b c :
  represents c a -> api_step a d b -> represents (apply_change c d) b.
Proof.
  intros [Hs Hc] Hstep. unfold apply_change.
  destruct Hstep as [a s _ Hb|a o n Ho Hid|a s [y Hy]|a s _ Hb|a o n Ho Hid|a s [y Hy]]; cbn [change].
  - split; [|done]. cbn. rewrite key_id. by apply mirror_insert.
  - destruct (mirror_id Hs _ _ Ho) as [_ Hb].
    destruct (SinkSpec_DeepEqual _ _) eqn:E; split; try done; cbn.
    + apply SinkSpec_DeepEqual_eq in E. by apply (mirror_keep _ _ _ _ o).
    + rewrite key_id. apply mirror_insert; [done|done|]. by rewrite Hid.
  - destruct (mirror_id Hs _ _ Hy) as [_ Hb]. split; [|done]. cbn. rewrite key_id. by apply mirror_delete.
  - split; [done|]. cbn. rewrite clusterKey_id. by apply mirror_insert.
  - destruct (mirror_id Hc _ _ Ho) as [_ Hb].
    destruct (SinkSpec_DeepEqual _ _) eqn:E; split; try done; cbn.
    + apply SinkSpec_DeepEqual_eq in E. by apply (mirror_keep _ _ _ _ o).
    + rewrite clusterKey_id. apply mirror_insert; [done|done|]. by rewrite Hid.
  - destruct (mirror_id Hc _ _ Hy) as [_ Hb]. split; [done|]. cbn. rewrite clusterKey_id. by apply mirror_delete.
Qed.

Lemma represents_run a ds b c :
  represents c a -> api_run a ds b -> represents (foldl apply_change c ds) b.
Proof.
  intros Hr Hrun. revert c Hr. induction Hrun as [|a b b' d ds Hd _ IH]; intros c Hr; [done|].
  cbn. apply IH. by eapply represents_step.
Qed.

Lemma sink_plugins_same x y : same_output sink_id ls_Spec x y -> log_sink_plugins x = log_sink_plugins y.
Proof.
  intros [Hid Hsp]. unfold sink_id in Hid. injection Hid as Hns Hname.
  unfold log_sink_plugins, sink_of. by rewrite Hns, Hname, Hsp.
Qed.

Lemma cluster_plugins_same x y :
  same_output cluster_sink_id cls_Spec x y -> cluster_sink_plugins x = cluster_sink_plugins y.
Proof.
  intros [Hid Hsp]. unfold cluster_sink_id in Hid. injection Hid as Hcl Hname.
  unfold cluster_sink_plugins, cluster_sink_of. by rewrite Hname, Hsp.
Qed.

Lemma represents_plugins c a : represents c a -> config_plugins c ≡ₚ api_plugins a.
Proof.
  intros [Hs Hc]. unfold config_plugins, api_plugins.
  rewrite (mirror_size _ _ _ _ Hs), (mirror_size _ _ _ _ Hc). destruct (_ =? 0)%nat; [done|].
  apply Permutation_app; apply mirror_plugins with (1 := Hs) + apply mirror_plugins with (1 := Hc);
    auto using sink_plugins_same, cluster_plugins_same.
Qed.

(** ** Two informer goroutines

    [main] runs one goroutine per informer; each takes its reports in order
    and runs a handler to its end.  The methods of [Config] are atomic, the
    handlers are not: a handler changes the configuration, takes its text,
    sends it, and deletes the pods, in four steps that the other goroutine's
    steps may come between.  The text is taken in an order of its own. *)

Inductive phase : Type :=
| Idle
| Changed
| HasText (text : string)
| Patched.

Record goroutine : Type := MkGoroutine { at_phase : phase; queue : list delivery }.

Section Interleaving.
Context {W : Type} `{HW : KubeWorld W} `{S : SliceSort}.

(** The two halves of [patchConfig]. *)
Definition send (text : string) (st : state W) : state W :=
  let '(w, err) := Patch ConfigMapName JSONPatchType
                     (marshal_patches [MkPatch "replace" "/data/outputs.conf" text]) (world st) in
  {| sc := sc st; world := w; logs := log_error err (logs st) |}.

Definition restart (st : state W) : state W :=
  let '(w, err) := DeleteCollection "app=fluent-bit" (world st) in
  {| sc := sc st; world := w; logs := log_error err (logs st) |}.

Inductive go_step : goroutine -> state W -> goroutine -> state W -> Prop :=
| go_ignore d q st : change d = None -> go_step (MkGoroutine Idle (d :: q)) st (MkGoroutine Idle q) st
| go_change d f q st :
    change d = Some f -> go_step (MkGoroutine Idle (d :: q)) st (MkGoroutine Changed q) (with_sc (f (sc st)) st)
| go_text q st st' text :
    config_text st = (st', text) -> go_step (MkGoroutine Changed q) st (MkGoroutine (HasText text) q) st'
| go_patch t q st : go_step (MkGoroutine (HasText t) q) st (MkGoroutine Patched q) (send t st)
| go_restart q st : go_step (MkGoroutine Patched q) st (MkGoroutine Idle q) (restart st).

Record system : Type := MkSystem { g_log : goroutine; g_cluster : goroutine; shared : state W }.

Inductive sys_step : system -> system -> Prop :=
| step_log g g' c st st' : go_step g st g' st' -> sys_step (MkSystem g c st) (MkSystem g' c st')
| step_cluster l g g' st st' : go_step g st g' st' -> sys_step (MkSystem l g st) (MkSystem l g' st').

Definition at_rest (s : system) : Prop := g_log s = MkGoroutine Idle [] /\ g_cluster s = MkGoroutine Idle [].

Lemma patchConfig_halves text st :
  patchConfig [MkPatch "replace" "/data/outputs.conf" text] st = restart (send text st).
Proof.
  unfold patchConfig, restart, send, json_Marshal. cbn [log_error].
  destruct (Patch _ _ _ _) as [w e]. cbn [world logs sc]. by destruct (DeleteCollection _ w).
Qed.

(** The state once the handler a goroutine is in the middle of has ended. *)
Definition finish (p : phase) (st : state W) : state W :=
  match p with
  | Idle => st
  | Changed => push_config st
  | HasText t => restart (send t st)
  | Patched => restart st
  end.

(** Alone, a goroutine runs the handlers of its queue. *)
Lemma go_step_handlers g st g' st' :
  go_step g st g' st' ->
  handle_all (queue g') (finish (at_phase g') st') = handle_all (queue g) (finish (at_phase g) st).
Proof.
  destruct 1 as [d q st Hd|d f q st Hd|q st st1 t Et|t q st|q st]; cbn [queue at_phase finish]; try done.
  - unfold handle_all. cbn [foldl]. by rewrite handle_change, Hd.
  - unfold handle_all. cbn [foldl]. by rewrite handle_change, Hd.
  - unfold push_config. rewrite Et. unfold outputs_patch. by rewrite patchConfig_halves.
Qed.

Lemma alone_log s s' :
  rtc sys_step s s' -> g_cluster s = MkGoroutine Idle [] ->
  g_cluster s' = MkGoroutine Idle []
  /\ handle_all (queue (g_log s')) (finish (at_phase (g_log s')) (shared s'))
     = handle_all (queue (g_log s)) (finish (at_phase (g_log s)) (shared s)).
Proof.
  induction 1 as [s|s s1 s' Hs _ IH]; intros Hc; [done|].
  destruct Hs as [g g' c st st' Hg|l g g' st st' Hg]; cbn in *.
  - destruct (IH Hc) as [? ->]. split; [done|]. by apply go_step_handlers.
  - subst g. inversion Hg.
Qed.

Lemma send_sc t st : sc (send t st) = sc st.
Proof. unfold send. by destruct (Patch _ _ _ _). Qed.

Lemma restart_sc st : sc (restart st) = sc st.
Proof. unfold restart. by destruct (DeleteCollection _ _). Qed.

Context `{HP : !PatchServer W}.

Lemma restart_outputs st : outputs_conf (world (restart st)) = outputs_conf (world st).
Proof.
  unfold restart, outputs_conf. pose proof (delete_pods_data (world st) "app=fluent-bit" ConfigMapName) as Hd.
  destruct (DeleteCollection _ _) as [w e]. cbn in *. by rewrite Hd.
Qed.

Lemma send_outputs t st :
  outputs_conf (world (send t st)) = outputs_conf (world st)
  \/ outputs_conf (world (send t st)) = Some (to_valid t).
Proof.
  unfold send, outputs_conf. destruct (Patch _ _ _ _) as [w [e|]] eqn:HPa; cbn [world].
  - left. by rewrite (patch_fails _ _ _ _ _ _ HPa).
  - right. destruct (patch_replaces _ _ _ _ "outputs.conf" (to_valid t) HPa) as (m & _ & _ & ->); [|done|].
    + by rewrite unmarshal_marshal_patches.
    + cbn. by rewrite lookup_insert_eq.
Qed.

(** A run with the states it goes through, the first and the last included. *)
Inductive goes_through (s0 : system) : list system -> system -> Prop :=
| through_start : goes_through s0 [s0] s0
| through_step tr s s' : goes_through s0 tr s -> sys_step s s' -> goes_through s0 (tr ++ [s']) s'.

Lemma goes_through_ends s0 tr s : goes_through s0 tr s -> s ∈ tr.
Proof. destruct 1 as [|tr s s' _ _]; [by left|]. apply elem_of_app. right. by left. Qed.

Lemma run_goes_through s0 s : rtc sys_step s0 s <-> exists tr, goes_through s0 tr s.
Proof.
  split.
  - revert s. apply rtc_ind_r; [exists [s0]; constructor|]. intros s s' _ Hs [tr Htr].
    exists (tr ++ [s']). by eapply through_step.
  - intros [tr Htr]. induction Htr as [|tr s s' _ IH Hs]; [done|]. by eapply rtc_r.
Qed.

(** A text of the configuration of one of the states. *)
Definition text_of_one (tr : list system) (t : string) : Prop :=
  exists s (R : MapRange), s ∈ tr /\ t = Config_String (sc (shared s)).

Definition phase_of_one (tr : list system) (p : phase) : Prop :=
  match p with HasText t => text_of_one tr t | _ => True end.

Definition outputs_of_one (st0 : state W) (tr : list system) (st : state W) : Prop :=
  outputs_conf (world st) = outputs_conf (world st0)
  \/ exists t, text_of_one tr t /\ outputs_conf (world st) = Some (to_valid t).

Lemma text_of_one_more tr tr' t : text_of_one tr t -> text_of_one (tr ++ tr') t.
Proof. intros (s & R & Hs & E). exists s, R. split; [|done]. apply elem_of_app. by left. Qed.

Lemma phase_of_one_more tr tr' p : phase_of_one tr p -> phase_of_one (tr ++ tr') p.
Proof. destruct p; cbn; [done..|apply text_of_one_more|done]. Qed.

Lemma go_step_text g st g' st' tr s :
  s ∈ tr -> shared s = st -> go_step g st g' st' -> phase_of_one tr (at_phase g) ->
  phase_of_one tr (at_phase g')
  /\ (outputs_conf (world st') = outputs_conf (world st)
      \/ exists t, text_of_one tr t /\ outputs_conf (world st') = Some (to_valid t)).
Proof.
  intros Hin Hst. destruct 1 as [d q st Hd|d f q st Hd|q st st1 t Et|t q st|q st]; cbn [at_phase phase_of_one]; intros Hp.
  - auto.
  - auto.
  - destruct (config_text_spec st) as (_ & _ & Em & R & Ec). rewrite Et in Em, Ec. cbn [fst snd] in Em, Ec. split.
    + exists s, R. by rewrite Hst.
    + left. unfold outputs_conf. by rewrite Em.
  - split; [done|]. destruct (send_outputs t st) as [->|Hout]; [by left|right; by exists t].
  - split; [done|]. left. apply restart_outputs.
Qed.

Lemma goes_through_text s0 tr s :
  at_phase (g_log s0) = Idle -> at_phase (g_cluster s0) = Idle -> goes_through s0 tr s ->
  outputs_of_one (shared s0) tr (shared s)
  /\ phase_of_one tr (at_phase (g_log s)) /\ phase_of_one tr (at_phase (g_cluster s)).
Proof.
  intros H1 H2. induction 1 as [|tr s s' Htr (Hout & Hl & Hc) Hs].
  { split_and!; [by left|by rewrite H1|by rewrite H2]. }
  pose proof (goes_through_ends _ _ _ Htr) as Hin.
  destruct Hs as [g g' c st st' Hg|l g g' st st' Hg]; cbn [shared g_log g_cluster] in *;
    destruct (go_step_text _ _ _ _ tr _ Hin eq_refl Hg ltac:(assumption)) as [Hp Ho];
    (split_and!; [|by apply phase_of_one_more..]); unfold outputs_of_one in *; cbn [shared] in *.
  all: destruct Ho as [Ho|(t & Ht & Ho)]; [|right; exists t; split; [by apply text_of_one_more|done]].
  all: destruct Hout as [Hout|(t & Ht & Hout)];
    [left; congruence|right; exists t; split; [by apply text_of_one_more|congruence]].
Qed.

End Interleaving.

(** ** Objects without newlines *)

Section Printable.

Definition api_ok (a : api) : bool :=
  forallb (fun s => meta_ok (ls_ObjectMeta s) && spec_ok (ls_Spec s)) (map_to_list (api_sinks a)).*2
  && forallb (fun s => str_forall not_nl (Name (cls_ObjectMeta s)) && spec_ok (cls_Spec s))
       (map_to_list (api_cluster_sinks a)).*2.

Lemma forallb_perm {A} (p : A -> bool) l1 l2 : l1 ≡ₚ l2 -> forallb p l1 = forallb p l2.
Proof.
  intros Hp. apply eq_true_iff_eq. rewrite !forallb_forall.
  split; intros Hall x Hx; apply Hall; [by apply (Permutation_in _ (Permutation_sym Hp))|by apply (Permutation_in _ Hp)].
Qed.

Lemma mirror_forallb {A} (id : A -> string * string) (spec : A -> SinkSpec) (p : A -> bool) m st :
  mirror id spec m st -> (forall x y, same_output id spec x y -> p x = p y) ->
  forallb p (values m) = forallb p (map_to_list st).*2.
Proof.
  intros Hm Hp. destruct (mirror_elements _ _ m st Hm) as (l & l' & Hl & Hl' & Hs). unfold values.
  rewrite (forallb_perm _ _ _ Hl), (forallb_perm _ _ _ Hl'). clear Hl Hl'.
  induction Hs as [|x y l l' Hxy _ IH]; cbn; [done|]. by rewrite (Hp _ _ Hxy), IH.
Qed.

Lemma represents_ok c a : represents c a -> config_ok c = api_ok a.
Proof.
  intros [Hs Hc]. unfold config_ok, api_ok. f_equal.
  - apply (mirror_forallb _ _ _ _ _ Hs). intros x y [Hid Hsp]. unfold sink_id in Hid. injection Hid as Hns Hname.
    unfold meta_ok. by rewrite Hns, Hname, Hsp.
  - apply (mirror_forallb _ _ _ _ _ Hc). intros x y [Hid Hsp]. unfold cluster_sink_id in Hid.
    injection Hid as Hcl Hname. by rewrite Hname, Hsp.
Qed.

End Printable.

(** Controllers that start empty, after a history without a failed call. *)
Lemma outputs_written {W} `{PatchServer W} `{U : UnicodeTables} `{S : SliceSort} ds a (st : state W) :
  api_run api_empty ds a -> api_ok a = true -> sc st = NewConfig ->
  Exists (fun d => is_Some (change d)) ds -> logs (handle_all ds st) = logs st ->
  exists text ps, outputs_conf (world (handle_all ds st)) = Some (to_valid text)
    /\ Parse EmptyString text =
       Ok (Ok {| FName := EmptyString; Sections := Section_zero :: map plugin_section ps |})
    /\ ps ≡ₚ api_plugins a.
Proof.
  intros Hrun Hok Hst Hex Hlog. pose proof (handle_all_synced ds st Hex Hlog) as Hsync.
  destruct Hsync as [R Hsync]. rewrite handle_all_sc, Hst in Hsync.
  pose proof (represents_run _ _ _ _ represents_empty Hrun) as Hrep.
  eexists _, _. split_and!; [exact Hsync| |].
  - apply Parse_written. by rewrite (represents_ok _ _ Hrep).
  - rewrite written_perm. by apply represents_plugins.
Qed.

(** ** Properties *)

(** End to end: the informers report any history of the sink objects to
    controllers that start with an empty configuration.  If something changed
    and no call failed, the outputs.conf that fluent-bit reads parses to one
    output section for each sink that exists now, and no other, in some
    order. *)
Lemma outputs_follow_cluster {W} `{PatchServer W} `{U : UnicodeTables} `{S : SliceSort}
    ds a (st : state W) :
  api_run api_empty ds a -> api_ok a = true -> sc st = NewConfig ->
  Exists (fun d => is_Some (change d)) ds -> logs (handle_all ds st) = logs st ->
  exists text ps, outputs_conf (world (handle_all ds st)) = Some (to_valid text)
    /\ Parse EmptyString text =
       Ok (Ok {| FName := EmptyString; Sections := Section_zero :: map plugin_section ps |})
    /\ ps ≡ₚ api_plugins a.
Proof. apply outputs_written. Qed.

(** After any history of the sink objects the configuration
    the controllers keep holds, for each namespace and name, a sink exactly
    when the object exists, with the same spec; whatever the calls answered. *)
Lemma controllers_refine_api {W} `{KubeWorld W} `{S : SliceSort} ds a (st : state W) i :
  api_run api_empty ds a -> sc st = NewConfig -> bar_free i ->
  option_Forall2 (same_output sink_id ls_Spec) (sink_at (sc (handle_all ds st)) i) (api_sinks a !! i)
  /\ option_Forall2 (same_output cluster_sink_id cls_Spec)
       (cluster_sink_at (sc (handle_all ds st)) i) (api_cluster_sinks a !! i)
  /\ config_wf (sc (handle_all ds st)).
Proof.
  intros Hrun Hst Hi. rewrite handle_all_sc, Hst.
  destruct (represents_run _ _ _ _ represents_empty Hrun) as [Hs Hc]. split_and!.
  - by apply (mirror_at Hs).
  - by apply (mirror_at Hc).
  - split.
    + intros k s Hk. rewrite key_id. by destruct (mirror_key Hs _ _ Hk).
    + intros k s Hk. rewrite clusterKey_id. by destruct (mirror_key Hc _ _ Hk).
Qed.

(** A deletion that the informer missed is reported by its tombstone, and
    the handlers ignore it: the state does not change, so after a history that
    ends with such a deletion the configuration still writes the outputs of
    the sink that is gone. *)
Lemma missed_deletion_keeps_outputs {W} `{KubeWorld W} `{S : SliceSort}
    ds a (st : state W) s k :
  api_run api_empty ds a -> sc st = NewConfig -> api_sinks a !! sink_id s = Some s ->
  let st' := handle_all (ds ++ [LogDelete (DeletedFinalState k (ALogSink s))]) st in
  st' = handle_all ds st
  /\ forall p, p ∈ log_sink_plugins s -> p ∈ config_plugins (sc st').
Proof.
  intros Hrun Hst Hs. cbn zeta. rewrite handle_all_snoc. cbn [handle Controller_OnDelete]. split; [done|].
  intros p Hp. rewrite handle_all_sc, Hst.
  rewrite (represents_plugins _ _ (represents_run _ _ _ _ represents_empty Hrun)).
  unfold api_plugins. destruct (_ =? 0)%nat eqn:E.
  - apply Nat.eqb_eq in E. assert (size (api_sinks a) = 0) as Hz by lia.
    apply map_size_empty_iff in Hz. by rewrite Hz in Hs.
  - apply elem_of_app. left. apply list_elem_of_In, in_flat_map. exists s. split; [|by apply list_elem_of_In].
    apply list_elem_of_In, list_elem_of_fmap. exists (sink_id s, s). split; [done|]. by apply elem_of_map_to_list.
Qed.

(** With reports of one kind only, however the steps go, the system that
    comes to rest is in the state the handlers give one after the other. *)
Lemma one_goroutine_is_sequential {W} `{KubeWorld W} `{S : SliceSort} ds (st : state W) s :
  rtc sys_step (MkSystem (MkGoroutine Idle ds) (MkGoroutine Idle []) st) s -> at_rest s ->
  shared s = handle_all ds st.
Proof.
  intros Hrun [Hl _]. destruct (alone_log _ _ Hrun eq_refl) as [_ E]. by rewrite Hl in E.
Qed.

(** C21: With both goroutines at work, in every state that a run comes to, the
    outputs.conf is either the one the run started with or a text of the
    configuration in one of the states this very run has gone through: never a
    mixture of two, nor of anything that was not the configuration then. *)
Theorem outputs_never_mixed {W} `{KubeWorld W} `{!PatchServer W} `{S : SliceSort} ls cs (st : state W) tr s :
  goes_through (MkSystem (MkGoroutine Idle ls) (MkGoroutine Idle cs) st) tr s ->
  outputs_conf (world (shared s)) = outputs_conf (world st)
  \/ exists s1 (R : MapRange), s1 ∈ tr
       /\ outputs_conf (world (shared s)) = Some (to_valid (Config_String (sc (shared s1)))).
Proof.
  intros Htr. destruct (goes_through_text (MkSystem (MkGoroutine Idle ls) (MkGoroutine Idle cs) st) tr s eq_refl eq_refl Htr) as [[Ho|(t & (s1 & R & Hs1 & ->) & Ho)] _];
    [by left|right; by exists s1, R].
Qed.

(** ** The race between the goroutines *)

Definition race_start : @system server :=
  {| g_log := MkGoroutine Idle [LogAdd (ALogSink (sample_sink "ns1" "a" (syslog_spec "a.example.com" 514 false false)))];
     g_cluster := MkGoroutine Idle
       [ClusterAdd (AClusterLogSink (sample_cluster_sink "all" (syslog_spec "c.example.com" 514 false false)))];
     shared := sample_state |}.

(** The goroutine that takes its text first sends it last. *)
Lemma race_run :
  exists s, rtc (@sys_step _ _ insertion_slice_sort) race_start s
    /\ at_rest s /\ logs (shared s) = []
    /\ outputs_conf (world (shared s)) <> Some (to_valid (@Config_String map_order insertion_slice_sort (sc (shared s))))
    /\ section_names <$> outputs_conf (world (shared s)) = Some [EmptyString; "OUTPUT"]
    /\ List.length (config_plugins (sc (shared s))) = 2
    /\ config_wf (sc (shared s)) /\ config_named (sc (shared s))
    /\ List.length (webhooks ls_Spec (sinks (sc (shared s)))) <= 1
    /\ List.length (webhooks cls_Spec (clusterSinks (sc (shared s)))) <= 1.
Proof.
  eexists. split.
  - unfold race_start.
    eapply rtc_l; [apply step_log, go_change; reflexivity|].
    eapply rtc_l; [apply step_log, go_text; reflexivity|].
    eapply rtc_l; [apply step_cluster, go_change; reflexivity|].
    eapply rtc_l; [apply step_cluster, go_text; reflexivity|].
    eapply rtc_l; [apply step_cluster, go_patch|].
    eapply rtc_l; [apply step_cluster, go_restart|].
    eapply rtc_l; [apply step_log, go_patch|].
    eapply rtc_l; [apply step_log, go_restart|].
    apply rtc_refl.
  - split; [by split|]. split; [vm_compute; reflexivity|]. split; [vm_compute; discriminate|].
    split; [vm_compute; reflexivity|]. split; [vm_compute; reflexivity|].
    split; [apply UpsertClusterSink_wf, UpsertSink_wf, NewConfig_wf|].
    split; [|split; vm_compute; lia].
    split; [by apply map_Forall_insert_2; [|apply map_Forall_empty]|].
    exists EmptyString. by apply map_Forall_insert_2; [|apply map_Forall_empty].
Qed.

(** C19: The handlers of the two goroutines can come to rest, every call having
    succeeded, with an outputs.conf that is not the text of the configuration,
    in whatever order it is taken: the goroutine that took its text first sends
    it last. *)
Theorem race_leaves_stale_outputs :
  exists s, rtc (@sys_step _ _ insertion_slice_sort) race_start s
    /\ at_rest s /\ logs (shared s) = []
    /\ (forall R, outputs_conf (world (shared s))
                  <> Some (to_valid (@Config_String R insertion_slice_sort (sc (shared s)))))
    /\ section_names <$> outputs_conf (world (shared s)) = Some [EmptyString; "OUTPUT"]
    /\ List.length (config_plugins (sc (shared s))) = 2.
Proof.
  destruct race_run as (s & Hrun & Hrest & Hlog & Hne & Hsec & Hlen & Hwf & Hnamed & H1 & H2).
  exists s. split_and!; try done. intros R.
  by rewrite (Config_String_order R map_order insertion_slice_sort insertion_slice_sort _ Hwf Hnamed H1 H2).
Qed.

(** ** Witnesses *)

Definition sample_a : LogSink := sample_sink "ns1" "a" (syslog_spec "a.example.com" 514 false false).
Definition sample_a' : LogSink := sample_sink "ns1" "a" (webhook_spec "https://example.com" false).
Definition sample_c : ClusterLogSink := sample_cluster_sink "all" (syslog_spec "c.example.com" 514 true false).

Definition sample_api : api :=
  {| api_sinks := {[("ns1", "a") := sample_a']}; api_cluster_sinks := {[(EmptyString, "all") := sample_c]} |}.

Lemma sample_run : api_run api_empty sample_reports sample_api.
Proof.
  eapply api_cons; [by apply log_added|].
  eapply api_cons; [by apply log_updated|].
  eapply api_cons; [by apply cluster_added|].
  match goal with |- api_run ?x _ ?y => replace x with y; [apply api_nil|] end.
  reflexivity.
Qed.

Lemma outputs_follow_cluster_witness :
  exists text ps,
    outputs_conf (world (@handle_all _ _ insertion_slice_sort sample_reports sample_state))
    = Some (to_valid text)
    /\ @Parse latin1_tables EmptyString text =
       Ok (Ok {| FName := EmptyString; Sections := Section_zero :: map plugin_section ps |})
    /\ ps ≡ₚ api_plugins sample_api.
Proof.
  apply (@outputs_follow_cluster _ _ _ latin1_tables insertion_slice_sort _ _ _ sample_run);
    [reflexivity|reflexivity|apply Exists_cons_hd; by eexists|vm_compute; reflexivity].
Defined.

Lemma controllers_refine_api_witness :
  option_Forall2 (same_output sink_id ls_Spec)
    (sink_at (sc (@handle_all _ _ insertion_slice_sort sample_reports sample_state)) ("ns1", "a"))
    (Some sample_a').
Proof.
  exact (proj1 (@controllers_refine_api _ _ insertion_slice_sort _ _ sample_state ("ns1", "a")
                  sample_run eq_refl eq_refl)).
Defined.

Lemma missed_deletion_keeps_outputs_witness :
  api_sinks sample_api !! sink_id sample_a' = Some sample_a'
  /\ let st' := @handle_all _ _ insertion_slice_sort
                  (sample_reports ++ [LogDelete (DeletedFinalState "ns1/a" (ALogSink sample_a'))]) sample_state in
     st' = @handle_all _ _ insertion_slice_sort sample_reports sample_state
     /\ forall p, p ∈ log_sink_plugins sample_a' -> p ∈ config_plugins (sc st').
Proof.
  split; [vm_compute; reflexivity|].
  apply (@missed_deletion_keeps_outputs _ _ insertion_slice_sort _ _ sample_state sample_a' "ns1/a" sample_run);
    vm_compute; reflexivity.
Defined.

Lemma one_goroutine_is_sequential_witness :
  exists s, rtc (@sys_step _ _ insertion_slice_sort)
              (MkSystem (MkGoroutine Idle [LogAdd (ALogSink sample_a)]) (MkGoroutine Idle []) sample_state) s
    /\ shared s = @handle_all _ _ insertion_slice_sort [LogAdd (ALogSink sample_a)] sample_state.
Proof.
  eexists. split.
  - eapply rtc_l; [apply step_log, go_change; reflexivity|].
    eapply rtc_l; [apply step_log, go_text; reflexivity|].
    eapply rtc_l; [apply step_log, go_patch|].
    eapply rtc_l; [apply step_log, go_restart|].
    apply rtc_refl.
  - apply (@one_goroutine_is_sequential _ _ insertion_slice_sort); [|done].
    eapply rtc_l; [apply step_log, go_change; reflexivity|].
    eapply rtc_l; [apply step_log, go_text; reflexivity|].
    eapply rtc_l; [apply step_log, go_patch|].
    eapply rtc_l; [apply step_log, go_restart|].
    apply rtc_refl.
Defined.

Lemma outputs_never_mixed_witness :
  exists tr s, @goes_through _ _ insertion_slice_sort race_start tr s /\ at_rest s
    /\ exists s1 R, s1 ∈ tr
         /\ outputs_conf (world (shared s)) = Some (to_valid (@Config_String R insertion_slice_sort (sc (shared s1)))).
Proof.
  destruct race_run as (s & [tr Htr]%run_goes_through & Hrest & _ & _ & Hsec & _). exists tr, s. split; [exact Htr|].
  split; [exact Hrest|].
  destruct (@outputs_never_mixed _ _ _ insertion_slice_sort _ _ sample_state tr s Htr) as [E|Hs]; [|exact Hs].
  exfalso. rewrite E in Hsec. vm_compute in Hsec. discriminate Hsec.
Defined.
