(* ===== verification/SinkLiveness.v ===== *)
(** * Liveness of the log sink controllers

    Every run of the two goroutines of [SinkSystem] ends, whatever the
    interleaving and whatever the calls answer, with every report handled and
    a configuration that does not depend on the interleaving; the text they
    sent last may be an old one, and the periodic resync of the informers
    ([NewSharedInformerFactory(client, time.Second*30)] in
    [cmd/sink-controller/main.go]) does not send a newer one. *)

From stdpp Require Import base gmap strings list relations.
From Stdlib Require Import Lia Wf_nat.
From S2P Require Import Prelude Utf8 GoStd GoJson Types SinkConfig SinkController SinkSystem.

(** ** Reports of one informer *)

Definition is_log (d : delivery) : bool :=
  match d with LogAdd _ | LogUpdate _ _ | LogDelete _ => true | _ => false end.

Definition is_cluster (d : delivery) : bool := negb (is_log d).

(** What the resync of an informer reports: an object that has not changed. *)
Definition is_resync (d : delivery) : Prop :=
  (exists s, d = LogUpdate (ALogSink s) (ALogSink s)) \/ (exists s, d = ClusterUpdate (AClusterLogSink s) (AClusterLogSink s)).

Lemma resync_ignored d : is_resync d -> change d = None.
Proof.
  intros [[s ->]|[s ->]]; cbn [change]; by rewrite (proj2 (SinkSpec_DeepEqual_eq _ _) eq_refl).
Qed.

(** A log report changes [sinks] only, a cluster report [clusterSinks]. *)
Lemma log_change d f : is_log d = true -> change d = Some f ->
  exists g, forall c, f c = {| sinks := g (sinks c); clusterSinks := clusterSinks c |}.
Proof.
  destruct d as [o|o n|o|o|o n|o]; try done; intros _; destruct o; cbn [change]; try discriminate;
    try (destruct n; try discriminate); try (destruct (SinkSpec_DeepEqual _ _); try discriminate);
    intros [= <-]; by eexists (fun m => _ m).
Qed.

Lemma cluster_change d f : is_cluster d = true -> change d = Some f ->
  exists g, forall c, f c = {| sinks := sinks c; clusterSinks := g (clusterSinks c) |}.
Proof.
  destruct d as [o|o n|o|o|o n|o]; try done; intros _; destruct o; cbn [change]; try discriminate;
    try (destruct n; try discriminate); try (destruct (SinkSpec_DeepEqual _ _); try discriminate);
    intros [= <-]; by eexists (fun m => _ m).
Qed.

Lemma changes_commute d e c :
  is_log d = true -> is_cluster e = true -> apply_change (apply_change c d) e = apply_change (apply_change c e) d.
Proof.
  intros Hd He. unfold apply_change. destruct (change d) as [f|] eqn:Ed, (change e) as [g|] eqn:Ee; try done.
  destruct (log_change d f Hd Ed) as [f' Hf], (cluster_change e g He Ee) as [g' Hg]. by rewrite !Hf, !Hg.
Qed.

Lemma change_past e ds c :
  Forall (fun d => is_log d = true) ds -> is_cluster e = true ->
  foldl apply_change (apply_change c e) ds = apply_change (foldl apply_change c ds) e.
Proof.
  intros Hds He. revert c. induction Hds as [|d ds Hd _ IH]; intros c; cbn [foldl]; [done|].
  by rewrite <- changes_commute, IH.
Qed.

Section Runs.
Context {W : Type} `{HW : KubeWorld W} `{S : SliceSort}.

(** ** Every run ends *)

(** The steps a goroutine has left, at most: four for each report. *)
Definition phase_left (p : phase) : nat :=
  match p with Idle => 0 | Changed => 3 | HasText _ => 2 | Patched => 1 end.
Definition left (g : goroutine) : nat := phase_left (at_phase g) + 4 * length (queue g).
Definition steps_left (s : system (W := W)) : nat := left (g_log s) + left (g_cluster s).

Lemma go_step_left g st g' st' : go_step g st g' st' -> left g' < left g.
Proof. destruct 1; unfold left; cbn [at_phase queue phase_left length]; lia. Qed.

Lemma sys_step_left s s' : sys_step s s' -> steps_left s' < steps_left s.
Proof. destruct 1 as [? ? ? ? ? H%go_step_left|? ? ? ? ? H%go_step_left]; unfold steps_left; cbn; lia. Qed.

Lemma sys_step_wf : well_founded (flip (sys_step (W := W))).
Proof. apply (well_founded_lt_compat _ steps_left). intros s s'. apply sys_step_left. Qed.

Lemma nsteps_left n s s' : nsteps sys_step n s s' -> n + steps_left s' <= steps_left s.
Proof. induction 1 as [|n s s1 s' Hs%sys_step_left _ IH]; lia. Qed.

(** ** A system that is not at rest has a step *)

Lemma go_step_exists g st : g <> MkGoroutine Idle [] -> exists g' st', go_step g st g' st'.
Proof.
  destruct g as [[| |t|] [|d q]]; intros Hne; try done.
  1: destruct (change d) as [f|] eqn:E; do 2 eexists; [by apply go_change|by apply go_ignore].
  1-2: destruct (config_text st) as [st' t] eqn:Et; do 2 eexists; by apply go_text.
  all: do 2 eexists; constructor.
Qed.

Lemma sys_step_exists s : ~ at_rest s <-> exists s', sys_step s s'.
Proof.
  destruct s as [g c st]. unfold at_rest. cbn. split.
  - intros Hn. destruct (decide (left g = 0 /\ left c = 0)) as [[Hg Hc]|Hd].
    + exfalso. apply Hn. destruct g as [[] []], c as [[] []]; unfold left in *; cbn in *; try lia; done.
    + destruct (decide (left g = 0)) as [Hg|Hg].
      * destruct (go_step_exists c st) as (c' & st' & Hs); [by intros ->; apply Hd|].
        eexists. by apply step_cluster.
      * destruct (go_step_exists g st) as (g' & st' & Hs); [by intros ->|]. eexists. by apply step_log.
  - intros [s' Hs] [Hg Hc]. subst. inversion Hs as [? ? ? ? ? Hgo|? ? ? ? ? Hgo]; subst; inversion Hgo.
Qed.

Lemma runs_to_rest s : exists s', rtc sys_step s s' /\ at_rest s'.
Proof.
  induction s as [s IH] using (well_founded_ind sys_step_wf).
  destruct (decide (steps_left s = 0)) as [Hz|Hz].
  - exists s. split; [apply rtc_refl|]. destruct s as [[[] []] [[] []] st]; unfold steps_left, left in Hz; cbn in Hz; try lia.
    done.
  - assert (~ at_rest s) as Hn by (intros [Hg Hc]; unfold steps_left in Hz; by rewrite Hg, Hc in Hz).
    apply sys_step_exists in Hn as [s1 Hs]. destruct (IH s1 Hs) as (s' & Hrun & Hrest).
    exists s'. split; [by eapply rtc_l|done].
Qed.

(** ** What the configuration ends as *)

Definition apart (s : system (W := W)) : Prop :=
  Forall (fun d => is_log d = true) (queue (g_log s)) /\ Forall (fun d => is_cluster d = true) (queue (g_cluster s)).

(** The configuration once the reports that are left are applied. *)
Definition ends_as (s : system (W := W)) : Config :=
  foldl apply_change (sc (shared s)) (queue (g_log s) ++ queue (g_cluster s)).

(** A step of a goroutine applies at most the first report it has. *)
Lemma go_step_applies g st g' st' :
  go_step g st g' st' ->
  (queue g' = queue g /\ sc st' = sc st) \/ exists d, queue g = d :: queue g' /\ sc st' = apply_change (sc st) d.
Proof.
  destruct 1 as [d q st Hd|d f q st Hd|q st st1 t Et|t q st|q st]; cbn [queue].
  - right. exists d. split; [done|]. unfold apply_change. by rewrite Hd.
  - right. exists d. split; [done|]. unfold apply_change. by rewrite Hd.
  - left. split; [done|]. pose proof (config_text_sc st) as E. by rewrite Et in E.
  - left. split; [done|]. apply send_sc.
  - left. split; [done|]. apply restart_sc.
Qed.

Lemma sys_step_ends s s' : sys_step s s' -> apart s -> apart s' /\ ends_as s' = ends_as s.
Proof.
  destruct 1 as [g g' c st st' Hg|l g g' st st' Hg]; unfold apart, ends_as; cbn [g_log g_cluster shared]; intros [H1 H2];
    destruct (go_step_applies _ _ _ _ Hg) as [[Eq Es]|(d & Eq & Es)]; rewrite Es.
  - by rewrite Eq.
  - rewrite Eq in H1 |- *. by inversion H1.
  - by rewrite Eq.
  - rewrite Eq in H2 |- *. inversion H2 as [|? ? Hd H2']; subst. split; [done|].
    rewrite !foldl_app. cbn [foldl]. by rewrite change_past.
Qed.

Lemma run_ends s s' : rtc sys_step s s' -> apart s -> apart s' /\ ends_as s' = ends_as s.
Proof.
  induction 1 as [s|s s1 s' Hs _ IH]; intros Ha; [done|]. destruct (sys_step_ends _ _ Hs Ha) as [Ha1 <-]. by apply IH.
Qed.

(** ** Reports that change nothing *)

Definition no_changes (s : system (W := W)) : Prop :=
  at_phase (g_log s) = Idle /\ at_phase (g_cluster s) = Idle
  /\ Forall (fun d => change d = None) (queue (g_log s) ++ queue (g_cluster s)).

Lemma go_step_ignores g st g' st' :
  go_step g st g' st' -> at_phase g = Idle -> Forall (fun d => change d = None) (queue g) ->
  st' = st /\ at_phase g' = Idle /\ Forall (fun d => change d = None) (queue g').
Proof.
  destruct 1 as [d q st Hd|d f q st Hd|q st st1 t Et|t q st|q st]; cbn [at_phase queue]; intros Hp Hf; try done.
  - by inversion Hf.
  - inversion Hf; congruence.
Qed.

Lemma ignored_run s s' : rtc sys_step s s' -> no_changes s -> shared s' = shared s.
Proof.
  induction 1 as [s|s s1 s' Hs _ IH]; intros (Hl & Hc & [Hf1 Hf2]%Forall_app); [done|].
  destruct Hs as [g g' c st st' Hg|l g g' st st' Hg]; cbn in *.
  - destruct (go_step_ignores _ _ _ _ Hg Hl Hf1) as (-> & ? & ?). apply IH. split_and!; [done..|]. by apply Forall_app.
  - destruct (go_step_ignores _ _ _ _ Hg Hc Hf2) as (-> & ? & ?). apply IH. split_and!; [done..|]. by apply Forall_app.
Qed.

End Runs.

(** ** Properties *)

(** C13: Liveness: whatever the interleaving and whatever the calls answer, the
    two goroutines take at most four steps for each report, a system that
    cannot step is at rest and one at rest cannot step, from every state of a
    run it is possible to come to rest, and a system at rest has handled every
    report: its configuration is that of all the changes, whatever the order
    the goroutines ran in. *)
Theorem every_report_handled {W} `{KubeWorld W} `{S : SliceSort} ls cs (st : state W) :
  Forall (fun d => is_log d = true) ls -> Forall (fun d => is_cluster d = true) cs ->
  let s0 := MkSystem (MkGoroutine Idle ls) (MkGoroutine Idle cs) st in
  (forall n s, nsteps sys_step n s0 s -> n <= 4 * (length ls + length cs))
  /\ (forall s, rtc sys_step s0 s ->
       (~ at_rest s <-> exists s', sys_step s s')
       /\ (exists s', rtc sys_step s s' /\ at_rest s')
       /\ (at_rest s -> sc (shared s) = foldl apply_change (sc st) (ls ++ cs))).
Proof.
  intros Hls Hcs s0. split.
  - intros n s Hn%nsteps_left. unfold steps_left at 2 in Hn. cbn in Hn. unfold left in Hn. cbn [at_phase queue phase_left] in Hn. lia.
  - intros s Hrun. split; [apply sys_step_exists|]. split; [apply runs_to_rest|]. intros [Hg Hc].
    destruct (run_ends _ _ Hrun) as [_ E]; [by split|]. unfold ends_as in E. rewrite Hg, Hc in E. exact E.
Qed.

(** The resync of the informers repairs nothing: from a system whose
    goroutines are between reports and whose reports are all of objects that
    have not changed, no run changes the configuration, the cluster or the log,
    however often the objects are reported. *)
Lemma resync_repairs_nothing {W} `{KubeWorld W} `{S : SliceSort} ls cs (st : state W) s :
  Forall is_resync (ls ++ cs) ->
  rtc sys_step (MkSystem (MkGoroutine Idle ls) (MkGoroutine Idle cs) st) s -> shared s = st.
Proof.
  intros Hf Hrun. apply (ignored_run _ _ Hrun). split; [done|]. split; [done|]. cbn.
  eapply Forall_impl; [exact Hf|]. intros d. apply resync_ignored.
Qed.

(** ** Witnesses *)

Lemma every_report_handled_witness :
  exists s', rtc (@sys_step _ _ insertion_slice_sort) race_start s' /\ at_rest s'.
Proof.
  assert (Forall (fun d => is_log d = true) (queue (g_log race_start))) as Hl by by repeat constructor.
  assert (Forall (fun d => is_cluster d = true) (queue (g_cluster race_start))) as Hc by by repeat constructor.
  destruct (@every_report_handled _ _ insertion_slice_sort _ _ sample_state Hl Hc) as [_ Hrest].
  exact (proj1 (proj2 (Hrest race_start (rtc_refl _ _)))).
Defined.

Definition resync_a : delivery := LogUpdate (ALogSink sample_a) (ALogSink sample_a).

Lemma resync_repairs_nothing_witness :
  exists s, rtc (@sys_step _ _ insertion_slice_sort)
              (MkSystem (MkGoroutine Idle [resync_a]) (MkGoroutine Idle []) sample_state) s
    /\ at_rest s /\ shared s = sample_state.
Proof.
  exists (MkSystem (MkGoroutine Idle []) (MkGoroutine Idle []) sample_state).
  assert (rtc (@sys_step _ _ insertion_slice_sort)
            (MkSystem (MkGoroutine Idle [resync_a]) (MkGoroutine Idle []) sample_state)
            (MkSystem (MkGoroutine Idle []) (MkGoroutine Idle []) sample_state)) as Hrun.
  { apply rtc_once, step_log, go_ignore. by vm_compute. }
  split; [exact Hrun|]. split; [by split|].
  refine (@resync_repairs_nothing _ _ insertion_slice_sort [resync_a] [] sample_state _ _ Hrun).
  cbn [app]. apply Forall_cons_2; [left; by exists sample_a|apply Forall_nil_2].
Defined.
