(* ===== verification/MetricConfig.v ===== *)
(** * The telegraf configuration of the cluster ([pkg/metric/cluster_config.go])

    [ClusterConfig] holds the cluster metric sinks by name;
    [ClusterConfig_String] merges their inputs with the default ones and
    writes them as TOML.  [append] may write into an array that the default
    inputs share, so slices are modelled as such: a [slice] is an array, a
    length and a capacity, and the arrays live in a heap.  The growth of an
    array is the class [SliceGrow].  The TOML encoder is a vendored library:
    it is the parameter [Encode]. *)

From stdpp Require Import base gmap strings list.
From S2P Require Import Prelude GoStd Types.

Definition emptyConfig : string := "[inputs]

  [[inputs.cpu]]

[outputs]

  [[outputs.discard]]
".

(** ** Slices of maps *)

(** [map[string]interface{}]; [None] is the nil map. *)
Definition row : Type := option (gmap string any).

Record slice : Type := MkSlice { s_array : nat; s_len : nat; s_cap : nat }.

Definition nil_slice : slice := {| s_array := 0; s_len := 0; s_cap := 0 |}.

Notation heap := (gmap nat (list row)).

Definition array (h : heap) (a : nat) : list row := default [] (h !! a).

(** The elements of a slice. *)
Definition read (h : heap) (s : slice) : list row := take (s_len s) (array h (s_array s)).

(** The capacity of the array [append] allocates for [n] elements. *)
Class SliceGrow := { grow : nat -> nat; grow_enough : forall n, n <= grow n }.

Definition double : SliceGrow :=
  {| grow := fun n => n + n; grow_enough := fun n => Nat.le_add_r n n |}.

(** The append of one element. *)
Definition go_append `{SliceGrow} (h : heap) (s : slice) (x : row) : heap * slice :=
  if (s_len s <? s_cap s)%nat then
    (<[s_array s := <[s_len s := x]> (array h (s_array s))]> h,
     {| s_array := s_array s; s_len := S (s_len s); s_cap := s_cap s |})
  else
    let c := grow (S (s_len s)) in
    let a := fresh (dom h) in
    (<[a := read h s ++ x :: replicate (c - S (s_len s)) None]> h,
     {| s_array := a; s_len := S (s_len s); s_cap := c |}).

(** A composite literal [[]T{...}]: a new array that is full. *)
Definition new_slice (h : heap) (l : list row) : heap * slice :=
  let a := fresh (dom h) in
  (<[a := l]> h, {| s_array := a; s_len := List.length l; s_cap := List.length l |}).

(** ** The configuration *)

(** The maps of [telegrafConfig] as the encoder reads them. *)
Record telegrafConfig : Type := MkTelegrafConfig {
  GlobalTags : option (gmap string string);
  t_Inputs : gmap string (list row);
  t_Outputs : gmap string (list row);
}.

Record ClusterConfig : Type := MkClusterConfig {
  defaultInputs : gmap string slice;
  clusterName : string;
  clusterSinks : gmap string ClusterMetricSink;
}.

(** A modifier changes the configuration, and may allocate. *)
Definition ModifierFunc : Type := heap * ClusterConfig -> heap * ClusterConfig.

Definition insecure_row : row := Some {["url" := AString "http://127.0.0.1:10255"]}.

Definition secure_row : row :=
  Some (<["bearer_token" := AString "/var/run/secrets/kubernetes.io/serviceaccount/token"]>
          (<["insecure_skip_verify" := ABool true]> {["url" := AString "https://127.0.0.1:10250"]})).

Definition KubernetesDefault (insecurePort : bool) : ModifierFunc := fun '(h, c) =>
  let '(h, s) := if insecurePort then new_slice h [insecure_row] else new_slice h [secure_row] in
  (h, {| defaultInputs := <["kubernetes" := s]> (defaultInputs c);
         clusterName := clusterName c; clusterSinks := clusterSinks c |}).

Definition NewConfig (h : heap) (name : string) (modifiers : list ModifierFunc) : heap * ClusterConfig :=
  let c := {| clusterSinks := ∅; clusterName := name; defaultInputs := ∅ |} in
  foldl (fun hc m => m hc) (h, c) modifiers.

Definition UpsertSink (cms : ClusterMetricSink) (c : ClusterConfig) : ClusterConfig :=
  {| defaultInputs := defaultInputs c; clusterName := clusterName c;
     clusterSinks := <[Name (cms_ObjectMeta cms) := cms]> (clusterSinks c) |}.

Definition DeleteSink (cms : ClusterMetricSink) (c : ClusterConfig) : ClusterConfig :=
  {| defaultInputs := defaultInputs c; clusterName := clusterName c;
     clusterSinks := delete (Name (cms_ObjectMeta cms)) (clusterSinks c) |}.

Section Text.
Context `{R : MapRange} `{G : SliceGrow} (Encode : telegrafConfig -> res string string).

(** The text, and what is printed to the log. *)
Definition telegrafConfig_String (t : telegrafConfig) : string * list string :=
  if (size (t_Inputs t) =? 0)%nat || (size (t_Outputs t) =? 0)%nat then (emptyConfig, [])
  else match Encode t with
       | Err err => (EmptyString, [Sprintf "Unable to encode telegraf config: %s" [FStr err]])
       | Ok text => (text, [])
       end.

Definition copyInputs (input : gmap string slice) : gmap string slice :=
  map_loop (fun _ v => Some v) (range 0 input).

(** The body of the two loops of [appendInputsAndOutputs]: [m] is
    [config.Inputs] or [config.Outputs]. *)
Definition append_row (hm : heap * gmap string slice) (input : MetricSinkMap) : heap * gmap string slice :=
  let '(h, m) := hm in
  match default ∅ input !! "type" with
  | Some (AString t) =>
      let newInputs := map_loop (fun k v => if negb (String.eqb k "type") then Some v else None)
                                (range 1 (default ∅ input)) in
      let '(h, s) := go_append h (default nil_slice (m !! t)) (Some newInputs) in
      (h, <[t := s]> m)
  | _ => (h, m)
  end.

(** The maps of the configuration that is being built. *)
Record building : Type := MkBuilding { b_heap : heap; b_Inputs : gmap string slice; b_Outputs : gmap string slice }.

Definition appendInputsAndOutputs (config : building) (inputs outputs : list MetricSinkMap) : building :=
  let '(h, ins) := foldl append_row (b_heap config, b_Inputs config) inputs in
  let '(h, outs) := foldl append_row (h, b_Outputs config) outputs in
  {| b_heap := h; b_Inputs := ins; b_Outputs := outs |}.

(** The ranges of one call visit their maps in the orders [R]. *)
Definition ClusterConfig_String (h : heap) (c : ClusterConfig) : heap * (string * list string) :=
  let tConfig := {| b_heap := h; b_Inputs := copyInputs (defaultInputs c); b_Outputs := ∅ |} in
  let tags := if negb (String.eqb (clusterName c) EmptyString)
              then Some {["cluster_name" := clusterName c]} else None in
  let tConfig := foldl (fun t '(_, cms) =>
                          appendInputsAndOutputs t (default [] (Inputs (cms_Spec cms)))
                                                   (default [] (Outputs (cms_Spec cms))))
                       tConfig (range 2 (clusterSinks c)) in
  (b_heap tConfig,
   telegrafConfig_String {| GlobalTags := tags;
                            t_Inputs := read (b_heap tConfig) <$> b_Inputs tConfig;
                            t_Outputs := read (b_heap tConfig) <$> b_Outputs tConfig |}).

End Text.

(** ** What the text is made of *)

(** The type of an input or output and its options; none without a string
    type. *)
Definition plugin_of (m : MetricSinkMap) : option (string * row) :=
  match default ∅ m !! "type" with
  | Some (AString t) => Some (t, Some (delete "type" (default ∅ m)))
  | _ => None
  end.

(** The rows of type [t]. *)
Definition rows_of (t : string) (l : list MetricSinkMap) : list row :=
  omap (fun m => '(t', r) ← plugin_of m; if String.eqb t t' then Some r else None) l.

(** ** Slices that append cannot confuse *)

Definition slice_in (h : heap) (s : slice) : Prop :=
  s_len s <= s_cap s /\ is_Some (h !! s_array s) /\ List.length (array h (s_array s)) = s_cap s.

(** Slices with room own their array, which is not one of [h0]; the arrays of
    [h0] are as they were. *)
Record separate {I : Type} (h0 h : heap) (lk : I -> option slice) : Prop := {
  sep_in : forall i s, lk i = Some s -> slice_in h s;
  sep_room : forall i s, lk i = Some s -> s_len s < s_cap s ->
    h0 !! s_array s = None /\ forall j s', lk j = Some s' -> s_array s' = s_array s -> j = i;
  sep_frozen : forall a r, h0 !! a = Some r -> h !! a = Some r;
}.

Definition content {I : Type} (h : heap) (lk : I -> option slice) (i : I) : list row :=
  read h (default nil_slice (lk i)).

Lemma array_insert_ne h a b l : a <> b -> array (<[a := l]> h) b = array h b.
Proof. intros Hne. unfold array. by rewrite lookup_insert_ne. Qed.

Lemma array_insert h a l : array (<[a := l]> h) a = l.
Proof. unfold array. by rewrite lookup_insert_eq. Qed.

Lemma read_length h s : slice_in h s -> List.length (read h s) = s_len s.
Proof. intros (Hl & _ & Ha). unfold read. rewrite length_take. unfold array in *. lia. Qed.

Lemma read_nil h : read h nil_slice = [].
Proof. done. Qed.

Lemma slice_in_insert h s a l :
  slice_in h s -> (s_array s = a -> List.length l = s_cap s) -> slice_in (<[a := l]> h) s.
Proof.
  intros (Hl & Hs & Ha) Hlen. destruct (decide (s_array s = a)) as [E|Hne].
  - split; [done|]. rewrite E, lookup_insert_eq, array_insert. split; [by eexists|by apply Hlen].
  - split; [done|]. by rewrite lookup_insert_ne, array_insert_ne by congruence.
Qed.

Section Append.
Context {I : Type} `{EqDecision I} `{G : SliceGrow}.

Lemma append_in_place h0 h (lk lk' : I -> option slice) i s x :
  separate h0 h lk -> lk i = Some s -> s_len s < s_cap s ->
  let h' := <[s_array s := <[s_len s := x]> (array h (s_array s))]> h in
  let s' := {| s_array := s_array s; s_len := S (s_len s); s_cap := s_cap s |} in
  lk' i = Some s' -> (forall j, j <> i -> lk' j = lk j) ->
  separate h0 h' lk' /\ content h' lk' i = content h lk i ++ [x]
  /\ forall j, j <> i -> content h' lk' j = content h lk j.
Proof.
  intros Hsep Hi Hroom h' s' Hi' Hother.
  destruct (sep_room _ _ _ Hsep i s Hi Hroom) as [Hfree Hown].
  destruct (sep_in _ _ _ Hsep i s Hi) as (Hlen & Hs & Hcap).
  assert (forall j r, j <> i -> lk j = Some r -> s_array r <> s_array s) as Hdiff.
  { intros j r Hj Hr E. by apply Hj, (Hown j r). }
  split_and!.
  - split.
    + intros j r Hr. destruct (decide (j = i)) as [->|Hj].
      * rewrite Hi' in Hr. injection Hr as <-. split; [cbn; lia|]. cbn. unfold h'.
        rewrite lookup_insert_eq, array_insert, length_insert. split; [by eexists|done].
      * rewrite Hother in Hr by done. apply slice_in_insert; [by apply (sep_in _ _ _ Hsep j)|].
        intros E. by destruct (Hdiff j r Hj Hr).
    + intros j r Hr Hrr. destruct (decide (j = i)) as [->|Hj].
      * rewrite Hi' in Hr. injection Hr as <-. cbn in *. split; [done|].
        intros k q Hq E. destruct (decide (k = i)) as [|Hk]; [done|]. rewrite Hother in Hq by done.
        by destruct (Hdiff k q Hk Hq).
      * rewrite Hother in Hr by done. destruct (sep_room _ _ _ Hsep j r Hr Hrr) as [Hf Ho]. split; [done|].
        intros k q Hq E. destruct (decide (k = i)) as [->|Hk].
        -- rewrite Hi' in Hq. injection Hq as <-. cbn in E. by destruct (Hdiff j r Hj Hr).
        -- rewrite Hother in Hq by done. by apply (Ho k q).
    + intros a r Ha. unfold h'. rewrite lookup_insert_ne; [by apply (sep_frozen _ _ _ Hsep)|congruence].
  - unfold content. rewrite Hi, Hi'. unfold read, s', h'. cbn [default from_option id s_len s_array].
    rewrite array_insert. rewrite (take_S_r _ _ x); [by rewrite take_insert_ge|].
    apply list_lookup_insert_eq. rewrite Hcap. lia.
  - intros j Hj. unfold content. rewrite Hother by done. destruct (lk j) as [r|] eqn:Hr; [|done].
    cbn [default from_option id]. unfold read, h'. rewrite array_insert_ne; [done|]. intros E. by destruct (Hdiff j r Hj Hr).
Qed.

Lemma append_fresh h0 h (lk lk' : I -> option slice) i x :
  separate h0 h lk ->
  let s := default nil_slice (lk i) in
  let c := grow (S (s_len s)) in
  let a := fresh (dom h) in
  let h' := <[a := read h s ++ x :: replicate (c - S (s_len s)) None]> h in
  let s' := {| s_array := a; s_len := S (s_len s); s_cap := c |} in
  lk' i = Some s' -> (forall j, j <> i -> lk' j = lk j) ->
  separate h0 h' lk' /\ content h' lk' i = content h lk i ++ [x]
  /\ forall j, j <> i -> content h' lk' j = content h lk j.
Proof.
  intros Hsep s c a h' s' Hi' Hother.
  assert (h !! a = None) as Ha by (apply not_elem_of_dom, is_fresh).
  assert (List.length (read h s) = s_len s) as Hlen.
  { unfold s. destruct (lk i) as [r|] eqn:Hr; [|done]. cbn. by apply read_length, (sep_in _ _ _ Hsep i). }
  pose proof (grow_enough (S (s_len s))) as Hgrow. fold c in Hgrow.
  assert (forall j r, lk j = Some r -> s_array r <> a) as Hdiff.
  { intros j r Hr E. destruct (sep_in _ _ _ Hsep j r Hr) as (_ & [? Hs] & _). congruence. }
  split_and!.
  - split.
    + intros j r Hr. destruct (decide (j = i)) as [->|Hj].
      * rewrite Hi' in Hr. injection Hr as <-. split; [done|]. cbn [s' s_array s_cap]. unfold h'.
        rewrite lookup_insert_eq, array_insert. split; [by eexists|].
        rewrite length_app. cbn. rewrite length_replicate. lia.
      * rewrite Hother in Hr by done. apply slice_in_insert; [by apply (sep_in _ _ _ Hsep j)|].
        intros E. by destruct (Hdiff j r Hr).
    + intros j r Hr Hrr. destruct (decide (j = i)) as [->|Hj].
      * rewrite Hi' in Hr. injection Hr as <-. cbn [s' s_array] in *. split.
        -- destruct (h0 !! a) as [l|] eqn:E; [|done]. apply (sep_frozen _ _ _ Hsep) in E. congruence.
        -- intros k q Hq E. destruct (decide (k = i)) as [|Hk]; [done|]. rewrite Hother in Hq by done.
           by destruct (Hdiff k q Hq).
      * rewrite Hother in Hr by done. destruct (sep_room _ _ _ Hsep j r Hr Hrr) as [Hf Ho]. split; [done|].
        intros k q Hq E. destruct (decide (k = i)) as [->|Hk].
        -- rewrite Hi' in Hq. injection Hq as <-. cbn in E. by destruct (Hdiff j r Hr).
        -- rewrite Hother in Hq by done. by apply (Ho k q).
    + intros b r Hb. apply (sep_frozen _ _ _ Hsep) in Hb. unfold h'. rewrite lookup_insert_ne; congruence.
  - unfold content. rewrite Hi'. cbn [default from_option id]. fold s. unfold read at 1. cbn [s' s_len s_array].
    unfold h'. rewrite array_insert, (cons_middle x (read h s)), app_assoc. apply take_app_length'.
    rewrite length_app, Hlen. cbn. lia.
  - intros j Hj. unfold content. rewrite Hother by done. destruct (lk j) as [r|] eqn:Hr; [|done].
    cbn [default from_option id]. unfold read, h'. rewrite array_insert_ne; [done|]. intros E. by destruct (Hdiff j r Hr).
Qed.

(** [append] keeps slices separate, adds its element to one and leaves the
    elements of the others alone. *)
Lemma separate_append h0 h h' (lk lk' : I -> option slice) i s' x :
  separate h0 h lk -> go_append h (default nil_slice (lk i)) x = (h', s') ->
  lk' i = Some s' -> (forall j, j <> i -> lk' j = lk j) ->
  separate h0 h' lk' /\ content h' lk' i = content h lk i ++ [x]
  /\ forall j, j <> i -> content h' lk' j = content h lk j.
Proof.
  intros Hsep. unfold go_append. destruct (Nat.ltb_spec (s_len (default nil_slice (lk i)))
    (s_cap (default nil_slice (lk i)))) as [Hlt|Hge]; intros [= <- <-] Hi' Hother.
  - destruct (lk i) as [s|] eqn:Hi; [|cbn in Hlt; lia]. by eapply append_in_place.
  - by eapply append_fresh.
Qed.

End Append.

(** ** The loops *)

(** The slices of the two maps of the configuration that is being built: [m]
    on the side [b], [o] on the other. *)
Definition side (b : bool) (m o : gmap string slice) (i : bool * string) : option slice :=
  if Bool.eqb b i.1 then m !! i.2 else o !! i.2.

Lemma side_swap b m o i : side b m o i = side (negb b) o m i.
Proof. unfold side. by destruct b, (i.1). Qed.

Lemma separate_ext {I} h0 h (lk lk' : I -> option slice) :
  (forall i, lk i = lk' i) -> separate h0 h lk -> separate h0 h lk'.
Proof.
  intros He Hs. split.
  - intros i s Hi. apply (sep_in _ _ _ Hs i). by rewrite He.
  - intros i s Hi Hl. rewrite <- He in Hi. destruct (sep_room _ _ _ Hs i s Hi Hl) as [H1 H2].
    split; [done|]. intros j s' Hj. rewrite <- He in Hj. by apply H2.
  - apply (sep_frozen _ _ _ Hs).
Qed.

Lemma content_ext {I} h (lk lk' : I -> option slice) i : lk i = lk' i -> content h lk i = content h lk' i.
Proof. unfold content. by intros ->. Qed.

Section Loops.
Context `{R : MapRange} `{G : SliceGrow}.

Lemma without_type (m : gmap string any) :
  map_loop (fun k v => if negb (String.eqb k "type") then Some v else None) (range 1 m) = delete "type" m.
Proof.
  apply map_eq. intros k. rewrite map_loop_range. destruct (decide (k = "type")) as [->|Hne].
  - rewrite lookup_delete_eq. by destruct (m !! "type").
  - rewrite lookup_delete_ne by done. apply String.eqb_neq in Hne. destruct (m !! k); cbn; by rewrite ?Hne.
Qed.

(** [append_row], with the plugin it is about. *)
Lemma append_row_plugin h m input :
  append_row (h, m) input =
  match plugin_of input with
  | Some (t, r) => let '(h, s) := go_append h (default nil_slice (m !! t)) r in (h, <[t := s]> m)
  | None => (h, m)
  end.
Proof.
  unfold append_row, plugin_of. destruct (default ∅ input !! "type") as [[]|]; try done. by rewrite without_type.
Qed.

Lemma rows_of_app t l1 l2 : rows_of t (l1 ++ l2) = rows_of t l1 ++ rows_of t l2.
Proof. apply omap_app. Qed.

Lemma rows_of_one t input :
  rows_of t [input] = match plugin_of input with
                      | Some (t', r) => if String.eqb t t' then [r] else []
                      | None => []
                      end.
Proof. unfold rows_of. cbn. destruct (plugin_of input) as [[t' r]|]; cbn; [by destruct (String.eqb t t')|done]. Qed.

(** What a step does to the map: the keys and, through the heap, the rows. *)
Definition grows (b : bool) (h0 h h' : heap) (m m' o : gmap string slice) (l : list MetricSinkMap) : Prop :=
  separate h0 h' (side b m' o)
  /\ (forall i, content h' (side b m' o) i =
                content h (side b m o) i ++ (if Bool.eqb b i.1 then rows_of i.2 l else []))
  /\ (forall t, is_Some (m' !! t) <-> is_Some (m !! t) \/ rows_of t l <> []).

Lemma append_row_grows b h0 h h' m m' o input :
  separate h0 h (side b m o) -> append_row (h, m) input = (h', m') -> grows b h0 h h' m m' o [input].
Proof.
  intros Hs. rewrite append_row_plugin. unfold grows.
  setoid_rewrite rows_of_one. destruct (plugin_of input) as [[t r]|].
  2:{ intros [= <- <-]. split_and!; [done| |naive_solver].
      intros i. by destruct (Bool.eqb b i.1); rewrite app_nil_r. }
  destruct (go_append h (default nil_slice (m !! t)) r) as [h1 s] eqn:Ha. intros [= <- <-].
  assert (side b m o (b, t) = m !! t) as Hlk by (unfold side; cbn; by rewrite eqb_reflx).
  rewrite <- Hlk in Ha.
  destruct (separate_append h0 h h1 (side b m o) (side b (<[t:=s]> m) o) (b, t) s r Hs Ha)
    as (Hs' & Hc & Ho).
  { unfold side. cbn. by rewrite eqb_reflx, lookup_insert_eq. }
  { intros [b' t'] Hne. unfold side. cbn. destruct (Bool.eqb b b') eqn:E; [|done].
    apply eqb_prop in E as ->. rewrite lookup_insert_ne; [done|congruence]. }
  split_and!; [done| |].
  - intros [b' t']. cbn [fst snd]. destruct (decide ((b', t') = (b, t))) as [[= -> ->]|Hne].
    + by rewrite Hc, eqb_reflx, String.eqb_refl.
    + rewrite Ho by done. destruct (Bool.eqb b b') eqn:E; [|by rewrite app_nil_r].
      apply eqb_prop in E as ->. destruct (String.eqb_spec t' t) as [->|]; [done|by rewrite app_nil_r].
  - intros t'. rewrite lookup_insert_is_Some'. destruct (String.eqb_spec t' t) as [->|Hne]; naive_solver.
Qed.

Lemma append_rows_grows b h0 l h h' m m' o :
  separate h0 h (side b m o) -> foldl append_row (h, m) l = (h', m') -> grows b h0 h h' m m' o l.
Proof.
  revert h m. induction l as [|input l IH]; intros h m Hs; cbn [foldl].
  - intros [= <- <-]. split_and!; [done| |naive_solver].
    intros i. by destruct (Bool.eqb b i.1); rewrite app_nil_r.
  - destruct (append_row (h, m) input) as [h1 m1] eqn:E1. intros E.
    destruct (append_row_grows _ _ _ _ _ _ _ _ Hs E1) as (Hs1 & Hc1 & Hd1).
    destruct (IH _ _ Hs1 E) as (Hs2 & Hc2 & Hd2). split_and!; [done| |].
    + intros i. rewrite Hc2, Hc1, <- app_assoc. f_equal. change (input :: l) with ([input] ++ l).
      destruct (Bool.eqb b i.1); [by rewrite rows_of_app|done].
    + intros t. rewrite Hd2, Hd1. change (input :: l) with ([input] ++ l). rewrite rows_of_app.
      destruct (rows_of t [input]), (rows_of t l); cbn; naive_solver.
Qed.

Definition built_side (t : building) : bool * string -> option slice := side true (b_Inputs t) (b_Outputs t).

(** What building adds for the inputs [ins] and the outputs [outs]. *)
Definition builds (h0 : heap) (t t' : building) (ins outs : list MetricSinkMap) : Prop :=
  separate h0 (b_heap t') (built_side t')
  /\ (forall b k, content (b_heap t') (built_side t') (b, k) =
                  content (b_heap t) (built_side t) (b, k) ++ rows_of k (if b then ins else outs))
  /\ (forall k, is_Some (b_Inputs t' !! k) <-> is_Some (b_Inputs t !! k) \/ rows_of k ins <> [])
  /\ (forall k, is_Some (b_Outputs t' !! k) <-> is_Some (b_Outputs t !! k) \/ rows_of k outs <> []).

Lemma appendInputsAndOutputs_builds h0 t ins outs :
  separate h0 (b_heap t) (built_side t) -> builds h0 t (appendInputsAndOutputs t ins outs) ins outs.
Proof.
  intros Hs. unfold appendInputsAndOutputs. destruct t as [h mi mo]. cbn [b_heap b_Inputs b_Outputs].
  destruct (foldl append_row (h, mi) ins) as [h1 mi1] eqn:E1.
  destruct (append_rows_grows true _ _ _ _ _ _ mo Hs E1) as (Hs1 & Hc1 & Hd1).
  destruct (foldl append_row (h1, mo) outs) as [h2 mo1] eqn:E2.
  apply (separate_ext _ _ _ (side false mo mi1)) in Hs1; [|intros i; apply side_swap].
  destruct (append_rows_grows false _ _ _ _ _ _ mi1 Hs1 E2) as (Hs2 & Hc2 & Hd2).
  unfold builds, built_side. cbn [b_heap b_Inputs b_Outputs]. split_and!; try done.
  - apply (separate_ext _ _ (side false mo1 mi1)); [intros i; apply side_swap|done].
  - intros b k. rewrite (content_ext _ _ (side false mo1 mi1)) by apply side_swap. rewrite Hc2.
    rewrite (content_ext _ (side false mo mi1) (side true mi1 mo)) by apply side_swap. rewrite Hc1.
    destruct b; cbn; by rewrite app_nil_r.
Qed.

Definition all_inputs (l : list (string * ClusterMetricSink)) : list MetricSinkMap :=
  flat_map (fun kv => default [] (Inputs (cms_Spec kv.2))) l.
Definition all_outputs (l : list (string * ClusterMetricSink)) : list MetricSinkMap :=
  flat_map (fun kv => default [] (Outputs (cms_Spec kv.2))) l.

Lemma sinks_loop_builds h0 (l : list (string * ClusterMetricSink)) t :
  separate h0 (b_heap t) (built_side t) ->
  builds h0 t (foldl (fun t '(_, cms) => appendInputsAndOutputs t (default [] (Inputs (cms_Spec cms)))
                                                               (default [] (Outputs (cms_Spec cms)))) t l)
         (all_inputs l) (all_outputs l).
Proof.
  revert t. induction l as [|[k cms] l IH]; intros t Hs; cbn [foldl].
  - unfold builds. cbn. split_and!; [done| |naive_solver..]. intros b k. by destruct b; rewrite app_nil_r.
  - destruct (appendInputsAndOutputs_builds h0 t (default [] (Inputs (cms_Spec cms)))
                (default [] (Outputs (cms_Spec cms))) Hs) as (Hs1 & Hc1 & Hi1 & Ho1).
    destruct (IH _ Hs1) as (Hs2 & Hc2 & Hi2 & Ho2). unfold builds, all_inputs, all_outputs in *. cbn [flat_map snd].
    split_and!; [done| | |].
    + intros b j. rewrite Hc2, Hc1, <- app_assoc. by destruct b; rewrite rows_of_app.
    + intros j. rewrite Hi2, Hi1, rows_of_app. destruct (rows_of j (default [] (Inputs _))); cbn; naive_solver.
    + intros j. rewrite Ho2, Ho1, rows_of_app. destruct (rows_of j (default [] (Outputs _))); cbn; naive_solver.
Qed.

(** Default inputs in arrays without room. *)
Definition defaults_full (h : heap) (c : ClusterConfig) : Prop :=
  map_Forall (fun _ s => slice_in h s /\ s_len s = s_cap s) (defaultInputs c).

Lemma copyInputs_id m : copyInputs m = m.
Proof. apply map_eq. intros k. unfold copyInputs. rewrite map_loop_range. by destruct (m !! k). Qed.

Lemma start_separate h c :
  defaults_full h c -> separate h h (side true (defaultInputs c) ∅).
Proof.
  intros Hf. unfold side. split; [| |done]; intros [[] k] s Hk; cbn in Hk; try (by rewrite lookup_empty in Hk).
  - by destruct (Hf _ _ Hk).
  - destruct (Hf _ _ Hk). lia.
Qed.

End Loops.

(** ** The same configuration without a heap *)

Definition merge_row (m : gmap string (list row)) (input : MetricSinkMap) : gmap string (list row) :=
  match plugin_of input with
  | Some (t, r) => <[t := default [] (m !! t) ++ [r]]> m
  | None => m
  end.

(** The tables of [l] added to those of [m], in order. *)
Definition merge_rows (m : gmap string (list row)) (l : list MetricSinkMap) : gmap string (list row) :=
  foldl merge_row m l.

Definition table_at (o : option (list row)) (rs : list row) : option (list row) :=
  match o, rs with
  | None, [] => None
  | _, _ => Some (default [] o ++ rs)
  end.

Lemma merge_rows_lookup m l k : merge_rows m l !! k = table_at (m !! k) (rows_of k l).
Proof.
  revert m. induction l as [|input l IH]; intros m; unfold merge_rows in *; cbn [foldl].
  - destruct (m !! k); cbn; by rewrite ?app_nil_r.
  - rewrite IH. change (input :: l) with ([input] ++ l). rewrite rows_of_app, rows_of_one. unfold merge_row.
    destruct (plugin_of input) as [[t r]|]; [|done].
    destruct (String.eqb_spec k t) as [->|Hne].
    + rewrite lookup_insert_eq. destruct (m !! t); cbn; by rewrite <- ?app_assoc.
    + by rewrite lookup_insert_ne.
Qed.

Definition tags_of (c : ClusterConfig) : option (gmap string string) :=
  if negb (String.eqb (clusterName c) EmptyString) then Some {["cluster_name" := clusterName c]} else None.

Section Pure.
Context `{R : MapRange} `{G : SliceGrow} (Encode : telegrafConfig -> res string string).

(** What the encoder is given. *)
Definition merged (h : heap) (c : ClusterConfig) : telegrafConfig :=
  {| GlobalTags := tags_of c;
     t_Inputs := merge_rows (read h <$> defaultInputs c) (all_inputs (range 2 (clusterSinks c)));
     t_Outputs := merge_rows ∅ (all_outputs (range 2 (clusterSinks c))) |}.

Lemma read_table h (m : gmap string slice) (o : option (list row)) rs k :
  (is_Some (m !! k) <-> is_Some o \/ rs <> []) ->
  read h (default nil_slice (m !! k)) = default [] o ++ rs ->
  (read h <$> m) !! k = table_at o rs.
Proof.
  intros Hd Hc. rewrite lookup_fmap. destruct (m !! k) as [s|] eqn:E; cbn in *.
  - rewrite Hc. destruct o as [r|], rs; cbn; try done. exfalso.
    destruct (proj1 Hd (ltac:(eauto))) as [[? ?]|]; done.
  - destruct o as [r|], rs; cbn; try done; exfalso;
      (destruct (proj2 Hd) as [? ?]; [first [by left; eauto | by right]|done]).
Qed.

Lemma String_merged h c :
  defaults_full h c ->
  (ClusterConfig_String Encode h c).2 = telegrafConfig_String Encode (merged h c)
  /\ (forall a r, h !! a = Some r -> (ClusterConfig_String Encode h c).1 !! a = Some r).
Proof.
  intros Hf. unfold ClusterConfig_String, merged. cbn [fst snd].
  pose proof (start_separate h c Hf) as Hs.
  pose proof (sinks_loop_builds h (range 2 (clusterSinks c))
    {| b_heap := h; b_Inputs := copyInputs (defaultInputs c); b_Outputs := ∅ |}) as Hb.
  unfold built_side in Hb. cbn [b_heap b_Inputs b_Outputs] in Hb. rewrite copyInputs_id in *.
  destruct (Hb Hs) as (Hsep & Hc & Hi & Ho). cbn [b_heap b_Inputs b_Outputs] in Hi, Ho, Hc. clear Hb.
  set (t := foldl _ _ _) in *.
  split; [|apply (sep_frozen _ _ _ Hsep)]. do 2 f_equal; apply map_eq; intros k; rewrite merge_rows_lookup.
  - apply read_table.
    + rewrite Hi, lookup_fmap. by rewrite fmap_is_Some.
    + specialize (Hc true k). unfold content, built_side, side in Hc. cbn in Hc. rewrite Hc, lookup_fmap.
      by destruct (defaultInputs c !! k).
  - apply read_table.
    + rewrite Ho, !lookup_empty. split; intros [[? ?]|?]; try done; by right.
    + specialize (Hc false k). unfold content, built_side, side in Hc. cbn in Hc.
      by rewrite Hc, lookup_empty, !lookup_empty.
Qed.

Lemma defaults_kept h h' c :
  defaults_full h c -> (forall a r, h !! a = Some r -> h' !! a = Some r) ->
  defaults_full h' c /\ read h' <$> defaultInputs c = read h <$> defaultInputs c.
Proof.
  intros Hf Hk.
  assert (forall k s, defaultInputs c !! k = Some s -> array h' (s_array s) = array h (s_array s)
                                                      /\ is_Some (h' !! s_array s)) as Harr.
  { intros k s Hs. destruct (Hf k s Hs) as [(_ & [r Hr] & _) _]. unfold array. rewrite Hr, (Hk _ _ Hr). eauto. }
  split.
  - intros k s Hs. destruct (Hf k s Hs) as [(H1 & H2 & H3) H4]. destruct (Harr k s Hs) as [E1 E2].
    split; [|done]. split_and!; [done|done|by rewrite E1].
  - apply map_eq. intros k. rewrite !lookup_fmap. destruct (defaultInputs c !! k) as [s|] eqn:Hs; [|done].
    cbn. unfold read. by destruct (Harr k s Hs) as [-> _].
Qed.

End Pure.

(** A call in the orders [R1] leaves the later calls as they would have been. *)
Lemma String_repeatable (R1 R2 : MapRange) `{G : SliceGrow} Encode h c :
  defaults_full h c ->
  let h' := (@ClusterConfig_String R1 G Encode h c).1 in
  defaults_full h' c /\ read h' <$> defaultInputs c = read h <$> defaultInputs c
  /\ (@ClusterConfig_String R2 G Encode h' c).2 = (@ClusterConfig_String R2 G Encode h c).2.
Proof.
  intros Hf h'. destruct (@String_merged R1 G Encode h c Hf) as [_ Hk].
  destruct (@defaults_kept h h' c Hf Hk) as [Hf' Hr]. split_and!; [done..|].
  destruct (@String_merged R2 G Encode h' c Hf') as [E' _]. destruct (@String_merged R2 G Encode h c Hf) as [E _].
  rewrite E, E'. unfold merged. by rewrite Hr.
Qed.

(** ** The constructor *)

Lemma new_slice_full h l h' s :
  new_slice h l = (h', s) ->
  slice_in h' s /\ s_len s = s_cap s /\ read h' s = l /\ (forall a r, h !! a = Some r -> h' !! a = Some r).
Proof.
  unfold new_slice. intros [= <- <-]. assert (h !! fresh (dom h) = None) as Hn by (apply not_elem_of_dom, is_fresh).
  split_and!; cbn.
  - split; [done|]. cbn. rewrite lookup_insert_eq, array_insert. split; [by eexists|done].
  - done.
  - unfold read. cbn. rewrite array_insert. by apply take_ge.
  - intros a r Ha. rewrite lookup_insert_ne; congruence.
Qed.

(** A modifier that keeps the default inputs in full arrays. *)
Lemma KubernetesDefault_full b h c h' c' :
  defaults_full h c -> KubernetesDefault b (h, c) = (h', c') ->
  defaults_full h' c'
  /\ read h' <$> defaultInputs c' =
     <["kubernetes" := [if b then insecure_row else secure_row]]> (read h <$> defaultInputs c)
  /\ clusterName c' = clusterName c /\ clusterSinks c' = clusterSinks c.
Proof.
  intros Hf. unfold KubernetesDefault.
  destruct (if b then _ else _) as [h1 s] eqn:E. intros [= <- <-]. cbn.
  assert (new_slice h [if b then insecure_row else secure_row] = (h1, s)) as E' by by destruct b.
  destruct (new_slice_full _ _ _ _ E') as (Hin & Hfull & Hread & Hkeep).
  destruct (defaults_kept h h1 c Hf Hkeep) as [Hf' Hr']. split_and!; try done.
  - unfold defaults_full. cbn. by apply map_Forall_insert_2.
  - rewrite fmap_insert, Hread. by rewrite Hr'.
Qed.

(** ** Properties *)

(** The types of the inputs and of the outputs that have one. *)
Definition has_type (m : MetricSinkMap) : bool := match plugin_of m with Some _ => true | None => false end.

Definition sink_inputs (c : ClusterConfig) : list MetricSinkMap :=
  flat_map (fun cms => default [] (Inputs (cms_Spec cms))) (map_to_list (clusterSinks c)).*2.
Definition sink_outputs (c : ClusterConfig) : list MetricSinkMap :=
  flat_map (fun cms => default [] (Outputs (cms_Spec cms))) (map_to_list (clusterSinks c)).*2.

Lemma rows_of_perm k l1 l2 : l1 ≡ₚ l2 -> rows_of k l1 ≡ₚ rows_of k l2.
Proof. intros Hp. unfold rows_of. by rewrite Hp. Qed.

Lemma all_perm {A B} (f : A -> list B) (l1 l2 : list (string * A)) :
  l1 ≡ₚ l2 -> flat_map (fun kv => f kv.2) l1 ≡ₚ flat_map f l2.*2.
Proof.
  intros ->. induction l2 as [|[k a] l2 IH]; cbn; [done|]. by rewrite IH.
Qed.

Lemma merge_rows_empty m l :
  merge_rows m l = ∅ <-> m = ∅ /\ existsb has_type l = false.
Proof.
  assert (existsb has_type l = false <-> forall k, rows_of k l = []) as Hl.
  { induction l as [|x l IH]; [done|]. cbn [existsb]. rewrite orb_false_iff, IH. change (x :: l) with ([x] ++ l).
    split.
    - intros [Hx Hk] k. rewrite rows_of_app, rows_of_one, Hk. unfold has_type in Hx.
      by destruct (plugin_of x) as [[]|].
    - intros Hk. split.
      + unfold has_type. destruct (plugin_of x) as [[t r]|] eqn:E; [|done]. specialize (Hk t).
        rewrite rows_of_app, rows_of_one, E, String.eqb_refl in Hk. done.
      + intros k. specialize (Hk k). rewrite rows_of_app in Hk. by apply app_eq_nil in Hk as [_ ?]. }
  rewrite Hl. split.
  - intros E. assert (forall k, table_at (m !! k) (rows_of k l) = None) as Ht.
    { intros k. by rewrite <- merge_rows_lookup, E, lookup_empty. }
    split; [apply map_empty|]; intros k; specialize (Ht k); by destruct (m !! k), (rows_of k l).
  - intros [-> Hk]. apply map_empty. intros k. by rewrite merge_rows_lookup, Hk, lookup_empty.
Qed.

Lemma rows_of_ranged (R : MapRange) (c : ClusterConfig) k :
  rows_of k (all_inputs (range 2 (clusterSinks c))) ≡ₚ rows_of k (sink_inputs c)
  /\ rows_of k (all_outputs (range 2 (clusterSinks c))) ≡ₚ rows_of k (sink_outputs c).
Proof.
  split; apply rows_of_perm; unfold all_inputs, all_outputs, sink_inputs, sink_outputs.
  - by rewrite (all_perm (fun cms => default [] (Inputs (cms_Spec cms))) _ _ (range_perm 2 _)).
  - by rewrite (all_perm (fun cms => default [] (Outputs (cms_Spec cms))) _ _ (range_perm 2 _)).
Qed.

(** C25: The text is the encoding of the tables in which every type has its
    default rows, then, in some order, one row for each input (output) of that
    type of each sink, which holds the options other than the type; an input
    or output without a string type is left out.  The cluster name is the one
    global tag, absent when it is empty. *)
Theorem ClusterConfig_String_tables `{R : MapRange} `{G : SliceGrow} Encode h c :
  defaults_full h c ->
  exists ins outs,
    (ClusterConfig_String Encode h c).2
      = telegrafConfig_String Encode {| GlobalTags := tags_of c; t_Inputs := ins; t_Outputs := outs |}
    /\ (forall k, exists rs, rs ≡ₚ rows_of k (sink_inputs c)
                             /\ ins !! k = table_at (read h <$> defaultInputs c !! k) rs)
    /\ (forall k, exists rs, rs ≡ₚ rows_of k (sink_outputs c) /\ outs !! k = table_at None rs).
Proof.
  intros Hf. destruct (String_merged Encode h c Hf) as [-> _]. unfold merged. eexists _, _. split; [done|].
  split; intros k; destruct (rows_of_ranged _ c k) as [Hi Ho]; eexists;
    (split; [|rewrite merge_rows_lookup, ?lookup_fmap, ?lookup_empty; done]); done.
Qed.

Lemma table_at_perm o rs1 rs2 : rs1 ≡ₚ rs2 -> option_Forall2 Permutation (table_at o rs1) (table_at o rs2).
Proof.
  intros Hp. destruct o as [l|]; cbn; [constructor; by apply Permutation_app_head|].
  destruct rs1 as [|r rs1]; [apply Permutation_nil in Hp as ->; constructor|].
  destruct rs2 as [|r2 rs2]; [by apply Permutation_sym, Permutation_nil in Hp|by constructor].
Qed.

(** C26: Appending to the copies of the default inputs never writes into the
    arrays that the configuration keeps: after a call the defaults are what
    they were, and a later call, whatever the orders its ranges draw, gives
    what it would have given without the earlier one.  As Go draws the order
    of the sinks anew for each call, the two texts may list the rows of a type
    in different orders: they encode the same global tag and the same tables
    up to the order of rows, and are the same text, with the same line in the
    log, if no type has more than one input and one output of sinks. *)
Theorem ClusterConfig_String_repeatable (R1 R2 : MapRange) `{G : SliceGrow} Encode h c :
  defaults_full h c ->
  let h' := (@ClusterConfig_String R1 G Encode h c).1 in
  let first := (@ClusterConfig_String R1 G Encode h c).2 in
  let second := (@ClusterConfig_String R2 G Encode h' c).2 in
  defaults_full h' c /\ read h' <$> defaultInputs c = read h <$> defaultInputs c
  /\ second = (@ClusterConfig_String R2 G Encode h c).2
  /\ (exists t1 t2, first = telegrafConfig_String Encode t1 /\ second = telegrafConfig_String Encode t2
        /\ GlobalTags t1 = GlobalTags t2
        /\ (forall k, option_Forall2 Permutation (t_Inputs t1 !! k) (t_Inputs t2 !! k))
        /\ (forall k, option_Forall2 Permutation (t_Outputs t1 !! k) (t_Outputs t2 !! k)))
  /\ ((forall k, List.length (rows_of k (sink_inputs c)) <= 1 /\ List.length (rows_of k (sink_outputs c)) <= 1) ->
      second = first).
Proof.
  intros Hf. cbv zeta. destruct (String_repeatable R1 R2 Encode h c Hf) as (Hf' & Hr & ->).
  destruct (@String_merged R1 G Encode h c Hf) as [-> _]. destruct (@String_merged R2 G Encode h c Hf) as [-> _].
  split_and!; [done..| |].
  - eexists _, _. split_and!; [done..| |]; intros k; unfold merged; cbn [t_Inputs t_Outputs];
      rewrite !merge_rows_lookup; apply table_at_perm.
    + by rewrite (proj1 (rows_of_ranged R1 c k)), (proj1 (rows_of_ranged R2 c k)).
    + by rewrite (proj2 (rows_of_ranged R1 c k)), (proj2 (rows_of_ranged R2 c k)).
  - intros Hshort. unfold merged. do 2 f_equal; apply map_eq; intros k; rewrite !merge_rows_lookup; f_equal;
      destruct (Hshort k) as [Hi Ho], (rows_of_ranged R1 c k) as [I1 O1], (rows_of_ranged R2 c k) as [I2 O2].
    + rewrite <- I1 in Hi. symmetry. apply short_perm; [by rewrite I1, I2|exact Hi].
    + rewrite <- O1 in Ho. symmetry. apply short_perm; [by rewrite O1, O2|exact Ho].
Qed.

(** The discard configuration is written when no sink has an output with
    a string type, or when there is no default input and no sink has an input
    with a string type; otherwise the text is what the encoder makes of the
    tables, and empty, with the error in the log, if the encoder fails. *)
Lemma ClusterConfig_String_discard `{R : MapRange} `{G : SliceGrow} Encode h c :
  defaults_full h c ->
  if negb (existsb has_type (sink_outputs c))
     || (bool_decide (defaultInputs c = ∅) && negb (existsb has_type (sink_inputs c)))
  then (ClusterConfig_String Encode h c).2 = (emptyConfig, [])
  else exists t, (ClusterConfig_String Encode h c).2
                 = match Encode t with
                   | Ok text => (text, [])
                   | Err err => (EmptyString, ["Unable to encode telegraf config: " +:+ err])
                   end
                 /\ t_Inputs t <> ∅ /\ t_Outputs t <> ∅.
Proof.
  intros Hf. destruct (String_merged Encode h c Hf) as [-> _]. unfold telegrafConfig_String.
  assert (forall l1 l2, l1 ≡ₚ l2 -> existsb has_type l1 = existsb has_type l2) as Hp.
  { intros l1 l2 Hp. apply eq_true_iff_eq. rewrite !existsb_exists.
    split; intros (x & Hx & Ht); exists x; split; try done;
      [by apply (Permutation_in _ Hp)|by apply (Permutation_in _ (Permutation_sym Hp))]. }
  rewrite (Hp (sink_outputs c) (all_outputs (range 2 (clusterSinks c))))
    by (symmetry; apply (all_perm (fun cms => default [] (Outputs (cms_Spec cms)))), range_perm).
  rewrite (Hp (sink_inputs c) (all_inputs (range 2 (clusterSinks c))))
    by (symmetry; apply (all_perm (fun cms => default [] (Inputs (cms_Spec cms)))), range_perm).
  pose proof (merge_rows_empty (read h <$> defaultInputs c) (all_inputs (range 2 (clusterSinks c)))) as Hi.
  pose proof (merge_rows_empty ∅ (all_outputs (range 2 (clusterSinks c)))) as Ho.
  rewrite fmap_empty_iff in Hi.
  destruct (Nat.eqb_spec (size (t_Inputs (merged h c))) 0) as [E1|E1];
    [|destruct (Nat.eqb_spec (size (t_Outputs (merged h c))) 0) as [E2|E2]]; cbn [orb];
    rewrite ?map_size_empty_iff in *; cbn [t_Inputs t_Outputs merged] in *.
  - apply Hi in E1 as [-> ->]. cbn. by rewrite orb_true_r.
  - apply Ho in E2 as [_ ->]. done.
  - destruct (existsb has_type (all_outputs _)) eqn:E3; [|by destruct E2; apply Ho]. cbn [negb orb].
    destruct (bool_decide _ && _) eqn:E4.
    + exfalso. apply E1, Hi. apply andb_true_iff in E4 as [E4 E5%negb_true_iff].
      by apply bool_decide_eq_true_1 in E4.
    + exists (merged h c). split_and!; [|done..]. destruct (Encode _) as [|err]; [done|].
      cbn. by rewrite (str_app_nil_r err).
Qed.

(** A new configuration has no sink and, of its modifiers, the last
    [KubernetesDefault] decides the default inputs: the read-only port when it
    is insecure, and otherwise the secure one with the service account's
    token.  Upserts and deletions change exactly the sink of that name. *)
Lemma NewConfig_defaults h name bs :
  let '(h', c) := NewConfig h name (map KubernetesDefault bs) in
  defaults_full h' c /\ clusterName c = name /\ clusterSinks c = ∅
  /\ read h' <$> defaultInputs c =
     match last bs with
     | None => ∅
     | Some b => {["kubernetes" := [if b then insecure_row else secure_row]]}
     end
  /\ forall cms c' k, defaultInputs c' = defaultInputs c ->
     let n := Name (cms_ObjectMeta cms) in
     defaults_full h' (UpsertSink cms c') /\ defaults_full h' (DeleteSink cms c')
     /\ clusterSinks (UpsertSink cms c') !! k = (if decide (k = n) then Some cms else clusterSinks c' !! k)
     /\ clusterSinks (DeleteSink cms c') !! k = (if decide (k = n) then None else clusterSinks c' !! k).
Proof.
  unfold NewConfig.
  assert (forall bs h c, defaults_full h c -> clusterSinks c = ∅ -> clusterName c = name ->
    let '(h', c') := foldl (fun hc m => m hc) (h, c) (map KubernetesDefault bs) in
    defaults_full h' c' /\ clusterName c' = name /\ clusterSinks c' = ∅
    /\ read h' <$> defaultInputs c' =
       match last bs with
       | None => read h <$> defaultInputs c
       | Some b => <["kubernetes" := [if b then insecure_row else secure_row]]> (read h <$> defaultInputs c)
       end) as Hloop.
  { clear. intros bs. induction bs as [|b bs IH]; intros h c Hf Hs Hn; cbn [map foldl]; [done|].
    destruct (KubernetesDefault b (h, c)) as [h1 c1] eqn:E.
    destruct (KubernetesDefault_full _ _ _ _ _ Hf E) as (Hf1 & Hr1 & Hn1 & Hs1).
    specialize (IH h1 c1 Hf1 ltac:(congruence) ltac:(congruence)).
    destruct (foldl _ _ _) as [h' c']. destruct IH as (? & ? & ? & IH). split_and!; try done.
    rewrite IH, Hr1. destruct bs as [|b' bs]; [done|]. change (last (b :: b' :: bs)) with (last (b' :: bs)).
    destruct (last (b' :: bs)) as [b2|] eqn:El; [by rewrite insert_insert_eq|].
    by apply last_None in El. }
  specialize (Hloop bs h {| clusterSinks := ∅; clusterName := name; defaultInputs := ∅ |}
                (map_Forall_empty _) eq_refl eq_refl).
  destruct (foldl _ _ _) as [h' c]. destruct Hloop as (Hf & Hn & Hs & Hr). split_and!; try done.
  intros cms c' k Hd. unfold defaults_full. cbn. rewrite Hd. split_and!; try done;
    destruct (decide _) as [->|Hne]; by simplify_map_eq.
Qed.

(** ** A concrete cluster *)

Definition sample_metric_sink (name : string) (ins outs : list (gmap string any)) : ClusterMetricSink :=
  {| cms_TypeMeta := MkTypeMeta EmptyString EmptyString;
     cms_ObjectMeta :=
       {| Name := name; GenerateName := EmptyString; Namespace := EmptyString; SelfLink := EmptyString;
          UID := EmptyString; ResourceVersion := EmptyString; Generation := 0; CreationTimestamp := 0;
          DeletionTimestamp := None; DeletionGracePeriodSeconds := None; Labels := None; Annotations := None;
          OwnerReferences := None; meta_Initializers := None; Finalizers := None; ClusterName := EmptyString |};
     cms_Spec := {| Inputs := Some (map Some ins); Outputs := Some (map Some outs) |};
     cms_Status := {| ss_State := EmptyString; LastSuccessfulSend := 0; LastError := None; LastErrorTime := None |} |}.

Definition sample_start : heap * ClusterConfig := NewConfig ∅ "prod" [KubernetesDefault true; KubernetesDefault false].

Definition sample_cluster : ClusterConfig :=
  UpsertSink (sample_metric_sink "a" [<["type" := AString "kubernetes"]> {["url" := AString "http://x"]}]
                                     [{["type" := AString "discard"]}])
    (UpsertSink (sample_metric_sink "b" [{["type" := AInt 1]}] [{["type" := AString "datadog"]}]) sample_start.2).

Lemma sample_full : defaults_full sample_start.1 sample_cluster.
Proof.
  intros k s Hk. vm_compute in Hk. assert (s = MkSlice 1 1 1) as ->.
  { destruct (decide (k = "kubernetes")) as [->|Hne]; [vm_compute in Hk; congruence|].
    assert (defaultInputs sample_cluster !! k = None) as Hn; [|unfold defaultInputs in Hn; vm_compute in Hn; congruence].
    change (defaultInputs sample_cluster) with (<["kubernetes" := MkSlice 1 1 1]> (<["kubernetes" := MkSlice 0 1 1]> ∅) : gmap string slice).
    by rewrite !lookup_insert_ne by congruence. }
  split; [|done]. split; [cbn; lia|]. split; [by eexists|done].
Qed.

(** An encoder that shows the types it is given. *)
Definition show_types (t : telegrafConfig) : res string string :=
  Ok (String.concat "," ((map_to_list (t_Inputs t)).*1 ++ (map_to_list (t_Outputs t)).*1)).

Lemma ClusterConfig_String_tables_witness :
  exists ins outs,
    (@ClusterConfig_String map_order double show_types sample_start.1 sample_cluster).2
      = telegrafConfig_String show_types
          {| GlobalTags := tags_of sample_cluster; t_Inputs := ins; t_Outputs := outs |}
    /\ (forall k, exists rs, rs ≡ₚ rows_of k (sink_inputs sample_cluster)
                             /\ ins !! k = table_at (read sample_start.1 <$> defaultInputs sample_cluster !! k) rs)
    /\ (forall k, exists rs, rs ≡ₚ rows_of k (sink_outputs sample_cluster) /\ outs !! k = table_at None rs).
Proof. apply (@ClusterConfig_String_tables map_order double show_types _ _ sample_full). Defined.

(** Two sinks with an input of the same type: the order shows. *)
Definition two_cpus : ClusterConfig :=
  UpsertSink (sample_metric_sink "a" [<["type" := AString "cpu"]> {["n" := AInt 1]}] [{["type" := AString "discard"]}])
    (UpsertSink (sample_metric_sink "b" [<["type" := AString "cpu"]> {["n" := AInt 2]}] []) sample_start.2).

(** An encoder that shows the options of the cpu inputs, in order. *)
Definition show_cpus (t : telegrafConfig) : res string string :=
  Ok (String.concat "," (omap (fun r : row => match default ∅ r !! "n" with
                                              | Some (AInt 1) => Some "1" | Some _ => Some "2" | None => None
                                              end)
                              (default [] (t_Inputs t !! "cpu")))).

Lemma ClusterConfig_String_repeatable_witness :
  let h' := (@ClusterConfig_String map_order double show_cpus sample_start.1 two_cpus).1 in
  (@ClusterConfig_String map_order double show_cpus sample_start.1 two_cpus).2
    <> (@ClusterConfig_String reverse_order double show_cpus h' two_cpus).2
  /\ (@ClusterConfig_String reverse_order double show_cpus h' two_cpus).2
     = (@ClusterConfig_String reverse_order double show_cpus sample_start.1 two_cpus).2
  /\ (@ClusterConfig_String reverse_order double show_types
        (@ClusterConfig_String map_order double show_types sample_start.1 sample_cluster).1 sample_cluster).2
     = (@ClusterConfig_String map_order double show_types sample_start.1 sample_cluster).2.
Proof.
  cbv zeta. split_and!.
  - vm_compute. discriminate.
  - exact (proj1 (proj2 (proj2 (@ClusterConfig_String_repeatable map_order reverse_order double show_cpus _ two_cpus
                                  sample_full)))).
  - apply (@ClusterConfig_String_repeatable map_order reverse_order double show_types _ _ sample_full).
    assert (forall k l, List.length (rows_of k l) <= List.length (omap plugin_of l)) as Hle.
    { intros k l. unfold rows_of. induction l as [|m l IH]; [done|]. cbn.
      destruct (plugin_of m) as [[t r]|]; cbn; [destruct (String.eqb k t); cbn; lia|done]. }
    intros k. split.
    + etransitivity; [apply Hle|vm_compute; lia].
    + destruct (decide (k = "discard")) as [->|N1]; [vm_compute; lia|].
      destruct (decide (k = "datadog")) as [->|N2]; [vm_compute; lia|].
      change (sink_outputs sample_cluster) with
        ([Some {["type" := AString "discard"]}] ++ [Some {["type" := AString "datadog"]}] : list MetricSinkMap).
      rewrite rows_of_app, !rows_of_one.
      change (plugin_of (Some {["type" := AString "discard"]})) with (Some ("discard", Some ∅ : row)).
      change (plugin_of (Some {["type" := AString "datadog"]})) with (Some ("datadog", Some ∅ : row)).
      apply String.eqb_neq in N1, N2. cbv iota beta. rewrite N1, N2. cbn. lia.
Defined.

Lemma ClusterConfig_String_discard_witness :
  exists t, (@ClusterConfig_String map_order double show_types sample_start.1 sample_cluster).2
            = match show_types t with
              | Ok text => (text, [])
              | Err err => (EmptyString, ["Unable to encode telegraf config: " +:+ err])
              end
            /\ t_Inputs t <> ∅ /\ t_Outputs t <> ∅.
Proof. exact (@ClusterConfig_String_discard map_order double show_types _ _ sample_full). Defined.

Lemma NewConfig_defaults_witness :
  defaults_full sample_start.1 (DeleteSink (sample_metric_sink "a" [] []) sample_start.2)
  /\ clusterSinks (DeleteSink (sample_metric_sink "a" [] []) sample_start.2) !! "a" = None.
Proof.
  pose proof (NewConfig_defaults ∅ "prod" [true; false]) as Hd. cbn [map] in Hd.
  change (NewConfig ∅ "prod" [KubernetesDefault true; KubernetesDefault false]) with sample_start in Hd.
  destruct sample_start as [h c]. destruct Hd as (_ & _ & _ & _ & Hd).
  destruct (Hd (sample_metric_sink "a" [] []) c "a" eq_refl) as (_ & Hf & _ & Hl). split; [exact Hf|exact Hl].
Defined.
