(* ===== verification/KubeApi.v ===== *)
(** * Kubernetes objects and requests

    The objects the metric controller creates, with the fields it sets (the
    others keep their zero value), and the client as an interface: [KubeAPI]
    answers requests, [KubeStore] states what the API server promises about
    the objects it stores. *)

From stdpp Require Import base gmap strings list.
From S2P Require Import Prelude GoStd Types.

Record PolicyRule : Type := MkPolicyRule {
  Verbs : list string; APIGroups : list string; Resources : list string; ResourceNames : list string;
}.

Record Role : Type := MkRole { role_ObjectMeta : ObjectMeta; Rules : list PolicyRule }.

Record Subject : Type := MkSubject { subj_Kind : string; subj_Name : string; subj_Namespace : string }.

Record RoleRef : Type := MkRoleRef { ref_APIGroup : string; ref_Kind : string; ref_Name : string }.

Record RoleBinding : Type := MkRoleBinding {
  rb_ObjectMeta : ObjectMeta; Subjects : list Subject; rb_RoleRef : RoleRef;
}.

Record ConfigMap : Type := MkConfigMap { cm_ObjectMeta : ObjectMeta; Data : gmap string string }.

(** A volume that shows a config map. *)
Record Volume : Type := MkVolume { vol_Name : string; vol_ConfigMap : string }.

Record VolumeMount : Type := MkVolumeMount { mount_Name : string; MountPath : string }.

Record Container : Type := MkContainer {
  cont_Name : string; Image : string; Command : list string;
  VolumeMounts : list VolumeMount; ImagePullPolicy : string;
}.

Record PodTemplate : Type := MkPodTemplate {
  pod_Labels : gmap string string; Volumes : list Volume; Containers : list Container;
}.

Record Deployment : Type := MkDeployment {
  dep_ObjectMeta : ObjectMeta; Selector : gmap string string; Replicas : Z; Template : PodTemplate;
}.

Inductive kind : Type := RoleKind | RoleBindingKind | ConfigMapKind | DeploymentKind.

#[global] Instance kind_eq_dec : EqDecision kind.
Proof. solve_decision. Defined.

#[global] Instance kind_countable : Countable kind.
Proof.
  refine (inj_countable' (fun k => match k with RoleKind => 0 | RoleBindingKind => 1 | ConfigMapKind => 2
                                           | DeploymentKind => 3 end)
            (fun n => match n with 0 => RoleKind | 1 => RoleBindingKind | 2 => ConfigMapKind | _ => DeploymentKind end) _).
  by intros [].
Defined.

Inductive kobj : Type :=
| ARole (r : Role)
| ARoleBinding (b : RoleBinding)
| AConfigMap (c : ConfigMap)
| ADeployment (d : Deployment).

Definition kobj_kind (o : kobj) : kind :=
  match o with
  | ARole _ => RoleKind | ARoleBinding _ => RoleBindingKind
  | AConfigMap _ => ConfigMapKind | ADeployment _ => DeploymentKind
  end.

Definition kobj_meta (o : kobj) : ObjectMeta :=
  match o with
  | ARole r => role_ObjectMeta r
  | ARoleBinding b => rb_ObjectMeta b
  | AConfigMap c => cm_ObjectMeta c
  | ADeployment d => dep_ObjectMeta d
  end.

(** The requests of the typed clients, for a namespace. *)
Inductive request : Type :=
| Create (ns : string) (o : kobj)
| Update (ns : string) (o : kobj)
| Delete (k : kind) (ns name : string)
| DeletePods (ns selector : string).

Class KubeAPI (W : Type) := {
  do_request : request -> W -> W * option string;
}.

(** An object is stored under its kind, namespace and name. *)
Definition obj_key : Type := kind * string * string.

Definition kobj_key (ns : string) (o : kobj) : obj_key := (kobj_kind o, ns, Name (kobj_meta o)).

Class KubeStore (W : Type) `{KubeAPI W} := {
  objects : W -> gmap obj_key kobj;
  create_stores : forall w w' ns o,
    do_request (Create ns o) w = (w', None) ->
    objects w !! kobj_key ns o = None /\ objects w' = <[kobj_key ns o := o]> (objects w);
  update_replaces : forall w w' ns o,
    do_request (Update ns o) w = (w', None) ->
    is_Some (objects w !! kobj_key ns o) /\ objects w' = <[kobj_key ns o := o]> (objects w);
  delete_removes : forall w w' k ns name,
    do_request (Delete k ns name) w = (w', None) ->
    is_Some (objects w !! (k, ns, name)) /\ objects w' = delete (k, ns, name) (objects w);
  delete_pods_keeps : forall w ns sel, objects (do_request (DeletePods ns sel) w).1 = objects w;
  failure_keeps : forall w w' r e, do_request r w = (w', Some e) -> objects w' = objects w;
}.

(** ** Two worlds *)

(** One that records the requests and answers them as it likes. *)
Definition recorder (answer : list request -> request -> option string) : KubeAPI (list request) :=
  {| do_request := fun r w => (w ++ [r], answer w r) |}.

(** One that stores the objects. *)
Definition store : Type := gmap obj_key kobj.

#[export] Instance store_api : KubeAPI store :=
  {| do_request := fun r w =>
       match r with
       | Create ns o =>
           match w !! kobj_key ns o with
           | Some _ => (w, Some "already exists")
           | None => (<[kobj_key ns o := o]> w, None)
           end
       | Update ns o =>
           match w !! kobj_key ns o with
           | Some _ => (<[kobj_key ns o := o]> w, None)
           | None => (w, Some "not found")
           end
       | Delete k ns name =>
           match w !! (k, ns, name) with
           | Some _ => (delete (k, ns, name) w, None)
           | None => (w, Some "not found")
           end
       | DeletePods _ _ => (w, None)
       end |}.

#[export, refine] Instance store_laws : KubeStore store := {| objects := fun w => w |}.
Proof.
  - intros w w' ns o. cbn [do_request store_api]. unfold store in *.
    destruct (w !! kobj_key ns o) eqn:E; intros; by simplify_eq.
  - intros w w' ns o. cbn [do_request store_api]. unfold store in *.
    destruct (w !! kobj_key ns o) eqn:E; intros; simplify_eq; eauto.
  - intros w w' k ns name. cbn [do_request store_api]. unfold store in *.
    destruct (w !! (k, ns, name)) eqn:E; intros; simplify_eq; eauto.
  - done.
  - intros w w' r e. cbn [do_request store_api]. unfold store in *.
    destruct r; repeat case_match; intros; by simplify_eq.
Defined.
