(* ===== verification/MetricController.v ===== *)
(** * The metric sink controllers ([pkg/metric/controller.go], [cluster_controller.go])

    [Controller] runs one telegraf deployment per metric sink: a role, a role
    binding, a config map and a deployment, created, updated and deleted one
    request at a time with an early return on the first error.
    [ClusterController] keeps the configuration of the cluster's own telegraf,
    as the log sink controllers do for fluent-bit. *)

From stdpp Require Import base gmap strings list.
From S2P Require Import Prelude Utf8 GoStd GoJson Types SinkController MetricConfig KubeApi.

Definition TelegrafImageVersion : string := "1.11-alpine".

Definition DefaultTelegrafConf : string :=
  let q := dq in
  "
[agent]
  interval = " +:+ q +:+ "10s" +:+ q +:+ "
  round_interval = true
  metric_batch_size = 1000
  metric_buffer_limit = 10000
  collection_jitter = " +:+ q +:+ "0s" +:+ q +:+ "
  flush_interval = " +:+ q +:+ "10s" +:+ q +:+ "
  flush_jitter = " +:+ q +:+ "0s" +:+ q +:+ "
  precision = " +:+ q +:+ q +:+ "
  debug = false
  quiet = false
  logfile = " +:+ q +:+ q +:+ "
  hostname = " +:+ q +:+ q +:+ "
  omit_hostname = false".

(** ** The objects of a metric sink *)

Definition getAppName (ms : MetricSink) : string :=
  Sprintf "telegraf-%s" [FStr (Name (ms_ObjectMeta ms))].

Definition setDefaultTypeMeta (ms : MetricSink) : MetricSink :=
  let k := Kind (ms_TypeMeta ms) in
  let v := APIVersion (ms_TypeMeta ms) in
  {| ms_TypeMeta :=
       {| Kind := if String.eqb k EmptyString then "MetricSink" else k;
          APIVersion := if String.eqb v EmptyString then "observability.knative.dev/v1alpha1" else v |};
     ms_ObjectMeta := ms_ObjectMeta ms; ms_Spec := ms_Spec ms; ms_Status := ms_Status ms |}.

(** The owner reference the four objects have. *)
Definition owner_of (ms : MetricSink) : OwnerReference :=
  {| or_APIVersion := APIVersion (ms_TypeMeta ms); or_Kind := Kind (ms_TypeMeta ms);
     or_Name := Name (ms_ObjectMeta ms); or_UID := UID (ms_ObjectMeta ms);
     or_Controller := None; or_BlockOwnerDeletion := None |}.

(** [metav1.ObjectMeta{ClusterName: cluster, Name: name, Namespace: ns, ...}] *)
Definition meta_of (cluster : string) (ms : MetricSink) : ObjectMeta :=
  let name := getAppName ms in
  {| Name := name; GenerateName := EmptyString; Namespace := Namespace (ms_ObjectMeta ms);
     SelfLink := EmptyString; UID := EmptyString; ResourceVersion := EmptyString; Generation := 0;
     CreationTimestamp := 0; DeletionTimestamp := None; DeletionGracePeriodSeconds := None;
     Labels := Some {["app" := name]}; Annotations := None;
     OwnerReferences := Some [owner_of ms]; meta_Initializers := None; Finalizers := None; ClusterName := cluster |}.

Definition getTelegrafRole (ms : MetricSink) : Role :=
  {| role_ObjectMeta := meta_of EmptyString ms;
     Rules := [{| Verbs := ["use"]; APIGroups := ["extensions"];
                  Resources := ["podsecuritypolicies"]; ResourceNames := ["telegraf"] |};
               {| Verbs := ["get"; "list"; "watch"]; APIGroups := [EmptyString];
                  Resources := ["pods"]; ResourceNames := [] |}] |}.

Definition getTelegrafRoleBinding (ms : MetricSink) : RoleBinding :=
  let name := getAppName ms in
  {| rb_ObjectMeta := meta_of EmptyString ms;
     Subjects := [{| subj_Kind := "ServiceAccount"; subj_Name := "default";
                     subj_Namespace := Namespace (ms_ObjectMeta ms) |}];
     rb_RoleRef := {| ref_APIGroup := "rbac.authorization.k8s.io"; ref_Kind := "Role"; ref_Name := name |} |}.

Definition getTelegrafDeployment (ms : MetricSink) : Deployment :=
  let name := getAppName ms in
  {| dep_ObjectMeta := meta_of (ClusterName (ms_ObjectMeta ms)) ms;
     Selector := {["app" := name]};
     Replicas := 1;
     Template :=
       {| pod_Labels := {["app" := name]};
          Volumes := [{| vol_Name := "telegraf-config"; vol_ConfigMap := name |}];
          Containers := [{| cont_Name := "telegraf"; Image := "telegraf:" +:+ TelegrafImageVersion;
                            Command := ["telegraf"; "--config-directory"; "/etc/telegraf"];
                            VolumeMounts := [{| mount_Name := "telegraf-config"; MountPath := "/etc/telegraf" |}];
                            ImagePullPolicy := "IfNotPresent" |}] |} |}.

Section Config.
Context `{R : MapRange} `{G : SliceGrow} (Encode : telegrafConfig -> res string string).

(** The default input of a metric sink: the pods of its namespace. *)
Definition prometheus_row (ns : string) : row :=
  Some (<["monitor_kubernetes_pods" := ABool true]> {["monitor_kubernetes_pods_namespace" := AString ns]}).

(** [metricSinkConfig]: every array is its own, so the heap starts empty and
    is dropped at the end.  Its only ranges build maps, so that, whatever the
    order [R] of a call, the result is that of [metricSinkConfig_text].  The
    second component is what is printed to the log. *)
Definition metricSinkConfig (clusterName : string) (ms : MetricSink) : string * list string :=
  let tags := if negb (String.eqb clusterName EmptyString)
              then Some {["cluster_name" := clusterName]} else None in
  let '(h, s) := new_slice ∅ [prometheus_row (Namespace (ms_ObjectMeta ms))] in
  let config := {| b_heap := h; b_Inputs := <["prometheus" := s]> ∅; b_Outputs := ∅ |} in
  let config := appendInputsAndOutputs config (default [] (Inputs (ms_Spec ms))) (default [] (Outputs (ms_Spec ms))) in
  telegrafConfig_String Encode
    {| GlobalTags := tags;
       t_Inputs := read (b_heap config) <$> b_Inputs config;
       t_Outputs := read (b_heap config) <$> b_Outputs config |}.

Definition getTelegrafConfigMap (clusterName : string) (ms : MetricSink) : ConfigMap * list string :=
  let config := metricSinkConfig clusterName ms in
  ({| cm_ObjectMeta := meta_of EmptyString ms;
      Data := <["telegraf.conf" := DefaultTelegrafConf]> {["metric-sinks.conf" := config.1]} |}, config.2).

End Config.

(** ** The controller of namespaced sinks *)

(** The API server and the log. *)
Record kstate (W : Type) : Type := MkKstate { k_world : W; k_logs : list string }.
Arguments MkKstate {W}.
Arguments k_world {W}.
Arguments k_logs {W}.

Definition Printf {W} (fmt : string) (err : string) (st : kstate W) : kstate W :=
  {| k_world := k_world st; k_logs := k_logs st ++ [Sprintf fmt [FStr err]] |}.

(** The lines printed while the argument of a request is made. *)
Definition log_lines {W} (lines : list string) (st : kstate W) : kstate W :=
  {| k_world := k_world st; k_logs := k_logs st ++ lines |}.

Section Handlers.
Context {W : Type} `{A : KubeAPI W} `{R : MapRange} `{G : SliceGrow}.
Context (Encode : telegrafConfig -> res string string) (clusterName : string).

Definition send_request (r : request) (st : kstate W) : kstate W * option string :=
  let '(w, err) := do_request r (k_world st) in
  ({| k_world := w; k_logs := k_logs st |}, err).

(** [OnAdd] also sets the type of the object it is given: the second component
    is that object afterwards. *)
Definition Controller_OnAdd (o : obj) (st : kstate W) : kstate W * obj :=
  match o with
  | AMetricSink ms =>
      let ms := setDefaultTypeMeta ms in
      let ns := Namespace (ms_ObjectMeta ms) in
      let '(st, err) := send_request (Create ns (ARole (getTelegrafRole ms))) st in
      match err with
      | Some e => (Printf ("Unable to create role: %s" +:+ nl) e st, AMetricSink ms)
      | None =>
      let '(st, err) := send_request (Create ns (ARoleBinding (getTelegrafRoleBinding ms))) st in
      match err with
      | Some e => (Printf ("Unable to create role binding: %s" +:+ nl) e st, AMetricSink ms)
      | None =>
      let '(cm, lines) := getTelegrafConfigMap Encode clusterName ms in
      let '(st, err) := send_request (Create ns (AConfigMap cm)) (log_lines lines st) in
      match err with
      | Some e => (Printf ("Unable to create config map: %s" +:+ nl) e st, AMetricSink ms)
      | None =>
      let '(st, err) := send_request (Create ns (ADeployment (getTelegrafDeployment ms))) st in
      match err with
      | Some e => (Printf ("Unable to create deployment: %s" +:+ nl) e st, AMetricSink ms)
      | None => (st, AMetricSink ms)
      end end end end
  | _ => (st, o)
  end.

Definition Controller_OnUpdate (o n : obj) (st : kstate W) : kstate W :=
  match o with
  | AMetricSink oms =>
      match n with
      | AMetricSink nms =>
          if MetricSinkSpec_DeepEqual (ms_Spec oms) (ms_Spec nms) then st
          else
            let ns := Namespace (ms_ObjectMeta nms) in
            let '(cm, lines) := getTelegrafConfigMap Encode clusterName nms in
            let '(st, err) := send_request (Update ns (AConfigMap cm)) (log_lines lines st) in
            match err with
            | Some e => Printf ("Unable to update config map: %s" +:+ nl) e st
            | None =>
                let '(st, err) := send_request (DeletePods ns (Sprintf "app=%s" [FStr (getAppName nms)])) st in
                match err with
                | Some e => Printf ("Unable to delete pod collection: %s" +:+ nl) e st
                | None => st
                end
            end
      | _ => st
      end
  | _ => st
  end.

Definition Controller_OnDelete (o : obj) (st : kstate W) : kstate W :=
  match o with
  | AMetricSink ms =>
      let name := getAppName ms in
      let ns := Namespace (ms_ObjectMeta ms) in
      let '(st, err) := send_request (Delete ConfigMapKind ns name) st in
      match err with
      | Some e => Printf ("Unable to delete config map: %s" +:+ nl) e st
      | None =>
      let '(st, err) := send_request (Delete DeploymentKind ns name) st in
      match err with
      | Some e => Printf ("Unable to delete deployment: %s" +:+ nl) e st
      | None =>
      let '(st, err) := send_request (Delete RoleBindingKind ns name) st in
      match err with
      | Some e => Printf ("Unable to delete role binding: %s" +:+ nl) e st
      | None =>
      let '(st, err) := send_request (Delete RoleKind ns name) st in
      match err with
      | Some e => Printf ("Unable to delete role: %s" +:+ nl) e st
      | None => st
      end end end end
  | _ => st
  end.

End Handlers.

(** ** Plans

    A handler sends the requests of its plan in order and stops at the first
    error, which it logs.  Making the config map of a request may print a line
    of its own before the request is sent. *)

Inductive event : Type := MAdd (o : obj) | MUpdate (o n : obj) | MDelete (o : obj).

(** Each request with the lines printed before it is sent and the format of
    the message for its error. *)
Definition plan : Type := list (request * (list string * string)).

Section Plans.
Context {W : Type} `{A : KubeAPI W} `{R : MapRange} `{G : SliceGrow}.
Context (Encode : telegrafConfig -> res string string) (clusterName : string).

Definition handle_metric (ev : event) (st : kstate W) : kstate W :=
  match ev with
  | MAdd o => (Controller_OnAdd Encode clusterName o st).1
  | MUpdate o n => Controller_OnUpdate Encode clusterName o n st
  | MDelete o => Controller_OnDelete o st
  end.

Definition add_plan (ms : MetricSink) : plan :=
  let ns := Namespace (ms_ObjectMeta ms) in
  let '(cm, lines) := getTelegrafConfigMap Encode clusterName ms in
  [(Create ns (ARole (getTelegrafRole ms)), ([], "Unable to create role: %s" +:+ nl));
   (Create ns (ARoleBinding (getTelegrafRoleBinding ms)), ([], "Unable to create role binding: %s" +:+ nl));
   (Create ns (AConfigMap cm), (lines, "Unable to create config map: %s" +:+ nl));
   (Create ns (ADeployment (getTelegrafDeployment ms)), ([], "Unable to create deployment: %s" +:+ nl))].

Definition update_plan (ms : MetricSink) : plan :=
  let ns := Namespace (ms_ObjectMeta ms) in
  let '(cm, lines) := getTelegrafConfigMap Encode clusterName ms in
  [(Update ns (AConfigMap cm), (lines, "Unable to update config map: %s" +:+ nl));
   (DeletePods ns ("app=" +:+ getAppName ms), ([], "Unable to delete pod collection: %s" +:+ nl))].

Definition delete_plan (ms : MetricSink) : plan :=
  let ns := Namespace (ms_ObjectMeta ms) in
  let name := getAppName ms in
  [(Delete ConfigMapKind ns name, ([], "Unable to delete config map: %s" +:+ nl));
   (Delete DeploymentKind ns name, ([], "Unable to delete deployment: %s" +:+ nl));
   (Delete RoleBindingKind ns name, ([], "Unable to delete role binding: %s" +:+ nl));
   (Delete RoleKind ns name, ([], "Unable to delete role: %s" +:+ nl))].

Definition plan_of (ev : event) : plan :=
  match ev with
  | MAdd (AMetricSink ms) => add_plan (setDefaultTypeMeta ms)
  | MUpdate (AMetricSink o) (AMetricSink n) =>
      if MetricSinkSpec_DeepEqual (ms_Spec o) (ms_Spec n) then [] else update_plan n
  | MDelete (AMetricSink ms) => delete_plan ms
  | _ => []
  end.

Fixpoint attempt (p : plan) (st : kstate W) : kstate W :=
  match p with
  | [] => st
  | (r, (lines, fmt)) :: p' =>
      let '(st, err) := send_request r (log_lines lines st) in
      match err with
      | Some e => Printf fmt e st
      | None => attempt p' st
      end
  end.

Lemma selector_text ms : Sprintf "app=%s" [FStr (getAppName ms)] = "app=" +:+ getAppName ms.
Proof. cbn. by rewrite str_app_nil_r. Qed.

#[local] Arguments Printf : simpl never.
#[local] Arguments send_request : simpl never.
#[local] Arguments getAppName : simpl never.
#[local] Arguments getTelegrafConfigMap : simpl never.
#[local] Arguments log_lines : simpl never.

Lemma log_nothing (st : kstate W) : log_lines [] st = st.
Proof. unfold log_lines. rewrite app_nil_r. by destruct st. Qed.

Lemma handle_metric_plan ev st : handle_metric ev st = attempt (plan_of ev) st.
Proof.
  destruct ev as [o|o n|o]; destruct o as [?|?|ms|?|?|?|?|?|?|?|]; try reflexivity.
  - unfold handle_metric, plan_of, Controller_OnAdd, add_plan.
    destruct (getTelegrafConfigMap _ _ _) as [cm lines]. cbn [attempt fst].
    repeat (rewrite ?log_nothing; destruct (send_request _ _) as [? [?|]]; [reflexivity|]). reflexivity.
  - destruct n as [?|?|n|?|?|?|?|?|?|?|]; try reflexivity.
    unfold handle_metric, plan_of, Controller_OnUpdate, update_plan. rewrite selector_text.
    destruct (MetricSinkSpec_DeepEqual _ _); [reflexivity|].
    destruct (getTelegrafConfigMap _ _ _) as [cm lines]. cbn [attempt].
    repeat (rewrite ?log_nothing; destruct (send_request _ _) as [? [?|]]; [reflexivity|]). reflexivity.
  - unfold handle_metric, plan_of, Controller_OnDelete, delete_plan. cbn [attempt].
    repeat (rewrite ?log_nothing; destruct (send_request _ _) as [? [?|]]; [reflexivity|]). reflexivity.
Qed.

Lemma attempt_logs p st : exists l, k_logs (attempt p st) = k_logs st ++ l.
Proof.
  revert st. induction p as [|[r [lines fmt]] p IH]; intros st; cbn [attempt]; [exists []; by rewrite app_nil_r|].
  unfold send_request, log_lines. cbn [k_world k_logs]. destruct (do_request r (k_world st)) as [w [e|]].
  - eexists. unfold Printf. cbn [k_logs]. by rewrite <- app_assoc.
  - destruct (IH {| k_world := w; k_logs := k_logs st ++ lines |}) as [l ->]. cbn [k_logs].
    eexists. by rewrite <- app_assoc.
Qed.

(** The worlds a plan goes through when it logs nothing. *)
Lemma attempt_quiet p r lines fmt st :
  k_logs (attempt ((r, (lines, fmt)) :: p) st) = k_logs st ->
  lines = [] /\ exists w, do_request r (k_world st) = (w, None)
            /\ attempt ((r, (lines, fmt)) :: p) st = attempt p {| k_world := w; k_logs := k_logs st |}.
Proof.
  cbn [attempt]. unfold send_request, log_lines. cbn [k_world k_logs].
  destruct (do_request r (k_world st)) as [w [e|]].
  - unfold Printf. cbn [k_logs]. intros E. apply (f_equal List.length) in E.
    rewrite !length_app in E. cbn in E. lia.
  - destruct (attempt_logs p {| k_world := w; k_logs := k_logs st ++ lines |}) as [l Hl]. cbn [k_logs] in Hl.
    intros E. assert (lines = []) as ->.
    { rewrite Hl, <- app_assoc in E. rewrite <- (app_nil_r (k_logs st)) in E at 2.
      by apply app_inv_head, app_eq_nil in E as [? _]. }
    split; [done|]. exists w. by rewrite app_nil_r.
Qed.

End Plans.

(** ** Objects left in the cluster *)

Section Stored.
Context {W : Type} `{KubeStore W} `{R : MapRange} `{G : SliceGrow}.
Context (Encode : telegrafConfig -> res string string) (clusterName : string).

Definition sink_objects (ms : MetricSink) : list kobj :=
  [ARole (getTelegrafRole ms); ARoleBinding (getTelegrafRoleBinding ms);
   AConfigMap (getTelegrafConfigMap Encode clusterName ms).1; ADeployment (getTelegrafDeployment ms)].

Definition store_all (ns : string) (os : list kobj) (m : gmap obj_key kobj) : gmap obj_key kobj :=
  foldl (fun m o => <[kobj_key ns o := o]> m) m os.

(** Creating objects of distinct keys, when nothing is logged. *)
Lemma attempt_creates ns (os : list (kobj * (list string * string))) (st : kstate W) :
  NoDup (map (kobj_key ns) os.*1) ->
  k_logs (attempt (map (fun kf => (Create ns kf.1, kf.2)) os) st) = k_logs st ->
  objects (k_world (attempt (map (fun kf => (Create ns kf.1, kf.2)) os) st))
    = store_all ns os.*1 (objects (k_world st))
  /\ Forall (fun o => objects (k_world st) !! kobj_key ns o = None) os.*1.
Proof.
  revert st. induction os as [|[o fmt] os IH]; intros st Hnd Hlog; cbn [map fst snd] in *; [by split|].
  destruct fmt as [lines fmt]. apply attempt_quiet in Hlog as Hq. destruct Hq as (-> & w & Hw & E). rewrite E in *.
  apply create_stores in Hw as [Hnone Hobj]. cbn [fmap list_fmap map] in Hnd.
  apply NoDup_cons in Hnd as [Hnot Hnd].
  destruct (IH _ Hnd Hlog) as [Ho Hf]. cbn [k_world] in *. rewrite Ho, Hobj. split; [done|].
  cbn [fmap list_fmap map fst]. constructor; [done|]. rewrite Forall_forall in *. intros o' Hin.
  specialize (Hf _ Hin). rewrite Hobj in Hf. rewrite lookup_insert_ne in Hf; [done|].
  intros E'. apply Hnot, list_elem_of_fmap. by exists o'.
Qed.

Lemma attempt_deletes (ks : list (kind * string * string * string)) (st : kstate W) :
  k_logs (attempt (map (fun '(k, ns, name, fmt) => (Delete k ns name, ([], fmt))) ks) st) = k_logs st ->
  objects (k_world (attempt (map (fun '(k, ns, name, fmt) => (Delete k ns name, ([], fmt))) ks) st))
    = foldl (fun m '(k, ns, name, _) => delete (k, ns, name) m) (objects (k_world st)) ks.
Proof.
  revert st. induction ks as [|[[[k ns] name] fmt] ks IH]; intros st Hlog; cbn [map foldl] in *; [done|].
  apply attempt_quiet in Hlog as Hq. destruct Hq as (_ & w & Hw & E). rewrite E in *.
  apply delete_removes in Hw as [_ Hobj]. rewrite IH by done. cbn [k_world]. by rewrite Hobj.
Qed.

Lemma sink_keys ns ms :
  map (kobj_key ns) (sink_objects ms) =
  [(RoleKind, ns, getAppName ms); (RoleBindingKind, ns, getAppName ms);
   (ConfigMapKind, ns, getAppName ms); (DeploymentKind, ns, getAppName ms)].
Proof. reflexivity. Qed.

Lemma sink_keys_distinct ns ms : NoDup (map (kobj_key ns) (sink_objects ms)).
Proof. rewrite sink_keys. repeat (apply NoDup_cons; split; [set_solver|]). constructor. Qed.

(** The requests of the plan of an added sink create its objects. *)
Lemma add_plan_requests ms :
  (add_plan Encode clusterName ms).*1 = map (Create (Namespace (ms_ObjectMeta ms))) (sink_objects ms).
Proof. reflexivity. Qed.

Lemma add_plan_creates ms :
  exists notes, List.length notes = 4
    /\ add_plan Encode clusterName ms
       = map (fun kf => (Create (Namespace (ms_ObjectMeta ms)) kf.1, kf.2)) (zip (sink_objects ms) notes).
Proof.
  unfold add_plan, sink_objects. destruct (getTelegrafConfigMap _ _ _) as [cm lines].
  by eexists [_; _; _; _].
Qed.

Lemma OnAdd_stores ms (st : kstate W) :
  let ms' := setDefaultTypeMeta ms in
  let ns := Namespace (ms_ObjectMeta ms) in
  let st' := handle_metric Encode clusterName (MAdd (AMetricSink ms)) st in
  k_logs st' = k_logs st ->
  objects (k_world st') = store_all ns (sink_objects ms') (objects (k_world st))
  /\ Forall (fun o => objects (k_world st) !! kobj_key ns o = None) (sink_objects ms').
Proof.
  cbn zeta. rewrite handle_metric_plan. cbn [plan_of].
  destruct (add_plan_creates (setDefaultTypeMeta ms)) as (notes & Hn & ->). intros Hlog.
  assert (List.length (sink_objects (setDefaultTypeMeta ms)) = 4) as Ho by done.
  pose proof (attempt_creates (Namespace (ms_ObjectMeta ms)) (zip (sink_objects (setDefaultTypeMeta ms)) notes) st) as Hc.
  rewrite fst_zip in Hc by lia. apply Hc; [apply (sink_keys_distinct _ (setDefaultTypeMeta ms))|exact Hlog].
Qed.

End Stored.

(** ** The configuration of one sink *)

Section SinkText.
Context `{R : MapRange} `{G : SliceGrow} (Encode : telegrafConfig -> res string string).

(** What the encoder is given for one sink. *)
Definition sink_tables (clusterName : string) (ms : MetricSink) : telegrafConfig :=
  {| GlobalTags := if negb (String.eqb clusterName EmptyString)
                   then Some {["cluster_name" := clusterName]} else None;
     t_Inputs := merge_rows {["prometheus" := [prometheus_row (Namespace (ms_ObjectMeta ms))]]}
                            (default [] (Inputs (ms_Spec ms)));
     t_Outputs := merge_rows ∅ (default [] (Outputs (ms_Spec ms))) |}.

Lemma metricSinkConfig_text clusterName ms :
  metricSinkConfig Encode clusterName ms = telegrafConfig_String Encode (sink_tables clusterName ms).
Proof.
  unfold metricSinkConfig. destruct (new_slice ∅ _) as [h s] eqn:Es.
  destruct (new_slice_full _ _ _ _ Es) as (Hin & Hfull & Hread & _).
  set (t := {| b_heap := h; b_Inputs := <["prometheus" := s]> ∅; b_Outputs := ∅ |}).
  assert (separate h (b_heap t) (built_side t)) as Hs.
  { apply (start_separate h {| defaultInputs := <["prometheus" := s]> ∅; clusterName := EmptyString; clusterSinks := ∅ |}).
    unfold defaults_full. cbn. apply map_Forall_insert_2; [done|apply map_Forall_empty]. }
  destruct (appendInputsAndOutputs_builds h t (default [] (Inputs (ms_Spec ms))) (default [] (Outputs (ms_Spec ms))) Hs)
    as (_ & Hc & Hi & Ho).
  set (t' := appendInputsAndOutputs t _ _) in *. unfold sink_tables.
  do 2 f_equal; apply map_eq; intros k; rewrite merge_rows_lookup.
  - apply read_table.
    + rewrite Hi. cbn [t b_Inputs]. destruct (decide (k = "prometheus")) as [->|Hne].
      * rewrite lookup_insert_eq, lookup_singleton_eq. split; intros _; left; by eexists.
      * rewrite lookup_insert_ne, lookup_singleton_ne, lookup_empty by congruence.
        split; intros [[? ?]|?]; try done; by right.
    + specialize (Hc true k). unfold content, built_side, side in Hc. cbn in Hc. rewrite Hc. f_equal.
      destruct (decide (k = "prometheus")) as [->|Hne].
      * by rewrite lookup_insert_eq, lookup_singleton_eq.
      * by rewrite lookup_insert_ne, lookup_singleton_ne, lookup_empty by congruence.
  - apply read_table.
    + rewrite Ho, !lookup_empty. split; intros [[? ?]|?]; try done; by right.
    + specialize (Hc false k). unfold content, built_side, side in Hc. cbn in Hc.
      by rewrite Hc, !lookup_empty.
Qed.

End SinkText.

(** ** The cluster controller *)

(** [ConfigMapName], and the label of the pods it restarts. *)
Definition TelegrafConfigMapName : string := "telegraf".

Record cluster_state (W : Type) : Type := MkClusterState {
  mc_heap : heap; mc_sc : ClusterConfig; mc_world : W; mc_logs : list string;
}.
Arguments MkClusterState {W}.
Arguments mc_heap {W}.
Arguments mc_sc {W}.
Arguments mc_world {W}.
Arguments mc_logs {W}.

(** [reflect.DeepEqual] of what an update reports.  Values of other types
    count as different: [OnAdd] ignores them in any case. *)
Definition obj_DeepEqual (old new : obj) : bool :=
  match old, new with
  | AClusterMetricSink a, AClusterMetricSink b => ClusterMetricSink_DeepEqual a b
  | _, _ => false
  end.

Section ClusterHandlers.
Context {W : Type} `{KubeWorld W} `{G : SliceGrow} (Encode : telegrafConfig -> res string string).

(** The part the two handlers have in common in the source, text for text.
    Each call of [String] ranges over the sinks in an order of its own. *)
Definition push_cluster_config (st : cluster_state W) : cluster_state W :=
  let '(w, R) := draw_order (mc_world st) in
  let '(h, (text, lines)) := ClusterConfig_String Encode (mc_heap st) (mc_sc st) in
  let patches := [{| Op := "replace"; Path := "/data/cluster-metric-sinks.conf"; PatchValue := text |}] in
  let '(data, err) := match json_Marshal patches with Ok d => (d, None) | Err e => (EmptyString, Some e) end in
  let lg := log_error err (mc_logs st ++ lines) in
  let '(w, err) := Patch TelegrafConfigMapName JSONPatchType data w in
  let lg := log_error err lg in
  let '(w, err) := DeleteCollection "app=telegraf" w in
  let lg := log_error err lg in
  {| mc_heap := h; mc_sc := mc_sc st; mc_world := w; mc_logs := lg |}.

Definition with_cluster_sc (c : ClusterConfig) (st : cluster_state W) : cluster_state W :=
  {| mc_heap := mc_heap st; mc_sc := c; mc_world := mc_world st; mc_logs := mc_logs st |}.

Definition ClusterController_OnAdd (o : obj) (st : cluster_state W) : cluster_state W :=
  match o with
  | AClusterMetricSink cmc => push_cluster_config (with_cluster_sc (UpsertSink cmc (mc_sc st)) st)
  | _ => st
  end.

Definition ClusterController_OnDelete (o : obj) (st : cluster_state W) : cluster_state W :=
  match o with
  | AClusterMetricSink cmc => push_cluster_config (with_cluster_sc (DeleteSink cmc (mc_sc st)) st)
  | _ => st
  end.

Definition ClusterController_OnUpdate (old new : obj) (st : cluster_state W) : cluster_state W :=
  if negb (obj_DeepEqual old new) then ClusterController_OnAdd new st else st.

Definition handle_cluster (ev : event) : cluster_state W -> cluster_state W :=
  match ev with
  | MAdd o => ClusterController_OnAdd o
  | MUpdate o n => ClusterController_OnUpdate o n
  | MDelete o => ClusterController_OnDelete o
  end.

Definition cluster_change (ev : event) : option (ClusterConfig -> ClusterConfig) :=
  match ev with
  | MAdd (AClusterMetricSink s) => Some (UpsertSink s)
  | MUpdate o (AClusterMetricSink s) => if obj_DeepEqual o (AClusterMetricSink s) then None else Some (UpsertSink s)
  | MDelete (AClusterMetricSink s) => Some (DeleteSink s)
  | _ => None
  end.

Lemma handle_cluster_change ev st :
  handle_cluster ev st = match cluster_change ev with
                         | Some f => push_cluster_config (with_cluster_sc (f (mc_sc st)) st)
                         | None => st
                         end.
Proof.
  destruct ev as [o|o n|o]; [by destruct o| |by destruct o].
  cbn [handle_cluster]. unfold ClusterController_OnUpdate.
  destruct n; cbn [cluster_change]; try (by destruct (negb _)).
  by destruct (obj_DeepEqual _ _).
Qed.

(** The handlers keep the default inputs in full arrays. *)
Definition cluster_inv (st : cluster_state W) : Prop := defaults_full (mc_heap st) (mc_sc st).

Lemma push_inv st : cluster_inv st -> cluster_inv (push_cluster_config st).
Proof.
  unfold cluster_inv, push_cluster_config. intros Hf. destruct (draw_order _) as [w R].
  destruct (String_merged Encode _ _ Hf) as [_ Hk].
  destruct (ClusterConfig_String _ _ _) as [h [text lines]]. cbn [fst] in Hk. unfold json_Marshal.
  destruct (Patch _ _ _ _) as [w1 e1]. destruct (DeleteCollection _ w1) as [w2 e2]. cbn [mc_heap mc_sc].
  by apply (defaults_kept (mc_heap st)).
Qed.

Lemma change_inv ev f st : cluster_change ev = Some f -> cluster_inv st -> cluster_inv (with_cluster_sc (f (mc_sc st)) st).
Proof.
  unfold cluster_inv, with_cluster_sc. cbn [mc_heap mc_sc].
  destruct ev as [o|o n|o]; [destruct o| |destruct o]; cbn [cluster_change]; try discriminate;
    try (by intros [= <-]). destruct n; try discriminate. destruct (obj_DeepEqual _ _); [discriminate|]. by intros [= <-].
Qed.

Lemma handle_cluster_inv ev st : cluster_inv st -> cluster_inv (handle_cluster ev st).
Proof.
  intros Hi. rewrite handle_cluster_change. destruct (cluster_change ev) as [f|] eqn:E; [|done].
  by eapply push_inv, change_inv.
Qed.

End ClusterHandlers.

Section ClusterSynced.
Context {W : Type} `{PatchServer W} `{G : SliceGrow} (Encode : telegrafConfig -> res string string).

Definition telegraf_conf (w : W) : option string :=
  config_map w TelegrafConfigMapName ≫= (.!! "cluster-metric-sinks.conf").

(** The text in the orders [R]. *)
Definition cluster_text (R : MapRange) (st : cluster_state W) : string :=
  (ClusterConfig_String Encode (mc_heap st) (mc_sc st)).2.1.

Definition cluster_synced (st : cluster_state W) : Prop :=
  exists R, telegraf_conf (mc_world st) = Some (to_valid (cluster_text R st)).

Lemma push_logs st : exists l, mc_logs (push_cluster_config Encode st) = mc_logs st ++ l.
Proof.
  unfold push_cluster_config, json_Marshal. destruct (draw_order _) as [w R].
  destruct (ClusterConfig_String _ _ _) as [h [text lines]].
  destruct (Patch _ _ _ _) as [w1 e1]. destruct (DeleteCollection _ w1) as [w2 e2]. cbn [mc_logs log_error].
  destruct (log_error_prefix e1 (mc_logs st ++ lines)) as [l1 ->].
  destruct (log_error_prefix e2 ((mc_logs st ++ lines) ++ l1)) as [l2 ->].
  exists (lines ++ l1 ++ l2). by rewrite !app_assoc.
Qed.

Lemma push_synced st :
  cluster_inv st -> mc_logs (push_cluster_config Encode st) = mc_logs st -> cluster_synced (push_cluster_config Encode st).
Proof.
  intros Hf Hlog. unfold cluster_synced, cluster_text, push_cluster_config in *.
  destruct (draw_order _) as [w R] eqn:HD. exists R.
  destruct (String_repeatable R R Encode _ _ Hf) as (_ & _ & Hrep).
  destruct (ClusterConfig_String Encode (mc_heap st) (mc_sc st)) as [h [text lines]].
  cbn [fst snd] in Hrep. unfold json_Marshal in *. cbn [log_error] in *.
  destruct (Patch _ _ _ _) as [w1 e1] eqn:HP.
  pose proof (delete_pods_data w1 "app=telegraf" TelegrafConfigMapName) as Hd.
  destruct (DeleteCollection _ w1) as [w2 e2]. cbn [mc_heap mc_sc mc_world mc_logs fst] in *.
  rewrite Hrep. cbn [fst].
  assert (e1 = None) as ->.
  { destruct e1 as [e|]; [|done]. apply (f_equal List.length) in Hlog.
    destruct e2; cbn in Hlog; rewrite !length_app in Hlog; cbn in Hlog; lia. }
  unfold telegraf_conf. rewrite Hd.
  destruct (patch_replaces _ _ _ _ "cluster-metric-sinks.conf" (to_valid text) HP) as (m & _ & _ & ->).
  - by rewrite unmarshal_marshal_patches.
  - reflexivity.
  - cbn. by rewrite lookup_insert_eq.
Qed.

Definition handle_cluster_all (evs : list event) (st : cluster_state W) : cluster_state W :=
  foldl (fun st ev => handle_cluster Encode ev st) st evs.

Definition apply_cluster_change (c : ClusterConfig) (ev : event) : ClusterConfig :=
  match cluster_change ev with Some f => f c | None => c end.

Lemma push_sc st : mc_sc (push_cluster_config Encode st) = mc_sc st.
Proof.
  unfold push_cluster_config. destruct (draw_order _) as [w R].
  destruct (ClusterConfig_String _ _ _) as [h [text lines]]. unfold json_Marshal.
  destruct (Patch _ _ _ _) as [w1 e1]. by destruct (DeleteCollection _ w1).
Qed.

Lemma handle_cluster_all_sc evs st : mc_sc (handle_cluster_all evs st) = foldl apply_cluster_change (mc_sc st) evs.
Proof.
  revert st. induction evs as [|ev evs IH]; intros st; [done|]. unfold handle_cluster_all in *. cbn [foldl].
  rewrite IH, handle_cluster_change. f_equal. unfold apply_cluster_change.
  destruct (cluster_change ev); [by rewrite push_sc|done].
Qed.

Lemma handle_cluster_all_inv evs st : cluster_inv st -> cluster_inv (handle_cluster_all evs st).
Proof.
  revert st. induction evs as [|ev evs IH]; intros st Hi; [done|]. by apply IH, handle_cluster_inv.
Qed.

Lemma handle_cluster_logs ev st : exists l, mc_logs (handle_cluster Encode ev st) = mc_logs st ++ l.
Proof.
  rewrite handle_cluster_change. destruct (cluster_change ev) as [f|].
  - apply (push_logs (with_cluster_sc (f (mc_sc st)) st)).
  - exists []. by rewrite app_nil_r.
Qed.

Lemma handle_cluster_all_logs evs st : exists l, mc_logs (handle_cluster_all evs st) = mc_logs st ++ l.
Proof.
  revert st. induction evs as [|ev evs IH]; intros st; [exists []; by rewrite app_nil_r|].
  destruct (IH (handle_cluster Encode ev st)) as [l2 E2]. destruct (handle_cluster_logs ev st) as [l1 E1].
  exists (l1 ++ l2). unfold handle_cluster_all in *. cbn [foldl]. by rewrite E2, E1, app_assoc.
Qed.

Lemma handle_cluster_all_synced evs st :
  cluster_inv st -> Exists (fun ev => is_Some (cluster_change ev)) evs ->
  mc_logs (handle_cluster_all evs st) = mc_logs st -> cluster_synced (handle_cluster_all evs st).
Proof.
  intros Hinv Hex. induction evs as [|ev evs IH] using rev_ind; [by inversion Hex|].
  assert (handle_cluster_all (evs ++ [ev]) st = handle_cluster Encode ev (handle_cluster_all evs st)) as ->
    by (unfold handle_cluster_all; by rewrite foldl_app).
  intros Hlog. set (s := handle_cluster_all evs st) in *.
  assert (mc_logs s = mc_logs st /\ mc_logs (handle_cluster Encode ev s) = mc_logs s) as [E1 E2].
  { destruct (handle_cluster_logs ev s) as [l2 E2]. destruct (handle_cluster_all_logs evs st) as [l1 E1]. fold s in E1.
    rewrite E2, E1, <- app_assoc in Hlog. rewrite <- (app_nil_r (mc_logs st)) in Hlog at 2.
    apply app_inv_head, app_eq_nil in Hlog as [-> ->]. rewrite E2, E1. by rewrite !app_nil_r. }
  rewrite handle_cluster_change in *. destruct (cluster_change ev) as [f|] eqn:Hev.
  - apply push_synced; [|done]. eapply change_inv; [done|]. by apply handle_cluster_all_inv.
  - apply IH; [|done]. apply Exists_app in Hex as [?|Hex]; [done|].
    inversion Hex as [? ? Hs|? ? Hs]; subst; [|by inversion Hs]. rewrite Hev in Hs. by destruct Hs.
Qed.

End ClusterSynced.

(** ** Properties *)

(** What a plan sends and logs after the requests [hist] of the past: it goes
    on as long as the answers are successes. *)
Inductive goes (answer : list request -> request -> option string) :
    list request -> plan -> list request -> list string -> Prop :=
| goes_done hist : goes answer hist [] [] []
| goes_fail hist r before fmt p e :
    answer hist r = Some e ->
    goes answer hist ((r, (before, fmt)) :: p) [r] (before ++ [Sprintf fmt [FStr e]])
| goes_on hist r before fmt p sent lines :
    answer hist r = None -> goes answer (hist ++ [r]) p sent lines ->
    goes answer hist ((r, (before, fmt)) :: p) (r :: sent) (before ++ lines).

(** The line of the encoder for the configuration of a sink: none unless the
    configuration has inputs and outputs and the encoder fails on it. *)
Definition encoder_lines (Encode : telegrafConfig -> res string string) (t : telegrafConfig) : list string :=
  match Encode t with
  | Err err => if bool_decide (t_Outputs t = ∅) then [] else ["Unable to encode telegraf config: " +:+ err]
  | Ok _ => []
  end.

Lemma metricSinkConfig_lines `{R : MapRange} `{G : SliceGrow} Encode clusterName ms :
  (metricSinkConfig Encode clusterName ms).2 = encoder_lines Encode (sink_tables clusterName ms).
Proof.
  rewrite metricSinkConfig_text. unfold telegrafConfig_String, encoder_lines.
  assert ((size (t_Inputs (sink_tables clusterName ms)) =? 0)%nat = false) as ->.
  { apply Nat.eqb_neq. rewrite map_size_empty_iff. unfold sink_tables. cbn [t_Inputs]. rewrite merge_rows_empty.
    intros [E _]. apply (f_equal (.!! "prometheus")) in E. rewrite lookup_singleton_eq, lookup_empty in E. done. }
  cbn [orb]. destruct (Nat.eqb_spec (size (t_Outputs (sink_tables clusterName ms))) 0) as [E|E];
    rewrite map_size_empty_iff in E; destruct (Encode _) as [|err]; cbn [snd]; try done.
  - by rewrite bool_decide_eq_true_2.
  - rewrite bool_decide_eq_false_2 by done. cbn. by rewrite (str_app_nil_r err).
Qed.

(** C27: Whatever the API server answers, a handler sends the requests of its
    plan one by one, stops at the first that fails, and logs that error.  The
    plan of an added sink is to create its role, role binding, config map and
    deployment; of a deleted one, to delete the config map, the deployment,
    the role binding and the role; of an update that changes the spec, to
    update the config map and delete the pods; of anything else, nothing.
    Before the request with the config map, and before no other, the encoder's
    error is logged if it fails on the sink's configuration, whose text is then
    empty and is sent all the same; nothing else is logged. *)
Theorem metric_handler_requests `{R : MapRange} `{G : SliceGrow} Encode clusterName answer ev
    (st : kstate (list request)) :
  let st' := @handle_metric _ (recorder answer) R G Encode clusterName ev st in
  (exists sent lines,
    goes answer (k_world st) (plan_of Encode clusterName ev) sent lines
    /\ k_world st' = k_world st ++ sent /\ k_logs st' = k_logs st ++ lines)
  /\ forall ms, let err_lines := encoder_lines Encode (sink_tables clusterName ms) in
       let plan_lines := fun p : plan => p.*2.*1 in
       plan_lines (plan_of Encode clusterName (MAdd (AMetricSink ms))) = [[]; []; err_lines; []]
       /\ plan_lines (plan_of Encode clusterName (MDelete (AMetricSink ms))) = [[]; []; []; []]
       /\ forall o, plan_lines (plan_of Encode clusterName (MUpdate (AMetricSink o) (AMetricSink ms)))
                    = if MetricSinkSpec_DeepEqual (ms_Spec o) (ms_Spec ms) then [] else [err_lines; []].
Proof.
  cbn zeta. split.
  - rewrite (@handle_metric_plan _ (recorder answer)). generalize (plan_of Encode clusterName ev). intros p.
    revert st. induction p as [|[r [before fmt]] p IH]; intros st; cbn [attempt].
    + exists [], []. rewrite !app_nil_r. split_and!; [constructor|done..].
    + unfold send_request, log_lines. cbn [do_request recorder k_world k_logs].
      destruct (answer (k_world st) r) as [e|] eqn:Ha.
      * exists [r], (before ++ [Sprintf fmt [FStr e]]). split_and!; [by constructor|done|].
        unfold Printf. cbn [k_logs]. by rewrite <- app_assoc.
      * destruct (IH {| k_world := k_world st ++ [r]; k_logs := k_logs st ++ before |}) as (sent & lines & Hg & Hw & Hl).
        exists (r :: sent), (before ++ lines). cbn [k_world k_logs] in *. rewrite Hw, Hl, <- !app_assoc.
        split_and!; [by apply goes_on|done..].
  - intros ms. split_and!; [|done|].
    + rewrite <- (metricSinkConfig_lines Encode clusterName ms). done.
    + intros o. cbn [plan_of]. destruct (MetricSinkSpec_DeepEqual _ _); [done|].
      rewrite <- (metricSinkConfig_lines Encode clusterName ms). done.
Qed.

(** An [OnAdd] that logs nothing leaves exactly the four objects of the
    sink more than there were, none of which existed; the [OnDelete] of the
    sink, if it logs nothing either, leaves the objects as they were before. *)
Lemma OnAdd_OnDelete_restores {W} `{KubeStore W} `{R : MapRange} `{G : SliceGrow} Encode clusterName ms
    (st : kstate W) :
  let st1 := handle_metric Encode clusterName (MAdd (AMetricSink ms)) st in
  let st2 := handle_metric Encode clusterName (MDelete (AMetricSink ms)) st1 in
  let ns := Namespace (ms_ObjectMeta ms) in
  k_logs st2 = k_logs st ->
  objects (k_world st1) = store_all ns (sink_objects Encode clusterName (setDefaultTypeMeta ms)) (objects (k_world st))
  /\ Forall (fun o => objects (k_world st) !! kobj_key ns o = None)
            (sink_objects Encode clusterName (setDefaultTypeMeta ms))
  /\ objects (k_world st2) = objects (k_world st).
Proof.
  intros st1 st2 ns Hlog.
  assert (k_logs st1 = k_logs st /\ k_logs st2 = k_logs st1) as [Hl1 Hl2].
  { unfold st2, st1 in *. rewrite !handle_metric_plan in *.
    destruct (attempt_logs (plan_of Encode clusterName (MAdd (AMetricSink ms))) st) as [l1 E1].
    destruct (attempt_logs (plan_of Encode clusterName (MDelete (AMetricSink ms)))
                (attempt (plan_of Encode clusterName (MAdd (AMetricSink ms))) st)) as [l2 E2].
    rewrite E2, E1, <- app_assoc in Hlog. rewrite <- (app_nil_r (k_logs st)) in Hlog at 2.
    apply app_inv_head, app_eq_nil in Hlog as [-> ->]. rewrite E2, E1. by rewrite !app_nil_r. }
  destruct (OnAdd_stores Encode clusterName ms st Hl1) as [Ho Hf]. split_and!; [done|done|].
  assert (objects (k_world st2)
          = delete (RoleKind, ns, getAppName ms) (delete (RoleBindingKind, ns, getAppName ms)
              (delete (DeploymentKind, ns, getAppName ms)
                (delete (ConfigMapKind, ns, getAppName ms) (objects (k_world st1)))))) as ->.
  { unfold st2 in *. rewrite handle_metric_plan in *. cbn [plan_of] in *.
    apply (attempt_deletes [(ConfigMapKind, ns, getAppName ms, "Unable to delete config map: %s" +:+ nl);
      (DeploymentKind, ns, getAppName ms, "Unable to delete deployment: %s" +:+ nl);
      (RoleBindingKind, ns, getAppName ms, "Unable to delete role binding: %s" +:+ nl);
      (RoleKind, ns, getAppName ms, "Unable to delete role: %s" +:+ nl)] st1 Hl2). }
  fold st1 in Ho. rewrite Ho. apply map_eq. intros k.
  repeat (apply Forall_cons in Hf as [? Hf]).
  unfold store_all, sink_objects. cbn [foldl].
  destruct (decide (k = (RoleKind, ns, getAppName ms))) as [->|N1]; [by rewrite lookup_delete_eq|].
  rewrite lookup_delete_ne by done.
  destruct (decide (k = (RoleBindingKind, ns, getAppName ms))) as [->|N2]; [by rewrite lookup_delete_eq|].
  rewrite lookup_delete_ne by done.
  destruct (decide (k = (DeploymentKind, ns, getAppName ms))) as [->|N3]; [by rewrite lookup_delete_eq|].
  rewrite lookup_delete_ne by done.
  destruct (decide (k = (ConfigMapKind, ns, getAppName ms))) as [->|N4]; [by rewrite lookup_delete_eq|].
  rewrite lookup_delete_ne by done.
  rewrite !lookup_insert_ne; [done|..]; by intros <-.
Qed.

(** If the role of a sink already exists, as it does whenever the
    controller restarts, [OnAdd] changes no object, logs one line, and so
    never brings the config map up to date with the sink. *)
Lemma OnAdd_existing_role {W} `{KubeStore W} `{R : MapRange} `{G : SliceGrow} Encode clusterName ms (st : kstate W) :
  is_Some (objects (k_world st) !! (RoleKind, Namespace (ms_ObjectMeta ms), getAppName ms)) ->
  let st' := handle_metric Encode clusterName (MAdd (AMetricSink ms)) st in
  objects (k_world st') = objects (k_world st) /\ exists line, k_logs st' = k_logs st ++ [line].
Proof.
  intros [o Ho]. cbn zeta. rewrite handle_metric_plan. cbn [plan_of]. unfold add_plan, getTelegrafConfigMap.
  cbn [attempt]. rewrite log_nothing. unfold send_request.
  destruct (do_request _ (k_world st)) as [w [e|]] eqn:Hr.
  - cbn [k_world Printf]. split; [by eapply failure_keeps|by eexists].
  - apply create_stores in Hr as [Hn _].
    exfalso. assert (None = Some o) by (rewrite <- Hn; exact Ho). done.
Qed.

(** [OnAdd] defaults the type of the sink, so the objects it creates are
    owned by a MetricSink of the API group; [OnUpdate] does not, so an update
    that succeeds replaces the config map's owner with a reference that has
    the kind and version of the new object, both empty when the object came
    without them. *)
Lemma OnUpdate_owner {W} `{KubeStore W} `{R : MapRange} `{G : SliceGrow} Encode clusterName o n (st : kstate W) :
  MetricSinkSpec_DeepEqual (ms_Spec o) (ms_Spec n) = false ->
  let st' := handle_metric Encode clusterName (MUpdate (AMetricSink o) (AMetricSink n)) st in
  k_logs st' = k_logs st ->
  (exists c, objects (k_world st') !! (ConfigMapKind, Namespace (ms_ObjectMeta n), getAppName n) = Some (AConfigMap c)
     /\ metricSinkConfig Encode clusterName n = (default EmptyString (Data c !! "metric-sinks.conf"), [])
     /\ OwnerReferences (cm_ObjectMeta c) = Some [owner_of n]
     /\ or_Kind (owner_of n) = Kind (ms_TypeMeta n) /\ or_APIVersion (owner_of n) = APIVersion (ms_TypeMeta n))
  /\ or_Kind (owner_of (setDefaultTypeMeta n)) <> EmptyString
  /\ or_APIVersion (owner_of (setDefaultTypeMeta n)) <> EmptyString.
Proof.
  intros Hne st' Hlog. split.
  - unfold st' in *. rewrite handle_metric_plan in *. cbn [plan_of] in *. rewrite Hne in *.
    unfold update_plan, getTelegrafConfigMap in *. cbn zeta iota beta in *.
    apply attempt_quiet in Hlog as Hq. destruct Hq as (Hlines & w & Hw & E). rewrite E in *.
    apply update_replaces in Hw as [_ Hobj].
    destruct (attempt_quiet _ _ _ _ {| k_world := w; k_logs := k_logs st |} Hlog) as (_ & w2 & Hw2 & E2).
    rewrite E2. cbn [attempt k_world].
    cbn [k_world] in Hw2.
    pose proof (delete_pods_keeps w (Namespace (ms_ObjectMeta n)) ("app=" +:+ getAppName n)) as Hd.
    rewrite Hw2 in Hd. cbn [fst] in Hd. rewrite Hd, Hobj.
    exists (getTelegrafConfigMap Encode clusterName n).1.
    change (kobj_key _ _) with (ConfigMapKind, Namespace (ms_ObjectMeta n), getAppName n).
    rewrite lookup_insert_eq. split_and!; [done| |done..]. rewrite <- Hlines.
    unfold getTelegrafConfigMap. cbn [fst Data]. rewrite lookup_insert_ne, lookup_singleton_eq by done.
    apply surjective_pairing.
  - unfold owner_of, setDefaultTypeMeta. cbn [or_Kind or_APIVersion ms_TypeMeta Kind APIVersion].
    split; case_match eqn:E; [done|by apply String.eqb_neq|done|by apply String.eqb_neq].
Qed.

(** The configuration of a sink is the encoding of a prometheus input for
    the pods of its namespace and, for each type and in the order of the
    spec, one row for each of the sink's inputs and outputs of that type; it
    is the discard configuration when no output has a string type. *)
Lemma metricSinkConfig_tables `{R : MapRange} `{G : SliceGrow} Encode clusterName ms :
  metricSinkConfig Encode clusterName ms = telegrafConfig_String Encode (sink_tables clusterName ms)
  /\ (forall k, t_Inputs (sink_tables clusterName ms) !! k =
        table_at (if decide (k = "prometheus") then Some [prometheus_row (Namespace (ms_ObjectMeta ms))] else None)
                 (rows_of k (default [] (Inputs (ms_Spec ms)))))
  /\ (forall k, t_Outputs (sink_tables clusterName ms) !! k =
        table_at None (rows_of k (default [] (Outputs (ms_Spec ms)))))
  /\ (existsb has_type (default [] (Outputs (ms_Spec ms))) = false ->
      metricSinkConfig Encode clusterName ms = (emptyConfig, [])).
Proof.
  rewrite metricSinkConfig_text. split_and!; [done| | |].
  - intros k. unfold sink_tables. cbn [t_Inputs]. rewrite merge_rows_lookup. f_equal.
    destruct (decide _) as [->|Hne]; [by rewrite lookup_singleton_eq|by rewrite lookup_singleton_ne].
  - intros k. unfold sink_tables. cbn [t_Outputs]. by rewrite merge_rows_lookup, lookup_empty.
  - intros Hn. unfold telegrafConfig_String.
    assert (t_Outputs (sink_tables clusterName ms) = ∅) as -> by by apply merge_rows_empty.
    by rewrite map_size_empty, orb_true_r.
Qed.

(** The objects of a sink fit together: all have the name, namespace and
    owner of the sink; the role binding gives that role to the default service
    account of the namespace; the deployment selects the pods of its template,
    mounts the volume that shows the config map created with it where telegraf
    looks for its configuration, and an update deletes exactly the pods with
    the labels the template gives them. *)
Lemma sink_objects_fit `{R : MapRange} `{G : SliceGrow} Encode clusterName ms :
  let d := getTelegrafDeployment ms in
  let cm := (getTelegrafConfigMap Encode clusterName ms).1 in
  let b := getTelegrafRoleBinding ms in
  Forall (fun o => Name (kobj_meta o) = getAppName ms /\ Namespace (kobj_meta o) = Namespace (ms_ObjectMeta ms)
                   /\ OwnerReferences (kobj_meta o) = Some [owner_of ms])
         (sink_objects Encode clusterName ms)
  /\ ref_Name (rb_RoleRef b) = Name (role_ObjectMeta (getTelegrafRole ms)) /\ ref_Kind (rb_RoleRef b) = "Role"
  /\ Subjects b = [MkSubject "ServiceAccount" "default" (Namespace (ms_ObjectMeta ms))]
  /\ Selector d = pod_Labels (Template d)
  /\ (forall k, is_Some (Data cm !! k) <-> k = "telegraf.conf" \/ k = "metric-sinks.conf")
  /\ (exists v m c, Volumes (Template d) = [v] /\ Containers (Template d) = [c] /\ VolumeMounts c = [m]
        /\ vol_ConfigMap v = Name (cm_ObjectMeta cm) /\ mount_Name m = vol_Name v
        /\ Command c = ["telegraf"; "--config-directory"; MountPath m])
  /\ exists app r1 f1 f2, (update_plan Encode clusterName ms)
       = [(r1, f1); (DeletePods (Namespace (ms_ObjectMeta ms)) ("app=" +:+ app), f2)]
       /\ pod_Labels (Template d) = {["app" := app]}.
Proof.
  cbn zeta. split_and!; try done.
  - repeat (apply Forall_cons; split; [done|]). by apply Forall_nil.
  - intros k. unfold getTelegrafConfigMap. cbn [fst Data].
    rewrite lookup_insert_is_Some', lookup_singleton_is_Some. naive_solver.
  - eexists _, _, _. by split_and!.
  - eexists _, _, _, _. by split.
Qed.

(** After any reports about cluster metric sinks that changed something,
    if nothing was logged, the cluster-metric-sinks.conf of telegraf's config
    map is the text of the current configuration in some order of its sinks; the
    configuration has all the upserts and deletions in it. *)
Lemma cluster_metrics_follow {W} `{PatchServer W} `{G : SliceGrow} Encode evs (st : cluster_state W) :
  cluster_inv st -> Exists (fun ev => is_Some (cluster_change ev)) evs ->
  let st' := handle_cluster_all Encode evs st in
  mc_logs st' = mc_logs st ->
  (exists R, telegraf_conf (mc_world st') = Some (to_valid (cluster_text Encode R st')))
  /\ mc_sc st' = foldl apply_cluster_change (mc_sc st) evs.
Proof.
  intros Hinv Hex st' Hlog. split; [by apply handle_cluster_all_synced|apply handle_cluster_all_sc].
Qed.

(** ** Concrete runs *)

Definition sample_metric (ins outs : list (gmap string any)) : MetricSink :=
  {| ms_TypeMeta := MkTypeMeta EmptyString EmptyString;
     ms_ObjectMeta :=
       {| Name := "web"; GenerateName := EmptyString; Namespace := "ns1"; SelfLink := EmptyString;
          UID := "u1"; ResourceVersion := EmptyString; Generation := 0; CreationTimestamp := 0;
          DeletionTimestamp := None; DeletionGracePeriodSeconds := None; Labels := None; Annotations := None;
          OwnerReferences := None; meta_Initializers := None; Finalizers := None; ClusterName := EmptyString |};
     ms_Spec := {| Inputs := Some (map Some ins); Outputs := Some (map Some outs) |};
     ms_Status := {| ss_State := EmptyString; LastSuccessfulSend := 0; LastError := None; LastErrorTime := None |} |}.

Definition metric_v1 : MetricSink := sample_metric [] [{["type" := AString "datadog"]}].
Definition metric_v2 : MetricSink := sample_metric [{["type" := AString "cpu"]}] [{["type" := AString "datadog"]}].

Definition sample_kstate : kstate store := {| k_world := ∅; k_logs := [] |}.

Definition run_metric (evs : list event) : kstate store :=
  foldl (fun st ev => @handle_metric _ _ map_order double show_types "prod" ev st) sample_kstate evs.

Lemma OnAdd_OnDelete_restores_witness :
  objects (k_world (run_metric [MAdd (AMetricSink metric_v1); MDelete (AMetricSink metric_v1)])) = ∅.
Proof.
  refine (proj2 (proj2 (@OnAdd_OnDelete_restores _ _ _ map_order double show_types "prod" metric_v1 sample_kstate _))).
  vm_compute. reflexivity.
Defined.

Lemma OnAdd_existing_role_witness :
  exists line, k_logs (run_metric [MAdd (AMetricSink metric_v1); MAdd (AMetricSink metric_v2)]) = [line].
Proof.
  refine (proj2 (@OnAdd_existing_role _ _ _ map_order double show_types "prod" metric_v2
                   (run_metric [MAdd (AMetricSink metric_v1)]) _)).
  vm_compute. by eexists.
Defined.

Lemma OnUpdate_owner_witness :
  exists c, objects (k_world (run_metric [MAdd (AMetricSink metric_v1); MUpdate (AMetricSink metric_v1) (AMetricSink metric_v2)]))
              !! (ConfigMapKind, "ns1", "telegraf-web") = Some (AConfigMap c)
    /\ or_Kind (owner_of metric_v2) = EmptyString.
Proof.
  destruct (@OnUpdate_owner _ _ _ map_order double show_types "prod" metric_v1 metric_v2
              (run_metric [MAdd (AMetricSink metric_v1)])) as [(c & Hc & _) _].
  - vm_compute. reflexivity.
  - vm_compute. reflexivity.
  - exists c. split; [exact Hc|reflexivity].
Defined.

Lemma metricSinkConfig_tables_witness :
  @metricSinkConfig map_order double show_types "prod" (sample_metric [] []) = (emptyConfig, []).
Proof.
  apply (proj2 (proj2 (proj2 (@metricSinkConfig_tables map_order double show_types "prod" (sample_metric [] []))))).
  reflexivity.
Defined.

Definition telegraf_server : server :=
  {| config_maps := {["telegraf" := {["cluster-metric-sinks.conf" := EmptyString]}]}; pods_deleted := 0; down := false |}.

Definition sample_cluster_state : cluster_state server :=
  {| mc_heap := sample_start.1; mc_sc := sample_start.2; mc_world := telegraf_server; mc_logs := [] |}.

Lemma sample_cluster_inv : cluster_inv sample_cluster_state.
Proof.
  unfold cluster_inv, defaults_full. cbn [mc_heap mc_sc sample_cluster_state].
  apply (map_Forall_insert_2 _ _ "kubernetes" (MkSlice 1 1 1)).
  - split; [|done]. split; [cbn; lia|]. split; [by eexists|done].
  - apply map_Forall_insert_2; [|apply map_Forall_empty].
    split; [|done]. split; [cbn; lia|]. split; [by eexists|done].
Qed.

Lemma cluster_metrics_follow_witness :
  let evs := [MAdd (AClusterMetricSink (sample_metric_sink "a" [] [{["type" := AString "discard"]}]))] in
  let st' := @handle_cluster_all _ _ double show_types evs sample_cluster_state in
  mc_logs st' = []
  /\ exists R, telegraf_conf (mc_world st') = Some (to_valid (@cluster_text _ double show_types R st')).
Proof.
  cbn zeta. split; [vm_compute; reflexivity|].
  refine (proj1 (@cluster_metrics_follow _ _ _ double show_types _ _ sample_cluster_inv _ _)).
  - apply Exists_cons_hd. by eexists.
  - vm_compute. reflexivity.
Defined.
