(* ===== verification/MetricSystem.v ===== *)
(** * The metric sink controllers in the cluster

    The handlers of [MetricController] against the API server whose objects
    the informers report: what telegraf's objects are after any history of the
    metric sinks, and what the configuration of the cluster's telegraf is after
    any history of the cluster metric sinks. *)

From stdpp Require Import base gmap strings list relations.
From Stdlib Require Import Lia.
From S2P Require Import Prelude Utf8 GoStd GoJson Types SinkController MetricConfig KubeApi MetricController.

(** ** The objects of one application *)

Definition metric_id (s : MetricSink) : string * string := (Namespace (ms_ObjectMeta s), Name (ms_ObjectMeta s)).

(** Where the object of a kind is for the sink of a namespace and a name. *)
Definition app_key (i : string * string) (k : kind) : obj_key := (k, i.1, "telegraf-" +:+ i.2).

Lemma getAppName_text s : getAppName s = "telegraf-" +:+ Name (ms_ObjectMeta s).
Proof. unfold getAppName. cbn. by rewrite str_app_nil_r. Qed.

Lemma app_key_inj i j k l : app_key i k = app_key j l -> i = j /\ k = l.
Proof. destruct i as [n1 m1], j as [n2 m2]. unfold app_key. cbn. by intros [= -> -> ->]. Qed.

Definition all_kinds : list kind := [RoleKind; RoleBindingKind; ConfigMapKind; DeploymentKind].

Lemma kobj_keys s :
  map (kobj_key (Namespace (ms_ObjectMeta s))) [ARole (getTelegrafRole s); ARoleBinding (getTelegrafRoleBinding s);
    ADeployment (getTelegrafDeployment s)]
  = [app_key (metric_id s) RoleKind; app_key (metric_id s) RoleBindingKind; app_key (metric_id s) DeploymentKind].
Proof. unfold app_key, metric_id. cbn [fst snd]. by rewrite <- getAppName_text. Qed.

(** ** The history of the metric sinks *)

Notation metric_api := (gmap (string * string) MetricSink).

Inductive metric_step : metric_api -> event -> metric_api -> Prop :=
| metric_added a s : a !! metric_id s = None -> metric_step a (MAdd (AMetricSink s)) (<[metric_id s := s]> a)
| metric_updated a o n :
    a !! metric_id o = Some o -> metric_id n = metric_id o ->
    metric_step a (MUpdate (AMetricSink o) (AMetricSink n)) (<[metric_id n := n]> a)
| metric_deleted a s :
    is_Some (a !! metric_id s) -> metric_step a (MDelete (AMetricSink s)) (delete (metric_id s) a).

Inductive metric_run : metric_api -> list event -> metric_api -> Prop :=
| metric_nil a : metric_run a [] a
| metric_cons a b c ev evs : metric_step a ev b -> metric_run b evs c -> metric_run a (ev :: evs) c.

(** [v] is [s], or an older version of it since when no update has changed the
    spec, as [reflect.DeepEqual] has it. *)
Definition spec_kept (v s : MetricSink) : Prop :=
  rtc (fun a b => MetricSinkSpec_DeepEqual (ms_Spec a) (ms_Spec b) = true /\ metric_id a = metric_id b) v s.

Lemma spec_kept_id v s : spec_kept v s -> metric_id v = metric_id s.
Proof. induction 1 as [s|a b c [_ E] _ IH]; congruence. Qed.

Section Refinement.
Context {W : Type} `{KubeStore W} `{R : MapRange} `{G : SliceGrow}.
Context (Encode : telegrafConfig -> res string string) (clusterName : string).

(** The four objects that run telegraf for [s]: the role, the role binding and
    the deployment are those of the version it was created with, the config
    map has the configuration of [s]. *)
Record deployed (objs : gmap obj_key kobj) (s : MetricSink) : Prop := {
  dp_created : exists v, metric_id v = metric_id s
    /\ objs !! app_key (metric_id s) RoleKind = Some (ARole (getTelegrafRole (setDefaultTypeMeta v)))
    /\ objs !! app_key (metric_id s) RoleBindingKind = Some (ARoleBinding (getTelegrafRoleBinding (setDefaultTypeMeta v)))
    /\ objs !! app_key (metric_id s) DeploymentKind = Some (ADeployment (getTelegrafDeployment (setDefaultTypeMeta v)));
  dp_config : exists v c, spec_kept v s
    /\ objs !! app_key (metric_id s) ConfigMapKind = Some (AConfigMap c)
    /\ Data c = <["telegraf.conf" := DefaultTelegrafConf]> {["metric-sinks.conf" := (metricSinkConfig Encode clusterName v).1]};
}.

(** [objs] has the objects of the sinks of [a], and is [objs0] otherwise. *)
Record telegrafs (objs0 : gmap obj_key kobj) (a : metric_api) (objs : gmap obj_key kobj) : Prop := {
  tg_id : forall i s, a !! i = Some s -> metric_id s = i;
  tg_sink : forall i s, a !! i = Some s -> deployed objs s;
  tg_new : forall i s k, a !! i = Some s -> objs0 !! app_key i k = None;
  tg_frame : forall key, (forall i s k, a !! i = Some s -> key <> app_key i k) -> objs !! key = objs0 !! key;
}.

(** The spec of a sink is all its configuration depends on, besides its
    namespace. *)
Lemma config_setDefault s : metricSinkConfig Encode clusterName (setDefaultTypeMeta s) = metricSinkConfig Encode clusterName s.
Proof. reflexivity. Qed.

Lemma created_objects s objs :
  let objs' := store_all (Namespace (ms_ObjectMeta s)) (sink_objects Encode clusterName (setDefaultTypeMeta s)) objs in
  deployed objs' s /\ (forall key, (forall k, key <> app_key (metric_id s) k) -> objs' !! key = objs !! key).
Proof.
  unfold store_all, sink_objects. cbn [foldl]. unfold kobj_key. cbn [kobj_kind kobj_meta].
  change (Name (role_ObjectMeta (getTelegrafRole (setDefaultTypeMeta s)))) with (getAppName s).
  change (Name (rb_ObjectMeta (getTelegrafRoleBinding (setDefaultTypeMeta s)))) with (getAppName s).
  change (Name (cm_ObjectMeta (getTelegrafConfigMap Encode clusterName (setDefaultTypeMeta s)).1)) with (getAppName s).
  change (Name (dep_ObjectMeta (getTelegrafDeployment (setDefaultTypeMeta s)))) with (getAppName s).
  rewrite getAppName_text.
  change (RoleKind, Namespace (ms_ObjectMeta s), "telegraf-" +:+ Name (ms_ObjectMeta s)) with (app_key (metric_id s) RoleKind).
  change (RoleBindingKind, Namespace (ms_ObjectMeta s), "telegraf-" +:+ Name (ms_ObjectMeta s)) with (app_key (metric_id s) RoleBindingKind).
  change (ConfigMapKind, Namespace (ms_ObjectMeta s), "telegraf-" +:+ Name (ms_ObjectMeta s)) with (app_key (metric_id s) ConfigMapKind).
  change (DeploymentKind, Namespace (ms_ObjectMeta s), "telegraf-" +:+ Name (ms_ObjectMeta s)) with (app_key (metric_id s) DeploymentKind).
  assert (forall k l, k <> l -> app_key (metric_id s) k <> app_key (metric_id s) l) as Hne.
  { intros k l Hkl E%app_key_inj. by destruct E. }
  split; [split|].
  - exists s. split; [done|]. split_and!.
    + rewrite !lookup_insert_ne by (by apply Hne). by rewrite lookup_insert_eq.
    + rewrite 2!lookup_insert_ne by (by apply Hne). by rewrite lookup_insert_eq.
    + by rewrite lookup_insert_eq.
  - exists s, (getTelegrafConfigMap Encode clusterName (setDefaultTypeMeta s)).1. split; [apply rtc_refl|].
    split; [|reflexivity]. rewrite lookup_insert_ne by (by apply Hne). by rewrite lookup_insert_eq.
  - intros key Hkey. by rewrite !lookup_insert_ne by (intros E; by eapply Hkey).
Qed.

(** Objects of one application do not touch another's. *)
Lemma deployed_frame objs objs' s :
  (forall k, objs' !! app_key (metric_id s) k = objs !! app_key (metric_id s) k) -> deployed objs s -> deployed objs' s.
Proof.
  intros He [(v & Hv & H1 & H2 & H3) (u & c & Hu & H4 & Hd)]. split.
  - exists v. by rewrite !He.
  - exists u, c. by rewrite He.
Qed.

Lemma update_objects o n (st : kstate W) :
  MetricSinkSpec_DeepEqual (ms_Spec o) (ms_Spec n) = false ->
  k_logs (handle_metric Encode clusterName (MUpdate (AMetricSink o) (AMetricSink n)) st) = k_logs st ->
  objects (k_world (handle_metric Encode clusterName (MUpdate (AMetricSink o) (AMetricSink n)) st))
  = <[app_key (metric_id n) ConfigMapKind := AConfigMap (getTelegrafConfigMap Encode clusterName n).1]> (objects (k_world st)).
Proof.
  intros Hne. rewrite handle_metric_plan. cbn [plan_of]. rewrite Hne. unfold update_plan, getTelegrafConfigMap.
  cbn zeta iota beta. intros Hlog.
  destruct (attempt_quiet _ _ _ _ _ Hlog) as (_ & w & Hw & E). rewrite E in *.
  apply update_replaces in Hw as [_ Hobj].
  destruct (attempt_quiet _ _ _ _ {| k_world := w; k_logs := k_logs st |} Hlog) as (_ & w2 & Hw2 & E2).
  rewrite E2. cbn [attempt k_world] in *.
  pose proof (delete_pods_keeps w (Namespace (ms_ObjectMeta n)) ("app=" +:+ getAppName n)) as Hd.
  rewrite Hw2 in Hd. cbn [fst] in Hd. rewrite Hd, Hobj. unfold app_key, metric_id. cbn [fst snd].
  by rewrite <- getAppName_text.
Qed.

Lemma delete_objects s (st : kstate W) :
  k_logs (handle_metric Encode clusterName (MDelete (AMetricSink s)) st) = k_logs st ->
  objects (k_world (handle_metric Encode clusterName (MDelete (AMetricSink s)) st))
  = delete (app_key (metric_id s) RoleKind) (delete (app_key (metric_id s) RoleBindingKind)
      (delete (app_key (metric_id s) DeploymentKind) (delete (app_key (metric_id s) ConfigMapKind) (objects (k_world st))))).
Proof.
  rewrite handle_metric_plan. cbn [plan_of]. intros Hlog. unfold app_key, metric_id. cbn [fst snd]. rewrite <- getAppName_text.
  apply (attempt_deletes [(ConfigMapKind, Namespace (ms_ObjectMeta s), getAppName s, "Unable to delete config map: %s" +:+ nl);
    (DeploymentKind, Namespace (ms_ObjectMeta s), getAppName s, "Unable to delete deployment: %s" +:+ nl);
    (RoleBindingKind, Namespace (ms_ObjectMeta s), getAppName s, "Unable to delete role binding: %s" +:+ nl);
    (RoleKind, Namespace (ms_ObjectMeta s), getAppName s, "Unable to delete role: %s" +:+ nl)] st Hlog).
Qed.

(** ** One report *)

Lemma telegrafs_add objs0 a objs s :
  telegrafs objs0 a objs -> a !! metric_id s = None ->
  (forall k, objs !! app_key (metric_id s) k = None) ->
  telegrafs objs0 (<[metric_id s := s]> a)
    (store_all (Namespace (ms_ObjectMeta s)) (sink_objects Encode clusterName (setDefaultTypeMeta s)) objs).
Proof.
  intros [Hid Hs Hn Hf] Ha Hnone. destruct (created_objects s objs) as [Hd Hframe].
  set (objs' := store_all _ _ _) in *. clearbody objs'.
  assert (forall i t k, a !! i = Some t -> app_key (metric_id s) k <> app_key i k) as Hne.
  { intros i t k Hi [E _]%app_key_inj. congruence. }
  split.
  - intros i t [[<- <-]|[_ Hi]]%lookup_insert_Some; [done|by apply Hid].
  - intros i t [[<- <-]|[Hni Hi]]%lookup_insert_Some; [done|].
    apply (deployed_frame objs); [|by eapply Hs]. intros k. apply Hframe. intros k' [E _]%app_key_inj.
    apply Hni. rewrite <- E. by apply Hid.
  - intros i t k [[<- _]|[_ Hi]]%lookup_insert_Some; [|by eapply Hn].
    rewrite <- Hf; [done|]. intros i' t' k' Hi' [E _]%app_key_inj. congruence.
  - intros key Hkey. rewrite Hframe.
    + apply Hf. intros i t k Hi. apply (Hkey i t k). rewrite lookup_insert_ne; [done|]. congruence.
    + intros k. apply (Hkey (metric_id s) s k). by rewrite lookup_insert_eq.
Qed.

Lemma telegrafs_update objs0 a objs o n objs' :
  telegrafs objs0 a objs -> a !! metric_id o = Some o -> metric_id n = metric_id o ->
  (if MetricSinkSpec_DeepEqual (ms_Spec o) (ms_Spec n) then objs' = objs
   else objs' = <[app_key (metric_id n) ConfigMapKind := AConfigMap (getTelegrafConfigMap Encode clusterName n).1]> objs) ->
  telegrafs objs0 (<[metric_id n := n]> a) objs'.
Proof.
  intros [Hid Hs Hn Hf] Ha Hno Ho.
  assert (forall key, key <> app_key (metric_id n) ConfigMapKind -> objs' !! key = objs !! key) as Hframe.
  { intros key Hkey. destruct (MetricSinkSpec_DeepEqual _ _); subst objs'; [done|]. by rewrite lookup_insert_ne. }
  assert (deployed objs' n) as Hd.
  { destruct (Hs _ _ Ha) as [(v & Hv & H1 & H2 & H3) (u & c & Hu & H4 & Hdata)]. rewrite <- Hno in Hv, H1, H2, H3, H4. split.
    - exists v. split; [done|]. rewrite !Hframe by (by intros [_ E]%app_key_inj). done.
    - destruct (MetricSinkSpec_DeepEqual _ _) eqn:E; subst objs'.
      + exists u, c. split; [|done]. eapply rtc_r; [exact Hu|done].
      + exists n, (getTelegrafConfigMap Encode clusterName n).1. split; [apply rtc_refl|].
        split; [by rewrite lookup_insert_eq|done]. }
  split.
  - intros i t [[<- <-]|[_ Hi]]%lookup_insert_Some; [done|by apply Hid].
  - intros i t [[<- <-]|[Hni Hi]]%lookup_insert_Some; [done|].
    apply (deployed_frame objs); [|by eapply Hs]. intros k. apply Hframe. intros [E _]%app_key_inj.
    apply Hni. rewrite <- E. by apply Hid.
  - intros i t k [[<- _]|[_ Hi]]%lookup_insert_Some; [|by eapply Hn]. rewrite Hno. by eapply Hn.
  - intros key Hkey. rewrite Hframe; [|apply (Hkey (metric_id n) n); by rewrite lookup_insert_eq].
    apply Hf. intros i t k Hi. destruct (decide (i = metric_id n)) as [->|Hni].
    + apply (Hkey _ n k). by rewrite lookup_insert_eq.
    + apply (Hkey i t k). by rewrite lookup_insert_ne.
Qed.

Lemma telegrafs_delete objs0 a objs s :
  telegrafs objs0 a objs -> is_Some (a !! metric_id s) ->
  telegrafs objs0 (delete (metric_id s) a)
    (delete (app_key (metric_id s) RoleKind) (delete (app_key (metric_id s) RoleBindingKind)
      (delete (app_key (metric_id s) DeploymentKind) (delete (app_key (metric_id s) ConfigMapKind) objs)))).
Proof.
  intros [Hid Hs Hn Hf] [t0 Ha]. match goal with |- telegrafs _ _ ?m => set (objs' := m) end.
  assert (forall key, (forall k, key <> app_key (metric_id s) k) -> objs' !! key = objs !! key) as Hframe.
  { intros key Hkey. unfold objs'. by rewrite !lookup_delete_ne by (intros E; by eapply Hkey). }
  assert (forall k, objs' !! app_key (metric_id s) k = None) as Hgone.
  { intros k. unfold objs'. rewrite !lookup_delete_None.
    destruct k; [by left|right; by left|right; right; right; by left|right; right; by left]. }
  clearbody objs'. split.
  - intros i t [_ Hi]%lookup_delete_Some. by apply Hid.
  - intros i t [Hni Hi]%lookup_delete_Some. apply (deployed_frame objs); [|by eapply Hs].
    intros k. apply Hframe. intros k' [E _]%app_key_inj. apply Hni. rewrite <- E. by apply Hid.
  - intros i t k [_ Hi]%lookup_delete_Some. by eapply Hn.
  - intros key Hkey.
    destruct (decide (key ∈ map (app_key (metric_id s)) all_kinds)) as [Hin|Hni].
    + apply list_elem_of_fmap in Hin as (k & -> & _). rewrite Hgone. symmetry. by eapply Hn.
    + assert (forall k, key <> app_key (metric_id s) k) as Hk.
      { intros k ->. apply Hni, list_elem_of_fmap. exists k. split; [done|]. destruct k; unfold all_kinds; set_solver. }
      rewrite Hframe by done. apply Hf. intros i t k Hi.
      destruct (decide (i = metric_id s)) as [->|Hne]; [apply Hk|].
      apply (Hkey i t k). by rewrite lookup_delete_ne.
Qed.

Lemma telegrafs_step objs0 a ev b (st : kstate W) :
  metric_step a ev b -> telegrafs objs0 a (objects (k_world st)) ->
  k_logs (handle_metric Encode clusterName ev st) = k_logs st ->
  telegrafs objs0 b (objects (k_world (handle_metric Encode clusterName ev st))).
Proof.
  intros Hstep Ht Hlog. destruct Hstep as [a s Ha|a o n Ha Hno|a s Ha].
  - destruct (OnAdd_stores Encode clusterName s st Hlog) as [-> Hnone]. apply telegrafs_add; [done|done|].
    unfold sink_objects in Hnone. rewrite !Forall_cons in Hnone. destruct Hnone as (N1 & N2 & N3 & N4 & _).
    intros k. unfold app_key, metric_id. cbn [fst snd]. rewrite <- getAppName_text. destruct k; assumption.
  - apply (telegrafs_update _ _ (objects (k_world st)) o n); [done..|].
    destruct (MetricSinkSpec_DeepEqual (ms_Spec o) (ms_Spec n)) eqn:E; [|by apply update_objects].
    rewrite handle_metric_plan. cbn [plan_of]. by rewrite E.
  - rewrite delete_objects by done. by apply telegrafs_delete.
Qed.

Definition handle_metrics (evs : list event) (st : kstate W) : kstate W :=
  foldl (fun st ev => handle_metric Encode clusterName ev st) st evs.

Lemma handle_metrics_logs evs st : exists l, k_logs (handle_metrics evs st) = k_logs st ++ l.
Proof.
  revert st. induction evs as [|ev evs IH]; intros st; [exists []; by rewrite app_nil_r|].
  destruct (IH (handle_metric Encode clusterName ev st)) as [l2 E2]. unfold handle_metrics in *. cbn [foldl]. rewrite E2.
  rewrite handle_metric_plan. destruct (attempt_logs (plan_of Encode clusterName ev) st) as [l1 ->].
  exists (l1 ++ l2). by rewrite app_assoc.
Qed.

(** The first handler of a sequence that logs nothing logs nothing. *)
Lemma handle_metrics_quiet ev evs st :
  k_logs (handle_metrics (ev :: evs) st) = k_logs st ->
  k_logs (handle_metric Encode clusterName ev st) = k_logs st
  /\ k_logs (handle_metrics evs (handle_metric Encode clusterName ev st)) = k_logs (handle_metric Encode clusterName ev st).
Proof.
  intros Hlog. destruct (handle_metrics_logs evs (handle_metric Encode clusterName ev st)) as [l2 E2].
  destruct (handle_metrics_logs [ev] st) as [l1 E1]. unfold handle_metrics in *. cbn [foldl] in *.
  rewrite E2, E1, <- app_assoc in Hlog. rewrite <- (app_nil_r (k_logs st)) in Hlog at 2.
  apply app_inv_head, app_eq_nil in Hlog as [-> ->]. rewrite E2, E1. by rewrite !app_nil_r.
Qed.

Lemma telegrafs_run objs0 a evs b st :
  metric_run a evs b -> telegrafs objs0 a (objects (k_world st)) -> k_logs (handle_metrics evs st) = k_logs st ->
  telegrafs objs0 b (objects (k_world (handle_metrics evs st))).
Proof.
  intros Hrun. revert st. induction Hrun as [a|a b c ev evs Hstep _ IH]; intros st Ht Hlog; [done|].
  apply handle_metrics_quiet in Hlog as [H1 H2]. apply IH; [|done]. by eapply telegrafs_step.
Qed.

Lemma telegrafs_start objs : telegrafs objs ∅ objs.
Proof. split; intros *; rewrite ?lookup_empty; done. Qed.

End Refinement.

(** ** The history of the cluster metric sinks *)

Definition cluster_name (s : ClusterMetricSink) : string := Name (cms_ObjectMeta s).

Inductive cluster_step : gmap string ClusterMetricSink -> event -> gmap string ClusterMetricSink -> Prop :=
| cms_added a s : a !! cluster_name s = None -> cluster_step a (MAdd (AClusterMetricSink s)) (<[cluster_name s := s]> a)
| cms_updated a o n :
    a !! cluster_name o = Some o -> cluster_name n = cluster_name o ->
    cluster_step a (MUpdate (AClusterMetricSink o) (AClusterMetricSink n)) (<[cluster_name n := n]> a)
| cms_deleted a s :
    is_Some (a !! cluster_name s) -> cluster_step a (MDelete (AClusterMetricSink s)) (delete (cluster_name s) a).

Inductive cluster_run : gmap string ClusterMetricSink -> list event -> gmap string ClusterMetricSink -> Prop :=
| cms_nil a : cluster_run a [] a
| cms_cons a b c ev evs : cluster_step a ev b -> cluster_run b evs c -> cluster_run a (ev :: evs) c.

(** [v] is [s], or an older version of it that [reflect.DeepEqual] has not told
    from the later ones. *)
Definition cluster_kept (v s : ClusterMetricSink) : Prop :=
  rtc (fun a b => ClusterMetricSink_DeepEqual a b = true /\ cluster_name a = cluster_name b) v s.

(** The sinks of a configuration are the objects. *)
Definition cluster_mirror (c : ClusterConfig) (a : gmap string ClusterMetricSink) : Prop :=
  (forall n, option_Forall2 cluster_kept (clusterSinks c !! n) (a !! n)) /\ (forall n s, a !! n = Some s -> cluster_name s = n).

Lemma cluster_mirror_insert c a s :
  cluster_mirror c a -> cluster_mirror (UpsertSink s c) (<[cluster_name s := s]> a).
Proof.
  intros [Hm Hn]. split.
  - intros n. cbn [clusterSinks UpsertSink]. fold (cluster_name s). destruct (decide (n = cluster_name s)) as [->|Hne].
    + rewrite !lookup_insert_eq. constructor. apply rtc_refl.
    + by rewrite !lookup_insert_ne.
  - intros n t [[<- <-]|[_ Ht]]%lookup_insert_Some; [done|by apply Hn].
Qed.

Lemma cluster_mirror_step c a ev b :
  cluster_mirror c a -> cluster_step a ev b -> cluster_mirror (apply_cluster_change c ev) b.
Proof.
  intros Hm. destruct 1 as [a s Ha|a o n Ha Hno|a s Ha]; unfold apply_cluster_change; cbn [cluster_change].
  - by apply cluster_mirror_insert.
  - cbn [obj_DeepEqual]. destruct (ClusterMetricSink_DeepEqual o n) eqn:E; [|by apply cluster_mirror_insert].
    destruct Hm as [Hm Hn]. split.
    + intros k. destruct (decide (k = cluster_name n)) as [->|Hne]; [|by rewrite lookup_insert_ne].
      rewrite lookup_insert_eq. specialize (Hm (cluster_name n)). rewrite Hno, Ha in Hm.
      rewrite Hno. inversion Hm as [v ? Hv Ev|]; subst. constructor. by eapply rtc_r.
    + intros k t [[<- <-]|[_ Ht]]%lookup_insert_Some; [done|by apply Hn].
  - destruct Hm as [Hm Hn]. split.
    + intros n. cbn [clusterSinks DeleteSink]. fold (cluster_name s). destruct (decide (n = cluster_name s)) as [->|Hne].
      * rewrite !lookup_delete_eq. constructor.
      * by rewrite !lookup_delete_ne.
    + intros n t [_ Ht]%lookup_delete_Some. by apply Hn.
Qed.

Lemma cluster_mirror_run c a evs b :
  cluster_mirror c a -> cluster_run a evs b -> cluster_mirror (foldl apply_cluster_change c evs) b.
Proof.
  intros Hm Hrun. revert c Hm. induction Hrun as [a|a b c' ev evs Hstep _ IH]; intros c Hm; [done|].
  cbn [foldl]. apply IH. by eapply cluster_mirror_step.
Qed.

(** The rest of a configuration does not change. *)
Lemma apply_cluster_change_rest c ev :
  defaultInputs (apply_cluster_change c ev) = defaultInputs c
  /\ MetricConfig.clusterName (apply_cluster_change c ev) = MetricConfig.clusterName c.
Proof.
  unfold apply_cluster_change. destruct ev as [o|o n|o]; [by destruct o| |by destruct o].
  destruct n; cbn [cluster_change]; try done. by destruct (obj_DeepEqual _ _).
Qed.

Lemma cluster_changes_rest evs c :
  defaultInputs (foldl apply_cluster_change c evs) = defaultInputs c
  /\ MetricConfig.clusterName (foldl apply_cluster_change c evs) = MetricConfig.clusterName c.
Proof.
  revert c. induction evs as [|ev evs IH]; intros c; [done|]. cbn [foldl].
  destruct (IH (apply_cluster_change c ev)) as [-> ->]. apply apply_cluster_change_rest.
Qed.

(** ** Properties *)

(** Refinement: after any history of the metric sinks in which no call
    failed, each sink that exists has telegraf's four objects: role,
    role binding and deployment as their version of creation gave them and a
    config map with the configuration of the current spec; every object that
    belongs to no sink is as it was before. *)
Lemma metric_sinks_refine_api {W} `{KubeStore W} `{R : MapRange} `{G : SliceGrow} Encode clusterName
    evs a (st : kstate W) :
  metric_run ∅ evs a -> k_logs (handle_metrics Encode clusterName evs st) = k_logs st ->
  let objs := objects (k_world (handle_metrics Encode clusterName evs st)) in
  (forall i s, a !! i = Some s -> metric_id s = i /\ deployed Encode clusterName objs s)
  /\ (forall key, (forall i s k, a !! i = Some s -> key <> app_key i k) -> objs !! key = objects (k_world st) !! key)
  /\ (forall i s k, a !! i = Some s -> objects (k_world st) !! app_key i k = None).
Proof.
  intros Hrun Hlog. cbn zeta.
  destruct (telegrafs_run Encode clusterName _ _ _ _ _ Hrun (telegrafs_start _ _ _) Hlog) as [Hid Hs Hn Hf].
  split; [|split; [exact Hf|exact Hn]]. intros i s Hi. split; [by apply Hid|by eapply Hs].
Qed.

(** Refinement: after any history of the cluster metric sinks, reported to
    a controller that starts without sinks, its configuration has exactly the
    sinks that exist, each as it is up to reflect.DeepEqual, and the defaults
    and the name of the cluster it started with; and if something changed and
    nothing was logged, telegraf's cluster-metric-sinks.conf is its text in
    some order of its sinks. *)
Lemma cluster_metrics_refine_api {W} `{PatchServer W} `{G : SliceGrow} Encode
    evs a (st : cluster_state W) :
  cluster_run ∅ evs a -> cluster_inv st -> clusterSinks (mc_sc st) = ∅ ->
  let st' := handle_cluster_all Encode evs st in
  (forall n, option_Forall2 cluster_kept (clusterSinks (mc_sc st') !! n) (a !! n))
  /\ defaultInputs (mc_sc st') = defaultInputs (mc_sc st)
  /\ MetricConfig.clusterName (mc_sc st') = MetricConfig.clusterName (mc_sc st)
  /\ (Exists (fun ev => is_Some (cluster_change ev)) evs -> mc_logs st' = mc_logs st ->
      exists R, telegraf_conf (mc_world st') = Some (to_valid (cluster_text Encode R st'))).
Proof.
  intros Hrun Hinv Hempty. cbn zeta. rewrite handle_cluster_all_sc.
  destruct (cluster_changes_rest evs (mc_sc st)) as [-> ->].
  assert (cluster_mirror (mc_sc st) ∅) as Hm.
  { split; [intros n; rewrite Hempty, !lookup_empty; constructor|]. intros n s. by rewrite lookup_empty. }
  split; [apply (cluster_mirror_run _ _ _ _ Hm Hrun)|]. split; [done|]. split; [done|].
  by apply handle_cluster_all_synced.
Qed.

(** ** Witnesses *)

Definition metric_history : list event :=
  [MAdd (AMetricSink metric_v1); MUpdate (AMetricSink metric_v1) (AMetricSink metric_v2)].

Lemma metric_history_run : metric_run ∅ metric_history (<[("ns1", "web") := metric_v2]> (<[("ns1", "web") := metric_v1]> ∅)).
Proof.
  eapply metric_cons; [by apply metric_added|]. eapply metric_cons; [|apply metric_nil].
  by apply metric_updated.
Qed.

Lemma metric_sinks_refine_api_witness :
  @deployed map_order double show_types "prod" (objects (k_world (@handle_metrics _ _ map_order double show_types "prod" metric_history sample_kstate)))
    metric_v2.
Proof.
  refine (proj2 (proj1 (@metric_sinks_refine_api _ _ _ map_order double show_types "prod" metric_history _ sample_kstate
    metric_history_run _) ("ns1", "web") metric_v2 _)).
  - vm_compute. reflexivity.
  - by rewrite lookup_insert_eq.
Defined.

Definition discard_sink : ClusterMetricSink := sample_metric_sink "a" [] [{["type" := AString "discard"]}].

Lemma cluster_metrics_refine_api_witness :
  let st' := @handle_cluster_all _ _ double show_types [MAdd (AClusterMetricSink discard_sink)] sample_cluster_state in
  exists R, telegraf_conf (mc_world st') = Some (to_valid (@cluster_text _ double show_types R st')).
Proof.
  refine (proj2 (proj2 (proj2 (@cluster_metrics_refine_api _ _ _ double show_types
    [MAdd (AClusterMetricSink discard_sink)] _ sample_cluster_state _ sample_cluster_inv eq_refl))) _ _).
  - eapply cms_cons; [by apply cms_added|apply cms_nil].
  - apply Exists_cons_hd. by eexists.
  - vm_compute. reflexivity.
Defined.
