(* ===== verification/EventController.v ===== *)
(** * The event controller ([pkg/event/controller.go])

    [Controller] forwards the Kubernetes events an informer reports to
    fluent-bit and counts what it does in [expvar] counters, which are 64-bit
    integers.  The forwarder is an interface with a state of its own. *)

From stdpp Require Import base strings list.
From Stdlib Require Import ZArith Lia.
From S2P Require Import Prelude GoStd.

(** ** Counters *)

Record counters : Type := MkCounters {
  ForwarderReceived : Z;
  ForwarderUpdate : Z;
  ForwarderDelete : Z;
  ForwarderSent : Z;
  ForwarderFailed : Z;
  ForwarderConvertFailed : Z;
}.

Definition counters_zero : counters :=
  {| ForwarderReceived := 0; ForwarderUpdate := 0; ForwarderDelete := 0;
     ForwarderSent := 0; ForwarderFailed := 0; ForwarderConvertFailed := 0 |}.

(** [Add] of package expvar. *)
Definition Add (z delta : Z) : Z := int64 (z + delta).

(** ** Events *)

Record Event : Type := MkEvent {
  Message : string;
  SourceHost : string;
  InvolvedName : string;
  InvolvedNamespace : string;
}.

(** What the informer hands over: an event, or a value of the named type. *)
Inductive eobj : Type :=
| AnEvent (e : Event)
| NotEvent (type_name : string).

(** The record posted: byte strings in nested maps. *)
Inductive record : Type :=
| RBytes (s : string)
| RMap (l : list (string * record)).

Class Forwarder (W : Type) := {
  Post : string -> record -> W -> W * option string;
}.

Record estate (W : Type) : Type := MkEstate { cnt : counters; fwd : W; e_logs : list string }.
Arguments MkEstate {W}.
Arguments cnt {W}.
Arguments fwd {W}.
Arguments e_logs {W}.

Definition event_record (e : Event) : record :=
  RMap [("log", RBytes (Message e)); ("stream", RBytes "stdout");
        ("kubernetes", RMap [("host", RBytes (SourceHost e)); ("pod_name", RBytes (InvolvedName e));
                             ("namespace_name", RBytes (InvolvedNamespace e));
                             ("source_type", RBytes "k8s.event")])].

Section Handlers.
Context {W : Type} `{Forwarder W}.

Definition set_cnt (c : counters) (st : estate W) : estate W :=
  {| cnt := c; fwd := fwd st; e_logs := e_logs st |}.

Definition Println (line : string) (st : estate W) : estate W :=
  {| cnt := cnt st; fwd := fwd st; e_logs := e_logs st ++ [line] |}.

Definition add_received (c : counters) : counters :=
  {| ForwarderReceived := Add (ForwarderReceived c) 1; ForwarderUpdate := ForwarderUpdate c;
     ForwarderDelete := ForwarderDelete c; ForwarderSent := ForwarderSent c;
     ForwarderFailed := ForwarderFailed c; ForwarderConvertFailed := ForwarderConvertFailed c |}.

Definition add_update (c : counters) : counters :=
  {| ForwarderReceived := ForwarderReceived c; ForwarderUpdate := Add (ForwarderUpdate c) 1;
     ForwarderDelete := ForwarderDelete c; ForwarderSent := ForwarderSent c;
     ForwarderFailed := ForwarderFailed c; ForwarderConvertFailed := ForwarderConvertFailed c |}.

Definition add_delete (c : counters) : counters :=
  {| ForwarderReceived := ForwarderReceived c; ForwarderUpdate := ForwarderUpdate c;
     ForwarderDelete := Add (ForwarderDelete c) 1; ForwarderSent := ForwarderSent c;
     ForwarderFailed := ForwarderFailed c; ForwarderConvertFailed := ForwarderConvertFailed c |}.

Definition add_sent (c : counters) : counters :=
  {| ForwarderReceived := ForwarderReceived c; ForwarderUpdate := ForwarderUpdate c;
     ForwarderDelete := ForwarderDelete c; ForwarderSent := Add (ForwarderSent c) 1;
     ForwarderFailed := ForwarderFailed c; ForwarderConvertFailed := ForwarderConvertFailed c |}.

Definition add_failed (c : counters) : counters :=
  {| ForwarderReceived := ForwarderReceived c; ForwarderUpdate := ForwarderUpdate c;
     ForwarderDelete := ForwarderDelete c; ForwarderSent := ForwarderSent c;
     ForwarderFailed := Add (ForwarderFailed c) 1; ForwarderConvertFailed := ForwarderConvertFailed c |}.

Definition add_convert_failed (c : counters) : counters :=
  {| ForwarderReceived := ForwarderReceived c; ForwarderUpdate := ForwarderUpdate c;
     ForwarderDelete := ForwarderDelete c; ForwarderSent := ForwarderSent c;
     ForwarderFailed := ForwarderFailed c; ForwarderConvertFailed := Add (ForwarderConvertFailed c) 1 |}.

(** Go's [%] truncates: it is [Z.rem]. *)
Definition sendToFluent (tag : string) (m : record) (st : estate W) : estate W :=
  let '(w, err) := Post tag m (fwd st) in
  let st := {| cnt := cnt st; fwd := w; e_logs := e_logs st |} in
  match err with
  | Some e =>
      let st := if (Z.rem (ForwarderFailed (cnt st)) 100 =? 0)%Z
                then Println (Sprintf ("unable to forward event: %s" +:+ nl) [FStr e]) st else st in
      set_cnt (add_failed (cnt st)) st
  | None => set_cnt (add_sent (cnt st)) st
  end.

Definition OnAdd (o : eobj) (st : estate W) : estate W :=
  let st := set_cnt (add_received (cnt st)) st in
  match o with
  | NotEvent t =>
      let st := set_cnt (add_convert_failed (cnt st)) st in
      Println ("got something other an event: " +:+ t +:+ nl) st
  | AnEvent e =>
      let m := event_record e in
      let tag := Sprintf "k8s.event._%s_" [FStr (InvolvedNamespace e)] in
      sendToFluent tag m st
  end.

Definition OnDelete (o : eobj) (st : estate W) : estate W := set_cnt (add_delete (cnt st)) st.

Definition OnUpdate (o n : eobj) (st : estate W) : estate W := set_cnt (add_update (cnt st)) st.

Inductive report : Type := EAdd (o : eobj) | EUpdate (o n : eobj) | EDelete (o : eobj).

Definition handle_event (r : report) : estate W -> estate W :=
  match r with
  | EAdd o => OnAdd o
  | EUpdate o n => OnUpdate o n
  | EDelete o => OnDelete o
  end.

Definition handle_events (rs : list report) (st : estate W) : estate W := foldl (fun st r => handle_event r st) st rs.

End Handlers.

(** ** Counting without wrapping *)

(** The exact counts, of which the counters show 64 bits. *)
Definition shows (c exact : counters) : Prop :=
  ForwarderReceived c = int64 (ForwarderReceived exact) /\ ForwarderUpdate c = int64 (ForwarderUpdate exact)
  /\ ForwarderDelete c = int64 (ForwarderDelete exact) /\ ForwarderSent c = int64 (ForwarderSent exact)
  /\ ForwarderFailed c = int64 (ForwarderFailed exact)
  /\ ForwarderConvertFailed c = int64 (ForwarderConvertFailed exact).

Definition is_add (r : report) : bool := match r with EAdd _ => true | _ => false end.
Definition is_update (r : report) : bool := match r with EUpdate _ _ => true | _ => false end.
Definition is_delete (r : report) : bool := match r with EDelete _ => true | _ => false end.
Definition is_other (r : report) : bool := match r with EAdd (NotEvent _) => true | _ => false end.
Definition count (p : report -> bool) (rs : list report) : Z := Z.of_nat (List.length (List.filter p rs)).

Lemma count_cons p r rs : count p (r :: rs) = ((if p r then 1 else 0) + count p rs)%Z.
Proof. unfold count. cbn. destruct (p r); cbn [List.length]; lia. Qed.

Section Counting.
Context {W : Type} `{F : Forwarder W}.

(** What the forwarder answers to the events of [rs], in order. *)
Fixpoint failures (rs : list report) (w : W) : Z :=
  match rs with
  | [] => 0
  | EAdd (AnEvent e) :: rs' =>
      let '(w', err) := Post (Sprintf "k8s.event._%s_" [FStr (InvolvedNamespace e)]) (event_record e) w in
      (match err with Some _ => 1 | None => 0 end + failures rs' w')%Z
  | _ :: rs' => failures rs' w
  end.

Definition exact_counts (rs : list report) (w : W) : counters :=
  let f := failures rs w in
  {| ForwarderReceived := count is_add rs; ForwarderUpdate := count is_update rs;
     ForwarderDelete := count is_delete rs;
     ForwarderSent := (count is_add rs - count is_other rs - f)%Z;
     ForwarderFailed := f; ForwarderConvertFailed := count is_other rs |}.

Definition plus_counts (a b : counters) : counters :=
  {| ForwarderReceived := (ForwarderReceived a + ForwarderReceived b)%Z;
     ForwarderUpdate := (ForwarderUpdate a + ForwarderUpdate b)%Z;
     ForwarderDelete := (ForwarderDelete a + ForwarderDelete b)%Z;
     ForwarderSent := (ForwarderSent a + ForwarderSent b)%Z;
     ForwarderFailed := (ForwarderFailed a + ForwarderFailed b)%Z;
     ForwarderConvertFailed := (ForwarderConvertFailed a + ForwarderConvertFailed b)%Z |}.

Ltac show_counts :=
  unfold shows, plus_counts, exact_counts; rewrite ?count_cons; cbn;
  repeat match goal with Hz : ?x = int64 _ |- _ => rewrite !Hz; clear Hz end;
  repeat match goal with HA : forall a, Add (int64 a) 1 = _ |- _ => rewrite ?HA; clear HA end;
  rewrite ?Z.add_0_r; first [done | f_equal; lia].

Lemma handle_events_counts rs st exact :
  shows (cnt st) exact -> shows (cnt (handle_events rs st)) (plus_counts exact (exact_counts rs (fwd st))).
Proof.
  revert st exact. induction rs as [|r rs IH]; intros st exact Hs.
  { unfold shows, plus_counts in *. cbn. rewrite !Z.add_0_r. done. }
  unfold handle_events in *. cbn [foldl].
  assert (forall st1 one, shows (cnt st1) (plus_counts exact one) ->
    plus_counts one (exact_counts rs (fwd st1)) = exact_counts (r :: rs) (fwd st) ->
    shows (cnt (foldl (fun st r => handle_event r st) st1 rs)) (plus_counts exact (exact_counts (r :: rs) (fwd st)))) as Hgo.
  { intros st1 one H1 <-. specialize (IH st1 _ H1). unfold plus_counts, shows in *. cbn in *. by rewrite !Z.add_assoc. }
  destruct Hs as (Hr & Hu & Hd & Hse & Hf & Hc).
  assert (forall a, Add (int64 a) 1 = int64 (a + 1)) as HA by (intros; apply int64_add).
  destruct r as [[e|t]|o n|o]; [|apply (Hgo _ (MkCounters 1 0 0 0 0 1))|apply (Hgo _ (MkCounters 0 1 0 0 0 0))
    |apply (Hgo _ (MkCounters 0 0 1 0 0 0))];
    [|show_counts..].
  unfold exact_counts in Hgo |- *. cbn [failures handle_event] in *. unfold OnAdd, sendToFluent in *.
  cbn [fwd set_cnt] in *. destruct (Post _ _ _) as [w [er|]] eqn:HP; cbn [cnt] in *.
  - apply (Hgo _ (MkCounters 1 0 0 0 1 0)); destruct (_ =? _)%Z; show_counts.
  - apply (Hgo _ (MkCounters 1 0 0 1 0 0)); show_counts.
Qed.

End Counting.

(** ** Rate of the failure log *)

(** The multiples of 100 below [n]: the failures that are logged. *)
Definition logged_below (n : Z) : Z := ((n + 99) / 100)%Z.

Lemma logged_step n : (0 <= n)%Z ->
  logged_below (n + 1) = (logged_below n + if (Z.rem n 100 =? 0)%Z then 1 else 0)%Z.
Proof.
  intros Hn. unfold logged_below. rewrite Z.rem_mod_nonneg by lia.
  pose proof (Z.div_mod n 100 ltac:(lia)) as Hd. pose proof (Z.mod_pos_bound n 100 ltac:(lia)) as Hb.
  set (q := (n / 100)%Z) in *. set (r := (n mod 100)%Z) in *.
  assert ((n + 1 + 99) / 100 = q + 1)%Z as -> by (symmetry; apply (Z.div_unique _ _ _ r); lia).
  destruct (Z.eqb_spec r 0) as [E|E].
  - assert ((n + 99) / 100 = q)%Z as -> by (symmetry; apply (Z.div_unique _ _ _ 99); lia). lia.
  - assert ((n + 99) / 100 = q + 1)%Z as -> by (symmetry; apply (Z.div_unique _ _ _ (r - 1)); lia). lia.
Qed.

Section Rate.
Context {W : Type} `{F : Forwarder W}.

Lemma failures_nonneg rs (w : W) : (0 <= failures rs w)%Z.
Proof.
  revert w. induction rs as [|r rs IH]; intros w; cbn [failures]; [lia|].
  destruct r as [[e|t]|o n|o]; auto. destruct (Post _ _ _) as [w' [er|]]; specialize (IH w'); lia.
Qed.

Ltac simp_st :=
  cbn [cnt set_cnt Println e_logs add_failed add_sent add_received add_update add_delete add_convert_failed
       ForwarderFailed fwd OnAdd] in *.

Lemma handle_events_log_count rs (st : estate W) :
  (0 <= ForwarderFailed (cnt st))%Z -> (ForwarderFailed (cnt st) + failures rs (fwd st) < 2 ^ 63)%Z ->
  Z.of_nat (List.length (e_logs (handle_events rs st))) =
  (Z.of_nat (List.length (e_logs st)) + count is_other rs
   + (logged_below (ForwarderFailed (cnt st) + failures rs (fwd st)) - logged_below (ForwarderFailed (cnt st))))%Z.
Proof.
  revert st. induction rs as [|r rs IH]; intros st Hn Hb.
  { cbn [failures]. rewrite Z.add_0_r. change (count is_other []) with 0%Z.
    unfold handle_events. cbn [foldl]. rewrite Z.add_0_r. lia. }
  unfold handle_events in *. cbn [foldl]. rewrite count_cons.
  destruct r as [[e|t]|o n|o]; cbn [failures is_other handle_event] in *.
  - unfold OnAdd, sendToFluent. cbn [fwd set_cnt] in *.
    destruct (Post _ _ _) as [w [er|]] eqn:HP; cbn [cnt] in *; pose proof (failures_nonneg rs w) as Hf.
    + rewrite IH; [|destruct (_ =? _)%Z; cbn; unfold Add; rewrite int64_id; lia..].
      assert (Add (ForwarderFailed (cnt st)) 1 = ForwarderFailed (cnt st) + 1)%Z as HA
        by (unfold Add; apply int64_id; lia).
      pose proof (logged_step _ Hn) as Hl.
      rewrite (Z.add_assoc (ForwarderFailed (cnt st)) 1 (failures rs w)).
      cbn [cnt set_cnt Println e_logs add_failed add_received ForwarderFailed fwd] in *.
      destruct (Z.rem (ForwarderFailed (cnt st)) 100 =? 0)%Z;
        cbn [cnt set_cnt Println e_logs add_failed add_received ForwarderFailed fwd] in *; rewrite HA;
        rewrite ?length_app; cbn [List.length]; lia.
    + rewrite IH; simp_st; rewrite ?Z.add_0_l in *; lia.
  - rewrite IH; simp_st; rewrite ?length_app; cbn [List.length]; lia.
  - unfold OnUpdate. rewrite IH; simp_st; lia.
  - unfold OnDelete. rewrite IH; simp_st; lia.
Qed.

End Rate.

(** ** Properties *)

(** C28: Whatever the forwarder answers and however long the controller runs,
    the counters show, modulo the wrap-around of int64, exactly how many
    reports of each kind there were, how many events could not be sent and
    how many were; so received is always sent plus failed plus
    not-an-event. *)
Theorem counters_exact {W} `{F : Forwarder W} rs (st : estate W) :
  cnt st = counters_zero ->
  let c := cnt (handle_events rs st) in
  shows c (exact_counts rs (fwd st))
  /\ ForwarderReceived c = int64 (ForwarderSent c + ForwarderFailed c + ForwarderConvertFailed c).
Proof.
  intros Hz c.
  assert (shows (cnt st) counters_zero) as H0 by by rewrite Hz.
  pose proof (handle_events_counts rs st _ H0) as Hs. fold c in Hs.
  split; [done|]. destruct Hs as (Hr & _ & _ & Hse & Hf & Hc). rewrite Hr, Hse, Hf, Hc.
  rewrite <- (int64_sum (ForwarderSent _)). f_equal. unfold exact_counts. cbn. lia.
Qed.

(** Of the events that cannot be forwarded, the first and then every
    hundredth is logged, together with every object that is not an event and
    nothing else, as long as the failure counter has not wrapped around. *)
Lemma failure_log_rate {W} `{F : Forwarder W} rs (st : estate W) :
  cnt st = counters_zero -> e_logs st = [] -> (failures rs (fwd st) < 2 ^ 63)%Z ->
  Z.of_nat (List.length (e_logs (handle_events rs st)))
  = (count is_other rs + (failures rs (fwd st) + 99) / 100)%Z.
Proof.
  intros Hz Hl Hb. pose proof (handle_events_log_count rs st) as Hc. rewrite Hz, Hl in Hc.
  change (ForwarderFailed counters_zero) with 0%Z in Hc. rewrite Z.add_0_l in Hc.
  rewrite Hc by (done || lia). unfold logged_below. change ((0 + 99) / 100)%Z with 0%Z. cbn [List.length]. lia.
Qed.

(** A forwarder that records what it is given. *)
Definition recording_forwarder (answer : list (string * record) -> option string) : Forwarder (list (string * record)) :=
  {| Post := fun t m w => (w ++ [(t, m)], answer w) |}.

(** The events among the additions. *)
Definition added_events (rs : list report) : list Event :=
  flat_map (fun r => match r with EAdd (AnEvent e) => [e] | _ => [] end) rs.

(** Each added event is posted exactly once, in order, whatever the
    answers: under the tag of its namespace, with its message as the log line
    and its source host, pod and namespace as the Kubernetes metadata; nothing
    else is posted. *)
Lemma events_posted answer rs (st : estate (list (string * record))) :
  fwd (@handle_events _ (recording_forwarder answer) rs st)
  = fwd st ++ map (fun e => ("k8s.event._" +:+ InvolvedNamespace e +:+ "_", event_record e)) (added_events rs).
Proof.
  revert st. induction rs as [|r rs IH]; intros st; [by rewrite app_nil_r|].
  unfold handle_events in *. cbn [foldl]. rewrite IH. clear IH.
  destruct r as [[e|t]|o n|o]; try done. cbn [added_events flat_map app map].
  cbn [handle_event]. unfold OnAdd, sendToFluent. cbn [Post recording_forwarder set_cnt fwd cnt].
  change (flat_map _ rs) with (added_events rs).
  assert (Sprintf "k8s.event._%s_" [FStr (InvolvedNamespace e)] = "k8s.event._" +:+ InvolvedNamespace e +:+ "_") as Ht
    by reflexivity.
  destruct (answer (fwd st)) as [er|]; [destruct (_ =? 0)%Z|]; cbn [fwd set_cnt Println]; by rewrite <- app_assoc, Ht.
Qed.

(** ** A concrete run *)

Definition sample_event : Event := MkEvent "Pulled image" "node-1" "web-0" "ns1".
Definition sample_estate : estate (list (string * record)) :=
  {| cnt := counters_zero; fwd := []; e_logs := [] |}.
Definition broken : Forwarder (list (string * record)) := recording_forwarder (fun _ => Some "no connection").
Definition sample_events : list report :=
  [EAdd (AnEvent sample_event); EUpdate (AnEvent sample_event) (AnEvent sample_event);
   EAdd (AnEvent sample_event); EAdd (NotEvent "*v1.Pod"); EDelete (AnEvent sample_event)].

Lemma counters_exact_witness :
  ForwarderFailed (cnt (@handle_events _ broken sample_events sample_estate)) = 2%Z
  /\ shows (cnt (@handle_events _ broken sample_events sample_estate)) (@exact_counts _ broken sample_events []).
Proof. split; [vm_compute; reflexivity|]. apply (@counters_exact _ broken sample_events sample_estate eq_refl). Defined.

Lemma failure_log_rate_witness :
  Z.of_nat (List.length (e_logs (@handle_events _ broken sample_events sample_estate)))
  = (count is_other sample_events + (@failures _ broken sample_events [] + 99) / 100)%Z
  /\ count is_other sample_events = 1%Z.
Proof.
  split; [|reflexivity].
  apply (@failure_log_rate _ broken sample_events sample_estate eq_refl eq_refl). vm_compute. reflexivity.
Defined.
