(* ===== verification/Webhook.v ===== *)
(** * The validating webhook ([pkg/webhook/server.go], [error.go])

    The handlers that accept or reject log sinks and metric sinks before the
    API server stores them.  Decoding JSON into the Kubernetes types is a
    parameter; a response is the list of what was written to it.  The metric
    handler writes a file and runs telegraf on it: the machine is the class
    [Machine]. *)

From stdpp Require Import base gmap strings list relations.
From Stdlib Require Import Ascii ZArith Lia.
From S2P Require Import Prelude Utf8 GoStd FlbLex FlbParse GoUrl Types SinkConfig MetricConfig.

Definition ConfigTelegrafError : string := "Failed to validate metricsink config".
Definition ConfigIncludesKubernetesError : string := "Kubernetes input plugin added by default in ClusterMetricSink".
Definition ConfigLogNoTypeError : string := "LogSink should have type".
Definition ConfigLogChangeTypeError : string := "Changing sink type invalid".
Definition ConfigSyslogBadPortError : string := "Port for syslog invalid, should be between 1 and 65535".
Definition ConfigSyslogBadHostError : string := "Host for syslog invalid".
Definition ConfigSyslogInsecureError : string := "Insecure syslog sink not allowed".
Definition ConfigWebhookBadURLError : string := "URL for webhook invalid".
Definition ConfigWebhookInsecureError : string := "Insecure webhook not allowed, scheme must be https".
Definition ConfigMetricNoTypeError : string := "Must specify type for each inputs/outputs".
Definition ConfigMetricNonStringTypeError : string := "Input/output type must be a string".

(** ** Errors *)

Record httpError : Type := MkHttpError { message : string; code : Z }.

Definition newError (msg : string) (c : Z) : httpError := {| message := msg; code := c |}.

Definition errInvalidRequest : httpError := newError "Invalid request" 422.
Definition errUnableToDeserialize : httpError := newError "Unable to deserialize request object" 400.
Definition errUnableToReadBody : httpError := newError "Unable to read request body" 500.
Definition errUnableToWriteConfig : httpError := newError "Unable to write telegraf.conf" 500.
Definition errUnsupportedMedia : httpError := newError "Expected a Content-Type of application/json" 415.

Definition Error (e : httpError) : string := message e.

(** ** Reviews *)

Record AdmissionRequest : Type := MkAdmissionRequest {
  req_UID : string; Operation : string; Object_Raw : string; OldObject_Raw : string;
}.

Record AdmissionReview : Type := MkAdmissionReview { Request : option AdmissionRequest }.

Record AdmissionResponse : Type := MkAdmissionResponse {
  resp_UID : string; Allowed : bool; Result : option string;
}.

(** ** Requests and responses *)

(** A request: the answers of the connection are part of it. *)
Record http_request : Type := MkHttpRequest {
  ContentType : string;
  Body : res string string;
  close_error : option string;
  write_error : option string;
}.

(** What a handler writes: the text of an error, or a review. *)
Inductive chunk : Type :=
| Text (s : string)
| Review (response : option AdmissionResponse).

(** The status is the first one set, 200 if something was written before. *)
Record writer : Type := MkWriter { status : option Z; written_chunks : list chunk }.

Definition empty_writer : writer := {| status := None; written_chunks := [] |}.

Definition set_status (c : Z) (w : writer) : option Z :=
  match status w with Some s => Some s | None => Some c end.

(** [http.Error] *)
Definition http_Error (w : writer) (msg : string) (c : Z) : writer :=
  {| status := set_status c w; written_chunks := written_chunks w ++ [Text (msg +:+ nl)] |}.

Definition Write (e : httpError) (w : writer) : writer := http_Error w (message e) (code e).

(** [json.NewEncoder(w).Encode(&v1beta1.AdmissionReview{Response: resp})] *)
Definition encode_review (r : http_request) (resp : option AdmissionResponse) (w : writer) : writer * option string :=
  match write_error r with
  | Some e => ({| status := set_status 200 w; written_chunks := written_chunks w |}, Some e)
  | None => ({| status := set_status 200 w; written_chunks := written_chunks w ++ [Review resp] |}, None)
  end.

Class Machine (W : Type) := {
  WriteFile : string -> string -> W -> W * option string;
  Command_Run : list string -> W -> W * option string;
}.

Definition toAdmissionErrorResponse (err : string) : AdmissionResponse :=
  {| resp_UID := EmptyString; Allowed := false; Result := Some err |}.

Definition validRequest (r : AdmissionReview) : bool := match Request r with Some _ => true | None => false end.

Section Handlers.
Context (Unmarshal_ClusterLogSink : string -> option ClusterLogSink).
Context (Unmarshal_ClusterMetricSink : string -> option ClusterMetricSink).
Context (Decode_AdmissionReview : string -> option AdmissionReview).

(** The review, and the line logged when closing the body fails. *)
Definition deserializeReview (r : http_request) : res httpError AdmissionReview * list string :=
  if negb (String.eqb (ContentType r) "application/json") then (Err errUnsupportedMedia, [])
  else match Body r with
       | Err _ => (Err errUnableToReadBody, [])
       | Ok data =>
           let close := match close_error r with
                        | Some e => ["Error closing body: " +:+ e +:+ nl]
                        | None => []
                        end in
           match Decode_AdmissionReview data with
           | None => (Err errUnableToDeserialize, close)
           | Some review => if negb (validRequest review) then (Err errInvalidRequest, close) else (Ok review, close)
           end
       end.

(** The request of a review that [deserializeReview] let through; without one
    the field access would panic. *)
Definition validateLogSinkConfigRequest (rar : AdmissionRequest) : res httpError AdmissionResponse :=
  match Unmarshal_ClusterLogSink (Object_Raw rar) with
  | None => Err errUnableToDeserialize
  | Some cls =>
      let checks :=
        let spec := cls_Spec cls in
        if String.eqb (SinkType spec) "syslog" then
          if negb (EnableTLS (spec_syslog spec)) then Ok (toAdmissionErrorResponse ConfigSyslogInsecureError)
          else if String.eqb (Types.Host (spec_syslog spec)) EmptyString then Ok (toAdmissionErrorResponse ConfigSyslogBadHostError)
          else if (65535 <? Types.Port (spec_syslog spec))%Z || (Types.Port (spec_syslog spec) <? 1)%Z
               then Ok (toAdmissionErrorResponse ConfigSyslogBadPortError)
          else Ok {| resp_UID := req_UID rar; Allowed := true; Result := None |}
        else if String.eqb (SinkType spec) "webhook" then
          if String.eqb (Types.URL (spec_webhook spec)) EmptyString then Ok (toAdmissionErrorResponse ConfigWebhookBadURLError)
          else if negb (HasPrefix (Types.URL (spec_webhook spec)) "https://")
               then Ok (toAdmissionErrorResponse ConfigWebhookInsecureError)
          else Ok {| resp_UID := req_UID rar; Allowed := true; Result := None |}
        else Ok (toAdmissionErrorResponse ConfigLogNoTypeError) in
      if String.eqb (Operation rar) "UPDATE" then
        match Unmarshal_ClusterLogSink (OldObject_Raw rar) with
        | None => Err errUnableToDeserialize
        | Some clsOld =>
            if negb (String.eqb (SinkType (cls_Spec clsOld)) (SinkType (cls_Spec cls)))
            then Ok (toAdmissionErrorResponse ConfigLogChangeTypeError)
            else checks
        end
      else checks
  end.

(** [defer] and [log] lines are collected in order. *)
Definition logSinkHandler (r : http_request) (w : writer) : writer * list string :=
  let '(review, lg) := deserializeReview r in
  match review with
  | Err httpErr => (Write httpErr w, lg)
  | Ok rar =>
      match Request rar with
      | None => (w, lg)
      | Some rq =>
          let '(resp, w) := match validateLogSinkConfigRequest rq with
                            | Err _ => (None, Write errUnableToDeserialize w)
                            | Ok resp => (Some resp, w)
                            end in
          let '(w, err) := encode_review r resp w in
          (w, lg ++ match err with
                    | Some e => [Sprintf "Unable to marshal resp: %s" [FStr e]]
                    | None => []
                    end)
      end
  end.

(** The checks of one input: the error of the first that fails. *)
Fixpoint check_inputs (l : list MetricSinkMap) : option string :=
  match l with
  | [] => None
  | input :: l' =>
      match default ∅ input !! "type" with
      | None => Some ConfigMetricNoTypeError
      | Some (AString t) => if String.eqb t "kubernetes" then Some ConfigIncludesKubernetesError else check_inputs l'
      | Some _ => Some ConfigMetricNonStringTypeError
      end
  end.

Fixpoint check_outputs (l : list MetricSinkMap) : option string :=
  match l with
  | [] => None
  | output :: l' =>
      match default ∅ output !! "type" with
      | None => Some ConfigMetricNoTypeError
      | Some (AString _) => check_outputs l'
      | Some _ => Some ConfigMetricNonStringTypeError
      end
  end.

Context {W : Type} `{Machine W} `{R : MapRange} `{G : SliceGrow} (Encode : telegrafConfig -> res string string).

(** The configuration telegraf is asked about, and what making it prints to
    the log: there is one sink, so the order [R] of the range over the sinks
    does not show. *)
Definition tested_config (cms : ClusterMetricSink) : string * list string :=
  let '(h, cfg) := NewConfig ∅ EmptyString [KubernetesDefault false] in
  (ClusterConfig_String Encode h (MetricConfig.UpsertSink cms cfg)).2.

(** The machine afterwards, the answer and the log. *)
Definition validateMetricSinkConfig (rar : AdmissionRequest) (cms : ClusterMetricSink) (m : W) :
    W * res httpError AdmissionResponse * list string :=
  match check_inputs (default [] (Inputs (cms_Spec cms))) with
  | Some e => (m, Ok (toAdmissionErrorResponse e), [])
  | None =>
  match check_outputs (default [] (Outputs (cms_Spec cms))) with
  | Some e => (m, Ok (toAdmissionErrorResponse e), [])
  | None =>
      let '(text, lines) := tested_config cms in
      let '(m, err) := WriteFile "/tmp/telegraf.conf" text m in
      match err with
      | Some _ => (m, Err errUnableToWriteConfig, lines)
      | None =>
          let '(m, err) := Command_Run ["telegraf"; "--config"; "/tmp/telegraf.conf"; "--test"] m in
          match err with
          | Some _ => (m, Ok (toAdmissionErrorResponse ConfigTelegrafError), lines)
          | None => (m, Ok {| resp_UID := req_UID rar; Allowed := true; Result := None |}, lines)
          end
      end
  end end.

Definition metricSinkHandler (r : http_request) (w : writer) (m : W) : W * writer * list string :=
  let '(review, lg) := deserializeReview r in
  match review with
  | Err httpErr => (m, Write httpErr w, lg)
  | Ok rar =>
      match Request rar with
      | None => (m, w, lg)
      | Some rq =>
          match Unmarshal_ClusterMetricSink (Object_Raw rq) with
          | None => (m, Write errUnableToDeserialize w, lg)
          | Some cms =>
              let '(m, resp, lines) := validateMetricSinkConfig rq cms m in
              match resp with
              | Err httpErr => (m, Write httpErr w, lg ++ lines)
              | Ok resp =>
                  let '(w, err) := encode_review r (Some resp) w in
                  (m, w, lg ++ lines ++ match err with
                                        | Some e => [Sprintf "Unable to marshal resp: %s" [FStr e]]
                                        | None => []
                                        end)
              end
          end
      end
  end.

Definition healthHandler (r : http_request) (w : writer) : writer := w.

(** The handlers that [run] registers, by path. *)
Definition mux (path : string) (r : http_request) (m : W) : option (W * writer * list string) :=
  if String.eqb path "/health" then Some (m, healthHandler r empty_writer, [])
  else if String.eqb path "/metricsink" then Some (metricSinkHandler r empty_writer m)
  else if String.eqb path "/logsink" then
    let '(w, lg) := logSinkHandler r empty_writer in Some (m, w, lg)
  else None.

End Handlers.

(** ** Decisions on log sinks *)

(** The sinks the webhook lets through. *)
Definition acceptable (spec : SinkSpec) : Prop :=
  (SinkType spec = "syslog" /\ EnableTLS (spec_syslog spec) = true
   /\ Types.Host (spec_syslog spec) <> EmptyString /\ (1 <= Types.Port (spec_syslog spec) <= 65535)%Z)
  \/ (SinkType spec = "webhook" /\ HasPrefix (Types.URL (spec_webhook spec)) "https://" = true).

Section LogDecision.
Context (Unmarshal_ClusterLogSink : string -> option ClusterLogSink).

(** What the old object of an update allows. *)
Definition type_kept (rq : AdmissionRequest) (cls : ClusterLogSink) : Prop :=
  Operation rq = "UPDATE" ->
  exists old, Unmarshal_ClusterLogSink (OldObject_Raw rq) = Some old
              /\ SinkType (cls_Spec old) = SinkType (cls_Spec cls).

Definition decodes (rq : AdmissionRequest) (cls : ClusterLogSink) : Prop :=
  Unmarshal_ClusterLogSink (Object_Raw rq) = Some cls
  /\ (Operation rq = "UPDATE" -> is_Some (Unmarshal_ClusterLogSink (OldObject_Raw rq))).

Lemma has_prefix_nonempty s : HasPrefix s "https://" = true -> s <> EmptyString.
Proof. by intros H ->. Qed.

(** Every outcome, with the condition of each. *)
Lemma validate_log_cases rq cls :
  decodes rq cls ->
  exists resp, validateLogSinkConfigRequest Unmarshal_ClusterLogSink rq = Ok resp
    /\ ((type_kept rq cls /\ acceptable (cls_Spec cls)
         /\ resp = {| resp_UID := req_UID rq; Allowed := true; Result := None |})
        \/ (~ (type_kept rq cls /\ acceptable (cls_Spec cls))
            /\ exists msg, resp = toAdmissionErrorResponse msg /\ msg <> EmptyString)).
Proof.
  intros [Hobj Hold]. unfold validateLogSinkConfigRequest. rewrite Hobj.
  set (checks := if String.eqb (SinkType (cls_Spec cls)) "syslog" then _ else _).
  assert (exists resp, checks = Ok resp
    /\ ((acceptable (cls_Spec cls) /\ resp = {| resp_UID := req_UID rq; Allowed := true; Result := None |})
        \/ (~ acceptable (cls_Spec cls) /\ exists msg, resp = toAdmissionErrorResponse msg /\ msg <> EmptyString)))
    as (resp & Hc & Hcases).
  { unfold checks, acceptable. destruct (String.eqb_spec (SinkType (cls_Spec cls)) "syslog") as [Et|Et].
    - destruct (EnableTLS _) eqn:E1; cbn [negb].
      2:{ eexists. split; [done|]. right. split; [|by eexists]. rewrite Et. by intros [(_ & ? & _)|[? _]]. }
      destruct (String.eqb_spec (Types.Host (spec_syslog (cls_Spec cls))) EmptyString) as [E2|E2].
      { eexists. split; [done|]. right. split; [|by eexists]. rewrite Et. by intros [(_ & _ & ? & _)|[? _]]. }
      destruct ((65535 <? _)%Z || _) eqn:E3; eexists; (split; [done|]).
      + right. split; [|by eexists]. rewrite Et. intros [(_ & _ & _ & Hp)|[? _]]; [|done].
        apply orb_true_iff in E3 as [E3|E3]; boolify; lia.
      + left. split; [|done]. left. boolify. by split_and!.
    - destruct (String.eqb_spec (SinkType (cls_Spec cls)) "webhook") as [Ew|Ew].
      2:{ eexists. split; [done|]. right. split; [|by eexists]. by intros [(? & _)|[? _]]. }
      destruct (String.eqb_spec (Types.URL (spec_webhook (cls_Spec cls))) EmptyString) as [E1|E1].
      { eexists. split; [done|]. right. split; [|by eexists]. rewrite E1. by intros [(? & _)|[_ ?]]. }
      destruct (HasPrefix _ _) eqn:E2; cbn [negb]; eexists; (split; [done|]).
      + left. split; [|done]. by right.
      + right. split; [|by eexists]. by intros [(? & _)|[_ ?]]. }
  unfold type_kept. destruct (String.eqb_spec (Operation rq) "UPDATE") as [Eo|Eo].
  - destruct (Hold Eo) as [old Ho]. rewrite Ho. destruct (String.eqb_spec (SinkType (cls_Spec old)) (SinkType (cls_Spec cls)))
      as [Es|Es]; cbn [negb].
    + exists resp. split; [done|]. destruct Hcases as [[Ha Hr]|[Ha Hr]]; [left|right].
      * split_and!; [by eauto|done|done].
      * split; [by intros [_ ?]|done].
    + eexists. split; [done|]. right. split; [|by eexists]. intros [Hk _]. destruct (Hk Eo) as (old' & Ho' & E). congruence.
  - exists resp. split; [done|]. destruct Hcases as [[Ha Hr]|[Ha Hr]]; [left|right].
    + by split_and!.
    + split; [by intros [_ ?]|done].
Qed.

End LogDecision.

(** ** Addresses that start with https:// *)

Lemma split_hash s u frag :
  HasPrefix s "https://" = true -> split s "#" true = (u, frag) -> exists r, u = "https://" +:+ r.
Proof.
  intros Hp. assert (exists r, s = "https://" +:+ r) as [r ->].
  { clear -Hp. do 8 (destruct s as [|? s]; [done|]; cbn [HasPrefix] in Hp; apply andb_true_iff in Hp as [He Hp];
      apply Ascii.eqb_eq in He as <-). by exists s. }
  unfold split. cbn [IndexByte String.append]. cbn [Ascii.eqb Bool.eqb].
  destruct (IndexByte r "#") as [i|]; cbn; intros [= <- <-]; by eexists.
Qed.

Lemma parse_nofrag_https r u : parse_nofrag ("https://" +:+ r) = Some u -> Scheme u = "https".
Proof.
  unfold parse_nofrag.
  assert (String.eqb ("https://" +:+ r) "*" = false) as -> by reflexivity.
  assert (getscheme ("https://" +:+ r) = Some ("https", "//" +:+ r)) as -> by reflexivity.
  cbn [mbind option_bind]. change (ToLower "https") with "https".
  destruct (cut_query _) as [rest query]. destruct (negb (HasPrefix rest "/") && _); [by intros [= <-]|].
  destruct (negb (HasPrefix rest "/") && _); [done|].
  intros ([host rest2] & _ & (path & _ & [= <-])%bind_Some)%bind_Some. done.
Qed.

Lemma https_scheme s u : HasPrefix s "https://" = true -> url_Parse s = Some u -> Scheme u = "https".
Proof.
  intros Hp. unfold url_Parse. destruct (split s "#" true) as [v frag] eqn:Es.
  destruct (split_hash _ _ _ Hp Es) as [r ->]. intros (w & Hw & H)%bind_Some.
  assert (w = u) as <-; [|by eapply parse_nofrag_https].
  destruct (String.eqb frag EmptyString); [by simplify_eq|]. by apply bind_Some in H as (? & _ & [= <-]).
Qed.

(** Whether a section of fluent-bit's configuration has a key with such a
    value. *)
Definition has_option (key : string) (good : string -> bool) (s : Section_) : bool :=
  existsb (fun kv => String.eqb (Key kv) key && good (Value kv)) (KeyValues s).

(** The outputs that send over TLS: the syslog plugin does when it is given a
    TLS configuration, the http plugin when tls is On. *)
Definition encrypted (s : Section_) : bool :=
  String.eqb (SName s) "OUTPUT"
  && (has_option "Name" (String.eqb "syslog") s && has_option "TLSConfig" (fun v => negb (String.eqb v EmptyString)) s
      || has_option "Name" (String.eqb "http") s && has_option "tls" (String.eqb "On") s).

Lemma acceptable_encrypted syslog m spec :
  acceptable spec -> s_TLS syslog = tls_of spec ->
  Forall (fun p => encrypted (plugin_section p) = true) (spec_plugins syslog m spec).
Proof.
  intros Ha Ht. unfold spec_plugins. destruct Ha as [(Et & He & _)|[Et Hp]]; rewrite Et; cbn [String.eqb Ascii.eqb Bool.eqb].
  - apply Forall_singleton. unfold syslog_plugin. rewrite Ht. unfold tls_of. rewrite He.
    by destruct (String.eqb (s_Namespace syslog) EmptyString), (InsecureSkipVerify spec).
  - destruct (url_Parse _) as [u|] eqn:Hu; [|done]. apply Forall_singleton.
    unfold http_plugin, http_tls. rewrite (https_scheme _ _ Hp Hu).
    by destruct (String.eqb (UPath u) EmptyString), (InsecureSkipVerify spec).
Qed.

(** ** Metric sinks *)

Lemma check_inputs_ok l :
  check_inputs l = None <-> Forall (fun i => exists t r, plugin_of i = Some (t, r) /\ t <> "kubernetes") l.
Proof.
  induction l as [|i l IH]; [by split|]. cbn [check_inputs]. rewrite Forall_cons, <- IH. unfold plugin_of.
  destruct (default ∅ i !! "type") as [[]|]; try (by split; [|intros [(? & ? & ? & ?) _]]).
  destruct (String.eqb_spec s "kubernetes") as [->|Hne].
  - split; [done|]. intros [(t & r & E & Hn) _]. by simplify_eq.
  - split; [|by intros [_ ?]]. intros ?. split; [|done]. by eexists _, _.
Qed.

Lemma check_outputs_ok l : check_outputs l = None <-> forallb has_type l = true.
Proof.
  induction l as [|o l IH]; [done|]. cbn [check_outputs forallb]. unfold has_type at 1, plugin_of.
  destruct (default ∅ o !! "type") as [[]|]; try done.
Qed.

(** A machine on which a configuration that was just written is the one that
    telegraf tests. *)
Class Telegraf (W : Type) `{Machine W} := {
  accepts : string -> bool;
  test_written : forall p c m m',
    WriteFile p c m = (m', None) ->
    ((Command_Run ["telegraf"; "--config"; p; "--test"] m').2 = None <-> accepts c = true);
}.

(** A file system, and a telegraf that accepts some texts. *)
Definition disk (good : string -> bool) : Machine (gmap string string) :=
  {| WriteFile := fun p c m => (<[p := c]> m, None);
     Command_Run := fun args m =>
       match args with
       | [_; _; p; _] => (m, if good (default EmptyString (m !! p)) then None else Some "exit status 1")
       | _ => (m, Some "exit status 1")
       end |}.

#[refine] Definition disk_telegraf (good : string -> bool) : @Telegraf (gmap string string) (disk good) :=
  {| accepts := good |}.
Proof.
  intros p c m m'. cbn. intros [= <-]. rewrite lookup_insert_eq. cbn. by destruct (good c).
Defined.

(** ** Two requests at once

    The server runs a handler per connection, and every one of them writes and
    tests the same file. *)

Inductive vphase : Type :=
| VStart (rq : AdmissionRequest) (cms : ClusterMetricSink)
| VWritten (rq : AdmissionRequest)
| VDone (resp : res httpError AdmissionResponse).

Section Race.
Context {W : Type} `{Machine W} `{R : MapRange} `{G : SliceGrow} (Encode : telegrafConfig -> res string string).

Definition vwrite (rq : AdmissionRequest) (cms : ClusterMetricSink) (m : W) : vphase * W * list string :=
  match check_inputs (default [] (Inputs (cms_Spec cms))) with
  | Some e => (VDone (Ok (toAdmissionErrorResponse e)), m, [])
  | None =>
  match check_outputs (default [] (Outputs (cms_Spec cms))) with
  | Some e => (VDone (Ok (toAdmissionErrorResponse e)), m, [])
  | None =>
      let '(text, lines) := tested_config Encode cms in
      let '(m, err) := WriteFile "/tmp/telegraf.conf" text m in
      (match err with Some _ => VDone (Err errUnableToWriteConfig) | None => VWritten rq end, m, lines)
  end end.

Definition vtest (rq : AdmissionRequest) (m : W) : vphase * W :=
  let '(m, err) := Command_Run ["telegraf"; "--config"; "/tmp/telegraf.conf"; "--test"] m in
  (VDone (match err with
          | Some _ => Ok (toAdmissionErrorResponse ConfigTelegrafError)
          | None => Ok {| resp_UID := req_UID rq; Allowed := true; Result := None |}
          end), m).

(** A step of one review, with what it logs. *)
Inductive vstep : vphase -> W -> vphase -> W -> list string -> Prop :=
| v_write rq cms m p m' lines : vwrite rq cms m = (p, m', lines) -> vstep (VStart rq cms) m p m' lines
| v_test rq m p m' : vtest rq m = (p, m') -> vstep (VWritten rq) m p m' [].

(** Two reviews, the machine and the log. *)
Inductive vsys_step : vphase * vphase * W * list string -> vphase * vphase * W * list string -> Prop :=
| v_first p p' q m m' lg lines : vstep p m p' m' lines -> vsys_step (p, q, m, lg) (p', q, m', lg ++ lines)
| v_second p q q' m m' lg lines : vstep q m q' m' lines -> vsys_step (p, q, m, lg) (p, q', m', lg ++ lines).

(** The two steps of one request, one after the other, are
    [validateMetricSinkConfig]. *)
Lemma vsteps_validate rq cms m :
  validateMetricSinkConfig Encode rq cms m =
  match vwrite rq cms m with
  | (VWritten rq', m', lines) =>
      match vtest rq' m' with
      | (VDone r, m'') => (m'', r, lines)
      | (_, m'') => (m'', Err errInvalidRequest, lines)
      end
  | (VDone r, m', lines) => (m', r, lines)
  | (VStart _ _, m', lines) => (m', Err errInvalidRequest, lines)
  end.
Proof.
  unfold validateMetricSinkConfig, vwrite, vtest.
  destruct (check_inputs _); [done|]. destruct (check_outputs _); [done|]. destruct (tested_config _ _) as [text lines].
  destruct (WriteFile _ _ m) as [m1 [e|]]; [done|]. by destruct (Command_Run _ m1) as [m2 [e|]].
Qed.

End Race.

(** ** Properties *)

(** C29: For a request whose objects decode, the log sink check allows it,
    under the UID of the request, exactly when an update keeps the type and the
    sink is either a syslog sink with TLS, a host and a port between 1 and
    65535, or a webhook whose address starts with https://; otherwise it
    answers with a message, and without the UID. *)
Theorem log_sink_decision Unmarshal_ClusterLogSink rq cls :
  decodes Unmarshal_ClusterLogSink rq cls ->
  exists resp, validateLogSinkConfigRequest Unmarshal_ClusterLogSink rq = Ok resp
    /\ (Allowed resp = true <-> type_kept Unmarshal_ClusterLogSink rq cls /\ acceptable (cls_Spec cls))
    /\ if Allowed resp then resp = {| resp_UID := req_UID rq; Allowed := true; Result := None |}
       else exists msg, resp = toAdmissionErrorResponse msg /\ msg <> EmptyString.
Proof.
  intros Hd. destruct (validate_log_cases _ _ _ Hd) as (resp & Hr & [(Hk & Ha & ->)|[Hn (msg & -> & Hm)]]);
    eexists; (split; [exact Hr|]); cbn.
  - by split.
  - split; [by split|by exists msg].
Qed.

(** The webhook has allowed a sink of this spec. *)
Definition allowed_spec (Unmarshal_ClusterLogSink : string -> option ClusterLogSink) (spec : SinkSpec) : Prop :=
  exists rq cls resp, Unmarshal_ClusterLogSink (Object_Raw rq) = Some cls /\ cls_Spec cls = spec
    /\ validateLogSinkConfigRequest Unmarshal_ClusterLogSink rq = Ok resp /\ Allowed resp = true.

Lemma allowed_acceptable UL spec : allowed_spec UL spec -> acceptable spec.
Proof.
  intros (rq & cls & resp & Hu & <- & Hv & Hal).
  assert (decodes UL rq cls) as Hd.
  { split; [done|]. intros Ho. unfold validateLogSinkConfigRequest in Hv. rewrite Hu, Ho in Hv.
    change (String.eqb "UPDATE" "UPDATE") with true in Hv.
    destruct (UL (OldObject_Raw rq)); [by eexists|done]. }
  destruct (validate_log_cases _ _ _ Hd) as (resp' & Hr & [(_ & Ha & _)|[_ (msg & -> & _)]]); [done|].
  rewrite Hv in Hr. by injection Hr as ->.
Qed.

Lemma allowed_plugins UL sc :
  map_Forall (fun _ s => allowed_spec UL (ls_Spec s)) (sinks sc) ->
  map_Forall (fun _ s => allowed_spec UL (cls_Spec s)) (SinkConfig.clusterSinks sc) ->
  Forall (fun p => encrypted (plugin_section p) = true \/ p = null_plugin /\ sinks sc = ∅ /\ SinkConfig.clusterSinks sc = ∅)
         (config_plugins sc).
Proof.
  intros Hs Hc. unfold config_plugins. destruct (Nat.eqb_spec (size (sinks sc) + size (SinkConfig.clusterSinks sc)) 0) as [E|E].
  - apply Forall_singleton. right. split; [done|]. split; apply map_size_empty_inv; lia.
  - assert (forall (A B : Type) (f : A -> list B) (P : B -> Prop) (m : gmap string A),
      map_Forall (fun _ a => Forall P (f a)) m -> Forall P (flat_map f (values m))) as Hflat.
    { intros A B f P m Hm. rewrite Forall_forall. intros b Hb%list_elem_of_In%in_flat_map. destruct Hb as (a & Ha & Hb).
      apply list_elem_of_In in Ha, Hb. unfold values in Ha. apply list_elem_of_fmap in Ha as ([k a'] & -> & Hk%elem_of_map_to_list).
      specialize (Hm k a' Hk). rewrite Forall_forall in Hm. by apply Hm. }
    apply Forall_app. split; apply (Forall_impl (fun p => encrypted (plugin_section p) = true)); try (by left);
      apply Hflat; intros k s Hk.
    + apply acceptable_encrypted; [|done]. by eapply allowed_acceptable, (Hs k s).
    + apply acceptable_encrypted; [|done]. by eapply allowed_acceptable, (Hc k s).
Qed.

(** C30: Take a configuration all of whose sinks, namespaced and cluster-wide,
    have specs that the webhook has allowed, and whose names, hosts and paths
    hold no newline.  Then fluent-bit's parser accepts the text that the
    controllers write for it, and every section of it is an output that sends
    over TLS, or, when there are no sinks at all, the null output.  The
    webhook itself does not look for newlines: a host with one can add an output
    without TLS ([newline_defeats_tls]). *)
Theorem accepted_sinks_encrypted `{U : UnicodeTables} `{R : MapRange} `{S : SliceSort} Unmarshal_ClusterLogSink name sc :
  map_Forall (fun _ s => allowed_spec Unmarshal_ClusterLogSink (ls_Spec s)) (sinks sc) ->
  map_Forall (fun _ s => allowed_spec Unmarshal_ClusterLogSink (cls_Spec s)) (SinkConfig.clusterSinks sc) ->
  config_ok sc = true ->
  exists outputs, Parse name (Config_String sc) = Ok (Ok {| FName := name; Sections := Section_zero :: outputs |})
    /\ Forall (fun s => encrypted s = true \/ s = plugin_section null_plugin /\ sinks sc = ∅ /\ SinkConfig.clusterSinks sc = ∅) outputs.
Proof.
  intros Hs Hc Hok. exists (map plugin_section (map snd (written sc))). split; [by apply Parse_written|].
  pose proof (allowed_plugins _ _ Hs Hc) as Hall. rewrite <- (written_perm sc) in Hall.
  apply Forall_fmap. eapply Forall_impl; [exact Hall|]. intros p [Hp|(-> & ? & ?)]; [by left|by right].
Qed.

(** C32: What the two review handlers write, when the connection accepts it:
    the metric handler always exactly one error or one review; the log sink
    handler too, except for objects that do not decode: it goes on after
    writing the error and appends a review without a response. *)
Theorem handlers_write UL UM DR {W} `{Machine W} `{R : MapRange} `{G : SliceGrow} Encode r m :
  write_error r = None ->
  (exists c, written_chunks (metricSinkHandler UM DR Encode r empty_writer m).1.2 = [c])
  /\ match (deserializeReview DR r).1 with
     | Err e => written_chunks (logSinkHandler UL DR r empty_writer).1 = [Text (message e +:+ nl)]
                /\ status (logSinkHandler UL DR r empty_writer).1 = Some (code e)
     | Ok rar =>
         exists rq, Request rar = Some rq
           /\ match validateLogSinkConfigRequest UL rq with
              | Ok resp => written_chunks (logSinkHandler UL DR r empty_writer).1 = [Review (Some resp)]
                           /\ status (logSinkHandler UL DR r empty_writer).1 = Some 200%Z
              | Err _ => written_chunks (logSinkHandler UL DR r empty_writer).1
                           = [Text ("Unable to deserialize request object" +:+ nl); Review None]
                         /\ status (logSinkHandler UL DR r empty_writer).1 = Some 400%Z
              end
     end.
Proof.
  intros Hw. unfold metricSinkHandler, logSinkHandler.
  assert (match (deserializeReview DR r).1 with Ok rar => is_Some (Request rar) | Err _ => True end) as Hreq.
  { unfold deserializeReview, validRequest. destruct (negb (String.eqb _ _)); [done|].
    destruct (Body r) as [data|]; [|done]. destruct (DR data) as [rv|]; [|done].
    destruct (Request rv) as [rq|] eqn:E; cbn; [rewrite E; by eexists|done]. }
  destruct (deserializeReview DR r) as [[rar|e] lg]; cbn [fst] in *.
  2:{ split; [by eexists|done]. }
  destruct Hreq as [rq Hrq]. rewrite Hrq. split.
  - destruct (UM (Object_Raw rq)) as [cms|]; [|by eexists].
    destruct (validateMetricSinkConfig _ _ _ _) as [[m' [resp|e]] lines]; [|by eexists].
    unfold encode_review. rewrite Hw. by eexists.
  - exists rq. split; [done|]. unfold encode_review. rewrite Hw.
    destruct (validateLogSinkConfigRequest UL rq) as [resp|e]; done.
Qed.

(** C31: Handled alone, a metric sink is allowed exactly when each input and
    output has a string type, no input is of type kubernetes, and telegraf
    accepts the configuration that a cluster with this one sink and the
    secure kubernetes input gets. *)
Theorem metric_sink_decision {W} `{Telegraf W} `{R : MapRange} `{G : SliceGrow} Encode rq cms m m1 :
  WriteFile "/tmp/telegraf.conf" (tested_config Encode cms).1 m = (m1, None) ->
  exists resp, (validateMetricSinkConfig Encode rq cms m).1.2 = Ok resp
    /\ (Allowed resp = true <->
        Forall (fun i => exists t r, plugin_of i = Some (t, r) /\ t <> "kubernetes") (default [] (Inputs (cms_Spec cms)))
        /\ forallb has_type (default [] (Outputs (cms_Spec cms))) = true
        /\ accepts (tested_config Encode cms).1 = true)
    /\ (Allowed resp = true -> resp_UID resp = req_UID rq).
Proof.
  intros Hw. unfold validateMetricSinkConfig.
  pose proof (check_inputs_ok (default [] (Inputs (cms_Spec cms)))) as Hi.
  pose proof (check_outputs_ok (default [] (Outputs (cms_Spec cms)))) as Ho.
  pose proof (test_written _ _ _ _ Hw) as Ht.
  destruct (check_inputs _) as [e|].
  { eexists. split; [reflexivity|]. split; [|done]. split; [done|]. intros [Hn%Hi _]. discriminate Hn. }
  destruct (check_outputs _) as [e|].
  { eexists. split; [reflexivity|]. split; [|done]. split; [done|]. intros (_ & Hn%Ho & _). discriminate Hn. }
  destruct (tested_config Encode cms) as [text lines]. cbn [fst] in *.
  rewrite Hw. destruct (Command_Run _ m1) as [m2 [e|]]; cbn [fst snd] in *; eexists; (split; [reflexivity|]).
  - split; [|done]. split; [done|]. intros (_ & _ & Hn%Ht). discriminate Hn.
  - split; [|done]. split; [|done]. intros _. by split_and!; [apply Hi|apply Ho|apply Ht].
Qed.

(** Two sinks, only one of which telegraf accepts. *)
Definition good_sink : ClusterMetricSink := sample_metric_sink "good" [] [{["type" := AString "discard"]}].
Definition bad_sink : ClusterMetricSink := sample_metric_sink "bad" [] [{["type" := AString "no-such-output"]}].
Definition good_only (text : string) : bool := String.eqb text "kubernetes,discard".
Definition request_of (uid : string) : AdmissionRequest :=
  {| req_UID := uid; Operation := "CREATE"; Object_Raw := EmptyString; OldObject_Raw := EmptyString |}.

(** C40: Two metric sinks reviewed at the same time share one file: a sink
    that telegraf refuses, and that is refused when it is reviewed alone, can
    be allowed because the other one's configuration was tested in its place. *)
Theorem metric_race_allows_bad_sink :
  (@validateMetricSinkConfig _ (disk good_only) map_order double show_types (request_of "1") bad_sink ∅).1.2
    = Ok (toAdmissionErrorResponse ConfigTelegrafError)
  /\ exists m q lg, rtc (@vsys_step _ (disk good_only) map_order double show_types)
                     (VStart (request_of "1") bad_sink, VStart (request_of "2") good_sink, ∅, [])
                     (VDone (Ok {| resp_UID := "1"; Allowed := true; Result := None |}), q, m, lg).
Proof.
  split; [vm_compute; reflexivity|]. eexists _, _, _.
  eapply rtc_l; [apply v_first, v_write; vm_compute; reflexivity|].
  eapply rtc_l; [apply v_second, v_write; vm_compute; reflexivity|].
  eapply rtc_l; [apply v_first, v_test; vm_compute; reflexivity|].
  apply rtc_refl.
Qed.

(** ** Concrete reviews *)

Definition new_sink : ClusterLogSink := sample_cluster_sink "all" (syslog_spec "logs.example.com" 6514 true false).
Definition other_type : ClusterLogSink := sample_cluster_sink "all" (webhook_spec "https://example.com" false).

Definition decode_sample (raw : string) : option ClusterLogSink :=
  if String.eqb raw "syslog" then Some new_sink
  else if String.eqb raw "webhook" then Some other_type else None.

Definition update_request : AdmissionRequest :=
  {| req_UID := "u1"; Operation := "UPDATE"; Object_Raw := "syslog"; OldObject_Raw := "webhook" |}.
Definition create_request : AdmissionRequest :=
  {| req_UID := "u2"; Operation := "CREATE"; Object_Raw := "syslog"; OldObject_Raw := EmptyString |}.

Lemma log_sink_decision_witness :
  exists resp, validateLogSinkConfigRequest decode_sample update_request = Ok resp
    /\ (Allowed resp = true <-> type_kept decode_sample update_request new_sink /\ acceptable (cls_Spec new_sink))
    /\ if Allowed resp then resp = {| resp_UID := "u1"; Allowed := true; Result := None |}
       else exists msg, resp = toAdmissionErrorResponse msg /\ msg <> EmptyString.
Proof.
  apply (log_sink_decision decode_sample update_request new_sink). split; [reflexivity|]. intros _. by eexists.
Defined.

Definition new_webhook : ClusterLogSink := sample_cluster_sink "hook" (webhook_spec "https://example.org/in?x=1" true).

(** A sink of each kind, as the webhook has allowed them. *)
Definition allowed_config : Config :=
  SinkConfig.UpsertClusterSink new_sink
    (SinkConfig.UpsertSink (sample_sink "ns2" "hook" (cls_Spec new_webhook)) SinkConfig.NewConfig).

Definition decode_two (raw : string) : option ClusterLogSink :=
  if String.eqb raw "syslog" then Some new_sink else Some new_webhook.

Lemma two_allowed : allowed_spec decode_two (cls_Spec new_sink) /\ allowed_spec decode_two (cls_Spec new_webhook).
Proof.
  split.
  - exists create_request, new_sink, {| resp_UID := "u2"; Allowed := true; Result := None |}. by split_and!.
  - exists (request_of "u4"), new_webhook, {| resp_UID := "u4"; Allowed := true; Result := None |}. by split_and!.
Qed.

Lemma accepted_sinks_encrypted_witness :
  exists o1 o2,
    @Parse latin1_tables "fluent.conf" (@Config_String map_order insertion_slice_sort allowed_config)
      = Ok (Ok {| FName := "fluent.conf"; Sections := [Section_zero; o1; o2] |})
    /\ encrypted o1 = true /\ encrypted o2 = true.
Proof.
  destruct (@accepted_sinks_encrypted latin1_tables map_order insertion_slice_sort decode_two "fluent.conf" allowed_config)
    as (outputs & Hp & Hf).
  - apply map_Forall_insert_2; [apply two_allowed|apply map_Forall_empty].
  - apply map_Forall_insert_2; [apply two_allowed|apply map_Forall_empty].
  - reflexivity.
  - pose proof Hp as E. vm_compute in E. injection E as E. rewrite <- E in Hf, Hp.
    eexists _, _. split; [exact Hp|].
    apply Forall_cons in Hf as [H1 Hf]. apply Forall_cons in Hf as [H2 _].
    split; [destruct H1 as [H1|(_ & H1 & _)]|destruct H2 as [H2|(_ & H2 & _)]]; try assumption; discriminate.
Defined.

Definition sample_http : http_request :=
  {| ContentType := "application/json"; Body := Ok "review"; close_error := None; write_error := None |}.

Definition decode_review (raw : string) : option AdmissionReview :=
  Some {| Request := Some {| req_UID := "u3"; Operation := "CREATE"; Object_Raw := "garbage"; OldObject_Raw := EmptyString |} |}.

Lemma handlers_write_witness :
  written_chunks (logSinkHandler decode_sample decode_review sample_http empty_writer).1
  = [Text ("Unable to deserialize request object" +:+ nl); Review None].
Proof.
  pose proof (proj2 (@handlers_write decode_sample (fun _ => None) decode_review _ (disk good_only) map_order double
                       show_types sample_http ∅ eq_refl)) as Hw.
  cbn [deserializeReview fst] in Hw. destruct Hw as (rq & Hrq & Hw). injection Hrq as <-. exact (proj1 Hw).
Defined.

Lemma metric_sink_decision_witness :
  exists resp, (@validateMetricSinkConfig _ (disk good_only) map_order double show_types (request_of "2") good_sink ∅).1.2
               = Ok resp /\ (Allowed resp = true -> resp_UID resp = "2").
Proof.
  destruct (@metric_sink_decision _ (disk good_only) (disk_telegraf good_only) map_order double show_types
              (request_of "2") good_sink ∅ (<["/tmp/telegraf.conf" := (tested_config show_types good_sink).1]> ∅) eq_refl)
    as (resp & Hr & _ & Hu).
  exists resp. split; [exact Hr|exact Hu].
Defined.

(** ** What the check lets through *)

(** A webhook whose address does not parse is allowed, and configures
    nothing. *)
Lemma unparsable_address_allowed :
  let cls := sample_cluster_sink "all" (webhook_spec "https://%zz" false) in
  acceptable (cls_Spec cls) /\ cluster_sink_plugins cls = [].
Proof. split; [by right|vm_compute; reflexivity]. Qed.

(** So are the texts that add sections to the configuration. *)
Lemma injections_allowed :
  acceptable (syslog_spec ("h:1" +:+ nl +:+ "[INPUT]" +:+ nl +:+ "    Name tail") 514 true false)
  /\ acceptable (webhook_spec "https://example.com/%0A[INPUT]%0A%20Name%20exec%0A%20Command%20id" false).
Proof. split; [left; cbn; split_and!; [done|done|done|lia|lia]|by right]. Qed.

(** A syslog host with newlines is allowed and turns the output of its sink
    into one without TLS. *)
Definition newline_sink : ClusterLogSink :=
  sample_cluster_sink "all" (syslog_spec ("h:1" +:+ nl +:+ "[OUTPUT]" +:+ nl +:+ "    Name null" +:+ nl
                                          +:+ "    x y") 6514 true false).

Lemma newline_defeats_tls :
  allowed_spec (fun _ => Some newline_sink) (cls_Spec newline_sink)
  /\ exists o1 o2,
       @Parse latin1_tables "fluent.conf"
         (@Config_String map_order insertion_slice_sort (SinkConfig.UpsertClusterSink newline_sink SinkConfig.NewConfig))
       = Ok (Ok {| FName := "fluent.conf"; Sections := [Section_zero; o1; o2] |})
       /\ has_option "Name" (String.eqb "syslog") o1 = true /\ encrypted o1 = false.
Proof.
  split.
  - exists create_request, newline_sink, {| resp_UID := "u2"; Allowed := true; Result := None |}. by split_and!.
  - eexists _, _. split; [vm_compute; reflexivity|]. split; reflexivity.
Qed.
