(* ===== verification/WebhookServer.v ===== *)
(** * The life of the webhook server ([pkg/webhook/server.go])

    [Run] starts a goroutine that listens, publishes the listener and the
    server under the mutex, and serves; [Close] and [Addr] take the mutex.
    The network is the class [Net]; its laws say what package net/http
    documents of [Shutdown], which closes the listeners the server tracks since
    it serves them, and that a listener is closed only once. *)

From stdpp Require Import base strings list relations.
From S2P Require Import Prelude GoStd.

(** A listener and a TLS configuration are references. *)
Record Server : Type := MkServer {
  lis : option nat;
  srv : option (option nat);
  addr : string;
  tlsConfig : option nat;
}.

Definition ServerOpt : Type := Server -> Server.

Definition NewServer (a : string) (options : list ServerOpt) : Server :=
  let s := {| lis := None; srv := None; addr := a; tlsConfig := None |} in
  foldl (fun s o => o s) s options.

Definition WithTLSConfig (t : nat) : ServerOpt :=
  fun s => {| lis := lis s; srv := srv s; addr := addr s; tlsConfig := Some t |}.

Class Net (W : Type) := {
  Listen : string -> W -> W * res string nat;
  (** the beginning of [Serve] or [ServeTLS]: from here the server knows the
      listener and shutting down closes it *)
  Serve : nat -> W -> W * option string;
  (** [Shutdown] of the server of a listener, with the timeout of the code *)
  Shutdown : nat -> W -> W * option string;
  Listener_Close : nat -> W -> W * option string;
  Listener_Addr : nat -> W -> string;
  is_open : W -> nat -> bool;
  tracked : W -> nat -> bool;
}.

(** The server serves this listener, or has closed it. *)
Definition served {W} `{Net W} (w : W) (l : nat) : Prop := tracked w l = true \/ is_open w l = false.

Class NetLaws (W : Type) `{Net W} := {
  listen_untracked : forall a l w w', Listen a w = (w', Ok l) -> tracked w' l = false;
  serve_tracks : forall l w w', Serve l w = (w', None) -> served w' l;
  serve_closed : forall l w, is_open w l = false -> is_open (Serve l w).1 l = false;
  shutdown_closes : forall l w, served w l -> is_open (Shutdown l w).1 l = false;
  (** a server that has not served has no connection to wait for *)
  shutdown_untracked : forall l w, tracked w l = false ->
    (Shutdown l w).2 = None /\ is_open (Shutdown l w).1 l = is_open w l;
  close_closes : forall l w, is_open (Listener_Close l w).1 l = false;
  close_reports : forall l w, (Listener_Close l w).2 = None <-> is_open w l = true;
}.

(** The goroutine of [run]: before [Listen], between it and the mutex, between
    the mutex and [Serve], in [Serve], after it; [Exited] is [log.Fatalf]. *)
Inductive run_phase : Type :=
| NotRun | Started | Listening (l : nat) | Published (l : nat) | Serving (l : nat) | Returned | Exited.

Record process (W : Type) : Type := MkProcess {
  server : Server; phase : run_phase; net : W; lines : list string;
}.
Arguments MkProcess {W}.
Arguments server {W}.
Arguments phase {W}.
Arguments net {W}.
Arguments lines {W}.

Section Process.
Context {W : Type} `{N : Net W}.

(** [Close], under the mutex. *)
Definition Close (p : process W) : process W * option string :=
  match srv (server p) with
  | None => (p, None)
  | Some _ =>
      match lis (server p) with
      | None => (p, None)
      | Some l =>
          let '(w, err) := Shutdown l (net p) in
          match err with
          | Some e => ({| server := server p; phase := phase p; net := w; lines := lines p |}, Some e)
          | None =>
              let '(w, err) := Listener_Close l w in
              ({| server := server p; phase := phase p; net := w; lines := lines p |}, err)
          end
      end
  end.

(** [Addr], under the mutex. *)
Definition Addr (p : process W) : string :=
  match lis (server p) with
  | None => EmptyString
  | Some l => Listener_Addr l (net p)
  end.

Inductive server_step : process W -> process W -> Prop :=
| do_run s w lg : server_step (MkProcess s NotRun w lg) (MkProcess s Started w lg)
| do_listen s w w' l lg :
    Listen (addr s) w = (w', Ok l) -> server_step (MkProcess s Started w lg) (MkProcess s (Listening l) w' lg)
| do_listen_fails s w w' e lg :
    Listen (addr s) w = (w', Err e) ->
    server_step (MkProcess s Started w lg)
                (MkProcess s Exited w' (lg ++ [Sprintf "Unable to start listener: %s" [FStr e]]))
| do_publish s l w lg :
    server_step (MkProcess s (Listening l) w lg)
      (MkProcess {| lis := Some l; srv := Some (tlsConfig s); addr := addr s; tlsConfig := tlsConfig s |}
                 (Published l) w lg)
| do_serve s l w w' lg :
    Serve l w = (w', None) -> server_step (MkProcess s (Published l) w lg) (MkProcess s (Serving l) w' lg)
| do_serve_fails s l w w' e lg :
    Serve l w = (w', Some e) ->
    server_step (MkProcess s (Published l) w lg)
                (MkProcess s Returned w' (lg ++ [Sprintf "Server shutdown: %s" [FStr e]]))
| do_return s l w e lg :
    is_open w l = false ->
    server_step (MkProcess s (Serving l) w lg)
                (MkProcess s Returned w (lg ++ [Sprintf "Server shutdown: %s" [FStr e]]))
| do_close p : server_step p (Close p).1.

Context `{!NetLaws W}.

(** The listener and the server are published together, by the goroutine that
    serves them. *)
Definition server_inv (p : process W) : Prop :=
  match phase p with
  | NotRun | Started | Exited => lis (server p) = None /\ srv (server p) = None
  | Listening l => lis (server p) = None /\ srv (server p) = None /\ (is_open (net p) l = true -> tracked (net p) l = false)
  | Published l => lis (server p) = Some l /\ is_Some (srv (server p))
      /\ (is_open (net p) l = true -> tracked (net p) l = false)
  | Serving l => lis (server p) = Some l /\ is_Some (srv (server p)) /\ served (net p) l
  | Returned => is_Some (lis (server p)) /\ is_Some (srv (server p))
  end.

(** Closing a published server leaves its listener closed, or reports why the
    server did not shut down. *)
Lemma Close_published p l :
  lis (server p) = Some l -> is_Some (srv (server p)) ->
  let w := (Shutdown l (net p)).1 in
  Close p = match (Shutdown l (net p)).2 with
            | Some e => ({| server := server p; phase := phase p; net := w; lines := lines p |}, Some e)
            | None => ({| server := server p; phase := phase p; net := (Listener_Close l w).1; lines := lines p |},
                       (Listener_Close l w).2)
            end.
Proof.
  intros Hl [x Hx]. unfold Close. rewrite Hx, Hl. destruct (Shutdown l (net p)) as [w [e|]]; cbn; [done|].
  by destruct (Listener_Close l w).
Qed.

Lemma Close_server p : server (Close p).1 = server p /\ phase (Close p).1 = phase p.
Proof.
  unfold Close. destruct (srv (server p)); [|done]. destruct (lis (server p)) as [l|]; [|done].
  destruct (Shutdown _ _) as [w [e|]]; [done|]. by destruct (Listener_Close _ _).
Qed.

(** In [Published], closing the listener while it is open succeeds. *)
Lemma Close_untracked p l :
  lis (server p) = Some l -> is_Some (srv (server p)) -> is_open (net p) l = true -> tracked (net p) l = false ->
  (Close p).2 = None /\ is_open (net (Close p).1) l = false.
Proof.
  intros Hl Hx Ho Ht. rewrite (Close_published p l Hl Hx). destruct (shutdown_untracked l (net p) Ht) as [-> Hs].
  cbn. split; [|apply close_closes]. apply close_reports. by rewrite Hs.
Qed.

(** Once the listener is served, or closed, it is closed after [Close]. *)
Lemma Close_served p l :
  lis (server p) = Some l -> is_Some (srv (server p)) -> served (net p) l ->
  (Close p).2 <> None /\ is_open (net (Close p).1) l = false.
Proof.
  intros Hl Hx Hs%shutdown_closes. rewrite (Close_published p l Hl Hx).
  destruct (Shutdown l (net p)).2; cbn; [done|]. split; [|apply close_closes].
  rewrite close_reports. by rewrite Hs.
Qed.

Lemma close_inv p : server_inv p -> server_inv (Close p).1.
Proof.
  intros Hi. destruct (Close_server p) as [Es Ep]. unfold server_inv in *. rewrite Es, Ep.
  destruct (phase p) as [| |l|l|l| |] eqn:Eph; try exact Hi.
  - destruct Hi as (Hl & Hs & Ht). unfold Close. by rewrite Hs.
  - destruct Hi as (Hl & Hx & Ht). split_and!; [done..|]. destruct (is_open (net p) l) eqn:Ho.
    + destruct (Close_untracked p l Hl Hx Ho (Ht eq_refl)) as [_ ->]. done.
    + destruct (Close_served p l Hl Hx) as [_ ->]; [by right|done].
  - destruct Hi as (Hl & Hx & Hs). split_and!; [done..|]. right. by apply (Close_served p l).
Qed.

Lemma server_step_inv p p' : server_step p p' -> server_inv p -> server_inv p'.
Proof.
  destruct 1 as [s w lg|s w w' l lg Hl|s w w' e lg _|s l w lg|s l w w' lg Hs|s l w w' e lg _|s l w e lg _|p];
    unfold server_inv; cbn [phase server lis srv net]; intros Hi.
  - exact Hi.
  - destruct Hi. split_and!; [done..|]. intros _. by eapply listen_untracked.
  - exact Hi.
  - split_and!; [done|by eexists|apply Hi].
  - destruct Hi as (? & ? & _). split_and!; [done|done|by eapply serve_tracks].
  - destruct Hi as (-> & ? & _). split; [by eexists|done].
  - destruct Hi as (-> & ? & _). split; [by eexists|done].
  - by apply close_inv.
Qed.

Lemma server_run_inv p p' : rtc server_step p p' -> server_inv p -> server_inv p'.
Proof. induction 1 as [|p1 p2 p3 Hs _ IH]; [done|]. intros Hi. by eapply IH, server_step_inv. Qed.

(** A listener that was closed after its publication stays closed. *)
Definition shut (l : nat) (p : process W) : Prop :=
  lis (server p) = Some l /\ is_Some (srv (server p)) /\ is_open (net p) l = false
  /\ match phase p with Published l' | Serving l' => l' = l | Returned => True | _ => False end.

Lemma shut_step l p p' : server_step p p' -> shut l p -> shut l p'.
Proof.
  destruct 1 as [s w lg|s w w' l' lg Hl|s w w' e lg _|s l' w lg|s l' w w' lg Hs|s l' w w' e lg Hs|s l' w e lg _|p];
    unfold shut; cbn [phase server lis srv net]; intros (Hl0 & Hx & Ho & Hp); try done.
  - subst l'. split_and!; [done|done| |done]. replace w' with (Serve l w).1 by (by rewrite Hs). by apply serve_closed.
  - subst l'. split_and!; [done|done| |done]. replace w' with (Serve l w).1 by (by rewrite Hs). by apply serve_closed.
  - destruct (Close_server p) as [-> ->]. split_and!; [done|done| |done]. by apply (Close_served p l); [| |right].
Qed.

Lemma shut_run l p p' : rtc server_step p p' -> shut l p -> shut l p'.
Proof. induction 1 as [|p1 p2 p3 Hs _ IH]; [done|]. intros Hi. by eapply IH, shut_step. Qed.

Lemma new_server_inv a opts w lg :
  (forall o s, o ∈ opts -> lis (o s) = lis s /\ srv (o s) = srv s) ->
  server_inv (MkProcess (NewServer a opts) NotRun w lg).
Proof.
  intros Ho. unfold server_inv, NewServer. cbn.
  assert (forall s, lis s = None /\ srv s = None ->
    lis (foldl (fun s o => o s) s opts) = None /\ srv (foldl (fun s o => o s) s opts) = None) as Hf; [|by apply Hf].
  induction opts as [|o opts IH]; intros s Hs; [done|]. cbn [foldl]. apply IH.
  - intros o' s' Hin. apply Ho. by right.
  - destruct (Ho o s) as [-> ->]; [by left|done].
Qed.

End Process.

(** C39: What [Close] does depends on how far the goroutine of [Run] is.  Before
    it has published the server, [Close] reports success and does nothing, and
    the goroutine goes on to serve.  Between the publication and the beginning
    of [Serve], if the listener has not been closed yet, it stops the server
    cleanly: it reports success, and whatever follows, the listener stays
    closed.  Once the server serves, it closes the listener too, but always
    reports an error, because it closes again what shutting down has closed. *)
Theorem Close_reports {W} `{NetLaws W} a t w lg p :
  rtc server_step (MkProcess (NewServer a [WithTLSConfig t]) NotRun w lg) p ->
  (srv (server p) = None -> Close p = (p, None) /\ Addr p = EmptyString)
  /\ (forall l w', phase p = Listening l -> Serve l (net p) = (w', None) ->
        exists p', rtc server_step (Close p).1 p' /\ (Close p).2 = None /\ phase p' = Serving l /\ net p' = w')
  /\ (forall l, phase p = Published l -> is_open (net p) l = true ->
        (Close p).2 = None /\ forall p', rtc server_step (Close p).1 p' -> is_open (net p') l = false)
  /\ (forall l, phase p = Serving l ->
        (Close p).2 <> None /\ forall p', rtc server_step (Close p).1 p' -> is_open (net p') l = false).
Proof.
  intros Hrun.
  assert (server_inv p) as Hinv.
  { apply (server_run_inv _ _ Hrun), new_server_inv. intros o s ->%list_elem_of_singleton. done. }
  unfold server_inv in Hinv. split_and!.
  - intros Hs. unfold Close. rewrite Hs. split; [done|]. unfold Addr.
    destruct (lis (server p)) as [l|] eqn:El; [|done]. exfalso. rewrite Hs in Hinv.
    destruct (phase p); destruct_and?; try done; by match goal with Hx : is_Some None |- _ => destruct Hx end.
  - intros l w' Hph Hserve. rewrite Hph in Hinv. destruct Hinv as (_ & Hs & _).
    assert (Close p = (p, None)) as -> by (unfold Close; by rewrite Hs). cbn [fst snd].
    destruct p as [s ph wp lp]. cbn [phase server net] in *. subst ph.
    eexists. split; [|split; [done|]].
    + eapply rtc_l; [apply do_publish|]. eapply rtc_l; [by apply do_serve|]. apply rtc_refl.
    + done.
  - intros l Hph Ho. rewrite Hph in Hinv. destruct Hinv as (Hl & Hx & Ht).
    destruct (Close_untracked p l Hl Hx Ho (Ht Ho)) as [Hc Hclosed]. split; [exact Hc|].
    intros p' Hp'. apply (shut_run l _ _ Hp'). destruct (Close_server p) as [Es Ep]. unfold shut. rewrite Es, Ep, Hph. done.
  - intros l Hph. rewrite Hph in Hinv. destruct Hinv as (Hl & Hx & Hs).
    destruct (Close_served p l Hl Hx Hs) as [Hc Hclosed]. split; [exact Hc|].
    intros p' Hp'. apply (shut_run l _ _ Hp'). destruct (Close_server p) as [Es Ep]. unfold shut. rewrite Es, Ep, Hph. done.
Qed.

(** ** A network with one listener *)

Record one_net : Type := MkOneNet { listener_open : bool; listener_tracked : bool }.

Definition one_listener : Net one_net :=
  {| Listen := fun (_ : string) w => if listener_open w then (w, Err "address already in use") else (MkOneNet true false, Ok 0);
     Serve := fun (_ : nat) w => (MkOneNet (listener_open w) true, None);
     Shutdown := fun (_ : nat) w => (MkOneNet (listener_open w && negb (listener_tracked w)) false, None);
     Listener_Close := fun (_ : nat) w =>
       (MkOneNet false (listener_tracked w), if listener_open w then None else Some "use of closed network connection");
     Listener_Addr := fun (_ : nat) _ => "127.0.0.1:8443";
     is_open := fun w (_ : nat) => listener_open w;
     tracked := fun w (_ : nat) => listener_tracked w |}.

#[refine] Definition one_listener_laws : @NetLaws one_net one_listener := {| serve_tracks := _ |}.
Proof.
  - intros a l [[] t] w'; cbn; [done|]. by intros [= <- _].
  - intros l w w'. cbn. intros [= <-]. by left.
  - intros l [o t]. by cbn.
  - intros l [o t] [Ht|Ho]; cbn in *; subst; [apply andb_false_r|done].
  - intros l [o t]. cbn. intros ->. by rewrite andb_true_r.
  - done.
  - intros l [[] t]; cbn; by split.
Defined.

Definition sample_process (ph : run_phase) (s : Server) (w : one_net) : process one_net := MkProcess s ph w [].

(** Before, between and after: the same call does nothing, stops the server, and
    fails. *)
Lemma Close_reports_witness :
  let s := NewServer "127.0.0.1:0" [WithTLSConfig 1] in
  let published := {| lis := Some 0; srv := Some (Some 1); addr := "127.0.0.1:0"; tlsConfig := Some 1 |} in
  (exists p', rtc (@server_step _ one_listener) (@Close _ one_listener (sample_process (Listening 0) s (MkOneNet true false))).1 p'
    /\ phase p' = Serving 0 /\ listener_open (net p') = true)
  /\ (@Close _ one_listener (sample_process (Published 0) published (MkOneNet true false))).2 = None
  /\ (@Close _ one_listener (sample_process (Serving 0) published (MkOneNet true true))).2 <> None.
Proof.
  cbn zeta.
  assert (rtc (@server_step _ one_listener)
    (MkProcess (NewServer "127.0.0.1:0" [WithTLSConfig 1]) NotRun (MkOneNet false false) [])
    (sample_process (Listening 0) (NewServer "127.0.0.1:0" [WithTLSConfig 1]) (MkOneNet true false))) as R1.
  { eapply rtc_l; [apply do_run|]. eapply rtc_l; [by apply (@do_listen _ one_listener _ _ (MkOneNet true false) 0)|].
    apply rtc_refl. }
  pose proof (rtc_r _ _ _ R1 (@do_publish _ one_listener _ 0 _ [])) as R2.
  pose proof (rtc_r _ _ _ R2 (@do_serve _ one_listener _ 0 _ _ [] eq_refl)) as R3.
  destruct (@Close_reports _ one_listener one_listener_laws _ _ _ _ _ R1) as (_ & Hlistening & _ & _).
  destruct (@Close_reports _ one_listener one_listener_laws _ _ _ _ _ R2) as (_ & _ & Hpublished & _).
  destruct (@Close_reports _ one_listener one_listener_laws _ _ _ _ _ R3) as (_ & _ & _ & Hserving).
  split_and!.
  - destruct (Hlistening 0 (MkOneNet true true) eq_refl eq_refl) as (p' & Hp & _ & Hph & Hnet).
    exists p'. rewrite Hnet. by split_and!.
  - exact (proj1 (Hpublished 0 eq_refl eq_refl)).
  - exact (proj1 (Hserving 0 eq_refl)).
Defined.
