(* ===== verification/EnvStruct.v ===== *)
(** * Settings from the environment (go-envstruct, vendored)

    Each program declares a struct whose fields carry an [env] tag: the name of
    an environment variable and options after commas.  [Load] fills the fields
    in.  The structs of the programs are flat, with strings, booleans and
    integers, so a struct is the list of its fields. *)

From stdpp Require Import base gmap strings list sorting.
From Stdlib Require Import Ascii ZArith Lia.
From S2P Require Import Prelude Utf8 GoStd GoPath.

Inductive field_value : Type :=
| VString (s : string)
| VBool (b : bool)
| VInt (z : Z).          (** an [int] of 64 bits *)

Record field : Type := MkField { field_name : string; env_tag : string; value : field_value }.

Definition set_value (v : field_value) (f : field) : field :=
  {| field_name := field_name f; env_tag := env_tag f; value := v |}.

(** ** strconv.ParseInt(input, 10, 64) *)

Inductive num_error : Type := ErrSyntax | ErrRange.

Definition digit_value (c : ascii) : option Z :=
  if digit_char c then Some (byte_of c - 48)%Z else None.

(** The loop of [ParseUint]: [n] is below 2^64. *)
Fixpoint parse_digits (n : Z) (s : string) : res num_error Z :=
  match s with
  | EmptyString => Ok n
  | String c s' =>
      match digit_value c with
      | None => Err ErrSyntax
      | Some d =>
          if ((2 ^ 64 - 1) / 10 + 1 <=? n)%Z then Err ErrRange
          else
            let n1 := Z.modulo (n * 10 + d) (2 ^ 64) in
            if (n1 <? n * 10)%Z then Err ErrRange else parse_digits n1 s'
      end
  end.

Definition ParseUint (s : string) : res num_error Z :=
  if String.eqb s EmptyString then Err ErrSyntax else parse_digits 0 s.

Definition sign_of (s : string) : bool * string :=
  match s with
  | EmptyString => (false, s)
  | String c s' => if Ascii.eqb c "+" then (false, s') else if Ascii.eqb c "-" then (true, s') else (false, s)
  end.

Definition ParseInt (s : string) : res num_error Z :=
  if String.eqb s EmptyString then Err ErrSyntax
  else
    let '(neg, s) := sign_of s in
    match ParseUint s with
    | Err e => Err e
    | Ok un =>
        if negb neg && (2 ^ 63 <=? un)%Z then Err ErrRange
        else if neg && (2 ^ 63 <? un)%Z then Err ErrRange
        else Ok (if neg then (- un)%Z else un)
    end.

(** ** Tags *)

(** [strings.TrimSpace] of an ASCII text, as tags are. *)
Definition is_space (c : ascii) : bool := in_range 9 13 (byte_of c) || Ascii.eqb c " ".

Fixpoint trim_left (s : string) : string :=
  match s with
  | EmptyString => EmptyString
  | String c s' => if is_space c then trim_left s' else s
  end.

Fixpoint trim_right (s : string) : string :=
  match s with
  | EmptyString => EmptyString
  | String c s' =>
      match trim_right s' with
      | EmptyString => if is_space c then EmptyString else String c EmptyString
      | t => String c t
      end
  end.

Definition TrimSpace (s : string) : string := trim_right (trim_left s).

Definition separateOnComma (input : string) : list string := map TrimSpace (split_at "," input).

Definition tagPropertiesContains (properties : list string) (m : string) : bool :=
  existsb (fun v => String.eqb v m) properties.

(** ** Load *)

Inductive env_error : Type :=
| MissingRequired (vars : list string)
| BadInt (input : string) (e : num_error).

(** The variable of a field, and whether it is required. *)
Definition env_var (f : field) : string := default EmptyString (head (separateOnComma (env_tag f))).
Definition is_required (f : field) : bool := tagPropertiesContains (separateOnComma (env_tag f)) "required".

Definition isInvalid (input : string) (required : bool) : bool := required && String.eqb input EmptyString.

Definition setField (f : field) (input : string) : res env_error field :=
  if String.eqb input EmptyString then Ok f
  else
    match value f with
    | VString _ => Ok (set_value (VString input) f)
    | VBool _ => Ok (set_value (VBool (String.eqb input "true" || String.eqb input "1")) f)
    | VInt _ =>
        match ParseInt input with
        | Err e => Err (BadInt input e)
        | Ok n => Ok (set_value (VInt n) f)
        end
    end.

Section Loading.
Context (Getenv : string -> string) `{R : MapRange} `{S : SliceSort}.

(** [load]: the fields with their values, and the variables that are missing. *)
Fixpoint load (t : list field) : res env_error (list field * list string) :=
  match t with
  | [] => Ok ([], [])
  | f :: t' =>
      let envVal := Getenv (env_var f) in
      if isInvalid envVal (is_required f) then
        match load t' with
        | Err e => Err e
        | Ok (fs, missing) => Ok (f :: fs, env_var f :: missing)
        end
      else
        match setField f envVal with
        | Err e => Err e
        | Ok f' =>
            match load t' with
            | Err e => Err e
            | Ok (fs, missing) => Ok (f' :: fs, missing)
            end
        end
  end.

Definition uniqueStrings (s : list string) : list string :=
  let m := foldl (fun m str => <[str := true]> m) (∅ : gmap string bool) s in
  sort_slice str_less (map fst (range 0 m)).

Definition Load (t : list field) : res env_error (list field) :=
  match load t with
  | Err e => Err e
  | Ok (fs, missing) =>
      match missing with
      | [] => Ok fs
      | _ => Err (MissingRequired (uniqueStrings missing))
      end
  end.

(** ** What a struct is once loaded *)

(** A field takes the value of its variable, or keeps its own when the variable
    is empty. *)
Definition loaded (f f' : field) : Prop :=
  field_name f' = field_name f /\ env_tag f' = env_tag f /\
  let input := Getenv (env_var f) in
  if String.eqb input EmptyString then is_required f = false /\ value f' = value f
  else match value f with
       | VString _ => value f' = VString input
       | VBool _ => value f' = VBool (String.eqb input "true" || String.eqb input "1")
       | VInt _ => exists n, ParseInt input = Ok n /\ value f' = VInt n
       end.

Lemma load_ok t fs : load t = Ok (fs, []) -> Forall2 loaded t fs.
Proof.
  revert fs. induction t as [|f t IH]; intros fs; cbn; [by intros [= <-]|].
  unfold isInvalid, setField. destruct (String.eqb (Getenv (env_var f)) EmptyString) eqn:Ee;
    rewrite ?andb_true_r, ?andb_false_r.
  - destruct (is_required f) eqn:Er; [by destruct (load t) as [[? ?]|]|].
    destruct (load t) as [[fs' m]|]; [|done]. intros [= <- ->]. constructor; [|by apply IH].
    unfold loaded. rewrite Ee. by split_and!.
  - destruct (value f) eqn:Ev; try destruct (ParseInt _) eqn:Ep; try done;
      (destruct (load t) as [[fs' m]|]; [|done]); intros [= <- ->]; (constructor; [|by apply IH]);
      unfold loaded; rewrite Ee, Ev; split_and!; by eauto.
Qed.

Lemma load_missing t fs missing :
  load t = Ok (fs, missing) ->
  missing = map env_var (List.filter (fun f => isInvalid (Getenv (env_var f)) (is_required f)) t).
Proof.
  revert fs missing. induction t as [|f t IH]; intros fs missing; cbn; [by intros [= _ <-]|].
  destruct (isInvalid _ _).
  - destruct (load t) as [[fs' m]|]; [|done]. intros [= _ <-]. cbn. f_equal. by eapply IH.
  - destruct (setField _ _); [|done]. destruct (load t) as [[fs' m]|]; [|done]. intros [= _ <-]. by eapply IH.
Qed.

(** Only an integer can be refused. *)
Definition no_int (f : field) : bool := match value f with VInt _ => false | _ => true end.

Lemma load_no_int t : forallb no_int t = true -> exists r, load t = Ok r.
Proof.
  induction t as [|f t IH]; cbn; [by eexists|]. intros [Hf [[fs m] ->]%IH]%andb_prop.
  destruct (isInvalid _ _); [by eexists|]. unfold setField, no_int in *.
  destruct (String.eqb _ _); [by eexists|]. by destruct (value f); [eexists..|].
Qed.

Lemma Load_ok t fs : Load t = Ok fs -> Forall2 loaded t fs.
Proof.
  unfold Load. destruct (load t) as [[fs' [|v m]]|] eqn:El; [|done..]. intros [= <-]. by apply load_ok.
Qed.

End Loading.

(** ** Integers *)

Lemma digit_value_range c d : digit_value c = Some d -> (0 <= d < 10)%Z.
Proof.
  unfold digit_value, digit_char. destruct (_ && _) eqn:E; [|done]. intros [= <-]. boolify. lia.
Qed.

(** The value of a text of digits. *)
Fixpoint digits_value (n : Z) (s : string) : option Z :=
  match s with
  | EmptyString => Some n
  | String c s' => d ← digit_value c; digits_value (n * 10 + d) s'
  end.

Lemma digits_value_grows s n v : (0 <= n)%Z -> digits_value n s = Some v -> (n <= v)%Z.
Proof.
  revert n. induction s as [|c s IH]; intros n Hn; cbn; [by intros [= ->]|].
  destruct (digit_value c) as [d|] eqn:Ed; [|done]. cbn. apply digit_value_range in Ed. intros Hv%IH; lia.
Qed.

(** [parse_digits] is exact, or reports that the value does not fit. *)
Lemma parse_digits_exact s n v :
  (0 <= n < 2 ^ 64)%Z -> digits_value n s = Some v ->
  parse_digits n s = if (v <? 2 ^ 64)%Z then Ok v else Err ErrRange.
Proof.
  revert n. induction s as [|c s IH]; intros n Hn; cbn [digits_value parse_digits].
  - intros [= ->]. by destruct (Z.ltb_spec v (2 ^ 64)); [|lia].
  - destruct (digit_value c) as [d|] eqn:Ed; [|done]. cbn [mbind option_bind]. apply digit_value_range in Ed.
    intros Hv. assert (n * 10 + d <= v)%Z as Hle by (eapply digits_value_grows; [lia|exact Hv]).
    destruct (Z.leb_spec ((2 ^ 64 - 1) / 10 + 1) n) as [Hc|Hc].
    + assert ((2 ^ 64 - 1) / 10 + 1 = 1844674407370955162)%Z as Hq by reflexivity. rewrite Hq in Hc.
      destruct (Z.ltb_spec v (2 ^ 64)); [lia|done].
    + assert ((2 ^ 64 - 1) / 10 + 1 = 1844674407370955162)%Z as Hq by reflexivity. rewrite Hq in Hc.
      destruct (Z.lt_ge_cases (n * 10 + d) (2 ^ 64)) as [Hlt|Hge].
      * rewrite Z.mod_small by lia. destruct (Z.ltb_spec (n * 10 + d) (n * 10)); [lia|]. apply IH; [lia|done].
      * assert (Z.modulo (n * 10 + d) (2 ^ 64) = n * 10 + d - 2 ^ 64)%Z as ->.
        { symmetry. apply (Zmod_unique _ _ 1); [|ring]. change (2 ^ 64)%Z with 18446744073709551616%Z in *. lia. }
        destruct (Z.ltb_spec (n * 10 + d - 2 ^ 64) (n * 10)); [|lia]. destruct (Z.ltb_spec v (2 ^ 64)); [lia|done].
Qed.

Lemma parse_digits_ok s n v : (0 <= n < 2 ^ 64)%Z -> parse_digits n s = Ok v -> digits_value n s = Some v.
Proof.
  intros Hn Hp. destruct (digits_value n s) as [w|] eqn:Ew.
  - rewrite (parse_digits_exact _ _ _ Hn Ew) in Hp. by destruct (w <? 2 ^ 64)%Z; [injection Hp as ->|].
  - exfalso. revert n Hn Hp Ew. induction s as [|c s IH]; intros n Hn; cbn [digits_value parse_digits]; [done|].
    destruct (digit_value c) as [d|] eqn:Ed; [|done]. cbn [mbind option_bind]. apply digit_value_range in Ed.
    destruct (Z.leb _ _); [done|]. destruct (Z.ltb_spec (Z.modulo (n * 10 + d) (2 ^ 64)) (n * 10)) as [|Hge]; [done|].
    assert (n * 10 + d < 2 ^ 64)%Z as Hlt.
    { destruct (Z.lt_ge_cases (n * 10 + d) (2 ^ 64)) as [|Hbig]; [done|].
      pose proof (Z.mod_le (n * 10 + d - 2 ^ 64) (2 ^ 64)) as Hm.
      rewrite <- (Z_mod_plus_full _ 1 (2 ^ 64)) in Hm. rewrite Z.mul_1_l in Hm.
      replace (n * 10 + d - 2 ^ 64 + 2 ^ 64)%Z with (n * 10 + d)%Z in Hm by lia. lia. }
    rewrite Z.mod_small by lia. intros Hp Ew. apply (IH (n * 10 + d)%Z); [lia|done..].
Qed.

(** [ParseInt] accepts exactly the decimal texts of 64-bit integers. *)
Lemma ParseInt_range s n : ParseInt s = Ok n -> (- 2 ^ 63 <= n < 2 ^ 63)%Z.
Proof.
  unfold ParseInt, ParseUint. destruct (String.eqb s EmptyString); [done|]. destruct (sign_of s) as [neg s'].
  destruct (String.eqb s' EmptyString); [done|]. destruct (parse_digits 0 s') as [un|] eqn:Eu; [|done].
  apply parse_digits_ok in Eu; [|lia]. apply digits_value_grows in Eu; [|lia].
  destruct neg; cbn [negb andb].
  - destruct (Z.ltb_spec (2 ^ 63) un); [done|]. intros [= <-]. lia.
  - destruct (Z.leb_spec (2 ^ 63) un); [done|]. intros [= <-]. lia.
Qed.

Example ParseInt_samples :
  (ParseInt "8192", ParseInt "-9223372036854775808", ParseInt "9223372036854775808", ParseInt "1e3", ParseInt "-")
  = (Ok 8192%Z, Ok (-9223372036854775808)%Z, Err ErrRange, Err ErrSyntax, Err ErrSyntax).
Proof. vm_compute. reflexivity. Qed.
