(* ===== verification/Startup.v ===== *)
(** * How the programs start ([cmd/*/main.go])

    What the four [main] functions have in common: settings from the
    environment, the configuration of a client inside a cluster, and the
    clients.  Every step can end the program with [log.Fatal], so a [main] is
    a computation in the monad [boot]: it changes the process and gives a
    value or the error that ended it.  The machine and the API server are the
    class [Platform]. *)

From stdpp Require Import base gmap strings list.
From Stdlib Require Import Ascii ZArith Lia SpecFloat.
From S2P Require Import Prelude Utf8 GoStd GoJson FlbLex FlbParse GoPath Types SinkController Cache Listers InformerFactory RestRequest RestConfig GoUrl TypedClients Clientset EnvStruct.

(** ** The platform *)

Class Platform (W : Type) := {
  (** [os.Getenv]; an unset variable is empty *)
  Getenv : string -> string;
  (** [envstruct.WriteReport] *)
  WriteReport : list field -> W -> W * option string;
  (** the errors of reading the token and the certificates of the service account *)
  ReadToken : W -> option string;
  ReadRootCA : W -> option string;
  (** client-go's typed clients of the core group *)
  CoreV1Client : Type;
  coreV1_NewForConfig : Config -> limiters -> res string CoreV1Client * limiters;
  (** client-go's clientset *)
  KubeClient : Type;
  kubernetes_NewForConfig : Config -> limiters -> res string KubeClient * limiters;
  (** the labels of the nodes *)
  Nodes_List : CoreV1Client -> W -> W * res string (list (gmap string string));
  (** the config maps and pods of a namespace *)
  core_namespace : CoreV1Client -> string -> KubeWorld W;
}.

(** What the platform's documentation says of config maps: patches work as in
    [PatchServer], and reporting and listing nodes leave them alone. *)
Class PlatformLaws (W : Type) `{P : Platform W} := {
  namespace_server : forall c ns, @PatchServer W (core_namespace c ns);
  report_keeps : forall c ns fs w name,
    @config_map W _ (namespace_server c ns) (WriteReport fs w).1 name = @config_map W _ (namespace_server c ns) w name;
  nodes_keep : forall c ns d w name,
    @config_map W _ (namespace_server c ns) (Nodes_List d w).1 name = @config_map W _ (namespace_server c ns) w name;
}.

(** ** Processes *)

Inductive start_error : Type :=
| EnvError (e : env_error)
| ReportError (e : string)
| NotInCluster
| TokenError (e : string)
| ClientConfigError (e : config_error)
| CoreClientError (e : string)
| NodesError (e : string)
| NoNodes
| ForwarderError (e : string)
| CertificateError (e : string).

(** [log.Fatal] ends the process with the text of the error. *)
Record proc (W : Type) : Type := MkProc { p_world : W; p_logs : list string; p_limiters : limiters }.
Arguments MkProc {W}.
Arguments p_world {W}.
Arguments p_logs {W}.
Arguments p_limiters {W}.

Definition boot (W A : Type) : Type := proc W -> proc W * res start_error A.

#[export] Instance boot_ret {W} : MRet (boot W) := fun A a p => (p, Ok a).
#[export] Instance boot_bind {W} : MBind (boot W) := fun A B k m p =>
  let '(p, a) := m p in
  match a with Ok a => k a p | Err e => (p, Err e) end.

Section Steps.
Context {W : Type}.

Definition log_Fatal {A} (e : start_error) : boot W A := fun p => (p, Err e).

(** A call that changes the world and may fail. *)
Definition on_world {A} (f : W -> W * res start_error A) : boot W A := fun p =>
  let '(w, a) := f (p_world p) in
  ({| p_world := w; p_logs := p_logs p; p_limiters := p_limiters p |}, a).

(** The construction of a client. *)
Definition on_limiters {A} (f : limiters -> res start_error A * limiters) : boot W A := fun p =>
  let '(a, ls) := f (p_limiters p) in
  ({| p_world := p_world p; p_logs := p_logs p; p_limiters := ls |}, a).

Definition log_line (line : string) : boot W unit := fun p =>
  ({| p_world := p_world p; p_logs := p_logs p ++ [line]; p_limiters := p_limiters p |}, Ok tt).

Definition map_err {E F A} (f : E -> F) (r : res E A) : res F A :=
  match r with Ok a => Ok a | Err e => Err (f e) end.

Definition check {E} (f : E -> start_error) (err : option E) : res start_error unit :=
  match err with None => Ok tt | Some e => Err (f e) end.

(** A step that ends well. *)
Lemma bind_ok {A B} (m : boot W A) (k : A -> boot W B) p p' b :
  (m ≫= k) p = (p', Ok b) -> exists q a, m p = (q, Ok a) /\ k a q = (p', Ok b).
Proof.
  unfold mbind, boot_bind. destruct (m p) as [q [a|e]]; [|by intros [=]]. intros E. by exists q, a.
Qed.

(** A step that ends the program, or a later one that does. *)
Lemma bind_err {A B} (m : boot W A) (k : A -> boot W B) p p' e :
  (m ≫= k) p = (p', Err e) ->
  m p = (p', Err e) \/ exists q a, m p = (q, Ok a) /\ k a q = (p', Err e).
Proof.
  unfold mbind, boot_bind. destruct (m p) as [q [a|e']]; [right; by exists q, a|].
  intros [= -> ->]. by left.
Qed.

End Steps.

(** ** The common steps *)

Definition NodeLabel : string := "pks-system/cluster.name".

(** [net.JoinHostPort] *)
Definition JoinHostPort (host port : string) : string :=
  match IndexByte host ":" with
  | None => host +:+ ":" +:+ port
  | Some _ => "[" +:+ host +:+ "]:" +:+ port
  end.

Definition rootCAFile : string := "/var/run/secrets/kubernetes.io/serviceaccount/ca.crt".

(** ** Fields and informers *)

(** The value of a field of text. *)
Definition text_field (name : string) (t : list field) : string :=
  match List.find (fun f => String.eqb (field_name f) name) t with
  | Some {| value := VString s |} => s
  | _ => EmptyString
  end.

Definition flag_field (name : string) (t : list field) : bool :=
  match List.find (fun f => String.eqb (field_name f) name) t with
  | Some {| value := VBool b |} => b
  | _ => false
  end.

Definition number_field (name : string) (t : list field) : Z :=
  match List.find (fun f => String.eqb (field_name f) name) t with
  | Some {| value := VInt z |} => z
  | _ => 0
  end.

(** 30 seconds *)
Definition resync : Z := 30000000000.

(** An informer of all namespaces, resynchronised every 30 seconds. *)
Record watches (resource type : string) (inf : SharedIndexInformer ListOptions) : Prop := {
  wa_list : forall o, ListFunc inf o = MkClientCall ListCall resource EmptyString o;
  wa_watch : forall o, WatchFunc inf o = MkClientCall WatchCall resource EmptyString o;
  wa_type : objectType inf = type;
  wa_resync : resyncPeriod inf = resync;
  wa_index : namespace_index inf = true;
}.

(** The first informer of a new factory. *)
Lemma first_informer {Opts} t (newFunc : Z -> SharedIndexInformer Opts) r q :
  q = InformerFor t newFunc (new_state (NewSharedInformerFactory r)) ->
  q = (0, snd q) /\ heap (snd q) = [newFunc r] /\ informers (factory (snd q)) = {[t := 0]}
  /\ customResync (factory (snd q)) = ∅ /\ defaultResync (factory (snd q)) = r
  /\ f_namespace (factory (snd q)) = EmptyString /\ f_tweak (factory (snd q)) = None.
Proof.
  intros ->. unfold InformerFor, new_state, NewSharedInformerFactory, NewSharedInformerFactoryWithOptions.
  cbn [foldl factory informers customResync]. rewrite !lookup_empty. done.
Qed.

Section Common.
Context {W : Type} `{P : Platform W} `{L : ClientLibrary} `{R : MapRange} `{S : SliceSort}.

Definition load_settings (t : list field) : boot W (list field) := fun p =>
  (p, map_err EnvError (Load Getenv t)).

Definition write_report (t : list field) : boot W unit :=
  on_world (fun w => let '(w, err) := WriteReport t w in (w, check ReportError err)).

(** The configuration [rest.InClusterConfig] makes; the token source is in its
    transport. *)
Definition cluster_config (host port ca : string) : Config :=
  {| config_Host := "https://" +:+ JoinHostPort host port; APIPath := EmptyString; ContentType := EmptyString;
     config_GroupVersion := None; NegotiatedSerializer := None;
     CAFile := ca; CAData := EmptyString; CertFile := EmptyString; CertData := EmptyString; Insecure := false;
     UserAgent := EmptyString; QPS := float_zero; Burst := 0; RateLimiter := None; config_Timeout := 0;
     transport_config := "token" |}.

(** [rest.InClusterConfig].  What it reports through klog is not represented. *)
Definition InClusterConfig : boot W Config :=
  let host := Getenv "KUBERNETES_SERVICE_HOST" in
  let port := Getenv "KUBERNETES_SERVICE_PORT" in
  if String.eqb host EmptyString || String.eqb port EmptyString then log_Fatal NotInCluster
  else on_world (fun w =>
    match ReadToken w with
    | Some e => (w, Err (TokenError e))
    | None =>
        let ca := match ReadRootCA w with Some _ => EmptyString | None => rootCAFile end in
        (w, Ok (cluster_config host port ca))
    end).

Definition versioned_client (cfg : Config) : boot W Clientset :=
  on_limiters (fun ls => let '(c, ls) := NewForConfig cfg ls in (map_err ClientConfigError c, ls)).

Definition core_client (cfg : Config) : boot W CoreV1Client :=
  on_limiters (fun ls => let '(c, ls) := coreV1_NewForConfig cfg ls in (map_err CoreClientError c, ls)).

Definition kubernetes_client (cfg : Config) : boot W KubeClient :=
  on_limiters (fun ls => let '(c, ls) := kubernetes_NewForConfig cfg ls in (map_err CoreClientError c, ls)).

Definition list_nodes (c : CoreV1Client) : boot W (list (gmap string string)) :=
  on_world (fun w => let '(w, ns) := Nodes_List c w in (w, map_err NodesError ns)).

(** The name of the cluster is a label of its first node. *)
Definition cluster_name (nodes : list (gmap string string)) : boot W string :=
  match nodes with
  | [] => log_Fatal NoNodes
  | node :: _ => mret (default EmptyString (node !! NodeLabel))
  end.

(** ** Lemmas *)

Lemma load_settings_ok t p p' fs : load_settings t p = (p', Ok fs) -> p' = p /\ Forall2 (loaded Getenv) t fs.
Proof.
  unfold load_settings. intros [= <- E]. split; [done|]. destruct (Load Getenv t) as [fs'|] eqn:El; [|done].
  injection E as <-. by apply Load_ok in El.
Qed.

(** A client made inside a cluster: at the root of its server, with a limiter
    of the default rate, and without one for discovery. *)
Lemma InClusterConfig_ok p p' cfg :
  InClusterConfig p = (p', Ok cfg) ->
  p' = p /\ exists ca,
    cfg = cluster_config (Getenv "KUBERNETES_SERVICE_HOST") (Getenv "KUBERNETES_SERVICE_PORT") ca.
Proof.
  unfold InClusterConfig, on_world. destruct (_ || _); [done|]. destruct p as [w lg ls]. cbn [p_world].
  destruct (ReadToken w); [done|]. intros [= <- <-]. split; [done|]. by eexists.
Qed.

Lemma JoinHostPort_server host port :
  str_forall server_char host = true -> str_forall server_char port = true ->
  str_forall server_char (JoinHostPort host port) = true.
Proof.
  intros Hh Hp. unfold JoinHostPort.
  destruct (IndexByte host ":"); by rewrite !str_forall_app, ?Hh, ?Hp.
Qed.

Lemma cluster_config_bare host port ca :
  str_forall server_char host = true -> str_forall server_char port = true -> bare_host (cluster_config host port ca).
Proof.
  intros Hh Hp u Hu. left. eapply url_Parse_server; [by eapply (JoinHostPort_server host port)|exact Hu].
Qed.

Lemma versioned_client_ok cfg p p' cs :
  versioned_client cfg p = (p', Ok cs) ->
  p_world p' = p_world p /\ p_logs p' = p_logs p /\ NewForConfig cfg (p_limiters p) = (Ok cs, p_limiters p').
Proof.
  unfold versioned_client, on_limiters. destruct (NewForConfig cfg (p_limiters p)) as [[c|e] ls]; [|done].
  by intros [= <- <-].
Qed.

Lemma core_client_ok cfg p p' c :
  core_client cfg p = (p', Ok c) -> p_world p' = p_world p /\ p_logs p' = p_logs p.
Proof. unfold core_client, on_limiters. destruct (coreV1_NewForConfig _ _) as [[x|e] ls]; by intros [= <- _]. Qed.

(** ** Steps that change no config map *)

Context `{!PlatformLaws W}.

Definition same_maps (w w' : W) : Prop :=
  forall c ns name, @config_map W _ (namespace_server c ns) w' name = @config_map W _ (namespace_server c ns) w name.

Definition calm {A} (m : boot W A) : Prop := forall p, same_maps (p_world p) (p_world (m p).1).

Lemma write_report_calm fs : calm (write_report fs).
Proof.
  intros p c ns name. unfold write_report, on_world. pose proof (report_keeps c ns fs (p_world p) name) as Hk.
  by destruct (WriteReport fs (p_world p)).
Qed.

Lemma list_nodes_calm c : calm (list_nodes c).
Proof.
  intros p c' ns name. unfold list_nodes, on_world. pose proof (nodes_keep c' ns c (p_world p) name) as Hk.
  by destruct (Nodes_List c (p_world p)).
Qed.

Lemma calm_bind {A B} (m : boot W A) (k : A -> boot W B) : calm m -> (forall a, calm (k a)) -> calm (m ≫= k).
Proof.
  intros Hm Hk p c ns name. specialize (Hm p c ns name). unfold mbind, boot_bind.
  destruct (m p) as [q [a|e]]; [|exact Hm]. cbn in Hm. rewrite <- Hm. exact (Hk a q c ns name).
Qed.

Lemma on_limiters_calm {A} (f : limiters -> res start_error A * limiters) : calm (on_limiters f).
Proof. intros p c ns name. unfold on_limiters. by destruct (f (p_limiters p)). Qed.

Lemma InClusterConfig_calm : calm InClusterConfig.
Proof.
  intros p c ns name. unfold InClusterConfig, on_world. destruct (_ || _); [done|]. by destruct (ReadToken _).
Qed.

Lemma cluster_name_calm nodes : calm (cluster_name nodes).
Proof. intros p c ns name. by destruct nodes. Qed.

(** A step that only ends the program before anything is changed. *)
Lemma calm_err {A B} (m : boot W A) (k : A -> boot W B) p p' e :
  calm m -> (forall a q, k a q = (p', Err e) -> same_maps (p_world q) (p_world p')) ->
  (m ≫= k) p = (p', Err e) -> same_maps (p_world p) (p_world p').
Proof.
  intros Hm Hk. specialize (Hm p). intros [H|(q & a & H & H2)]%bind_err; rewrite H in Hm; [exact Hm|].
  intros c ns name. rewrite (Hk _ _ H2). apply Hm.
Qed.

End Common.
