(* ===== verification/InformerRequests.v ===== *)
(** * The requests of an informer

    An informer lists and watches through two functions it was constructed
    with, which call the typed client of its kind
    ([informers/externalversions/sink/v1alpha1], [clientset/versioned]).  Here
    the calls of [InformerFactory] are run by the clients of [TypedClients]:
    the options the reflector asks with, the list in pages, and what the API
    server is sent.  A server whose lists are those of a history of [ApiServer]
    then gives the reflector the answers that the theorems about informers
    assume. *)

From stdpp Require Import base gmap strings list pretty.
From Stdlib Require Import Lia ZArith.
From S2P Require Import Prelude GoStd GoPath Types Listers InformerFactory Reflector InformerSystem InformerKinds ApiServer RestRequest Pager RestConfig TypedClients Clientset Startup.

(** ** The options of the reflector *)

Definition watch_options (resourceVersion : string) (timeoutSeconds : Z) : ListOptions :=
  {| LabelSelector := EmptyString; FieldSelector := EmptyString; IncludeUninitialized := false; lo_Watch := false;
     lo_ResourceVersion := resourceVersion; TimeoutSeconds := Some timeoutSeconds; Limit := 0; Continue := EmptyString |}.

(** [minWatchTimeout] in seconds *)
Definition minWatchTimeout : Z := 300.

(** The random timeout of a watch: once to twice the minimum. *)
Definition watch_timeout (s : Z) : Prop := (minWatchTimeout <= s <= 2 * minWatchTimeout)%Z.

(** ** The calls of the informers *)

(** What [meta.ListAccessor] and [meta.EachListItem] see of a typed list. *)
Definition listing_of {T} `{ClientKind T} (l : ListOf T) : listing :=
  {| l_items := map of_kind (default [] (Items l)); l_version := lm_ResourceVersion (lst_ListMeta l);
     l_continue := lm_Continue (lst_ListMeta l) |}.

Definition list_result {W T} `{ClientKind T} (r : W * (ListOf T * option request_error)) : W * res request_error listing :=
  let '(w, (l, err)) := r in (w, match err with Some e => Err e | None => Ok (listing_of l) end).

Section Calls.
Context `{Codec} {W : Type} `{Transport W} (cs : Clientset).

(** What the two functions of each informer call. *)
Definition logSink_list (namespace : string) (o : ListOptions) (w : W) : W * res request_error listing :=
  list_result (logSinks_List (client_LogSinks (ObservabilityV1alpha1 cs) namespace) o w).
Definition logSink_watch (namespace : string) (o : ListOptions) (w : W) : W * res request_error nat :=
  logSinks_Watch (client_LogSinks (ObservabilityV1alpha1 cs) namespace) o w.

Definition clusterLogSink_list (namespace : string) (o : ListOptions) (w : W) : W * res request_error listing :=
  list_result (clusterLogSinks_List (client_ClusterLogSinks (ObservabilityV1alpha1 cs) namespace) o w).
Definition clusterLogSink_watch (namespace : string) (o : ListOptions) (w : W) : W * res request_error nat :=
  clusterLogSinks_Watch (client_ClusterLogSinks (ObservabilityV1alpha1 cs) namespace) o w.

Definition metricSink_list (namespace : string) (o : ListOptions) (w : W) : W * res request_error listing :=
  list_result (metricSinks_List (client_MetricSinks (ObservabilityV1alpha1 cs) namespace) o w).
Definition metricSink_watch (namespace : string) (o : ListOptions) (w : W) : W * res request_error nat :=
  metricSinks_Watch (client_MetricSinks (ObservabilityV1alpha1 cs) namespace) o w.

Definition clusterMetricSink_list (namespace : string) (o : ListOptions) (w : W) : W * res request_error listing :=
  list_result (clusterMetricSinks_List (client_ClusterMetricSinks (ObservabilityV1alpha1 cs) namespace) o w).
Definition clusterMetricSink_watch (namespace : string) (o : ListOptions) (w : W) : W * res request_error nat :=
  clusterMetricSinks_Watch (client_ClusterMetricSinks (ObservabilityV1alpha1 cs) namespace) o w.

(** The factory has no informers of other resources. *)
Definition call_list (c : client_call ListOptions) : W -> W * res request_error listing :=
  let ns := cc_namespace c in
  if String.eqb (cc_resource c) "logsinks" then logSink_list ns (cc_options c)
  else if String.eqb (cc_resource c) "clusterlogsinks" then clusterLogSink_list ns (cc_options c)
  else if String.eqb (cc_resource c) "metricsinks" then metricSink_list ns (cc_options c)
  else clusterMetricSink_list ns (cc_options c).

Definition call_watch (c : client_call ListOptions) : W -> W * res request_error nat :=
  let ns := cc_namespace c in
  if String.eqb (cc_resource c) "logsinks" then logSink_watch ns (cc_options c)
  else if String.eqb (cc_resource c) "clusterlogsinks" then clusterLogSink_watch ns (cc_options c)
  else if String.eqb (cc_resource c) "metricsinks" then metricSink_watch ns (cc_options c)
  else clusterMetricSink_watch ns (cc_options c).

(** [ListWatch.List] with the options of [ListAndWatch], and what the reflector
    takes of the list. *)
Definition reflector_list (IsResourceExpired : request_error -> bool) (fuel : nat)
    (inf : SharedIndexInformer ListOptions) (w : W) : option (W * res request_error (list obj * string)) :=
  match pager_List IsResourceExpired (fun o => call_list (ListFunc inf o)) fuel list_options w with
  | None => None
  | Some (w, Ok l) => Some (w, Ok (l_items l, l_version l))
  | Some (w, Err e) => Some (w, Err e)
  end.

Definition reflector_watch (resourceVersion : string) (timeoutSeconds : Z)
    (inf : SharedIndexInformer ListOptions) (w : W) : W * res request_error nat :=
  call_watch (WatchFunc inf (watch_options resourceVersion timeoutSeconds)) w.

(** ** What is sent *)

Definition group_client : RESTClient := restClient (observabilityV1alpha1 cs).

(** A listing of all namespaces. *)
Definition list_request (res_name : string) (vs : Values) (timeout : Z) : http_request :=
  MkHttpRequest "GET" (collection_path res_name EmptyString) vs timeout (accept group_client) None.

Definition answer_listing {T} `{ClientKind T} (a : res request_error answer) : res request_error listing :=
  match Into as_list list_zero a with (l, None) => Ok (listing_of l) | (_, Some e) => Err e end.

End Calls.

(** What the informer of a kind relies on: its calls reach the client of the
    kind. *)
Class Served (T : Type) `{CK : ClientKind T} := {
  served_name : string;
  served_type : string;
  served_segment : segment served_name;
  served_resource : resource_name served_name = true;
  served_path : collection_path served_name EmptyString = "/apis/observability.knative.dev/v1alpha1/" +:+ served_name;
  served_list : forall `{Codec} {W} `{Transport W} cs ns o (w : W),
    call_list cs (MkClientCall ListCall served_name ns o) w
    = list_result (kind_List T served_name {| client := group_client cs; ns := ns |} o w);
  served_watch : forall `{Codec} {W} `{Transport W} cs ns o (w : W),
    call_watch cs (MkClientCall WatchCall served_name ns o) w
    = kind_Watch served_name {| client := group_client cs; ns := ns |} o w;
}.
Arguments served_name T {_ _ _}.
Arguments served_type T {_ _ _}.

(** The parts of a request for the objects of a kind in all namespaces. *)
Ltac request_parts := solve [apply served_segment | apply served_resource | done].

#[export, refine] Instance served_logsinks : Served LogSink :=
  {| served_name := "logsinks"; served_type := LogSink_type |}.
Proof. all: done. Defined.
#[export, refine] Instance served_clusterlogsinks : Served ClusterLogSink :=
  {| served_name := "clusterlogsinks"; served_type := ClusterLogSink_type |}.
Proof. all: done. Defined.
#[export, refine] Instance served_metricsinks : Served MetricSink :=
  {| served_name := "metricsinks"; served_type := MetricSink_type |}.
Proof. all: done. Defined.
#[export, refine] Instance served_clustermetricsinks : Served ClusterMetricSink :=
  {| served_name := "clustermetricsinks"; served_type := ClusterMetricSink_type |}.
Proof. all: done. Defined.

(** ** Lemmas *)

Section Requests.
Context {T : Type} `{SV : Served T} `{Codec} {W : Type} `{Transport W} (cs : Clientset).
Hypothesis Hroot : at_root (group_client cs).
Context (inf : SharedIndexInformer ListOptions) (Hinf : watches (served_name T) (served_type T) inf).

Lemma list_result_sends rq w :
  list_result (sends rq (Into as_list list_zero) w) = sends rq answer_listing w.
Proof.
  unfold sends, answer_listing. destruct (RoundTrip rq w) as [w' a]. cbn. by destruct (Into _ _ _) as [l []].
Qed.

(** A list is one request. *)
Lemma informer_list_sends o vs w :
  EncodeParameters (ParamList o) = Ok vs ->
  call_list cs (ListFunc inf o) w = sends (list_request cs (served_name T) vs (list_timeout o)) answer_listing w.
Proof.
  intros Hv. rewrite (wa_list _ _ _ Hinf), served_list.
  rewrite (kind_List_sends _ _ _ vs) by request_parts. apply list_result_sends.
Qed.

Lemma informer_watch_sends o vs w :
  EncodeParameters (ParamList (set_watch o)) = Ok vs ->
  call_watch cs (WatchFunc inf o) w =
  let '(w, a) := OpenWatch (list_request cs (served_name T) vs (list_timeout o)) w in
  (w, match a with Ok a => Ok a | Err e => Err (ServerError e) end).
Proof.
  intros Hv. rewrite (wa_watch _ _ _ Hinf), served_watch.
  by rewrite (fun Hr Hp Hs Hn => kind_Watch_sends _ _ Hr Hp Hs Hn o vs w Hv) by request_parts.
Qed.

(** ** A server of lists *)

(** What the API server answers to the lists of an informer, in terms of the
    requests it gets: pages of the objects [xs], which are of version [rv], or
    errors; and to a list without a limit an error or the objects [ys] of
    version [rv']. *)
Record serves (token : nat -> string) (xs : list T) (rv : string) (whole : list T -> string -> Prop) : Prop := {
  se_start : token 0 = EmptyString;
  se_token : forall k, token (S k) <> EmptyString;
  se_encodes : forall o, exists vs, EncodeParameters (ParamList o) = Ok vs;
  se_page : forall k vs w, k <= length xs ->
    EncodeParameters (ParamList (with_continue (token k) (with_limit defaultPageSize list_options))) = Ok vs ->
    exists w', (exists n l, 0 < n
        /\ RoundTrip (list_request cs (served_name T) vs 0) w = (w', Ok (AnswerObject (of_list l)))
        /\ listing_of l = page token (map of_kind xs) rv k n)
      \/ exists e, RoundTrip (list_request cs (served_name T) vs 0) w = (w', Err e);
  se_whole : forall vs w, EncodeParameters (ParamList (with_continue EmptyString (with_limit 0 list_options))) = Ok vs ->
    exists w', (exists l, RoundTrip (list_request cs (served_name T) vs 0) w = (w', Ok (AnswerObject (of_list l)))
        /\ whole (default [] (Items l)) (lm_ResourceVersion (lst_ListMeta l)))
      \/ exists e, RoundTrip (list_request cs (served_name T) vs 0) w = (w', Err e);
}.

Lemma answer_listing_of l : answer_listing (T := T) (Ok (AnswerObject (of_list l))) = Ok (listing_of l).
Proof. unfold answer_listing. cbn. by rewrite (proj2 (as_of_list _ _) eq_refl). Qed.

Lemma serves_pages token xs rv whole :
  serves token xs rv whole ->
  pages (fun o => call_list cs (ListFunc inf o)) (first_page list_options) token (map of_kind xs) rv.
Proof.
  intros Hs. split; [apply (se_start _ _ _ _ Hs)|apply (se_token _ _ _ _ Hs)|].
  intros k w Hk. rewrite length_map in Hk.
  destruct (se_encodes _ _ _ _ Hs (with_continue (token k) (first_page list_options))) as [vs Hv].
  rewrite (informer_list_sends _ vs) by done. unfold sends. change (list_timeout _) with 0%Z.
  destruct (se_page _ _ _ _ Hs k vs w Hk Hv) as (w' & [(n & l & Hn & -> & Hl)|[e ->]]).
  - left. exists n, w'. split; [done|]. by rewrite answer_listing_of, Hl.
  - right. by eexists _, _.
Qed.

(** The list of the reflector comes to an end, with objects the server had. *)
Lemma reflector_list_served token xs rv whole expired w :
  serves token xs rv whole ->
  exists w' a, reflector_list cs expired (S (length xs)) inf w = Some (w', a)
    /\ match a with
       | Ok (l, v) => (l = map of_kind xs /\ v = rv) \/ exists ys, whole ys v /\ l = map of_kind ys
       | Err _ => True
       end.
Proof.
  intros Hs. unfold reflector_list.
  destruct (pager_List_pages expired _ list_options token (map of_kind xs) rv (S (length xs)) w
    (serves_pages _ _ _ _ Hs) eq_refl) as (w' & a & -> & Ha); [rewrite length_map; lia|].
  destruct Ha as [(l & -> & <- & <- & _)|(k & w0 & w1 & e & _ & _ & Hw)].
  - eexists _, _. split; [done|]. by left.
  - destruct (expired e); [|destruct Hw as [-> ->]; by eexists _, _].
    set (o := with_continue _ _) in Hw. destruct (se_encodes _ _ _ _ Hs o) as [vs Hv].
    rewrite (informer_list_sends _ vs) in Hw by done. unfold sends in Hw. change (list_timeout o) with 0%Z in Hw.
    destruct (se_whole _ _ _ _ Hs vs w1 Hv) as (w2 & [(l & E & Hl)|[e' E]]); rewrite E in Hw.
    + rewrite answer_listing_of in Hw. injection Hw as <- <-. eexists _, _. split; [done|]. right. by eexists.
    + injection Hw as <- <-. by eexists _, _.
Qed.

End Requests.

(** The objects at some version of a history. *)
Definition past_state `{V : Revisions} (ty : string) (h : history) (l : list obj) (v : string) : Prop :=
  exists n, n <= length h /\ v = revision n /\ l ≡ₚ map snd (map_to_list (objects_at ty h n)).

(** ** Properties *)

(** C15: The requests of the informers.  A client at the root of its server, as
    the programs make it, asks for the lists and watches of an informer of all
    namespaces with a GET of the path of its kind: a list with the parameters it
    is given, a watch with the version and a timeout of five to ten minutes that
    does not overflow.  If the lists the server hands out, in pages or whole,
    are of states in its history, then the reflector's list comes to an end, and
    what it takes of it is an answer as the theorems about informers assume:
    all objects of some version, or an error. *)
Theorem informers_ask_server {T} `{SV : Served T} `{Codec} {W} `{Transport W} (cs : Clientset) inf :
  at_root (group_client cs) -> watches (served_name T) (served_type T) inf ->
  let get vs timeout :=
    MkHttpRequest "GET" ("/apis/observability.knative.dev/v1alpha1/" +:+ served_name T) vs timeout
      (accept (group_client cs)) None in
  (forall o vs w, EncodeParameters (ParamList o) = Ok vs ->
     call_list cs (ListFunc inf o) w = sends (get vs (list_timeout o)) answer_listing w)
  /\ (forall rv s vs w, watch_timeout s -> EncodeParameters (ParamList (set_watch (watch_options rv s))) = Ok vs ->
       reflector_watch cs rv s inf w =
       let '(w, a) := OpenWatch (get vs (s * 1000000000)%Z) w in
       (w, match a with Ok a => Ok a | Err e => Err (ServerError e) end))
  /\ (forall `{V : Revisions} (h : history) token (xs : list T) rv whole,
       serves cs token xs rv whole -> past_state (served_type T) h (map of_kind xs) rv ->
       (forall ys v, whole ys v -> past_state (served_type T) h (map of_kind ys) v) ->
       forall expired show w r, exists w' a,
         reflector_list cs expired (S (length xs)) inf w = Some (w', a)
         /\ answers (served_type T) h r (DoList (map_err show a))).
Proof.
  intros Hroot Hinf get. unfold get. rewrite <- served_path. split_and!.
  - intros o vs w. by apply informer_list_sends.
  - intros rv s vs w [Hlo Hhi] Hv. unfold reflector_watch, minWatchTimeout in *.
    rewrite (informer_watch_sends cs Hroot inf Hinf _ vs) by done. unfold list_request, list_timeout, seconds.
    cbn [watch_options TimeoutSeconds]. by rewrite int64_id by lia.
  - intros V h token xs rv whole Hs Hxs Hwhole expired show w r.
    destruct (reflector_list_served cs Hroot inf Hinf token xs rv whole expired w Hs) as (w' & a & Hrun & Ha).
    exists w', a. split; [exact Hrun|]. destruct a as [[l v]|e]; [|done]. cbn [map_err answers].
    destruct Ha as [[-> ->]|(ys & Hys & ->)]; [exact Hxs|exact (Hwhole _ _ Hys)].
Qed.

(** ** Examples *)

(** Two sinks, which the server hands out one at a time, and an informer of
    them as the factory makes it. *)
Definition two_sinks : list LogSink := [plain_sink "ns" "a" "https://a"; plain_sink "ns" "b" "https://b"].

Definition two_changes : list Event := map (fun s => MkEvent WatchAdded (ALogSink s)) two_sinks.

Definition limit_codec : Codec :=
  {| Encode := fun _ => Ok "body";
     EncodeParameters := fun o =>
       match o with
       | ParamList o => Ok {[ "limit" := [if (Limit o =? 0)%Z then "none" else "some"]; "continue" := [Continue o] ]}
       | ParamGet _ => Ok ∅
       end |}.

Definition sink_page (vs : Values) : ListOf LogSink :=
  let k := position (default EmptyString (head (default [] (vs !! "continue")))) in
  let one := bool_decide (vs !! "limit" = Some ["some"]) in
  let l := page token_of (map of_kind two_sinks) "2" k (if one then 1 else 2) in
  {| lst_TypeMeta := TypeMeta_zero;
     lst_ListMeta := {| lm_SelfLink := EmptyString; lm_ResourceVersion := l_version l; lm_Continue := l_continue l |};
     Items := Some (take (if one then 1 else 2) (drop k two_sinks)) |}.

Definition page_server : Transport nat :=
  {| RoundTrip := fun rq w => (S w, Ok (AnswerObject (of_list (sink_page (h_params rq)))));
     OpenWatch := fun rq w => (w, Ok 0) |}.

Definition some_clientset : Clientset := Clientset.New (client (some_client EmptyString)).

Definition sinks_informer : SharedIndexInformer ListOptions := NewLogSinkInformer EmptyString resync true.

Lemma page_server_serves :
  @serves LogSink _ _ _ limit_codec nat page_server some_clientset token_of two_sinks "2"
    (fun ys v => ys = two_sinks /\ v = "2").
Proof.
  split; [done|done| | |].
  - intros o. by eexists.
  - intros k vs w Hk Hv. exists (S w). left. exists 1, (sink_page vs). split; [lia|]. split; [reflexivity|].
    injection Hv as <-. cbn in Hk. do 3 (destruct k as [|k]; [by vm_compute|]). lia.
  - intros vs w Hv. exists (S w). left. exists (sink_page vs). split; [reflexivity|]. injection Hv as <-. by vm_compute.
Qed.

(** Two requests, and the reflector has both. *)
Lemma informers_ask_server_witness :
  @reflector_list limit_codec nat page_server some_clientset (fun _ => false) 3 sinks_informer 0
  = Some (2, Ok (map ALogSink two_sinks, "2"))
  /\ forall r, answers LogSink_type two_changes r (DoList (Ok (map ALogSink two_sinks, "2"))).
Proof.
  assert (past_state LogSink_type two_changes (map ALogSink two_sinks) "2") as Hp.
  { exists 2. split; [cbn; lia|]. split; [by vm_compute|]. vm_compute. first [reflexivity|apply perm_swap]. }
  assert (watches (served_name LogSink) (served_type LogSink) sinks_informer) as Hinf by done.
  destruct (@informers_ask_server LogSink _ _ _ limit_codec nat page_server some_clientset sinks_informer
    (some_client_root _) Hinf) as (_ & _ & Hlist).
  split; [by vm_compute|]. intros r.
  destruct (Hlist decimal_revisions two_changes token_of two_sinks "2" _ page_server_serves Hp
    ltac:(intros ys v [-> ->]; exact Hp) (fun _ => false) (fun _ => "no") 0 r) as (w' & a & Hrun & Ha).
  revert Hrun Ha. vm_compute reflector_list. intros [= <- <-]. done.
Defined.
