(* ===== verification/SinkMain.v ===== *)
(** * The start of the sink controller ([cmd/sink-controller/main.go])

    [main] ends with two informers running, each with the handler of its kind;
    their reports reach the controllers of [SinkController] in the order of
    [SinkSystem]. *)

From stdpp Require Import base gmap strings list.
From Stdlib Require Import Ascii ZArith Lia.
From S2P Require Import Prelude Utf8 GoStd GoJson FlbLex FlbParse GoPath Types SinkConfig SinkController SinkSystem Cache SharedInformer Listers InformerFactory RestRequest RestConfig GoUrl TypedClients Clientset EnvStruct Startup.

Definition config_fields : list field :=
  [MkField "Namespace" "NAMESPACE,              required, report" (VString EmptyString)].

(** The handlers that are added to informers. *)
Inductive controller : Type := LogSinkController | ClusterLogSinkController.

(** What is left when [main] runs its informers: the clientset, the state the
    handlers share, the factory, the informers' handlers, and the informers
    that run. *)
Record program (W : Type) : Type := MkProgram {
  pr_client : Clientset;
  pr_state : state W;
  pr_factory : fstate ListOptions;
  pr_handlers : list (nat * controller);
  pr_running : list nat;
}.
Arguments MkProgram {W}.
Arguments pr_client {W}.
Arguments pr_state {W}.
Arguments pr_factory {W}.
Arguments pr_handlers {W}.
Arguments pr_running {W}.

Section Main.
Context {W : Type} `{P : Platform W} `{L : ClientLibrary} `{R : MapRange} `{S : SliceSort}.

(** [sink.SetClusterNameFilter] with the config maps and pods of a namespace *)
Definition set_cluster_name (c : CoreV1Client) (ns name : string) : boot W unit := fun p =>
  let st := @SetClusterNameFilter W (core_namespace c ns) name (MkState NewConfig (p_world p) (p_logs p)) in
  ({| p_world := world st; p_logs := logs st; p_limiters := p_limiters p |}, Ok tt).

(** The informers and their handlers, and what they share. *)
Definition start_informers (client : Clientset) : boot W (program W) := fun p =>
  let sinkConfig := NewConfig in
  let f := new_state (NewSharedInformerFactory resync) in
  let '(sinkInformer, f) := logSinkInformer_Informer (V1alpha1 (Observability f)) f in
  let handlers := [(sinkInformer, LogSinkController)] in
  let '(clusterSinkInformer, f) := clusterLogSinkInformer_Informer (V1alpha1 (Observability f)) f in
  let handlers := handlers ++ [(clusterSinkInformer, ClusterLogSinkController)] in
  (p, Ok {| pr_client := client; pr_state := MkState sinkConfig (p_world p) (p_logs p); pr_factory := f;
            pr_handlers := handlers; pr_running := [sinkInformer; clusterSinkInformer] |}).

Definition main : boot W (program W) :=
  conf ← load_settings config_fields;
  _ ← write_report conf;
  cfg ← InClusterConfig;
  client ← versioned_client cfg;
  coreV1Client ← core_client cfg;
  nodes ← list_nodes coreV1Client;
  hostOverride ← cluster_name nodes;
  _ ← set_cluster_name coreV1Client (text_field "Namespace" conf) hostOverride;
  start_informers client.

End Main.

(** ** Reports *)

(** What the goroutine [run] of a listener calls for a notification. *)
Definition call (c : controller) (n : notification) : delivery :=
  match c, n with
  | LogSinkController, addNotification o => LogAdd o
  | LogSinkController, updateNotification old new => LogUpdate old new
  | LogSinkController, deleteNotification o => LogDelete o
  | ClusterLogSinkController, addNotification o => ClusterAdd o
  | ClusterLogSinkController, updateNotification old new => ClusterUpdate old new
  | ClusterLogSinkController, deleteNotification o => ClusterDelete o
  end.

(** The calls a report of one of the informers makes. *)
Definition dispatch {W} (pr : program W) (r : nat * notification) : list delivery :=
  if decide (r.1 ∈ pr_running pr)
  then map (fun h => call h.2 r.2) (List.filter (fun h => Nat.eqb h.1 r.1) (pr_handlers pr)) else [].

(** ** Lemmas *)

Lemma sink_config_loaded (env : string -> string) fs :
  Forall2 (loaded env) config_fields fs -> text_field "Namespace" fs = env "NAMESPACE" /\ env "NAMESPACE" <> EmptyString.
Proof.
  intros Hf. inversion Hf as [|f f' ? l (Hn & _ & Hv) Hl]; subst. inversion Hl; subst.
  change (env_var _) with "NAMESPACE" in Hv. cbn [field_name value] in Hn, Hv. unfold text_field. cbn.
  destruct f' as [n' tag' v']. cbn in Hn, Hv. subst n'. cbn.
  destruct (String.eqb_spec (env "NAMESPACE") EmptyString) as [->|Hne]; [by destruct Hv|]. by rewrite Hv.
Qed.

(** A patch of one key leaves the others alone, whether it succeeds or not. *)
Lemma patchConfig_other {W} `{PatchServer W} k k' v (st : state W) :
  str_forall pointer_char k = true -> to_valid ("/data/" +:+ k) = "/data/" +:+ k -> k <> k' ->
  config_map (world (patchConfig [MkPatch "replace" ("/data/" +:+ k) v] st)) ConfigMapName ≫= (.!! k')
  = config_map (world st) ConfigMapName ≫= (.!! k').
Proof.
  intros Hk Hv Hne. unfold patchConfig, json_Marshal. cbn [log_error].
  destruct (Patch _ _ _ _) as [w1 e1] eqn:HP.
  pose proof (delete_pods_data w1 "app=fluent-bit" ConfigMapName) as Hd.
  destruct (DeleteCollection _ w1) as [w2 e2]. cbn [world fst] in *. rewrite Hd. destruct e1 as [e|].
  - by rewrite (patch_fails _ _ _ _ _ _ HP).
  - eapply patch_replaces in HP as (m & -> & _ & ->);
      [|rewrite unmarshal_marshal_patches; cbn [map]; unfold valid_patch; cbn [Op Path PatchValue]; by rewrite Hv|done].
    cbn. by rewrite lookup_insert_ne.
Qed.

Lemma SetClusterNameFilter_keeps {W} `{PatchServer W} name (st : state W) :
  sc (SetClusterNameFilter name st) = sc st
  /\ outputs_conf (world (SetClusterNameFilter name st)) = outputs_conf (world st).
Proof.
  unfold SetClusterNameFilter. destruct (String.eqb name EmptyString); [done|]. split; [apply patchConfig_sc|].
  by apply (patchConfig_other "cluster-name-filter.conf" "outputs.conf").
Qed.

Section MainLemmas.
Context {W : Type} `{P : Platform W} `{L : ClientLibrary} `{R : MapRange} `{S : SliceSort}.

Lemma sink_start_informers_ok client p p' (pr : program W) :
  start_informers client p = (p', Ok pr) ->
  p' = p /\ pr_client pr = client /\ pr_state pr = MkState NewConfig (p_world p) (p_logs p)
  /\ pr_handlers pr = [(0, LogSinkController); (1, ClusterLogSinkController)] /\ pr_running pr = [0; 1]
  /\ exists i j, heap (pr_factory pr) = [i; j]
       /\ watches "logsinks" LogSink_type i /\ watches "clusterlogsinks" ClusterLogSink_type j.
Proof.
  unfold start_informers. set (q := logSinkInformer_Informer _ _).
  destruct (first_informer LogSink_type (fun r => NewFilteredLogSinkInformer EmptyString r true None) resync q eq_refl)
    as (Eq & Hh & Hi & Hc & Hd & Hn & Ht).
  rewrite Eq. clearbody q. destruct q as [q1 f]. cbn [snd] in *. clear Eq q1.
  unfold clusterLogSinkInformer_Informer, InformerFor. rewrite Hi, Hc, Hd, Hh.
  rewrite lookup_singleton_ne by done. rewrite lookup_empty. intros [= <- <-]. cbn.
  split_and!; try done. eexists _, _. split_and!; [reflexivity| |]; split; cbn; rewrite ?Hn, ?Ht; done.
Qed.

(** What a start that succeeds has gone through. *)
Record main_trace (p p' : proc W) (pr : program W) (c : CoreV1Client) (name : string) : Prop := {
  mt_namespace : Getenv "NAMESPACE" <> EmptyString;
  mt_client : exists ca ls ls',
    NewForConfig (cluster_config (Getenv "KUBERNETES_SERVICE_HOST") (Getenv "KUBERNETES_SERVICE_PORT") ca) ls
    = (Ok (pr_client pr), ls');
  mt_state : exists fs w nodes node,
    Nodes_List c (WriteReport fs (p_world p)).1 = (w, Ok (node :: nodes))
    /\ name = default EmptyString (node !! NodeLabel)
    /\ pr_state pr = @SetClusterNameFilter W (core_namespace c (Getenv "NAMESPACE")) name
                       (MkState NewConfig w (p_logs p));
}.

Lemma set_cluster_name_state c ns name p p' u :
  set_cluster_name c ns name p = (p', Ok u) ->
  MkState NewConfig (p_world p') (p_logs p')
  = @SetClusterNameFilter W (core_namespace c ns) name (MkState NewConfig (p_world p) (p_logs p)).
Proof.
  unfold set_cluster_name. intros [= <- _]. cbn [p_world p_logs].
  assert (sc (@SetClusterNameFilter W (core_namespace c ns) name (MkState NewConfig (p_world p) (p_logs p))) = NewConfig) as E.
  { unfold SetClusterNameFilter. destruct (String.eqb name EmptyString); [done|].
    exact (@patchConfig_sc W (core_namespace c ns) _ (MkState NewConfig (p_world p) (p_logs p))). }
  destruct (SetClusterNameFilter name _) as [s w l]. cbn in *. by rewrite E.
Qed.

Lemma main_ok p p' (pr : program W) :
  main p = (p', Ok pr) ->
  (exists c name, main_trace p p' pr c name)
  /\ pr_handlers pr = [(0, LogSinkController); (1, ClusterLogSinkController)] /\ pr_running pr = [0; 1]
  /\ exists i j, heap (pr_factory pr) = [i; j]
       /\ watches "logsinks" LogSink_type i /\ watches "clusterlogsinks" ClusterLogSink_type j.
Proof.
  unfold main. intros (p1 & fs & [-> Hfs]%load_settings_ok & H)%bind_ok.
  apply bind_ok in H as (p2 & ? & Hr & H). apply bind_ok in H as (p3 & cfg & [-> [ca ->]]%InClusterConfig_ok & H).
  apply bind_ok in H as (p4 & client & (Ew4 & El4 & Hc)%versioned_client_ok & H).
  apply bind_ok in H as (p5 & c & [Ew5 El5]%core_client_ok & H).
  apply bind_ok in H as (p6 & nodes & Hn & H). apply bind_ok in H as (p7 & name & Hname & H).
  apply bind_ok in H as (p8 & ? & Hs%set_cluster_name_state & (-> & Ec & Es & H)%sink_start_informers_ok).
  split; [|exact H]. clear H. exists c, name. apply sink_config_loaded in Hfs as [Ens Hne]. rewrite Ens in Hs.
  unfold write_report, on_world in Hr. destruct (WriteReport fs (p_world p)) as [w1 e1] eqn:Ew.
  unfold list_nodes, on_world in Hn. destruct (Nodes_List c (p_world p5)) as [w6 [ns|]] eqn:En; [|done].
  injection Hr as <- He. cbn [p_world p_logs p_limiters] in *. injection Hn as <- <-.
  unfold cluster_name in Hname. destruct ns as [|node ns]; [done|]. injection Hname as <- <-.
  cbn [p_world p_logs] in Hs. split; [done|rewrite Ec; by eexists _, _, _|].
  exists fs, w6, ns, node. rewrite Ew. cbn [fst]. split_and!; [by rewrite <- Ew4, <- Ew5|done|].
  rewrite Es, Hs. by rewrite El5, El4.
Qed.

Context `{!PlatformLaws W}.

(** A start that fails has changed no config map. *)
Lemma main_err p p' e : main p = (p', @Err _ (program W) e) -> same_maps (p_world p) (p_world p').
Proof.
  unfold main.
  apply calm_err; [done|]. intros fs q1.
  apply calm_err; [apply write_report_calm|]. intros ? q2.
  apply calm_err; [apply InClusterConfig_calm|]. intros cfg q3.
  apply calm_err; [apply on_limiters_calm|]. intros client q4.
  apply calm_err; [apply on_limiters_calm|]. intros c q5.
  apply calm_err; [apply list_nodes_calm|]. intros nodes q6.
  apply calm_err; [apply cluster_name_calm|]. intros name q7.
  unfold mbind, boot_bind, set_cluster_name, start_informers. by repeat case_match.
Qed.



End MainLemmas.

(** ** Properties *)

(** What [fluent-bit] reads in the namespace [ns]. *)
Definition fluent_bit {W} `{PlatformLaws W} (c : CoreV1Client) (ns : string) (w : W) : option (gmap string string) :=
  @config_map W _ (namespace_server c ns) w ConfigMapName.

(** The file of the cluster's name. *)
Definition cluster_filter (name : string) : File :=
  {| FName := EmptyString;
     Sections := [Section_zero;
                  {| SName := "FILTER";
                     KeyValues := [MkKeyValue "Name" "record_modifier"; MkKeyValue "Match" "*";
                                   MkKeyValue "Record" ("cluster_name " +:+ name)] |}] |}.

(** C22: The start of the sink controller.  A [main] that ends in an error has
    changed no config map.  One that gets through has set the cluster's name,
    a label of the first node, in the filter file of the configured namespace
    and touched nothing else; it runs one informer of all log sinks and one of
    all cluster log sinks, each reporting to the controller of its kind and to
    no other; and the client their lists go through asks the API server of the
    environment for the path of the resource. *)
Theorem sink_controller_starts {W} `{PlatformLaws W} `{ClientLibrary} `{U : UnicodeTables} `{R : MapRange} `{S : SliceSort}
    p p' r :
  main p = (p', r) ->
  match r with
  | Err _ => same_maps (p_world p) (p_world p')
  | Ok pr =>
      (forall i n, dispatch pr (i, n) = match i with
                                        | 0 => [call LogSinkController n]
                                        | 1 => [call ClusterLogSinkController n]
                                        | _ => []
                                        end)
      /\ (exists i j, heap (pr_factory pr) = [i; j]
            /\ watches "logsinks" LogSink_type i /\ watches "clusterlogsinks" ClusterLogSink_type j)
      /\ (str_forall server_char (Getenv "KUBERNETES_SERVICE_HOST") = true ->
          str_forall server_char (Getenv "KUBERNETES_SERVICE_PORT") = true ->
          forall (V : Type) (HV : Transport V) (HC : Codec) o vs (v : V), EncodeParameters (ParamList o) = Ok vs ->
          let client := ObservabilityV1alpha1 (pr_client pr) in
          let get path := MkHttpRequest "GET" path vs (list_timeout o) (accept (restClient client)) None in
          logSinks_List (client_LogSinks client EmptyString) o v
          = sends (get "/apis/observability.knative.dev/v1alpha1/logsinks") (Into as_list list_zero) v
          /\ clusterLogSinks_List (client_ClusterLogSinks client EmptyString) o v
             = sends (get "/apis/observability.knative.dev/v1alpha1/clusterlogsinks") (Into as_list list_zero) v)
      /\ sc (pr_state pr) = NewConfig
      /\ exists c w node nodes, let name := default EmptyString (node !! NodeLabel) in
           same_maps (p_world p) w /\ (exists w0, Nodes_List c w0 = (w, Ok (node :: nodes)))
           /\ (name = EmptyString -> world (pr_state pr) = w)
           /\ (name <> EmptyString -> str_forall not_nl name = true -> logs (pr_state pr) = p_logs p ->
               exists m text, fluent_bit c (Getenv "NAMESPACE") (p_world p) = Some m
                 /\ fluent_bit c (Getenv "NAMESPACE") (world (pr_state pr))
                    = Some (<["cluster-name-filter.conf" := to_valid text]> m)
                 /\ Parse EmptyString text = Ok (Ok (cluster_filter name)))
  end.
Proof.
  intros Hmain. destruct r as [pr|e]; [|by eapply main_err].
  destruct (main_ok _ _ _ Hmain) as ((c & name & [_ (ca & ls & ls' & Hclient) (fs & w & nodes & node & Hn & -> & Hst)])
    & Hh & Hr & Hinf).
  split_and!; [|exact Hinf| | |].
  - intros i n. unfold dispatch. rewrite Hh, Hr. by destruct i as [|[|i]].
  - intros Hhost Hport V HV HC o vs v Hvs. cbn zeta. apply clientset_throttles in Hclient as [Hroot _].
    specialize (Hroot (cluster_config_bare _ _ _ Hhost Hport)). unfold logSinks_List, clusterLogSinks_List.
    by split; apply kind_List_sends.
  - rewrite Hst. exact (proj1 (@SetClusterNameFilter_keeps W _ (namespace_server c (Getenv "NAMESPACE")) _ _)).
  - assert (same_maps (p_world p) w) as Hw.
    { intros c' ns' nm. pose proof (nodes_keep c' ns' c (WriteReport fs (p_world p)).1 nm) as H1. rewrite Hn in H1.
      cbn [fst] in H1. by rewrite H1, report_keeps. }
    exists c, w, node, nodes. cbn zeta. split_and!; [exact Hw|by eexists| |].
    + intros E. by rewrite Hst, E.
    + intros Hne Hnl Hlog. rewrite Hst in Hlog |- *. unfold fluent_bit. rewrite <- Hw.
      destruct (@SetClusterNameFilter_sets W _ (namespace_server c (Getenv "NAMESPACE")) _ _
                  (MkState NewConfig w (p_logs p)) Hnl) as [_ Hset].
      exact (Hset Hne Hlog).
Qed.

(** The state a start leaves: no sink in the configuration, and the outputs of
    an earlier run. *)
Lemma start_keeps_outputs {W} `{PlatformLaws W} `{ClientLibrary} `{U : UnicodeTables} `{R : MapRange} `{S : SliceSort}
    p p' pr :
  main p = (p', Ok pr) ->
  exists c, sc (pr_state pr) = NewConfig
    /\ fluent_bit c (Getenv "NAMESPACE") (world (pr_state pr)) ≫= (.!! "outputs.conf")
       = fluent_bit c (Getenv "NAMESPACE") (p_world p) ≫= (.!! "outputs.conf").
Proof.
  intros Hmain.
  destruct (main_ok _ _ _ Hmain) as ((c & name & [_ _ (fs & w & nodes & node & Hn & -> & Hst)]) & _).
  exists c. set (PS := namespace_server c (Getenv "NAMESPACE")).
  destruct (@SetClusterNameFilter_keeps W _ PS (default EmptyString (node !! NodeLabel)) (MkState NewConfig w (p_logs p)))
    as [Hsc Hout]. rewrite <- Hst in Hsc, Hout. split; [done|].
  change (@outputs_conf W _ PS (world (pr_state pr)) = fluent_bit c (Getenv "NAMESPACE") (p_world p) ≫= (.!! "outputs.conf")).
  rewrite Hout. unfold outputs_conf, fluent_bit, world. f_equal.
  pose proof (nodes_keep c (Getenv "NAMESPACE") c (WriteReport fs (p_world p)).1 ConfigMapName) as H1.
  rewrite Hn in H1. cbn [fst] in H1. unfold PS. by rewrite H1, report_keeps.
Qed.

(** A restart, with an assumption on what the informers report.  Whatever the
    two informers report of the sinks that exist, outputs.conf is up to date
    once one report has changed the configuration and no call failed; but while
    there is no such report, as when the last sinks were deleted while no
    controller ran, it stays what it was before the start, with the outputs of
    the sinks that are gone. *)
Lemma outputs_after_restart {W} `{PlatformLaws W} `{ClientLibrary} `{U : UnicodeTables} `{R : MapRange} `{S : SliceSort}
    p p' pr rs a :
  main p = (p', Ok pr) -> api_run api_empty (flat_map (dispatch pr) rs) a ->
  exists c, let ds := flat_map (dispatch pr) rs in
    let st := @handle_all W (core_namespace c (Getenv "NAMESPACE")) S ds (pr_state pr) in
    let outputs w := fluent_bit c (Getenv "NAMESPACE") w ≫= (.!! "outputs.conf") in
    (Forall (fun d => change d = None) ds -> outputs (world st) = outputs (p_world p))
    /\ (api_ok a = true -> Exists (fun d => is_Some (change d)) ds -> logs st = logs (pr_state pr) ->
        exists text ps, outputs (world st) = Some (to_valid text)
          /\ Parse EmptyString text =
             Ok (Ok {| FName := EmptyString; Sections := Section_zero :: map plugin_section ps |})
          /\ ps ≡ₚ api_plugins a).
Proof.
  intros Hmain Hrun. destruct (start_keeps_outputs _ _ _ Hmain) as (c & Hsc & Hout). exists c. cbn zeta. split.
  - intros Hnone. by rewrite (handle_all_none _ _ Hnone).
  - intros Hok Hex Hlog.
    exact (@outputs_written W _ (namespace_server c (Getenv "NAMESPACE")) _ _ _ _ (pr_state pr) Hrun Hok Hsc Hex Hlog).
Qed.

(** ** A concrete platform *)

Definition sample_env (v : string) : string :=
  if String.eqb v "NAMESPACE" then "knative-observability"
  else if String.eqb v "KUBERNETES_SERVICE_HOST" then "10.0.0.1"
  else if String.eqb v "KUBERNETES_SERVICE_PORT" then "443" else EmptyString.

#[export] Instance server_platform : Platform server :=
  {| Getenv := sample_env; WriteReport := fun _ w => (w, None);
     ReadToken := fun _ => None; ReadRootCA := fun _ => None;
     CoreV1Client := unit; coreV1_NewForConfig := fun _ ls => (Ok tt, ls);
     KubeClient := unit; kubernetes_NewForConfig := fun _ ls => (Ok tt, ls);
     Nodes_List := fun _ w => (w, if down w then Err "connection refused" else Ok [{[NodeLabel := "prod"]}]);
     core_namespace := fun _ _ => server_world |}.

#[export, refine] Instance server_platform_laws : PlatformLaws server := {| namespace_server := fun _ _ => server_laws |}.
Proof. all: done. Defined.

#[export] Instance sample_library : ClientLibrary :=
  {| TransportFor := fun _ => Ok (Some 0); createSerializers := fun _ _ => None;
     DefaultKubernetesUserAgent := "sink-controller" |}.

(** fluent-bit as an earlier run has left it. *)
Definition left_over : server :=
  {| config_maps := {["fluent-bit" := {["outputs.conf" := "left over"]} ∪ {["cluster-name-filter.conf" := EmptyString]}]};
     pods_deleted := 0; down := false |}.

Definition sample_proc (w : server) : proc server := {| p_world := w; p_logs := []; p_limiters := [] |}.

Definition sample_main (w : server) : proc server * res start_error (program server) :=
  @main server _ _ map_order insertion_slice_sort (sample_proc w).

Definition is_ok {E A} (r : res E A) : bool := match r with Ok _ => true | Err _ => false end.

Example main_starts : is_ok (sample_main left_over).2 = true.
Proof. vm_compute. reflexivity. Qed.

Example main_fails :
  (sample_main {| config_maps := ∅; pods_deleted := 0; down := true |}).2 = Err (NodesError "connection refused").
Proof. vm_compute. reflexivity. Qed.

Lemma sink_controller_starts_witness :
  match sample_main left_over with
  | (_, Ok pr) => forall o, dispatch pr (1, addNotification o) = [ClusterAdd o]
  | (_, Err _) => False
  end.
Proof.
  destruct (sample_main left_over) as [p' [pr|e]] eqn:E.
  - intros o. exact (proj1 (@sink_controller_starts server _ _ sample_library latin1_tables map_order
      insertion_slice_sort _ _ _ E) 1 (addNotification o)).
  - pose proof main_starts as Hok. rewrite E in Hok. discriminate Hok.
Defined.

(** Nothing is reported, as every sink is gone: the outputs stay. *)
Lemma outputs_after_restart_witness :
  match sample_main left_over with
  | (_, Ok pr) => exists c, fluent_bit c "knative-observability" (world (pr_state pr)) ≫= (.!! "outputs.conf")
                            = Some "left over"
  | (_, Err _) => False
  end.
Proof.
  destruct (sample_main left_over) as [p' [pr|e]] eqn:E.
  - destruct (@outputs_after_restart server _ _ sample_library latin1_tables map_order insertion_slice_sort
      _ _ _ [] api_empty E (api_nil _)) as (c & Hstay & _).
    exists c. exact (Hstay (Forall_nil_2 _)).
  - pose proof main_starts as Hok. rewrite E in Hok. discriminate Hok.
Defined.
