(* ===== verification/SinkInformers.v ===== *)
(** * The sink controller with its informers

    The program that [cmd/sink-controller/main.go] runs: two informers
    ([InformerSystem]), whose notifications the handlers of [SinkController]
    take one at a time, against an API server that lists and sends what it
    likes.  This file connects what the server tells the informers with the
    configuration and the outputs, without an assumption on what informers
    report. *)

From stdpp Require Import base gmap strings list relations.
From Stdlib Require Import Ascii Lia ZArith.
From S2P Require Import Prelude Utf8 GoStd GoJson FlbLex FlbParse Types SinkConfig SinkController SinkSystem SinkLiveness RingGrowing Cache DeltaFifo SharedInformer InformerFactory Reflector InformerSystem InformerKinds InformerSide SinkMain.

(** ** The two kinds of log sink *)

(** What the controllers use of a kind, beside its objects. *)
Class LogKind (T : Type) `{ObjectKind (string * string) T} := {
  kind_spec : T -> SinkSpec;
  kind_controller : controller;
  kind_sinks : Config -> gmap string T;
  other_kind : Config -> Config -> Prop;
}.
Arguments kind_controller T {_ _}.
Arguments other_kind T {_ _}.
#[export] Hint Mode LogKind ! - : typeclass_instances.

(** Valid objects have namespaces without a separator, or none. *)
#[export] Instance log_sink_object : ObjectKind (string * string) LogSink :=
  {| wrap := ALogSink; unwrap := fun o => match o with ALogSink s => Some s | _ => None end; kind_id := sink_id;
     named := fun s => Namespace (ls_ObjectMeta s) <> EmptyString
                /\ str_forall (not_char "/") (Namespace (ls_ObjectMeta s)) = true /\ bar_free (sink_id s);
     kind_type := LogSink_type |}.

#[export] Instance cluster_log_sink_object : ObjectKind (string * string) ClusterLogSink :=
  {| wrap := AClusterLogSink; unwrap := fun o => match o with AClusterLogSink s => Some s | _ => None end;
     kind_id := cluster_sink_id;
     named := fun s => Namespace (cls_ObjectMeta s) = EmptyString /\ ClusterName (cls_ObjectMeta s) = EmptyString;
     kind_type := ClusterLogSink_type |}.

#[export] Instance log_sink_kind : LogKind LogSink :=
  {| kind_spec := ls_Spec; kind_controller := LogSinkController; kind_sinks := sinks;
     other_kind := fun c c' => clusterSinks c' = clusterSinks c |}.

#[export] Instance cluster_log_sink_kind : LogKind ClusterLogSink :=
  {| kind_spec := cls_Spec; kind_controller := ClusterLogSinkController; kind_sinks := clusterSinks;
     other_kind := fun c c' => sinks c' = sinks c |}.

(** How the controller of the kind changes the sinks of its kind. *)
Definition kind_change {T} `{LogKind T} (m : gmap string T) (n : notification) (m' : gmap string T) : Prop :=
  match n with
  | addNotification o => exists s : T, o = wrap s /\ m' = <[id_key (kind_id s) := s]> m
  | updateNotification old o => exists x s : T, old = wrap x /\ o = wrap s
      /\ m' = if SinkSpec_DeepEqual (kind_spec x) (kind_spec s) then m else <[id_key (kind_id s) := s]> m
  | deleteNotification o =>
      (exists s : T, o = wrap s /\ m' = delete (id_key (kind_id s)) m) \/ (is_tombstone o = true /\ m' = m)
  end.

Class LogKindLaws (T : Type) `{LogKind T} := {
  sink_object_laws :: ObjectKindLaws (string * string) T;
  named_bar_free : forall s : T, named s -> bar_free (kind_id s);
  kind_call : forall c n, note_ok (is_object T) n ->
    kind_change (T := T) (kind_sinks c) n (kind_sinks (apply_change c (call (kind_controller T) n)))
    /\ other_kind T c (apply_change c (call (kind_controller T) n));
}.

Lemma log_key s : key_of (ALogSink s) = meta_key (ls_ObjectMeta s).
Proof. done. Qed.

Lemma cluster_log_key s : key_of (AClusterLogSink s) = meta_key (cls_ObjectMeta s).
Proof. done. Qed.

#[local] Arguments key : simpl never.
#[local] Arguments clusterKey : simpl never.
#[local] Arguments id_key : simpl never.

#[export] Instance log_sink_object_laws : ObjectKindLaws (string * string) LogSink.
Proof.
  split.
  - intros o s. destruct o; naive_solver.
  - done.
  - by eexists.
  - intros s t (Hs & Hs' & _) (Ht & Ht' & _).
    change (key_of (ALogSink s) = key_of (ALogSink t) <-> sink_id s = sink_id t). rewrite !log_key. unfold meta_key, sink_id.
    destruct (String.eqb_spec (Namespace (ls_ObjectMeta s)) EmptyString); [done|].
    destruct (String.eqb_spec (Namespace (ls_ObjectMeta t)) EmptyString); [done|]. cbn [negb].
    split; [|by intros [= -> ->]]. intros E. by apply sep_split in E as [-> ->].
Qed.

#[export] Instance log_sink_laws : LogKindLaws LogSink.
Proof.
  split.
  - exact _.
  - by intros s (_ & _ & Hb).
  - intros c n Hn. unfold apply_change. destruct n as [old o|o|o]; cbn [note_ok call kind_controller log_sink_kind] in *.
    + destruct Hn as ((x & -> & _) & (s & -> & _) & _). cbn. split; [|by destruct (SinkSpec_DeepEqual _ _)].
      exists x, s. split_and!; [done|done|]. rewrite <- key_id. by destruct (SinkSpec_DeepEqual _ _).
    + destruct Hn as (s & -> & _). cbn. split; [|done]. exists s. split; [done|]. by rewrite <- key_id.
    + destruct Hn as [(s & -> & _)|Ht].
      * cbn. split; [|done]. left. exists s. split; [done|]. by rewrite <- key_id.
      * destruct o; try done. cbn. split; [|done]. by right.
Qed.

#[export] Instance cluster_log_sink_object_laws : ObjectKindLaws (string * string) ClusterLogSink.
Proof.
  split.
  - intros o s. destruct o; naive_solver.
  - done.
  - by eexists.
  - intros s t (Hs & Hs') (Ht & Ht').
    change (key_of (AClusterLogSink s) = key_of (AClusterLogSink t) <-> cluster_sink_id s = cluster_sink_id t).
    rewrite !cluster_log_key. unfold meta_key, cluster_sink_id.
    rewrite Hs, Ht, Hs', Ht'. cbn [String.eqb negb]. split; [by intros ->|by intros [= ->]].
Qed.

#[export] Instance cluster_log_sink_laws : LogKindLaws ClusterLogSink.
Proof.
  split.
  - exact _.
  - intros s (_ & Hc). cbn. unfold bar_free, cluster_sink_id. cbn. by rewrite Hc.
  - intros c n Hn. unfold apply_change. destruct n as [old o|o|o]; cbn [note_ok call kind_controller cluster_log_sink_kind] in *.
    + destruct Hn as ((x & -> & _) & (s & -> & _) & _). cbn. split; [|by destruct (SinkSpec_DeepEqual _ _)].
      exists x, s. split_and!; [done|done|]. rewrite <- clusterKey_id. by destruct (SinkSpec_DeepEqual _ _).
    + destruct Hn as (s & -> & _). cbn. split; [|done]. exists s. split; [done|]. by rewrite <- clusterKey_id.
    + destruct Hn as [(s & -> & _)|Ht].
      * cbn. split; [|done]. left. exists s. split; [done|]. by rewrite <- clusterKey_id.
      * destruct o; try done. cbn. split; [|done]. by right.
Qed.

(** ** One report *)

Section Kind.
Context {T : Type} `{KL : LogKindLaws T}.

(** The sinks of the kind in the configuration are those the handler knows. *)
Definition kind_mirror (c : Config) (m : gmap string obj) : Prop :=
  mirror (kind_id (T := T)) (kind_spec (T := T)) (kind_sinks c) (objects_of m).

Lemma kind_step c c' m its n its' :
  kind_mirror c m -> all_P (is_object T) m -> its ⊆ m -> note_step its n its' -> note_ok (is_object T) n ->
  kind_change (T := T) (kind_sinks c) n (kind_sinks c') -> kind_mirror c' (knows m n).
Proof.
  intros Hmir Hm Hits Hs Hn Hc. unfold kind_mirror in *.
  destruct Hs as [its o Ho|its old o Ho|its o Ho]; cbn [kind_change note_ok knows] in *.
  - destruct Hc as (s & -> & ->). destruct Hn as (s' & Es & Hs). apply wrap_inj in Es as <-.
    rewrite objects_insert by done. apply mirror_insert; [done|apply same_output_refl|by apply named_bar_free].
  - destruct Hc as (x & s & -> & -> & ->). destruct Hn as ((x' & Ex & Hx) & (s' & Es & Hs) & Ekey).
    apply wrap_inj in Ex as <-, Es as <-. rewrite objects_insert by done.
    assert (objects_of m !! kind_id x = Some x) as Hin.
    { apply objects_lookup; [done|]. split; [|done]. rewrite Ekey. by apply (lookup_weaken _ _ _ _ Ho). }
    apply named_key in Ekey; [|done..].
    destruct (SinkSpec_DeepEqual _ _) eqn:E.
    + apply SinkSpec_DeepEqual_eq in E. by apply (mirror_keep _ _ _ _ x).
    + apply mirror_insert; [done|apply same_output_refl|by apply named_bar_free].
  - destruct Hc as [(s & -> & ->)|[Et ->]].
    + rewrite wrap_tombstone. destruct Hn as [(s' & Es & Hs)|Ht]; [|by rewrite wrap_tombstone in Ht].
      apply wrap_inj in Es as <-. rewrite objects_delete by done. apply mirror_delete; [done|by apply named_bar_free].
    + by rewrite Et.
Qed.

End Kind.

(** ** The program at work

    The state the two handlers share is the controllers' state with the calls
    that have begun, in their order. *)

Section System.
Context {W : Type} `{HW : KubeWorld W} `{R : MapRange} `{S : SliceSort}.

(** The steps of a handler are those of [SinkSystem.go_step]. *)
Definition sink_takes (c : controller) (n : notification) (s : state W * list delivery)
    : phase * (state W * list delivery) :=
  let d := call c n in
  match change d with
  | None => (Idle, (s.1, s.2 ++ [d]))
  | Some f => (Changed, (with_sc (f (sc s.1)) s.1, s.2 ++ [d]))
  end.

Definition sink_works (ph : phase) (s : state W * list delivery) : option (phase * (state W * list delivery)) :=
  match ph with
  | Idle => None
  | Changed => let '(st, text) := config_text s.1 in Some (HasText text, (st, s.2))
  | HasText t => Some (Patched, (send t s.1, s.2))
  | Patched => Some (Idle, (restart s.1, s.2))
  end.

Definition is_idle_phase (ph : phase) : bool := match ph with Idle => true | _ => false end.

Definition sink_handler (c : controller) : handler phase (state W * list delivery) :=
  {| idle := Idle; is_idle := is_idle_phase;
     takes := sink_takes c; works := sink_works |}.

Lemma sink_handler_ok c : handler_ok (sink_handler c) phase_left.
Proof.
  split; cbn.
  - by intros [].
  - intros [] [st ds]; cbn; try done. by destruct (config_text st).
  - intros [| |t|] s ph' s'; cbn; [done| |intros [= <- _]; cbn; lia..].
    destruct (config_text s.1). intros [= <- _]. cbn. lia.
Qed.

Lemma sink_takes_go c n s ph s' :
  sink_takes c n s = (ph, s') ->
  go_step (MkGoroutine Idle [call c n]) s.1 (MkGoroutine ph []) s'.1 /\ s'.2 = s.2 ++ [call c n].
Proof. unfold sink_takes. destruct (change (call c n)) as [f|] eqn:E; intros [= <- <-]; split; by try constructor. Qed.

Lemma sink_works_go ph s ph' s' :
  sink_works ph s = Some (ph', s') -> go_step (MkGoroutine ph []) s.1 (MkGoroutine ph' []) s'.1 /\ s'.2 = s.2.
Proof.
  destruct ph; cbn; try done; [|intros [= <- <-]; split; by try constructor..].
  destruct (config_text s.1) as [st t] eqn:Et. intros [= <- <-]. split; [by constructor|done].
Qed.

Lemma sink_takes_sc c n s ph s' : sink_takes c n s = (ph, s') -> sc s'.1 = apply_change (sc s.1) (call c n).
Proof. unfold sink_takes, apply_change. by destruct (change (call c n)) as [f|]; intros [= <- <-]. Qed.

Lemma sink_works_sc ph s ph' s' : sink_works ph s = Some (ph', s') -> sc s'.1 = sc s.1.
Proof.
  destruct ph; cbn; try done; [|intros [= <- <-]; apply send_sc|intros [= <- <-]; apply restart_sc].
  pose proof (config_text_sc s.1) as E. destruct (config_text s.1). by intros [= <- <-].
Qed.

(** The log sinks' side is the left one. *)
Definition controller_system : Type := duo phase phase (state W * list delivery).

Definition cs_log (s : controller_system) : side phase := duo_left s.
Definition cs_cluster (s : controller_system) : side phase := duo_right s.
Definition cs_state (s : controller_system) : state W := (duo_state s).1.
Definition cs_calls (s : controller_system) : list delivery := (duo_state s).2.

Definition cs_step (alone : bool) : controller_system -> controller_system -> Prop :=
  duo_step LogSink ClusterLogSink (sink_handler LogSinkController) (sink_handler ClusterLogSinkController) alone.

Definition cs_start (r1 r2 : running) (st : state W) : controller_system :=
  duo_start Idle Idle r1 r2 (st, []).

Definition cs_rest (s : controller_system) : Prop :=
  duo_rest Idle Idle s.

(** *** The configuration *)

Definition side_mirror {T : Type} `{LogKind T} (sd : side phase) (st : state W) : Prop :=
  kind_mirror (T := T) (sc st) (known (sd_reported sd)).

(** A step of a side keeps the mirror of its kind, and the sinks of the other
    kind. *)
Lemma side_step_mirror {T : Type} `{LogKindLaws T} free sd s sd' s' :
  valid_history (T := T) (sd_reported sd') -> side_mirror (T := T) sd s.1 ->
  side_step T (sink_handler (kind_controller T)) free (sd, s) (sd', s') ->
  side_mirror (T := T) sd' s'.1 /\ (sc s'.1 = sc s.1 \/ other_kind T (sc s.1) (sc s'.1)).
Proof.
  unfold side_mirror. intros Hv Hm Hs.
  inversion Hs as [r r' ph told ns c a st Ha E|r r' told ns c i n ph st st' _ E Et|r ph ph' told ns c st st' Ew];
    subst; cbn [sd_reported] in *.
  - by split; [|left].
  - destruct (history_snoc _ _ Hv) as (its & its' & _ & Hstep & Hsub & Hn & Hall).
    destruct (kind_call (sc s.1) n Hn) as [Hchange Hother]. cbn [takes sink_handler] in Et.
    rewrite <- (sink_takes_sc _ _ _ _ _ Et) in Hchange, Hother. split; [|by right]. rewrite known_snoc.
    by apply (kind_step (sc s.1) _ _ its _ its').
  - cbn [works sink_handler] in Ew. rewrite (sink_works_sc _ _ _ _ Ew). by split; [|left].
Qed.

(** The objects the handlers know of, and those the server has told. *)
Definition known_api (s : controller_system) : api :=
  {| api_sinks := objects_of (known (sd_reported (cs_log s)));
     api_cluster_sinks := objects_of (known (sd_reported (cs_cluster s))) |}.

Definition told_api (s : controller_system) : api :=
  {| api_sinks := objects_of (sd_told (cs_log s)); api_cluster_sinks := objects_of (sd_told (cs_cluster s)) |}.

Definition cs_mirrors (s : controller_system) : Prop :=
  side_mirror (T := LogSink) (cs_log s) (cs_state s) /\ side_mirror (T := ClusterLogSink) (cs_cluster s) (cs_state s).

Lemma side_mirror_other {T T' : Type} `{LogKind T} `{LogKind T'} (sd : side phase) st st' :
  (forall c c', other_kind T c c' -> kind_sinks c' = kind_sinks (T := T') c) ->
  side_mirror (T := T') sd st -> sc st' = sc st \/ other_kind T (sc st) (sc st') -> side_mirror (T := T') sd st'.
Proof. unfold side_mirror, kind_mirror. intros Hk Hm [->|E]; [done|]. by rewrite (Hk _ _ E). Qed.

Lemma cs_run_ok resync t1 t2 n1 n2 b r1 r2 alone st s :
  both_begin resync t1 t2 n1 n2 b r1 r2 -> sc st = NewConfig -> rtc (cs_step alone) (cs_start r1 r2 st) s ->
  duo_reaches LogSink ClusterLogSink r1 r2 s /\ cs_mirrors s.
Proof.
  intros [B1 B2] Hst. apply (duo_run_ind (sink_handler LogSinkController) (sink_handler ClusterLogSinkController) cs_mirrors).
  - split; unfold side_mirror, kind_mirror; cbn; rewrite Hst; unfold known; cbn; rewrite objects_empty; apply mirror_empty.
  - intros d d' _ [R1 R2] [Hl Hk] Hs. apply (side_history _ _ _ _ _ _ B1) in R1. apply (side_history _ _ _ _ _ _ B2) in R2.
    destruct Hs as [l l' k s1 s' Hs|l k k' s1 s' Hs].
    + destruct (side_step_mirror (T := LogSink) _ l s1 l' s' R1 Hl Hs) as [Hl' Ho]. split; [exact Hl'|].
      by apply (side_mirror_other (T := LogSink) k s1.1 s'.1).
    + destruct (side_step_mirror (T := ClusterLogSink) _ k s1 k' s' R2 Hk Hs) as [Hk' Ho]. split; [|exact Hk'].
      by apply (side_mirror_other (T := ClusterLogSink) l s1.1 s'.1).
Qed.

Lemma cs_represents s : cs_mirrors s -> represents (sc (cs_state s)) (known_api s).
Proof. intros [Hl Hk]. by split. Qed.

Lemma cs_rest_known resync t1 t2 n1 n2 b r1 r2 s :
  both_begin resync t1 t2 n1 n2 b r1 r2 -> duo_reaches LogSink ClusterLogSink r1 r2 s -> cs_rest s ->
  lists_clean s = true ->
  sd_told (cs_log s) ⊆ known (sd_reported (cs_log s))
  /\ sd_told (cs_cluster s) ⊆ known (sd_reported (cs_cluster s))
  /\ (none_missed s = true -> known_api s = told_api s).
Proof.
  intros Hb Hr Hrest Hc.
  destruct (duo_rest_known Idle Idle _ _ _ _ _ _ _ _ _ Hb Hr Hrest Hc) as (Hl & Hk & He).
  split_and!; [done..|]. intros Hm. destruct (He Hm) as [E1 E2]. unfold known_api, told_api, cs_log, cs_cluster.
  by rewrite E1, E2.
Qed.

Lemma cs_settles resync t1 t2 n1 n2 b r1 r2 alone s :
  both_begin resync t1 t2 n1 n2 b r1 r2 -> duo_reaches LogSink ClusterLogSink r1 r2 s ->
  exists s', rtc (cs_step alone) s s' /\ cs_rest s' /\ told_api s' = told_api s /\ lists_clean s' = lists_clean s.
Proof.
  intros Hb Hr.
  destruct (duo_settles (sink_handler LogSinkController) (sink_handler ClusterLogSinkController)
    (sink_handler_ok _) (sink_handler_ok _) (any_answer LogSink) (any_answer ClusterLogSink)
    _ _ _ _ _ _ _ _ alone _ (fun _ => I) (fun _ => I) Hb Hr) as (s' & Hrun & Hrest & E1 & E2 & Hc).
  exists s'. split_and!; [done|done| |done]. unfold told_api, cs_log, cs_cluster. by rewrite E1, E2.
Qed.

(** *** Handlers that do not overlap *)

(** The handlers called since the state [st0], when the calls were [past], have
    run one after the other, but for the one at work. *)
Definition in_order (past : list delivery) (st0 : state W) (s : controller_system) : Prop :=
  (sd_phase (cs_log s) = Idle \/ sd_phase (cs_cluster s) = Idle)
  /\ exists ds, cs_calls s = past ++ ds
     /\ handle_all ds st0 = finish (sd_phase (cs_log s)) (finish (sd_phase (cs_cluster s)) (cs_state s)).

Lemma side_step_order {T : Type} `{ObjectKind (string * string) T} (ctl : controller) (free : Prop) sd s sd' s' :
  side_step T (sink_handler ctl) free (sd, s) (sd', s') ->
  (sd_phase sd' = sd_phase sd /\ s' = s)
  \/ (sd_phase sd <> Idle \/ free)
     /\ forall past st0,
          (exists ds, s.2 = past ++ ds /\ handle_all ds st0 = finish (sd_phase sd) s.1) ->
          exists ds, s'.2 = past ++ ds /\ handle_all ds st0 = finish (sd_phase sd') s'.1.
Proof.
  intros Hs.
  inversion Hs as [r r' ph told ns c a st Ha E|r r' told ns c i n ph st st' Hf E Et|r ph ph' told ns c st st' Ew];
    subst; cbn [sd_phase takes works sink_handler] in *; [by left|right; split; [by right|]|right; split; [left; by intros ->|]];
    intros past st0 (ds & Hpast & Hc).
  - apply sink_takes_go in Et as [Hg Hcalls]. apply go_step_handlers in Hg. cbn [SinkSystem.queue SinkSystem.at_phase] in Hg.
    exists (ds ++ [call ctl n]). rewrite Hcalls, Hpast, <- app_assoc. split; [done|].
    unfold handle_all in *. rewrite foldl_app, Hc. cbn [foldl finish] in *. by rewrite <- Hg.
  - apply sink_works_go in Ew as [Hg Hcalls]. apply go_step_handlers in Hg. cbn [SinkSystem.queue SinkSystem.at_phase] in Hg.
    exists ds. rewrite Hcalls. split; [done|]. unfold handle_all in *. cbn [foldl] in Hg. by rewrite Hc, Hg.
Qed.

Lemma cs_step_order past st0 s s' : in_order past st0 s -> cs_step true s s' -> in_order past st0 s'.
Proof.
  intros [Hidle Hc] Hs. destruct Hs as [l l' k st st' Hs|l k k' st st' Hs];
    unfold in_order, cs_log, cs_cluster, cs_state, cs_calls in *; cbn [duo_left duo_right duo_state] in *.
  - destruct (side_step_order (T := LogSink) _ _ l st l' st' Hs) as [(-> & ->)|[Hfree Hcalls]]; [done|].
    assert (sd_phase k = Idle) as Hk by (destruct Hfree as [Hf|Hf]; [by destruct Hidle|by apply Hf]).
    split; [by right|]. rewrite Hk in Hc |- *. cbn [finish] in *. by apply Hcalls.
  - destruct (side_step_order (T := ClusterLogSink) _ _ k st k' st' Hs) as [(-> & ->)|[Hfree Hcalls]]; [done|].
    assert (sd_phase l = Idle) as Hl by (destruct Hfree as [Hf|Hf]; [by destruct Hidle|by apply Hf]).
    split; [by left|]. rewrite Hl in Hc |- *. cbn [finish] in *. by apply Hcalls.
Qed.

Lemma cs_run_order past st0 s s' : in_order past st0 s -> rtc (cs_step true) s s' -> in_order past st0 s'.
Proof. intros Ho. induction 1 as [|s s1 s' Hs _ IH]; [done|]. by eapply IH, cs_step_order. Qed.

(** Both handlers are between two reports. *)
Definition cs_idle (s : controller_system) : Prop := sd_phase (cs_log s) = Idle /\ sd_phase (cs_cluster s) = Idle.

Lemma idle_in_order s : cs_idle s -> in_order (cs_calls s) (cs_state s) s.
Proof. intros [E1 E2]. split; [by left|]. exists []. rewrite app_nil_r, E1, E2. by split. Qed.

(** *** Handlers that change nothing *)

Definition unchanged (st0 : state W) (s : controller_system) : Prop :=
  Forall (fun d => change d = None) (cs_calls s) -> cs_idle s /\ cs_state s = st0.

Lemma side_step_unchanged {T : Type} `{ObjectKind (string * string) T} (ctl : controller) (free : Prop) st0 sd s sd' s' :
  (Forall (fun d => change d = None) s.2 -> sd_phase sd = Idle /\ s.1 = st0) ->
  side_step T (sink_handler ctl) free (sd, s) (sd', s') ->
  Forall (fun d => change d = None) s'.2 ->
  Forall (fun d => change d = None) s.2 /\ sd_phase sd' = Idle /\ s'.1 = st0.
Proof.
  intros HI Hs Hn.
  inversion Hs as [r r' ph told ns c a st Ha E|r r' told ns c i n ph st st' Hf E Et|r ph ph' told ns c st st' Ew];
    subst; cbn [sd_phase takes works sink_handler] in *.
  - split; [done|by apply HI].
  - unfold sink_takes in Et. destruct (change (call ctl n)) as [f|] eqn:Ec; injection Et as <- <-; cbn [fst snd] in *;
      apply Forall_app in Hn as [Hn Hlast].
    + apply Forall_cons in Hlast as [Hlast _]. congruence.
    + split; [done|]. split; [done|]. by apply HI.
  - destruct (sink_works_go _ _ _ _ Ew) as [_ E]. rewrite E in Hn. destruct (HI Hn) as [-> _]. done.
Qed.

Lemma cs_run_unchanged alone st0 s s' : unchanged st0 s -> rtc (cs_step alone) s s' -> unchanged st0 s'.
Proof.
  intros HI. induction 1 as [|s s1 s' Hs _ IH]; [done|]. apply IH. intros Hn.
  unfold unchanged, cs_idle, cs_log, cs_cluster, cs_state, cs_calls in *.
  destruct Hs as [l l' k st st' Hs|l k k' st st' Hs]; cbn [duo_left duo_right duo_state] in *.
  - destruct (fun HI' => side_step_unchanged (T := LogSink) LogSinkController _ st0 l st l' st' HI' Hs) as (Hn0 & ? & ?);
      [intros Hn0; destruct (HI Hn0) as [[? ?] ?]; by split|done|]. destruct (HI Hn0) as [[? ?] ?]. by split_and!.
  - destruct (fun HI' => side_step_unchanged (T := ClusterLogSink) ClusterLogSinkController _ st0 k st k' st' HI' Hs) as (Hn0 & ? & ?);
      [intros Hn0; destruct (HI Hn0) as [[? ?] ?]; by split|done|]. destruct (HI Hn0) as [[? ?] ?]. by split_and!.
Qed.

Lemma cs_start_unchanged r1 r2 st : unchanged st (cs_start r1 r2 st).
Proof. by split. Qed.

(** *** Schedules *)

Definition cs_exec (xs : list duo_label) (s : controller_system) : option controller_system :=
  duo_exec LogSink ClusterLogSink (sink_handler LogSinkController) (sink_handler ClusterLogSinkController) true xs s.

Lemma cs_exec_run xs s s' :
  Forall (duo_label_ok LogSink ClusterLogSink) xs -> cs_exec xs s = Some s' -> rtc (cs_step true) s s'.
Proof. apply (duo_exec_run _ _ (sink_handler_ok _) (sink_handler_ok _)). Qed.

Lemma cs_rest_b resync t1 t2 n1 n2 b r1 r2 s :
  both_begin resync t1 t2 n1 n2 b r1 r2 -> duo_reaches LogSink ClusterLogSink r1 r2 s ->
  rest_b is_idle_phase (cs_log s) && rest_b is_idle_phase (cs_cluster s) = true -> cs_rest s.
Proof.
  exact (duo_rest_b (sink_handler LogSinkController) (sink_handler ClusterLogSinkController)
    (sink_handler_ok _) (sink_handler_ok _) resync t1 t2 n1 n2 b r1 r2 s).
Qed.

End System.

Arguments controller_system : clear implicits.
