(* ===== verification/SinkEndToEnd.v ===== *)
(** * From the API server to fluent-bit

    What [SinkInformers] is for: the sink controller, from its start on, with
    its informers and handlers at work, against any API server. *)

From stdpp Require Import base gmap strings list relations.
From Stdlib Require Import Ascii Lia ZArith.
From S2P Require Import Prelude Utf8 GoStd GoJson FlbLex FlbParse GoPath GoUrl RestRequest RestConfig TypedClients Clientset Types Cache DeltaFifo SharedInformer InformerFactory Reflector InformerSystem InformerKinds InformerSide EnvStruct Startup SinkConfig SinkController SinkSystem SinkMain SinkInformers.

(** ** Outputs at rest *)

(** From a state between reports on, handlers that do not overlap leave the
    outputs of the sinks that are known. *)
Lemma outputs_at_rest {W} `{PatchServer W} `{U : UnicodeTables} `{R : MapRange} `{S : SliceSort}
    (s1 s : controller_system W) ds :
  cs_idle s1 -> rtc (cs_step true) s1 s -> cs_rest s -> represents (sc (cs_state s)) (known_api s) ->
  api_ok (known_api s) = true -> cs_calls s = cs_calls s1 ++ ds -> Exists (fun d => is_Some (change d)) ds ->
  logs (cs_state s) = logs (cs_state s1) ->
  exists text ps, outputs_conf (world (cs_state s)) = Some (to_valid text)
    /\ Parse EmptyString text =
       Ok (Ok {| FName := EmptyString; Sections := Section_zero :: map plugin_section ps |})
    /\ ps ≡ₚ api_plugins (known_api s).
Proof.
  intros Hidle Hrun [[El _] [Ek _]] Hrep Hok Hds Hex Hlog. cbn [idle sink_handler] in El, Ek.
  destruct (cs_run_order _ _ _ _ (idle_in_order _ Hidle) Hrun) as [_ (ds' & Hds' & Hall)].
  rewrite Hds in Hds'. apply app_inv_head in Hds' as <-.
  unfold cs_log, cs_cluster in Hall. rewrite El, Ek in Hall. cbn [finish] in Hall.
  rewrite <- Hall in Hlog, Hrep |- *.
  destruct (handle_all_synced ds (cs_state s1) Hex Hlog) as [Rt Hsync].
  eexists _, _. split_and!; [exact Hsync| |].
  - apply Parse_written. by rewrite (represents_ok _ _ Hrep).
  - rewrite written_perm. by apply represents_plugins.
Qed.

(** ** Properties *)

(** C7: Refinement of the API server by the controllers with their informers.
    In every state of the program, whatever the server listed and sent, and
    however the goroutines were interleaved, the configuration holds exactly
    the sinks the handlers were told of, with their specs.  From every such
    state the program can come to rest without hearing from the server.  At
    rest, once the last lists were clean, the handlers know every sink that the
    server has told the informers; and they know no other unless the deletion
    of one was missed by the watch. *)
Theorem configuration_mirrors_server {W} `{KubeWorld W} `{R : MapRange} `{S : SliceSort}
    resync t1 t2 n1 n2 b r1 r2 alone (st : state W) s :
  both_begin resync t1 t2 n1 n2 b r1 r2 -> sc st = NewConfig -> rtc (cs_step alone) (cs_start r1 r2 st) s ->
  represents (sc (cs_state s)) (known_api s)
  /\ (exists s', rtc (cs_step alone) s s' /\ cs_rest s' /\ told_api s' = told_api s /\ lists_clean s' = lists_clean s)
  /\ (cs_rest s -> lists_clean s = true ->
      sd_told (cs_log s) ⊆ known (sd_reported (cs_log s))
      /\ sd_told (cs_cluster s) ⊆ known (sd_reported (cs_cluster s))
      /\ (none_missed s = true -> known_api s = told_api s)).
Proof.
  intros Hb Hst Hrun. destruct (cs_run_ok _ _ _ _ _ _ _ _ _ _ _ Hb Hst Hrun) as [Hr Hm].
  split_and!; [by apply cs_represents|exact (cs_settles _ _ _ _ _ _ _ _ alone s Hb Hr)|].
  intros Hrest Hclean. by eapply cs_rest_known.
Qed.

(** End to end, from the start of the program.  After a [main] that gets
    through, the two informers of its factory run, list and watch, and the
    handlers of their notifications do not overlap.  Whenever all is at rest,
    the last lists were clean and no deletion was missed: outputs.conf, in the
    config map that fluent-bit reads, parses to one output section for each
    sink that the API server has told of, and no other, once a report has
    changed the configuration and if no call failed; and while none has, it is
    what it was before the start, with the outputs of the sinks that were
    deleted meanwhile. *)
Lemma outputs_after_start {W} `{PlatformLaws W} `{ClientLibrary} `{U : UnicodeTables} `{R : MapRange} `{S : SliceSort}
    p p' pr :
  main p = (p', Ok pr) ->
  exists c i j, heap (pr_factory pr) = [i; j] /\ objectType i = LogSink_type /\ objectType j = ClusterLogSink_type
    /\ forall t1 t2 n1 n2 r1 r2 s,
      begins (resyncPeriod i) t1 n1 (namespace_index i) r1 -> begins (resyncPeriod j) t2 n2 (namespace_index j) r2 ->
      rtc (@cs_step W (core_namespace c (Getenv "NAMESPACE")) R S true) (cs_start r1 r2 (pr_state pr)) s ->
      cs_rest s -> lists_clean s = true -> none_missed s = true ->
      let outputs w := fluent_bit c (Getenv "NAMESPACE") w ≫= (.!! "outputs.conf") in
      (Forall (fun d => change d = None) (cs_calls s) -> outputs (world (cs_state s)) = outputs (p_world p))
      /\ (api_ok (told_api s) = true -> Exists (fun d => is_Some (change d)) (cs_calls s) ->
          logs (cs_state s) = logs (pr_state pr) ->
          exists text ps, outputs (world (cs_state s)) = Some (to_valid text)
            /\ Parse EmptyString text =
               Ok (Ok {| FName := EmptyString; Sections := Section_zero :: map plugin_section ps |})
            /\ ps ≡ₚ api_plugins (told_api s)).
Proof.
  intros Hmain. destruct (start_keeps_outputs _ _ _ Hmain) as (c & Hsc & Hout).
  destruct (main_ok _ _ _ Hmain) as (_ & _ & _ & i & j & Hheap & Hi & Hj).
  exists c, i, j. split_and!; [done|apply Hi|apply Hj|].
  intros t1 t2 n1 n2 r1 r2 s B1 B2 Hrun Hrest Hclean Hmiss.
  rewrite (wa_resync _ _ _ Hi), (wa_index _ _ _ Hi) in B1. rewrite (wa_resync _ _ _ Hj), (wa_index _ _ _ Hj) in B2.
  assert (both_begin resync t1 t2 n1 n2 true r1 r2) as Hb by by split.
  destruct (cs_run_ok _ _ _ _ _ _ _ _ _ _ _ Hb Hsc Hrun) as [Hok Hmir]. pose proof (cs_represents _ Hmir) as Hrep.
  assert (cs_idle (cs_start r1 r2 (pr_state pr))) as Hidle by by split.
  pose proof (@outputs_at_rest W _ (namespace_server c (Getenv "NAMESPACE")) U R S _ s (cs_calls s)
    Hidle Hrun Hrest Hrep) as Hsome.
  destruct (cs_rest_known _ _ _ _ _ _ _ _ _ Hb Hok Hrest Hclean) as (_ & _ & Hknow).
  rewrite (Hknow Hmiss) in Hsome. cbn zeta. split.
  - intros Hnone. destruct (cs_run_unchanged _ _ _ _ (cs_start_unchanged _ _ _) Hrun Hnone) as [_ ->]. exact Hout.
  - intros Hok' Hex Hlog. exact (Hsome Hok' eq_refl Hex Hlog).
Qed.

(** ** A run of the program *)

Definition sample_log : obj := ALogSink (sample_sink "ns1" "a" (syslog_spec "a.example.com" 514 false false)).
Definition sample_log' : obj := ALogSink (sample_sink "ns1" "a" (webhook_spec "https://example.com" false)).
Definition sample_cluster : obj := AClusterLogSink (sample_cluster_sink "all" (syslog_spec "c.example.com" 514 true false)).

Definition on_log (a : action) : duo_label := OnLeft (DoInformer a).
Definition on_cluster (a : action) : duo_label := OnRight (DoInformer a).

(** A report to the handler of the log sinks, which changes something. *)
Definition handled : list duo_label := [OnLeft (DoReport 0); OnLeft DoHandle; OnLeft DoHandle; OnLeft DoHandle].

(** Both informers list and watch; the log sink changes while its first report
    is handled; its watch ends, and the store is resynced. *)
Definition sample_schedule : list duo_label :=
  [on_log (DoList (Ok ([sample_log], "1"))); on_cluster (DoList (Ok ([sample_cluster], "1")));
   on_log (DoWatch None); on_cluster (DoWatch None); on_log DoProcess; on_cluster DoProcess;
   OnLeft (DoReport 0); on_log (DoEvent (MkEvent WatchModified sample_log')); OnLeft DoHandle; on_log DoProcess;
   OnLeft DoHandle; OnLeft DoHandle] ++ handled
  ++ [OnRight (DoReport 0); OnRight DoHandle; OnRight DoHandle; OnRight DoHandle;
      on_log DoClose; on_log (DoTick sample_resync); on_log DoResync; on_log DoProcess; OnLeft (DoReport 0)].

Definition sample_end (w : server) : option (program server * controller_system server) :=
  match sample_main w with
  | (_, Ok pr) =>
      option_map (pair pr)
        (@cs_exec server _ map_order insertion_slice_sort sample_schedule
           (cs_start sample_informer sample_informer (pr_state pr)))
  | (_, Err _) => None
  end.

Definition quiet_end (pr : program server) (s : controller_system server) : bool :=
  rest_b is_idle_phase (cs_log s) && rest_b is_idle_phase (cs_cluster s) && lists_clean s && none_missed s && api_ok (told_api s)
  && existsb (fun d => match change d with Some _ => true | None => false end) (cs_calls s)
  && (length (logs (cs_state s)) =? 0) && (length (logs (pr_state pr)) =? 0).

Example sample_ends :
  match sample_end left_over with Some (pr, s) => quiet_end pr s | None => false end = true.
Proof. vm_compute. reflexivity. Qed.

Lemma sample_both_begin : @both_begin map_order sample_resync 0 0 0 0 true sample_informer sample_informer.
Proof. split; apply sample_begins. Qed.

Lemma sample_labels_ok : Forall (duo_label_ok LogSink ClusterLogSink) sample_schedule.
Proof.
  repeat constructor; try by intros.
  - eexists. split; [reflexivity|]. by split_and!.
  - eexists. split; [reflexivity|]. by split_and!.
  - intros _. eexists. split; [reflexivity|]. by split_and!.
Qed.

(** The run ends at rest, with a clean list, no deletion missed, no failed call
    and a configuration that has changed. *)
Lemma sample_run_ends :
  exists p' pr s, sample_main left_over = (p', Ok pr)
    /\ rtc (@cs_step server _ map_order insertion_slice_sort true)
         (cs_start sample_informer sample_informer (pr_state pr)) s
    /\ cs_rest s /\ lists_clean s = true /\ none_missed s = true /\ api_ok (told_api s) = true
    /\ Exists (fun d => is_Some (change d)) (cs_calls s) /\ logs (cs_state s) = logs (pr_state pr)
    /\ sc (pr_state pr) = NewConfig.
Proof.
  pose proof sample_ends as Hend. unfold sample_end in Hend.
  destruct (sample_main left_over) as [p' [pr|e]] eqn:Emain; [|discriminate Hend].
  destruct (@cs_exec server _ map_order insertion_slice_sort sample_schedule _) as [s|] eqn:Es; [|discriminate Hend].
  cbn [option_map] in Hend. unfold quiet_end in Hend. rewrite !andb_true_iff in Hend.
  destruct Hend as [[[[[[[R1 R2] C] M] A] X] L1] L2].
  exists p', pr, s. apply (cs_exec_run _ _ _ sample_labels_ok) in Es.
  destruct (@start_keeps_outputs server _ _ sample_library latin1_tables map_order insertion_slice_sort _ _ _ Emain)
    as (c & Hsc & _).
  destruct (cs_run_ok _ _ _ _ _ _ _ _ _ _ _ sample_both_begin Hsc Es) as [Hreach _].
  split_and!; [done|exact Es| |done|done|done| | |done].
  - apply (@cs_rest_b server _ map_order insertion_slice_sort _ _ _ _ _ _ _ _ _ sample_both_begin Hreach).
    by rewrite R1, R2.
  - apply existsb_exists in X as (d & Hd & Hc). apply Exists_exists. exists d. split; [by apply list_elem_of_In|].
    by destruct (change d).
  - apply Nat.eqb_eq, length_zero_iff_nil in L1, L2. by rewrite L1, L2.
Qed.

Lemma configuration_mirrors_server_witness :
  exists s : controller_system server, cs_rest s /\ represents (sc (cs_state s)) (told_api s).
Proof.
  destruct sample_run_ends as (p' & pr & s & Hmain & Hrun & Hrest & Hclean & Hmiss & _ & _ & _ & Hsc).
  exists s. split; [exact Hrest|].
  destruct (@configuration_mirrors_server server _ map_order insertion_slice_sort _ _ _ _ _ _ _ _ true (pr_state pr) s
    sample_both_begin Hsc Hrun) as (Hrep & _ & Hknow).
  rewrite <- (proj2 (proj2 (Hknow Hrest Hclean)) Hmiss). exact Hrep.
Defined.

Lemma outputs_after_start_witness :
  exists c (s : controller_system server) text ps,
    fluent_bit c "knative-observability" (world (cs_state s)) ≫= (.!! "outputs.conf") = Some (to_valid text)
    /\ @Parse latin1_tables EmptyString text =
       Ok (Ok {| FName := EmptyString; Sections := Section_zero :: map plugin_section ps |})
    /\ ps ≡ₚ api_plugins (told_api s).
Proof.
  destruct sample_run_ends as (p' & pr & s & Hmain & Hrun & Hrest & Hclean & Hmiss & Hok & Hex & Hlog & Hsc).
  destruct (@outputs_after_start server _ _ sample_library latin1_tables map_order insertion_slice_sort _ _ _ Hmain)
    as (c & i & j & Hheap & _ & _ & Hout).
  assert (exists i j, heap (pr_factory pr) = [i; j] /\ watches "logsinks" LogSink_type i
    /\ watches "clusterlogsinks" ClusterLogSink_type j) as (i' & j' & Hheap' & Hi & Hj)
    by apply (main_ok _ _ _ Hmain).
  rewrite Hheap in Hheap'. injection Hheap' as <- <-.
  destruct (Hout 0%Z 0%Z 0%Z 0%Z sample_informer sample_informer s) as [_ Hsome]; [| |exact Hrun|done..|].
  - rewrite (wa_resync _ _ _ Hi), (wa_index _ _ _ Hi). exact sample_begins.
  - rewrite (wa_resync _ _ _ Hj), (wa_index _ _ _ Hj). exact sample_begins.
  - destruct (Hsome Hok Hex Hlog) as (text & ps & H1 & H2 & H3). by exists c, s, text, ps.
Defined.
