(* ===== verification/SinkCluster.v ===== *)
(** * The sink controller and the API server

    [SinkEndToEnd] with a server whose objects have a history ([ApiServer]):
    fluent-bit's outputs are those of the log sinks that exist. *)

From stdpp Require Import base gmap strings list relations pretty.
From Stdlib Require Import Ascii Lia ZArith.
From S2P Require Import Prelude Utf8 GoStd GoJson FlbLex FlbParse GoPath GoUrl RestRequest RestConfig TypedClients Clientset Types Cache DeltaFifo SharedInformer Listers InformerFactory Reflector InformerSystem InformerKinds InformerSide ApiServer EnvStruct Startup InformerRequests SinkConfig SinkController SinkSystem SinkMain SinkInformers SinkEndToEnd.

(** The log sinks that exist after a history. *)
Definition server_api (l : history) : api :=
  {| api_sinks := objects_of (current LogSink_type l); api_cluster_sinks := objects_of (current ClusterLogSink_type l) |}.

(** Every sink of [a] is one of [b]. *)
Definition sub_api (a b : api) : Prop := api_sinks a ⊆ api_sinks b /\ api_cluster_sinks a ⊆ api_cluster_sinks b.

Section Cluster.
Context {W : Type} `{KubeWorld W} `{R : MapRange} `{S : SliceSort} `{V : Revisions}.

Definition sink_cluster_step (P : obj -> Prop) (alone : bool)
    : cluster (controller_system W) -> cluster (controller_system W) -> Prop :=
  duo_cluster_step LogSink ClusterLogSink (sink_handler LogSinkController) (sink_handler ClusterLogSinkController) P alone.

Context (P : obj -> Prop) (HP1 : accepts LogSink P) (HP2 : accepts ClusterLogSink P).

Lemma sink_cluster_run resync t1 t2 n1 n2 b r1 r2 alone l0 (st : state W) l s :
  both_begin resync t1 t2 n1 n2 b r1 r2 -> history_ok P l0 ->
  rtc (sink_cluster_step P alone) (MkCluster l0 (cs_start r1 r2 st)) (MkCluster l s) ->
  history_ok P l /\ duo_in_sync LogSink ClusterLogSink l s /\ rtc (cs_step alone) (cs_start r1 r2 st) s.
Proof.
  intros Hb Hl Hrun.
  destruct (duo_cluster_run (sink_handler LogSinkController) (sink_handler ClusterLogSinkController) P HP1 HP2
    _ _ _ _ _ _ _ _ _ _ _ _ _ Hb Hl Hrun) as (H1 & H2 & _ & H3). by split_and!.
Qed.

(** The same from a later state on, of whatever run led to it. *)
Lemma sink_cluster_from resync t1 t2 n1 n2 b r1 r2 alone l0 (st : state W) l1 s1 l s :
  both_begin resync t1 t2 n1 n2 b r1 r2 -> history_ok P l0 ->
  rtc (sink_cluster_step P false) (MkCluster l0 (cs_start r1 r2 st)) (MkCluster l1 s1) ->
  rtc (sink_cluster_step P alone) (MkCluster l1 s1) (MkCluster l s) -> rtc (cs_step alone) s1 s.
Proof.
  intros Hb Hl Hrun Hlast.
  destruct (duo_cluster_run (sink_handler LogSinkController) (sink_handler ClusterLogSinkController) P HP1 HP2
    _ _ _ _ _ _ _ _ _ _ _ _ _ Hb Hl Hrun) as (Hl1 & Hs1 & Hr1 & _).
  apply (duo_cluster_from (sink_handler LogSinkController) (sink_handler ClusterLogSinkController) P HP1 HP2
    _ _ _ _ _ _ _ _ _ _ _ _ _ Hb Hl1 Hr1 Hs1 Hlast).
Qed.

Lemma told_current l (s : controller_system W) :
  duo_in_sync LogSink ClusterLogSink l s -> duo_up_to_date LogSink ClusterLogSink l s -> told_api s = server_api l.
Proof.
  intros Hs Hu. destruct (duo_current l s Hs Hu) as [E1 E2]. unfold told_api, server_api, cs_log, cs_cluster.
  by rewrite E1, E2.
Qed.

(** Coming to rest with what the server has: every sink that exists is in the
    configuration. *)
Lemma sink_cluster_catches_up resync t1 t2 n1 n2 b r1 r2 alone (st : state W) l s :
  both_begin resync t1 t2 n1 n2 b r1 r2 -> sc st = NewConfig -> history_ok P l ->
  rtc (cs_step alone) (cs_start r1 r2 st) s ->
  exists s', rtc (sink_cluster_step P alone) (MkCluster l s) (MkCluster l s') /\ cs_rest s' /\ lists_clean s' = true
    /\ told_api s' = server_api l /\ represents (sc (cs_state s')) (known_api s') /\ sub_api (server_api l) (known_api s').
Proof.
  intros Hb Hst Hl Hrun. destruct (cs_run_ok _ _ _ _ _ _ _ _ _ _ _ Hb Hst Hrun) as [Hr _].
  destruct (duo_cluster_catches_up (sink_handler LogSinkController) (sink_handler ClusterLogSinkController) P HP1 HP2
    (sink_handler_ok _) (sink_handler_ok _) ltac:(done) ltac:(done) _ _ _ _ _ _ _ _ alone l s Hb Hl Hr)
    as (s' & Hrun' & Hbase & Hrest & Hclean & E1 & E2).
  assert (rtc (cs_step alone) (cs_start r1 r2 st) s') as Hrun2 by (etransitivity; [exact Hrun|exact Hbase]).
  destruct (cs_run_ok _ _ _ _ _ _ _ _ _ _ _ Hb Hst Hrun2) as [Hr2 Hm2].
  destruct (cs_rest_known _ _ _ _ _ _ _ _ _ Hb Hr2 Hrest Hclean) as (K1 & K2 & _).
  unfold cs_log, cs_cluster in K1, K2. rewrite E1 in K1. rewrite E2 in K2.
  exists s'. split_and!; [exact Hrun'|exact Hrest|exact Hclean| |by apply cs_represents|].
  - unfold told_api, server_api, cs_log, cs_cluster. by rewrite E1, E2.
  - destruct Hb as [B1 B2], Hr2 as [R1 R2].
    destruct (side_history (T := LogSink) _ _ _ _ _ _ B1 R1) as (? & _ & N1).
    destruct (side_history (T := ClusterLogSink) _ _ _ _ _ _ B2 R2) as (? & _ & N2).
    split.
    + apply objects_subseteq; [exact (current_valid (T := LogSink) P l HP1 Hl)|by apply known_all_P|done].
    + apply objects_subseteq; [exact (current_valid (T := ClusterLogSink) P l HP2 Hl)|by apply known_all_P|done].
Qed.

End Cluster.

(** ** Properties *)

(** The informers of the program are such as [informers_ask_server] is about. *)
Lemma sink_informers_served {W} `{P : Platform W} `{L : ClientLibrary} `{R : MapRange} `{S : SliceSort} p p' (pr : program W) :
  main p = (p', Ok pr) ->
  str_forall server_char (Getenv "KUBERNETES_SERVICE_HOST") = true ->
  str_forall server_char (Getenv "KUBERNETES_SERVICE_PORT") = true ->
  at_root (group_client (pr_client pr)) /\ exists i j, heap (pr_factory pr) = [i; j]
    /\ watches (served_name LogSink) (served_type LogSink) i
    /\ watches (served_name ClusterLogSink) (served_type ClusterLogSink) j.
Proof.
  intros Hmain Hh Hp. destruct (main_ok _ _ _ Hmain) as ((c & name & [_ (ca & ls & ls' & Hclient) _]) & _ & _ & Hinf).
  split; [|exact Hinf]. apply clientset_throttles in Hclient as [Hroot _]. exact (Hroot (cluster_config_bare _ _ _ Hh Hp)).
Qed.

(** All is at rest, the last lists were clean, no deletion was missed, and the
    informers have seen the last change of their resources. *)
Record caught_up {W} `{V : Revisions} (l : history) (s : controller_system W) : Prop := {
  cu_rest : cs_rest s;
  cu_clean : lists_clean s = true;
  cu_none_missed : none_missed s = true;
  cu_up_to_date : duo_up_to_date LogSink ClusterLogSink l s;
}.

(** C1: End to end, from the API server to fluent-bit.  The server's objects
    have any history, before and after the start of the program; it lists the
    objects at any version, sends the changes after the version of a watch in
    order, ends watches and fails at any time; and the two handlers may overlap,
    as nothing in the program keeps them from it.  From every state of the
    program, a server that only answers can have it come to rest with every log
    sink that exists in the configuration.  And in a state that is at rest, with
    the last lists clean, no deletion missed and the last change of both
    resources seen, the configuration is that of the log sinks that exist, and:
    - outputs.conf, in the config map that fluent-bit reads, is what it was
      before the start, as long as no report has changed the configuration;
    - it parses to one output section for each log sink that exists in the API
      server, and no other, if since some state of the run in which both handlers
      were between reports a report has changed the configuration, no call has
      failed and no handler has started while the other was at work, and if no
      name or spec has a newline.
    The program does not ensure that the handlers do not overlap: where they do,
    the outputs can be stale ([race_leaves_stale_outputs]), until a later change
    is handled alone. *)
Theorem outputs_mirror_api_server {W} `{PlatformLaws W} `{ClientLibrary} `{U : UnicodeTables} `{R : MapRange} `{S : SliceSort}
    `{V : Revisions} p p' pr :
  main p = (p', Ok pr) ->
  exists c i j, heap (pr_factory pr) = [i; j] /\ objectType i = LogSink_type /\ objectType j = ClusterLogSink_type
    /\ forall Q t1 t2 n1 n2 r1 r2 l0 l s, let step := @sink_cluster_step W (core_namespace c (Getenv "NAMESPACE")) R S V Q in
      let start := MkCluster l0 (cs_start r1 r2 (pr_state pr)) in
      let outputs w := fluent_bit c (Getenv "NAMESPACE") w ≫= (.!! "outputs.conf") in
      accepts LogSink Q -> accepts ClusterLogSink Q ->
      begins (resyncPeriod i) t1 n1 (namespace_index i) r1 -> begins (resyncPeriod j) t2 n2 (namespace_index j) r2 ->
      history_ok Q l0 -> rtc (step false) start (MkCluster l s) ->
      (exists s', rtc (step false) (MkCluster l s) (MkCluster l s') /\ cs_rest s' /\ lists_clean s' = true
         /\ told_api s' = server_api l /\ represents (sc (cs_state s')) (known_api s') /\ sub_api (server_api l) (known_api s'))
      /\ (caught_up l s ->
          represents (sc (cs_state s)) (server_api l)
          /\ (Forall (fun d => change d = None) (cs_calls s) -> outputs (world (cs_state s)) = outputs (p_world p))
          /\ (forall l1 s1 ds, rtc (step false) start (MkCluster l1 s1) -> cs_idle s1 ->
              rtc (step true) (MkCluster l1 s1) (MkCluster l s) ->
              cs_calls s = cs_calls s1 ++ ds -> Exists (fun d => is_Some (change d)) ds ->
              logs (cs_state s) = logs (cs_state s1) -> api_ok (server_api l) = true ->
              exists text ps, outputs (world (cs_state s)) = Some (to_valid text)
                /\ Parse EmptyString text =
                   Ok (Ok {| FName := EmptyString; Sections := Section_zero :: map plugin_section ps |})
                /\ ps ≡ₚ api_plugins (server_api l))).
Proof.
  intros Hmain. destruct (start_keeps_outputs _ _ _ Hmain) as (c & Hsc & Hout).
  destruct (main_ok _ _ _ Hmain) as (_ & _ & _ & i & j & Hheap & Wi & Wj).
  exists c, i, j. split; [done|]. split; [apply Wi|]. split; [apply Wj|].
  intros Q t1 t2 n1 n2 r1 r2 l0 l s step start outputs HQ1 HQ2 B1 B2 Hl0 Hrun.
  rewrite (wa_resync _ _ _ Wi), (wa_index _ _ _ Wi) in B1. rewrite (wa_resync _ _ _ Wj), (wa_index _ _ _ Wj) in B2.
  assert (both_begin resync t1 t2 n1 n2 true r1 r2) as Hb by by split.
  set (KW := core_namespace c (Getenv "NAMESPACE")) in *.
  destruct (@sink_cluster_run W KW R S V Q HQ1 HQ2 _ _ _ _ _ _ _ _ _ _ _ _ _ Hb Hl0 Hrun) as (Hl & Hsync & Hbase).
  split; [exact (@sink_cluster_catches_up W KW R S V Q HQ1 HQ2 _ _ _ _ _ _ _ _ false (pr_state pr) l s Hb Hsc Hl Hbase)|].
  intros [Hrest Hclean Hmiss Hup].
  destruct (@cs_run_ok W KW R S _ _ _ _ _ _ _ _ _ _ _ Hb Hsc Hbase) as [Hreach Hmir].
  destruct (cs_rest_known _ _ _ _ _ _ _ _ _ Hb Hreach Hrest Hclean) as (_ & _ & Hknow).
  pose proof (cs_represents _ Hmir) as Hrep. rewrite (Hknow Hmiss) in Hrep.
  pose proof (told_current l s Hsync Hup) as Ecur. rewrite Ecur in Hrep. split; [exact Hrep|]. split.
  - intros Hnone. destruct (@cs_run_unchanged W KW R S _ _ _ _ (cs_start_unchanged _ _ _) Hbase Hnone) as [_ ->]. exact Hout.
  - intros l1 s1 ds Hrun1 Hidle Hlast Hds Hex Hlog Hok.
    pose proof (@sink_cluster_from W KW R S V Q HQ1 HQ2 _ _ _ _ _ _ _ _ _ _ _ _ _ _ _ Hb Hl0 Hrun1 Hlast) as Halone.
    assert (known_api s = server_api l) as Ek by by rewrite (Hknow Hmiss).
    rewrite <- Ek in Hrep, Hok |- *.
    exact (@outputs_at_rest W KW (namespace_server c (Getenv "NAMESPACE")) U R S s1 s ds Hidle Halone Hrest Hrep Hok Hds Hex Hlog).
Qed.

(** ** A run of the cluster *)

Definition valid_sink (o : obj) : Prop :=
  (TypeOf o = LogSink_type -> is_object LogSink o) /\ (TypeOf o = ClusterLogSink_type -> is_object ClusterLogSink o).

Definition log_at (n : nat) (name : string) (spec : SinkSpec) : obj :=
  ALogSink {| ls_TypeMeta := MkTypeMeta EmptyString EmptyString; ls_ObjectMeta := versioned n (sample_meta "ns1" name);
              ls_Spec := spec |}.

Definition cluster_log_at (n : nat) (name : string) (spec : SinkSpec) : obj :=
  AClusterLogSink {| cls_TypeMeta := MkTypeMeta EmptyString EmptyString;
                     cls_ObjectMeta := versioned n (sample_meta EmptyString name); cls_Spec := spec |}.

Definition spec_a : SinkSpec := syslog_spec "a.example.com" 514 false false.
Definition spec_a' : SinkSpec := webhook_spec "https://example.com" false.

Definition reads_left : list cluster_label := [LeftDoes (Hands 0); LeftDoes Works].
Definition sends_left : list cluster_label := [LeftDoes Works; LeftDoes Works].
Definition handled_left : list cluster_label := reads_left ++ sends_left.
Definition handled_right : list cluster_label := [RightDoes (Hands 0); RightDoes Works; RightDoes Works; RightDoes Works].

(** A log sink and a cluster log sink are made, and the handlers of their
    reports overlap. *)
Definition overlapping_schedule : list cluster_label :=
  [Commits (MkEvent WatchAdded (log_at 1 "a" spec_a));
   Commits (MkEvent WatchAdded (cluster_log_at 2 "all" (syslog_spec "c.example.com" 514 true false)));
   LeftDoes (Informs (ReplyList 2)); RightDoes (Informs (ReplyList 0));
   LeftDoes (Informs (NoReply (DoWatch None))); RightDoes (Informs (NoReply (DoWatch None)));
   RightDoes (Informs ReplyEvent); RightDoes (Informs (NoReply DoProcess));
   LeftDoes (Informs (NoReply DoProcess))] ++ reads_left ++ handled_right ++ sends_left.

(** A second log sink is made, the first one changes and the second one is
    deleted while the informers watch. *)
Definition cluster_schedule : list cluster_label :=
  [Commits (MkEvent WatchAdded (log_at 3 "b" spec_a));
   Commits (MkEvent WatchModified (log_at 4 "a" spec_a')); LeftDoes (Informs ReplyEvent);
   LeftDoes (Informs (NoReply DoProcess))] ++ handled_left
  ++ [LeftDoes (Informs ReplyEvent); LeftDoes (Informs (NoReply DoProcess))] ++ handled_left
  ++ [Commits (MkEvent WatchDeleted (log_at 5 "b" spec_a)); LeftDoes (Informs ReplyEvent);
      LeftDoes (Informs (NoReply DoProcess))] ++ handled_left.

Definition run_labels (alone : bool) (xs : list cluster_label) (c : cluster (controller_system server)) :=
  @cluster_exec decimal_revisions map_order _ _ LogSink ClusterLogSink _ _ _ _ _
    (@sink_handler server _ insertion_slice_sort LogSinkController)
    (@sink_handler server _ insertion_slice_sort ClusterLogSinkController) alone xs c.

(** The cluster after the overlap, and at the end. *)
Definition cluster_end : option (program server * cluster (controller_system server) * cluster (controller_system server)) :=
  match sample_main left_over with
  | (_, Ok pr) =>
      c1 ← run_labels false overlapping_schedule (MkCluster [] (cs_start sample_informer sample_informer (pr_state pr)));
      c ← run_labels true cluster_schedule c1; Some (pr, c1, c)
  | (_, Err _) => None
  end.

(** After the overlap the handlers are idle and the outputs are stale. *)
Definition stale (s1 : controller_system server) : bool :=
  is_idle_phase (sd_phase (cs_log s1)) && is_idle_phase (sd_phase (cs_cluster s1))
  && match outputs_conf (world (cs_state s1)) with
     | Some t => (length (section_names t) =? 2) && (length (config_plugins (sc (cs_state s1))) =? 2)
     | None => false
     end.

Definition settled (c1 c : cluster (controller_system server)) : bool :=
  let s1 := cl_program c1 in
  let s := cl_program c in
  rest_b is_idle_phase (cs_log s) && rest_b is_idle_phase (cs_cluster s) && lists_clean s && none_missed s && api_ok (told_api s)
  && existsb (fun d => match change d with Some _ => true | None => false end) (drop (length (cs_calls s1)) (cs_calls s))
  && (length (logs (cs_state s)) =? 0) && (length (logs (cs_state s1)) =? 0)
  && up_to_dateb LogSink_type (cl_history c) (sd_running (cs_log s))
  && up_to_dateb ClusterLogSink_type (cl_history c) (sd_running (cs_cluster s))
  && bool_decide (map fst (map_to_list (api_sinks (server_api (cl_history c)))) = [("ns1", "a")]).

Example cluster_settles :
  match cluster_end with Some (_, c1, c) => stale (cl_program c1) && settled c1 c | None => false end = true.
Proof. vm_compute. reflexivity. Qed.

Lemma valid_log_at n name spec : bar_free ("ns1", name) -> valid_sink (log_at n name spec).
Proof. intros Hb. split; [|discriminate]. intros _. eexists. split; [reflexivity|]. by split_and!. Qed.

Lemma valid_cluster_log_at n name spec : valid_sink (cluster_log_at n name spec).
Proof. split; [discriminate|]. intros _. eexists. split; [reflexivity|]. by split_and!. Qed.

Lemma schedules_accepted : Forall (accepted valid_sink) (overlapping_schedule ++ cluster_schedule).
Proof. repeat constructor; first [by apply valid_log_at|by apply valid_cluster_log_at]. Qed.

(** The run ends at rest and up to date, with clean lists, no deletion missed
    and no failed call; the handlers have overlapped before. *)
Lemma cluster_run_ends :
  exists p' pr l1 s1 l s ds, sample_main left_over = (p', Ok pr)
    /\ rtc (@sink_cluster_step server _ map_order insertion_slice_sort decimal_revisions valid_sink false)
         (MkCluster [] (cs_start sample_informer sample_informer (pr_state pr))) (MkCluster l1 s1)
    /\ cs_idle s1
    /\ rtc (@sink_cluster_step server _ map_order insertion_slice_sort decimal_revisions valid_sink true)
         (MkCluster l1 s1) (MkCluster l s)
    /\ caught_up l s /\ api_ok (told_api s) = true
    /\ cs_calls s = cs_calls s1 ++ ds /\ Exists (fun d => is_Some (change d)) ds /\ logs (cs_state s) = logs (cs_state s1).
Proof.
  pose proof cluster_settles as Hend. unfold cluster_end in Hend.
  destruct (sample_main left_over) as [p' [pr|e]] eqn:Emain; [|discriminate Hend].
  destruct (run_labels false overlapping_schedule _) as [[l1 s1]|] eqn:E1; [|discriminate Hend]. cbn [mbind option_bind] in Hend.
  destruct (run_labels true cluster_schedule _) as [[l s]|] eqn:Es; [|discriminate Hend].
  cbn [mbind option_bind] in Hend. unfold settled, stale in Hend. cbn [cl_program cl_history] in Hend.
  apply andb_true_iff in Hend as [Hst Hend]. rewrite !andb_true_iff in Hst. rewrite !andb_true_iff in Hend. destruct Hst as [[I1 I2] _].
  destruct Hend as [[[[[[[[[[R1 R2] C] M] A] X] L1] L2] U1] U2] _].
  pose proof schedules_accepted as [Ha1 Ha2]%Forall_app.
  apply (cluster_exec_run _ _ valid_sink (sink_handler_ok _) (sink_handler_ok _) false _ _ _ Ha1) in E1.
  apply (cluster_exec_run _ _ valid_sink (sink_handler_ok _) (sink_handler_ok _) true _ _ _ Ha2) in Es.
  destruct (@start_keeps_outputs server _ _ sample_library latin1_tables map_order insertion_slice_sort _ _ _ Emain)
    as (c & Hsc & _).
  assert (history_ok valid_sink []) as H0 by by intros n x Hx.
  assert (rtc (@sink_cluster_step server _ map_order insertion_slice_sort decimal_revisions valid_sink false)
    (MkCluster [] (cs_start sample_informer sample_informer (pr_state pr))) (MkCluster l s)) as Hall.
  { etransitivity; [exact E1|]. by apply duo_cluster_alone. }
  destruct (sink_cluster_run valid_sink (fun o Ho => proj1 Ho) (fun o Ho => proj2 Ho) _ _ _ _ _ _ _ _ _ _ _ _ _
    sample_both_begin H0 Hall) as (_ & _ & Hbase).
  destruct (cs_run_ok _ _ _ _ _ _ _ _ _ _ _ sample_both_begin Hsc Hbase) as [Hreach _].
  assert (cs_idle s1) as Hidle by (split; [by destruct (sd_phase (cs_log s1))|by destruct (sd_phase (cs_cluster s1))]).
  pose proof (sink_cluster_from valid_sink (fun o Ho => proj1 Ho) (fun o Ho => proj2 Ho) _ _ _ _ _ _ _ _ _ _ _ _ _ _ _
    sample_both_begin H0 E1 Es) as Hlast.
  destruct (cs_run_order _ _ _ _ (idle_in_order _ Hidle) Hlast) as [_ (ds & Hds & _)].
  exists p', pr, l1, s1, l, s, ds.
  split_and!; [done|exact E1|exact Hidle|exact Es| |done|exact Hds| |].
  - split; [|done|done|split; by apply up_to_dateb_true].
    apply (@cs_rest_b server _ map_order insertion_slice_sort _ _ _ _ _ _ _ _ _ sample_both_begin Hreach).
    by rewrite R1, R2.
  - rewrite Hds, drop_app_length in X. apply existsb_exists in X as (d & Hd & Hc). apply Exists_exists. exists d. split; [by apply list_elem_of_In|].
    by destruct (change d).
  - apply Nat.eqb_eq, length_zero_iff_nil in L1, L2. by rewrite L1, L2.
Qed.

Lemma outputs_mirror_api_server_witness :
  exists c l (s : controller_system server) text ps,
    fluent_bit c "knative-observability" (world (cs_state s)) ≫= (.!! "outputs.conf") = Some (to_valid text)
    /\ @Parse latin1_tables EmptyString text =
       Ok (Ok {| FName := EmptyString; Sections := Section_zero :: map plugin_section ps |})
    /\ ps ≡ₚ api_plugins (server_api l).
Proof.
  destruct cluster_run_ends as (p' & pr & l1 & s1 & l & s & ds & Hmain & Hrun1 & Hidle & Hrun & Hup & Hok & Hds & Hex & Hlog).
  destruct (@outputs_mirror_api_server server _ _ sample_library latin1_tables map_order insertion_slice_sort decimal_revisions
    _ _ _ Hmain) as (c & i & j & Hheap & _ & _ & Hout).
  assert (exists i j, heap (pr_factory pr) = [i; j] /\ watches "logsinks" LogSink_type i
    /\ watches "clusterlogsinks" ClusterLogSink_type j) as (i' & j' & Hheap' & Hi & Hj)
    by apply (main_ok _ _ _ Hmain).
  rewrite Hheap in Hheap'. injection Hheap' as <- <-.
  assert (history_ok valid_sink []) as H0 by by intros n x Hx.
  assert (@begins map_order (resyncPeriod i) 0 0 (namespace_index i) sample_informer) as B1
    by (rewrite (wa_resync _ _ _ Hi), (wa_index _ _ _ Hi); exact sample_begins).
  assert (@begins map_order (resyncPeriod j) 0 0 (namespace_index j) sample_informer) as B2
    by (rewrite (wa_resync _ _ _ Hj), (wa_index _ _ _ Hj); exact sample_begins).
  assert (rtc (@sink_cluster_step server _ map_order insertion_slice_sort decimal_revisions valid_sink false)
    (MkCluster [] (cs_start sample_informer sample_informer (pr_state pr))) (MkCluster l s)) as Hall.
  { etransitivity; [exact Hrun1|]. by apply duo_cluster_alone. }
  destruct (Hout valid_sink 0%Z 0%Z 0%Z 0%Z sample_informer sample_informer [] l s (fun o Ho => proj1 Ho) (fun o Ho => proj2 Ho)
    B1 B2 H0 Hall) as [_ Hsome].
  assert (told_api s = server_api l) as Etold.
  { destruct (sink_cluster_run valid_sink (fun o Ho => proj1 Ho) (fun o Ho => proj2 Ho) _ _ _ _ _ _ _ _ _ _ _ _ _
      sample_both_begin H0 Hall) as (_ & Hsync & _). apply told_current; [exact Hsync|apply Hup]. }
  rewrite Etold in Hok.
  destruct (proj2 (proj2 (Hsome Hup)) l1 s1 ds Hrun1 Hidle Hrun Hds Hex Hlog Hok) as (text & ps & H1 & H2 & H3).
  by exists c, l, s, text, ps.
Defined.
