(* ===== verification/MetricInformers.v ===== *)
(** * The metric controller with its informers

    The two informers that [cmd/metric-controller/main.go] runs, with the
    handlers of [MetricController] at work on one API server: a handler goes
    request by request, and the requests of the two goroutines interleave in
    any way.  What the server tells the informers is connected with telegraf's
    objects and configuration. *)

From stdpp Require Import base gmap strings list relations.
From Stdlib Require Import Ascii Lia ZArith.
From S2P Require Import Prelude Utf8 GoStd GoJson Types RingGrowing Cache DeltaFifo SharedInformer InformerFactory Reflector InformerSystem InformerKinds InformerSide SinkController MetricConfig KubeApi MetricController MetricSystem.

(** ** The two kinds of metric sink *)

(** Valid objects have namespaces without a separator, or none. *)
#[export] Instance metric_sink_object : ObjectKind (string * string) MetricSink :=
  {| wrap := AMetricSink; unwrap := fun o => match o with AMetricSink s => Some s | _ => None end; kind_id := metric_id;
     named := fun s => Namespace (ms_ObjectMeta s) <> EmptyString
                /\ str_forall (not_char "/") (Namespace (ms_ObjectMeta s)) = true;
     kind_type := MetricSink_type |}.

#[export] Instance cluster_metric_sink_object : ObjectKind string ClusterMetricSink :=
  {| wrap := AClusterMetricSink; unwrap := fun o => match o with AClusterMetricSink s => Some s | _ => None end;
     kind_id := cluster_name; named := fun s => Namespace (cms_ObjectMeta s) = EmptyString;
     kind_type := ClusterMetricSink_type |}.

Lemma metric_key s : key_of (AMetricSink s) = meta_key (ms_ObjectMeta s).
Proof. done. Qed.

Lemma cluster_metric_key s : key_of (AClusterMetricSink s) = meta_key (cms_ObjectMeta s).
Proof. done. Qed.

#[export] Instance metric_sink_object_laws : ObjectKindLaws (string * string) MetricSink.
Proof.
  split.
  - intros o s. destruct o; naive_solver.
  - done.
  - by eexists.
  - intros s t (Hs & Hs') (Ht & Ht').
    change (key_of (AMetricSink s) = key_of (AMetricSink t) <-> metric_id s = metric_id t).
    rewrite !metric_key. unfold meta_key, metric_id.
    destruct (String.eqb_spec (Namespace (ms_ObjectMeta s)) EmptyString); [done|].
    destruct (String.eqb_spec (Namespace (ms_ObjectMeta t)) EmptyString); [done|]. cbn [negb].
    split; [|by intros [= -> ->]]. intros E. by apply sep_split in E as [-> ->].
Qed.

#[export] Instance cluster_metric_sink_object_laws : ObjectKindLaws string ClusterMetricSink.
Proof.
  split.
  - intros o s. destruct o; naive_solver.
  - done.
  - by eexists.
  - intros s t Hs Ht.
    change (key_of (AClusterMetricSink s) = key_of (AClusterMetricSink t) <-> cluster_name s = cluster_name t).
    rewrite !cluster_metric_key. unfold meta_key. cbn in Hs, Ht. by rewrite Hs, Ht.
Qed.

(** The call of the handler that a notification makes. *)
Definition event_of (n : notification) : event :=
  match n with
  | addNotification o => MAdd o
  | updateNotification old o => MUpdate old o
  | deleteNotification o => MDelete o
  end.

Lemma metric_typed a n b : typed_step (T := MetricSink) a n b -> metric_step a (event_of n) b.
Proof. intros []; by constructor. Qed.

Lemma cluster_typed a n b : typed_step (T := ClusterMetricSink) a n b -> cluster_step a (event_of n) b.
Proof. intros []; by constructor. Qed.

(** ** Requests that are granted *)

Definition granted (r : request) (m m' : gmap obj_key kobj) : Prop :=
  match r with
  | Create ns o => m !! kobj_key ns o = None /\ m' = <[kobj_key ns o := o]> m
  | Update ns o => is_Some (m !! kobj_key ns o) /\ m' = <[kobj_key ns o := o]> m
  | Delete k ns name => is_Some (m !! (k, ns, name)) /\ m' = delete (k, ns, name) m
  | DeletePods _ _ => m' = m
  end.

Inductive granted_all : list request -> gmap obj_key kobj -> gmap obj_key kobj -> Prop :=
| granted_none m : granted_all [] m m
| granted_next r rs m m1 m' : granted r m m1 -> granted_all rs m1 m' -> granted_all (r :: rs) m m'.

Lemma granted_snoc rs r m m1 m' : granted_all rs m m1 -> granted r m1 m' -> granted_all (rs ++ [r]) m m'.
Proof. induction 1 as [|? ? ? ? ? Hr _ IH]; intros Hg; cbn; (econstructor; [eassumption|]); [constructor|by apply IH]. Qed.

Lemma request_granted {W} `{KubeStore W} r w w' : do_request r w = (w', None) -> granted r (objects w) (objects w').
Proof.
  destruct r as [ns o|ns o|k ns name|ns sel]; cbn [granted]; intros E.
  - by apply create_stores.
  - by apply update_replaces.
  - by apply delete_removes.
  - pose proof (delete_pods_keeps w ns sel) as Hk. by rewrite E in Hk.
Qed.

(** The object a request is about. *)
Definition request_key (r : request) : option obj_key :=
  match r with
  | Create ns o | Update ns o => Some (kobj_key ns o)
  | Delete k ns name => Some (k, ns, name)
  | DeletePods _ _ => None
  end.

(** A request does not depend on another object. *)
Lemma granted_elsewhere key r m m' :
  request_key r <> Some key -> granted r m m' -> granted r (delete key m) (delete key m').
Proof.
  intros Hkey. assert (forall k, request_key r = Some k -> key <> k) as Hne by congruence. clear Hkey.
  destruct r as [ns o|ns o|k ns name|ns sel]; cbn [granted request_key] in *; try specialize (Hne _ eq_refl).
  - intros [Hn ->]. rewrite lookup_delete_ne by done. split; [done|]. by apply delete_insert_ne.
  - intros [Hs ->]. rewrite lookup_delete_ne by done. split; [done|]. by apply delete_insert_ne.
  - intros [Hs ->]. rewrite lookup_delete_ne by done. split; [done|]. apply delete_delete.
  - by intros ->.
Qed.

Lemma granted_cons r rs m m' : granted_all (r :: rs) m m' -> exists m1, granted r m m1 /\ granted_all rs m1 m'.
Proof. inversion 1; subst. by eexists. Qed.

Lemma granted_nil m m' : granted_all [] m m' -> m' = m.
Proof. by inversion 1. Qed.

Lemma granted_creates ns (os : list kobj) m m' :
  NoDup (map (kobj_key ns) os) -> granted_all (map (Create ns) os) m m' ->
  m' = store_all ns os m /\ Forall (fun o => m !! kobj_key ns o = None) os.
Proof.
  revert m. induction os as [|o os IH]; intros m Hnd Hg; [by apply granted_nil in Hg as ->|].
  apply granted_cons in Hg as (m1 & [Hn ->] & Hg1).
  apply NoDup_cons in Hnd as [Ho Hnd]. destruct (IH _ Hnd Hg1) as [-> Hf]. split; [done|].
  constructor; [done|]. rewrite Forall_forall in *. intros x Hx. specialize (Hf x Hx).
  rewrite lookup_insert_ne in Hf; [done|]. intros E. apply Ho, list_elem_of_fmap. by exists x.
Qed.

Section Granted.
Context `{R : MapRange} `{G : SliceGrow} (Encode : telegrafConfig -> res string string) (clusterName : string).

(** A handler all of whose requests are granted does what its report says. *)
Lemma telegrafs_granted objs0 a ev b m m' :
  metric_step a ev b -> telegrafs Encode clusterName objs0 a m ->
  granted_all (plan_of Encode clusterName ev).*1 m m' -> telegrafs Encode clusterName objs0 b m'.
Proof.
  intros Hstep Ht Hg. destruct Hstep as [a s Ha|a o n Ha Hno|a s Ha]; cbn [plan_of] in Hg.
  - rewrite add_plan_requests in Hg.
    destruct (granted_creates (Namespace (ms_ObjectMeta s)) (sink_objects Encode clusterName (setDefaultTypeMeta s)) m m'
      (sink_keys_distinct _ _ _ _)) as [-> Hnone]; [exact Hg|].
    apply telegrafs_add; [done|done|].
    unfold sink_objects in Hnone. rewrite !Forall_cons in Hnone. destruct Hnone as (N1 & N2 & N3 & N4 & _).
    intros k. unfold app_key, metric_id. cbn [fst snd]. rewrite <- getAppName_text. destruct k; assumption.
  - apply (telegrafs_update _ _ _ _ m o n); [done..|]. destruct (MetricSinkSpec_DeepEqual (ms_Spec o) (ms_Spec n)) eqn:E.
    + by apply granted_nil in Hg.
    + unfold update_plan, getTelegrafConfigMap in Hg. cbn zeta iota beta in Hg.
      apply granted_cons in Hg as (m1 & [_ ->] & Hg). apply granted_cons in Hg as (m2 & -> & ->%granted_nil).
      unfold app_key, metric_id. cbn [fst snd]. by rewrite <- getAppName_text.
  - apply granted_cons in Hg as (m1 & [_ ->] & Hg). apply granted_cons in Hg as (m2 & [_ ->] & Hg).
    apply granted_cons in Hg as (m3 & [_ ->] & Hg). apply granted_cons in Hg as (m4 & [_ ->] & ->%granted_nil).
    pose proof (telegrafs_delete Encode clusterName objs0 a m s Ht Ha) as Hd.
    unfold app_key, metric_id in Hd |- *. cbn [fst snd] in *. by rewrite <- getAppName_text in Hd.
Qed.

(** Where a telegraf's own config map is. *)
Definition telegraf_key (ns : string) : obj_key := (ConfigMapKind, ns, TelegrafConfigMapName).

(** No handler of metric sinks asks for it. *)
Lemma plan_elsewhere ns ev : Forall (fun r => request_key r <> Some (telegraf_key ns)) (plan_of Encode clusterName ev).*1.
Proof.
  assert (forall ms k ns', Some (k, ns', getAppName ms) <> Some (telegraf_key ns)) as Hname.
  { intros ms k ns' E. apply (f_equal (fmap snd)) in E. rewrite getAppName_text in E. discriminate E. }
  assert (forall ms, Forall (fun r => request_key r <> Some (telegraf_key ns)) (add_plan Encode clusterName ms).*1
    /\ Forall (fun r => request_key r <> Some (telegraf_key ns)) (update_plan Encode clusterName ms).*1
    /\ Forall (fun r => request_key r <> Some (telegraf_key ns)) (delete_plan ms).*1) as Hplans.
  { intros ms. unfold add_plan, update_plan, getTelegrafConfigMap. split_and!; repeat (apply Forall_cons; split; [try exact (Hname ms _ _); done|]); by apply Forall_nil. }
  destruct ev as [o|o n|o]; cbn [plan_of]; [destruct o|destruct o, n|destruct o]; try by apply Forall_nil.
  - apply Hplans.
  - destruct (MetricSinkSpec_DeepEqual _ _); [by apply Forall_nil|apply Hplans].
  - apply Hplans.
Qed.

End Granted.

(** ** One API server for both controllers

    The config map of the cluster's telegraf is one of the objects; the calls
    of one controller leave the objects of the other alone. *)

Class MetricWorld (W : Type) `{KA : KubeAPI W} `{KS : !KubeStore W} `{KW : KubeWorld W} `{PS : !PatchServer W} (ns : string) := {
  patch_elsewhere : forall ptype data w key, key <> telegraf_key ns ->
    objects (Patch TelegrafConfigMapName ptype data w).1 !! key = objects w !! key;
  draw_keeps : forall w, objects (draw_order w).1 = objects w;
  restart_keeps : forall sel w, objects (DeleteCollection sel w).1 = objects w;
  request_elsewhere : forall r w, request_key r <> Some (telegraf_key ns) ->
    config_map (do_request r w).1 TelegrafConfigMapName = config_map w TelegrafConfigMapName;
}.

(** ** The handlers, request by request

    The state the two handlers share: the API server and the log; the
    configuration and its arrays belong to the cluster controller alone. *)

Definition kstate_of {W} (st : cluster_state W) : kstate W := MkKstate (mc_world st) (mc_logs st).

Definition with_kstate {W} (k : kstate W) (st : cluster_state W) : cluster_state W :=
  {| mc_heap := mc_heap st; mc_sc := mc_sc st; mc_world := k_world k; mc_logs := k_logs k |}.

Inductive cluster_phase : Type := NoHandler | BeforePatch (text : string) | BeforeRestart.

Section Handlers.
Context {W : Type} `{KA : KubeAPI W} `{KW : KubeWorld W} `{R : MapRange} `{G : SliceGrow}.
Context (Encode : telegrafConfig -> res string string) (clusterName : string).

(** The phase of a handler of metric sinks is what is left of its plan. *)
Definition metric_takes (n : notification) (st : cluster_state W) : plan * cluster_state W :=
  (plan_of Encode clusterName (event_of n), st).

Definition metric_works (p : plan) (st : cluster_state W) : option (plan * cluster_state W) :=
  match p with
  | [] => None
  | (r, (lines, fmt)) :: p =>
      let '(k, err) := send_request r (log_lines lines (kstate_of st)) in
      Some match err with
           | Some e => ([], with_kstate (Printf fmt e k) st)
           | None => (p, with_kstate k st)
           end
  end.

Definition metric_handler : handler plan (cluster_state W) :=
  {| idle := []; is_idle := fun p => match p with [] => true | _ => false end;
     takes := metric_takes; works := metric_works |}.

(** A handler of cluster metric sinks changes the configuration and takes its
    text in an order of the sinks that it draws, sends the patch, and deletes
    the pods. *)
Definition cluster_takes (n : notification) (st : cluster_state W) : cluster_phase * cluster_state W :=
  match cluster_change (event_of n) with
  | None => (NoHandler, st)
  | Some f =>
      let st := with_cluster_sc (f (mc_sc st)) st in
      let '(w, R) := draw_order (mc_world st) in
      let '(h, (text, lines)) := ClusterConfig_String Encode (mc_heap st) (mc_sc st) in
      (BeforePatch text, {| mc_heap := h; mc_sc := mc_sc st; mc_world := w; mc_logs := mc_logs st ++ lines |})
  end.

Definition cluster_works (ph : cluster_phase) (st : cluster_state W) : option (cluster_phase * cluster_state W) :=
  match ph with
  | NoHandler => None
  | BeforePatch text =>
      let patches := [{| Op := "replace"; Path := "/data/cluster-metric-sinks.conf"; PatchValue := text |}] in
      let '(data, err) := match json_Marshal patches with Ok d => (d, None) | Err e => (EmptyString, Some e) end in
      let lg := log_error err (mc_logs st) in
      let '(w, err) := Patch TelegrafConfigMapName JSONPatchType data (mc_world st) in
      Some (BeforeRestart, with_kstate (MkKstate w (log_error err lg)) st)
  | BeforeRestart =>
      let '(w, err) := DeleteCollection "app=telegraf" (mc_world st) in
      Some (NoHandler, with_kstate (MkKstate w (log_error err (mc_logs st))) st)
  end.

Definition cluster_handler : handler cluster_phase (cluster_state W) :=
  {| idle := NoHandler; is_idle := fun ph => match ph with NoHandler => true | _ => false end;
     takes := cluster_takes; works := cluster_works |}.

Lemma metric_handler_ok : handler_ok metric_handler length.
Proof.
  split; cbn.
  - by intros [].
  - intros [|[r [lines fmt]] p] s; [done|]. split; [|done]. cbn. by destruct (send_request _ _).
  - intros [|[r [lines fmt]] p] s φ' s'; cbn; [done|]. destruct (send_request _ _) as [k [e|]]; intros [= <- _]; cbn; lia.
Qed.

Lemma cluster_works_some ph st : ph <> NoHandler -> exists ph' st', cluster_works ph st = Some (ph', st').
Proof.
  destruct ph as [|t|]; [done| |]; intros _; unfold cluster_works, json_Marshal.
  - destruct (Patch _ _ _ _). by eexists _, _.
  - destruct (DeleteCollection _ _). by eexists _, _.
Qed.

Lemma cluster_works_next ph st ph' st' :
  cluster_works ph st = Some (ph', st') ->
  match ph with NoHandler => False | BeforePatch _ => ph' = BeforeRestart | BeforeRestart => ph' = NoHandler end.
Proof.
  destruct ph as [|t|]; [done| |]; unfold cluster_works, json_Marshal.
  - destruct (Patch _ _ _ _). by intros [= <- _].
  - destruct (DeleteCollection _ _). by intros [= <- _].
Qed.

Definition cluster_left (ph : cluster_phase) : nat :=
  match ph with NoHandler => 0 | BeforePatch _ => 2 | BeforeRestart => 1 end.

Lemma cluster_handler_ok : handler_ok cluster_handler cluster_left.
Proof.
  split; cbn [idle is_idle works cluster_handler].
  - by intros [].
  - intros ph s. split; [|by intros ->]. intros E. destruct (decide (cluster_left ph = 0)) as [E0|Hne]; [by destruct ph|].
    destruct (cluster_works_some ph s) as (ph' & s' & E'); [by intros ->|]. congruence.
  - intros ph s ph' s' E%cluster_works_next. destruct ph; subst; cbn; [done|lia..].
Qed.

(** *** Alone, they are the handlers of [MetricController] *)

Definition finish_metric (p : plan) (st : cluster_state W) : cluster_state W := with_kstate (attempt p (kstate_of st)) st.

Lemma metric_takes_handles n st p st' :
  metric_takes n st = (p, st') ->
  finish_metric p st' = with_kstate (handle_metric Encode clusterName (event_of n) (kstate_of st)) st.
Proof. intros [= <- <-]. unfold finish_metric. by rewrite handle_metric_plan. Qed.

Lemma metric_works_handles p st p' st' : metric_works p st = Some (p', st') -> finish_metric p' st' = finish_metric p st.
Proof.
  destruct p as [|[r [lines fmt]] p]; [done|]. unfold finish_metric. cbn [metric_works attempt].
  destruct (send_request r (log_lines lines (kstate_of st))) as [k [e|]]; intros [= <- <-]; [done|]. by destruct k.
Qed.

Definition finish_cluster (ph : cluster_phase) (st : cluster_state W) : cluster_state W :=
  match ph with
  | NoHandler => st
  | BeforePatch _ =>
      match cluster_works ph st with
      | Some (ph, st) => match cluster_works ph st with Some (_, st) => st | None => st end
      | None => st
      end
  | BeforeRestart => match cluster_works ph st with Some (_, st) => st | None => st end
  end.

Lemma cluster_takes_handles n st ph st' :
  cluster_takes n st = (ph, st') -> finish_cluster ph st' = handle_cluster Encode (event_of n) st.
Proof.
  unfold cluster_takes. rewrite handle_cluster_change. destruct (cluster_change (event_of n)) as [f|]; [|by intros [= <- <-]].
  unfold push_cluster_config. destruct (draw_order _) as [w R0].
  destruct (ClusterConfig_String _ _ _) as [h [text lines]]. intros [= <- <-].
  cbn [finish_cluster cluster_works with_kstate mc_world mc_logs mc_heap mc_sc k_world k_logs with_cluster_sc].
  unfold json_Marshal. destruct (Patch _ _ _ _) as [w1 e1].
  cbn [cluster_works with_kstate mc_world mc_logs mc_heap mc_sc k_world k_logs]. by destruct (DeleteCollection _ w1) as [w2 e2].
Qed.

Lemma cluster_works_handles ph st ph' st' :
  cluster_works ph st = Some (ph', st') -> finish_cluster ph' st' = finish_cluster ph st.
Proof.
  destruct ph as [|t|]; [done| |]; cbn [finish_cluster]; intros E; rewrite E; unfold cluster_works, json_Marshal in E.
  - destruct (Patch _ _ _ _). by injection E as <- <-.
  - destruct (DeleteCollection _ _). by injection E as <- <-.
Qed.

End Handlers.

(** ** The program at work *)

Section System.
Context {W : Type} {ns : string} `{MW : MetricWorld W ns} `{R : MapRange} `{G : SliceGrow}.
Context (Encode : telegrafConfig -> res string string) (clusterName : string).

#[local] Notation mh := (metric_handler Encode clusterName).
#[local] Notation ch := (cluster_handler Encode).

(** The metric sinks' side is the left one. *)
Definition ms_step : duo plan cluster_phase (cluster_state W) -> duo plan cluster_phase (cluster_state W) -> Prop :=
  duo_step MetricSink ClusterMetricSink mh ch false.

Definition ms_start (r1 r2 : running) (st : cluster_state W) : duo plan cluster_phase (cluster_state W) :=
  duo_start (Φ1 := plan) [] NoHandler r1 r2 st.

Definition ms_rest (d : duo plan cluster_phase (cluster_state W)) : Prop := duo_rest (Φ1 := plan) [] NoHandler d.

(** The objects that are not the cluster's telegraf's. *)
Definition sink_side (st : cluster_state W) : gmap obj_key kobj := delete (telegraf_key ns) (objects (mc_world st)).

(** Whether the requests of a plan are about these. *)
Definition elsewhere (p : plan) : Prop := Forall (fun r => request_key r <> Some (telegraf_key ns)) p.*1.

(** Between reports telegraf's objects are those of the sinks; in a handler
    some of its requests have been granted. *)
Inductive metric_progress (objs0 : gmap obj_key kobj) (a : metric_api) (m : gmap obj_key kobj) : plan -> Prop :=
| at_rest : telegrafs Encode clusterName objs0 a m -> metric_progress objs0 a m []
| under_way a0 ev m0 sent p :
    metric_step a0 ev a -> telegrafs Encode clusterName objs0 a0 m0 ->
    (plan_of Encode clusterName ev).*1 = sent ++ p.*1 -> granted_all sent m0 m ->
    metric_progress objs0 a m p.

Lemma progress_done objs0 a m : metric_progress objs0 a m [] -> telegrafs Encode clusterName objs0 a m.
Proof.
  inversion 1 as [Ht|a0 ev m0 sent p Hs Ht Hp Hg]; subst; [done|].
  cbn in Hp. rewrite app_nil_r in Hp. subst sent. by eapply telegrafs_granted.
Qed.

Lemma progress_next objs0 a m r fmt p m' :
  metric_progress objs0 a m ((r, fmt) :: p) -> granted r m m' -> metric_progress objs0 a m' p.
Proof.
  inversion 1 as [|a0 ev m0 sent p0 Hs Ht Hp Hg]; subst. intros Hr.
  eapply under_way; [exact Hs|exact Ht| |by eapply granted_snoc]. rewrite Hp, <- app_assoc. done.
Qed.

(** *** What the steps of the handlers leave alone *)

Lemma metric_works_spec p (st : cluster_state W) p' st' :
  metric_works p st = Some (p', st') -> elsewhere p ->
  elsewhere p' /\ mc_heap st' = mc_heap st /\ mc_sc st' = mc_sc st
  /\ telegraf_conf (mc_world st') = telegraf_conf (mc_world st)
  /\ (exists l, mc_logs st' = mc_logs st ++ l)
  /\ (mc_logs st' = mc_logs st -> exists r fmt, p = (r, fmt) :: p' /\ granted r (sink_side st) (sink_side st')).
Proof.
  destruct p as [|[r [lines fmt]] p]; [done|]. cbn [metric_works]. unfold send_request, log_lines, kstate_of.
  cbn [k_world k_logs].
  pose proof (request_elsewhere r (mc_world st)) as Hconf. destruct (do_request r (mc_world st)) as [w err] eqn:Er.
  intros Hst [Hr Hp]%Forall_cons_1. specialize (Hconf Hr). cbn [fst] in Hconf.
  assert (telegraf_conf w = telegraf_conf (mc_world st)) as Hc by (unfold telegraf_conf; by rewrite Hconf).
  destruct err as [e|]; injection Hst as <- <-; cbn [with_kstate mc_heap mc_sc mc_world mc_logs Printf k_world k_logs].
  - split_and!; [by apply Forall_nil|done|done|done|eexists; by rewrite <- app_assoc|]. intros E.
    apply (f_equal List.length) in E. rewrite !length_app in E. cbn in E. lia.
  - split_and!; [done..|by eexists|]. intros _. exists r, (lines, fmt). split; [done|].
    unfold sink_side. cbn [with_kstate mc_world k_world]. apply granted_elsewhere; [done|]. by apply request_granted.
Qed.

Lemma log_error_same err lg : log_error err lg = lg -> err = None.
Proof. destruct err as [e|]; [|done]. cbn. intros E. apply (f_equal List.length) in E. rewrite length_app in E. cbn in E. lia. Qed.

Lemma cluster_works_spec ph (st : cluster_state W) ph' st' :
  cluster_works ph st = Some (ph', st') ->
  mc_heap st' = mc_heap st /\ mc_sc st' = mc_sc st /\ sink_side st' = sink_side st
  /\ (exists l, mc_logs st' = mc_logs st ++ l)
  /\ match ph with
     | NoHandler => False
     | BeforePatch t => ph' = BeforeRestart
         /\ (mc_logs st' = mc_logs st -> telegraf_conf (mc_world st') = Some (to_valid t))
     | BeforeRestart => ph' = NoHandler /\ telegraf_conf (mc_world st') = telegraf_conf (mc_world st)
     end.
Proof.
  destruct ph as [|t|]; [done| |]; unfold cluster_works, json_Marshal.
  - destruct (Patch _ _ _ _) as [w err] eqn:HP. intros [= <- <-].
    cbn [with_kstate mc_heap mc_sc mc_world mc_logs k_world k_logs log_error]. split_and!; [done|done| | |done|].
    + unfold sink_side. cbn [with_kstate mc_world k_world]. apply map_eq. intros key.
      destruct (decide (key = telegraf_key ns)) as [->|Hne]; [by rewrite !lookup_delete_eq|].
      rewrite !lookup_delete_ne by done. match type of HP with Patch _ ?pt ?d ?w0 = _ =>
        pose proof (patch_elsewhere pt d w0 key Hne) as He end. by rewrite HP in He.
    + apply log_error_prefix.
    + intros ->%log_error_same. unfold telegraf_conf.
      destruct (patch_replaces _ _ _ _ "cluster-metric-sinks.conf" (to_valid t) HP) as (m & _ & _ & ->).
      * by rewrite unmarshal_marshal_patches.
      * reflexivity.
      * cbn. by rewrite lookup_insert_eq.
  - pose proof (restart_keeps "app=telegraf" (mc_world st)) as Hk.
    pose proof (delete_pods_data (mc_world st) "app=telegraf" TelegrafConfigMapName) as Hd.
    destruct (DeleteCollection _ _) as [w err]. cbn [fst] in Hk, Hd. intros [= <- <-].
    cbn [with_kstate mc_heap mc_sc mc_world mc_logs k_world k_logs].
    split_and!; [done|done| |apply log_error_prefix|done|].
    + unfold sink_side. cbn [with_kstate mc_world k_world]. by rewrite Hk.
    + unfold telegraf_conf. by rewrite Hd.
Qed.
(** *** The invariant *)

(** The cluster controller between and in its handlers, when nothing was
    logged. *)
Definition cluster_progress (reported : list notification) (ph : cluster_phase) (st : cluster_state W) : Prop :=
  match ph with
  | NoHandler => Exists (fun n => is_Some (cluster_change (event_of n))) reported -> cluster_synced Encode st
  | BeforePatch t => exists R, t = cluster_text Encode R st
  | BeforeRestart => cluster_synced Encode st
  end.

Record ms_ok (st0 : cluster_state W) (d : duo plan cluster_phase (cluster_state W)) : Prop := {
  mo_logs : exists l, mc_logs (duo_state d) = mc_logs st0 ++ l;
  mo_elsewhere : elsewhere (sd_phase (duo_left d));
  mo_metric : side_none_missed (duo_left d) = true -> mc_logs (duo_state d) = mc_logs st0 ->
    metric_progress (sink_side st0) (objects_of (known (sd_reported (duo_left d)))) (sink_side (duo_state d))
      (sd_phase (duo_left d));
  mo_cluster : cluster_inv (duo_state d);
  mo_rest : defaultInputs (mc_sc (duo_state d)) = defaultInputs (mc_sc st0)
    /\ MetricConfig.clusterName (mc_sc (duo_state d)) = MetricConfig.clusterName (mc_sc st0);
  mo_mirror : side_none_missed (duo_right d) = true ->
    cluster_mirror (mc_sc (duo_state d)) (objects_of (known (sd_reported (duo_right d))));
  mo_text : mc_logs (duo_state d) = mc_logs st0 ->
    cluster_progress (sd_reported (duo_right d)) (sd_phase (duo_right d)) (duo_state d);
}.

(** A state in which no handler has taken a step since. *)
Lemma same_logs {A} (l0 l1 l2 : list A) : (exists l, l1 = l0 ++ l) -> (exists l, l2 = l1 ++ l) -> l2 = l0 -> l1 = l0 /\ l2 = l1.
Proof.
  intros [a ->] [b ->]. rewrite <- app_assoc. intros E. rewrite <- (app_nil_r l0) in E at 2.
  apply app_inv_head, app_eq_nil in E as [-> ->]. by rewrite !app_nil_r.
Qed.

Lemma more_logs {A} (l0 l1 l2 : list A) : (exists l, l1 = l0 ++ l) -> (exists l, l2 = l1 ++ l) -> exists l, l2 = l0 ++ l.
Proof. intros [a ->] [b ->]. exists (a ++ b). by rewrite app_assoc. Qed.

Lemma metric_handler_keeps st0 l k st p st' :
  ms_ok st0 (MkDuo l k st) -> works mh (sd_phase l) st = Some (p, st') ->
  ms_ok st0 (MkDuo (MkSide (sd_running l) p (sd_told l) (sd_reported l) (sd_clean l)) k st').
Proof.
  intros [Hlog Helse Hm Hinv Hrest Hmir Htext] E. cbn [duo_left duo_right duo_state] in *.
  destruct (metric_works_spec _ _ _ _ E Helse) as (Helse' & Eh & Ec & Et & Hl & Hg).
  split; cbn [duo_left duo_right duo_state sd_phase sd_reported].
  - by eapply more_logs.
  - done.
  - intros Hmiss Hsame. destruct (same_logs _ _ _ Hlog Hl Hsame) as [H1 H2].
    destruct (Hg H2) as (r & fmt & Ep & Hr). specialize (Hm Hmiss H1). rewrite Ep in Hm. by eapply progress_next.
  - unfold cluster_inv. by rewrite Eh, Ec.
  - by rewrite Ec.
  - by rewrite Ec.
  - intros Hsame. destruct (same_logs _ _ _ Hlog Hl Hsame) as [H1 _]. specialize (Htext H1).
    unfold cluster_progress, cluster_synced, cluster_text in *. by rewrite Eh, Ec, Et.
Qed.

Lemma cluster_handler_keeps st0 l k st ph st' :
  ms_ok st0 (MkDuo l k st) -> works ch (sd_phase k) st = Some (ph, st') ->
  ms_ok st0 (MkDuo l (MkSide (sd_running k) ph (sd_told k) (sd_reported k) (sd_clean k)) st').
Proof.
  intros [Hlog Helse Hm Hinv Hrest Hmir Htext] E. cbn [duo_left duo_right duo_state] in *.
  destruct (cluster_works_spec _ _ _ _ E) as (Eh & Ec & Es & Hl & Hph).
  split; cbn [duo_left duo_right duo_state sd_phase sd_reported].
  - by eapply more_logs.
  - done.
  - intros Hmiss Hsame. destruct (same_logs _ _ _ Hlog Hl Hsame) as [H1 _]. rewrite Es. by apply Hm.
  - unfold cluster_inv. by rewrite Eh, Ec.
  - by rewrite Ec.
  - by rewrite Ec.
  - intros Hsame. destruct (same_logs _ _ _ Hlog Hl Hsame) as [H1 H2]. specialize (Htext H1).
    destruct (sd_phase k) as [|t|]; [done| |]; destruct Hph as [-> Hph];
      cbn [cluster_progress] in *; unfold cluster_synced, cluster_text in *; rewrite Eh, Ec.
    + destruct Htext as [R0 Htext]. exists R0. rewrite <- Htext. by apply Hph.
    + intros _. by rewrite Hph.
Qed.

Lemma metric_takes_keeps st0 l k st n r :
  ms_ok st0 (MkDuo l k st) -> sd_phase l = [] -> valid_history (T := MetricSink) (sd_reported l ++ [n]) ->
  ms_ok st0 (MkDuo (MkSide r (plan_of Encode clusterName (event_of n)) (sd_told l) (sd_reported l ++ [n]) (sd_clean l)) k st).
Proof.
  intros [Hlog Helse Hm Hinv Hrest Hmir Htext] Ep Hv. cbn [duo_left duo_right duo_state] in *.
  split; cbn [duo_left duo_right duo_state sd_phase sd_reported]; try done.
  - apply plan_elsewhere.
  - unfold side_none_missed. cbn [sd_reported]. intros Hmiss Hsame.
    pose proof (metric_typed _ _ _ (history_typed _ _ Hv Hmiss)) as Hstep.
    rewrite forallb_app in Hmiss. apply andb_true_iff in Hmiss as [Hmiss _].
    specialize (Hm Hmiss Hsame). rewrite Ep in Hm. apply progress_done in Hm.
    eapply (under_way _ _ _ _ _ _ []); [exact Hstep|exact Hm|done|constructor].
Qed.

Lemma cluster_takes_keeps st0 l k st n r ph st' :
  ms_ok st0 (MkDuo l k st) -> sd_phase k = NoHandler -> valid_history (T := ClusterMetricSink) (sd_reported k ++ [n]) ->
  takes ch n st = (ph, st') ->
  ms_ok st0 (MkDuo l (MkSide r ph (sd_told k) (sd_reported k ++ [n]) (sd_clean k)) st').
Proof.
  intros [Hlog Helse Hm Hinv Hrest Hmir Htext] Ep Hv E. cbn [duo_left duo_right duo_state] in *. rewrite Ep in Htext.
  assert (side_none_missed (MkSide r ph (sd_told k) (sd_reported k ++ [n]) (sd_clean k)) = true ->
    cluster_mirror (apply_cluster_change (mc_sc st) (event_of n)) (objects_of (known (sd_reported k ++ [n])))) as Hmir'.
  { unfold side_none_missed. cbn [sd_reported]. intros Hmiss.
    pose proof (cluster_typed _ _ _ (history_typed _ _ Hv Hmiss)) as Hstep.
    rewrite forallb_app in Hmiss. apply andb_true_iff in Hmiss as [Hmiss _].
    by apply (cluster_mirror_step _ _ _ _ (Hmir Hmiss)). }
  pose proof (apply_cluster_change_rest (mc_sc st) (event_of n)) as Hrest'.
  cbn [takes cluster_handler] in E. unfold cluster_takes in E. unfold apply_cluster_change in *.
  destruct (cluster_change (event_of n)) as [f|] eqn:Ef.
  - pose proof (change_inv _ _ _ Ef Hinv) as Hinv'. unfold cluster_inv in Hinv'.
    destruct (draw_order (mc_world (with_cluster_sc (f (mc_sc st)) st))) as [w R0] eqn:Ed.
    destruct (String_repeatable R0 R0 Encode _ _ Hinv') as (Hfull & _ & Hrep).
    destruct (ClusterConfig_String _ _ _) as [h [text lines]] eqn:Et. cbn [fst snd] in Hfull, Hrep. injection E as <- <-.
    pose proof (draw_keeps (mc_world st)) as Hobj. cbn [with_cluster_sc mc_world] in Ed. rewrite Ed in Hobj. cbn [fst] in Hobj.
    split; cbn [duo_left duo_right duo_state sd_phase sd_reported mc_heap mc_sc mc_world mc_logs with_cluster_sc];
      [by eapply more_logs; [|eexists]|done| |done|by destruct Hrest' as [-> ->]|done|].
    + intros Hmiss Hsame. destruct (same_logs _ _ _ Hlog (ex_intro _ lines eq_refl) Hsame) as [Hs1 _].
      unfold sink_side. cbn [mc_world]. rewrite Hobj. by apply Hm.
    + intros _. exists R0. unfold cluster_text. cbn [mc_heap mc_sc]. by cbn [with_cluster_sc mc_sc] in Hrep; rewrite Hrep.
  - injection E as <- <-.
    split; cbn [duo_left duo_right duo_state sd_phase sd_reported]; try done.
    intros Hsame [Hex|Hex%Exists_cons]%Exists_app; [by apply Htext|].
    destruct Hex as [Hs|Hs%Exists_nil]; [|done]. rewrite Ef in Hs. by destruct Hs.
Qed.

(** A step of an informer changes nothing of this. *)
Lemma informer_keeps st0 l k st r1 told1 c1 r2 told2 c2 :
  ms_ok st0 (MkDuo l k st) ->
  ms_ok st0 (MkDuo (MkSide r1 (sd_phase l) told1 (sd_reported l) c1) (MkSide r2 (sd_phase k) told2 (sd_reported k) c2) st).
Proof. intros []. by split. Qed.

Lemma ms_step_ok resync t1 t2 n1 n2 b r1 r2 st0 d d' :
  both_begin resync t1 t2 n1 n2 b r1 r2 -> duo_reaches MetricSink ClusterMetricSink r1 r2 d' ->
  ms_ok st0 d -> ms_step d d' -> ms_ok st0 d'.
Proof.
  intros [B1 B2] [R1 R2] Hok Hs. apply (side_history _ _ _ _ _ _ B1) in R1. apply (side_history _ _ _ _ _ _ B2) in R2.
  destruct Hs as [l l' k st st' Hs|l k k' st st' Hs]; cbn [duo_left duo_right] in *.
  - inversion Hs as [r r' p told ns' c a s Ha E|r r' told ns' c i n p s s' _ E Et|r p p' told ns' c s s' Ew]; subst.
    + destruct k. exact (informer_keeps _ _ _ _ _ _ _ _ _ _ Hok).
    + injection Et as <- <-. exact (metric_takes_keeps _ _ _ _ n r' Hok eq_refl R1).
    + exact (metric_handler_keeps _ _ _ _ _ _ Hok Ew).
  - inversion Hs as [r r' p told ns' c a s Ha E|r r' told ns' c i n p s s' _ E Et|r p p' told ns' c s s' Ew]; subst.
    + destruct l. exact (informer_keeps _ _ _ _ _ _ _ _ _ _ Hok).
    + exact (cluster_takes_keeps _ _ _ _ n r' _ _ Hok eq_refl R2 Et).
    + exact (cluster_handler_keeps _ _ _ _ _ _ Hok Ew).
Qed.

Lemma ms_start_ok r1 r2 st : cluster_inv st -> clusterSinks (mc_sc st) = ∅ -> ms_ok st (ms_start r1 r2 st).
Proof.
  intros Hinv Hempty. split; cbn [ms_start duo_start duo_left duo_right duo_state side_start sd_phase sd_reported]; try done.
  - exists []. by rewrite app_nil_r.
  - by apply Forall_nil.
  - intros _ _. apply at_rest. unfold known. cbn. rewrite objects_empty. apply telegrafs_start.
  - intros _. unfold known. cbn. rewrite objects_empty. split; [|intros n s; by rewrite lookup_empty].
    intros n. rewrite Hempty, !lookup_empty. constructor.
  - intros _ Hex. by inversion Hex.
Qed.

Lemma ms_run_ok resync t1 t2 n1 n2 b r1 r2 st d :
  both_begin resync t1 t2 n1 n2 b r1 r2 -> cluster_inv st -> clusterSinks (mc_sc st) = ∅ ->
  rtc ms_step (ms_start r1 r2 st) d -> duo_reaches MetricSink ClusterMetricSink r1 r2 d /\ ms_ok st d.
Proof.
  intros Hb Hinv Hempty. apply (duo_run_ind mh ch (ms_ok st)).
  - by apply ms_start_ok.
  - intros d1 d2 _ H2 Hok Hs. by eapply ms_step_ok.
Qed.

End System.
