(* ===== verification/MetricMain.v ===== *)
(** * The start of the metric controller ([cmd/metric-controller/main.go])

    [main] ends with an informer of the cluster metric sinks and one of the
    metric sinks; their handlers are the two controllers of
    [MetricController]. *)

From stdpp Require Import base gmap strings list.
From Stdlib Require Import Ascii ZArith Lia.
From S2P Require Import Prelude Utf8 GoStd GoJson Types SinkController MetricConfig KubeApi MetricController MetricSystem Cache Listers InformerFactory RestRequest RestConfig TypedClients Clientset EnvStruct Startup.

Definition config_fields : list field :=
  [MkField "Namespace" "NAMESPACE,required,report" (VString EmptyString);
   MkField "UseInsecureKubernetesPort" "USE_INSECURE_KUBERNETES_PORT,report" (VBool false)].

(** The API the core client and the clients [AppsV1] and [RbacV1] of client-go's
    clientset give. *)
Class MetricPlatform (W : Type) `{P : Platform W} := {
  kube_objects : CoreV1Client -> KubeClient -> KubeAPI W;
}.

Inductive controller : Type := MetricSinkController | ClusterMetricSinkController.

(** What is left when [main] runs its informers.  The two controllers share
    the world and the log. *)
Record program (W : Type) `{M : MetricPlatform W} : Type := MkProgram {
  pr_client : Clientset;
  pr_core : CoreV1Client;
  pr_kube : KubeClient;
  pr_namespace : string;
  pr_cluster : cluster_state W;
  pr_metric : kstate W;
  pr_clusterName : string;
  pr_factory : fstate ListOptions;
  pr_handlers : list (nat * controller);
  pr_running : list nat;
}.
Arguments MkProgram {W P M}.
Arguments pr_client {W P M}.
Arguments pr_core {W P M}.
Arguments pr_kube {W P M}.
Arguments pr_namespace {W P M}.
Arguments pr_cluster {W P M}.
Arguments pr_metric {W P M}.
Arguments pr_clusterName {W P M}.
Arguments pr_factory {W P M}.
Arguments pr_handlers {W P M}.
Arguments pr_running {W P M}.

Section Main.
Context {W : Type} `{M : MetricPlatform W} `{L : ClientLibrary} `{R : MapRange} `{S : SliceSort}.

Definition start_informers (client : Clientset) (core : CoreV1Client) (kube : KubeClient)
    (ns clusterName : string) (insecure : bool) : boot W (program W) := fun p =>
  let '(h, metricSinkConfig) := NewConfig ∅ clusterName [KubernetesDefault insecure] in
  let f := new_state (NewSharedInformerFactory resync) in
  let '(cmsInformer, f) := clusterMetricSinkInformer_Informer (V1alpha1 (Observability f)) f in
  let handlers := [(cmsInformer, ClusterMetricSinkController)] in
  let '(msInformer, f) := metricSinkInformer_Informer (V1alpha1 (Observability f)) f in
  let handlers := handlers ++ [(msInformer, MetricSinkController)] in
  (p, Ok {| pr_client := client; pr_core := core; pr_kube := kube; pr_namespace := ns;
            pr_cluster := MkClusterState h metricSinkConfig (p_world p) (p_logs p);
            pr_metric := MkKstate (p_world p) (p_logs p); pr_clusterName := clusterName; pr_factory := f;
            pr_handlers := handlers; pr_running := [msInformer; cmsInformer] |}).

(** [metric.NewController]: beside the clients it keeps the cluster's name. *)
Definition NewController (clusterName : string) : boot W string :=
  _ ← log_line (Sprintf "Using telegraf:%s for metric sink deployments" [FStr TelegrafImageVersion]);
  mret clusterName.

Definition main : boot W (program W) :=
  conf ← load_settings config_fields;
  _ ← write_report conf;
  cfg ← InClusterConfig;
  client ← versioned_client cfg;
  coreV1Client ← core_client cfg;
  k8sClient ← kubernetes_client cfg;
  nodes ← list_nodes coreV1Client;
  clusterName ← cluster_name nodes;
  msController ← NewController clusterName;
  start_informers client coreV1Client k8sClient (text_field "Namespace" conf) msController
    (flag_field "UseInsecureKubernetesPort" conf).

(** The controllers' handlers, with the clients they were made with. *)
Context `{G : SliceGrow} (Encode : telegrafConfig -> res string string).

Definition run_cluster (pr : program W) (evs : list event) : cluster_state W :=
  @handle_cluster_all W (core_namespace (pr_core pr) (pr_namespace pr)) G Encode evs (pr_cluster pr).

Definition run_metric (pr : program W) (evs : list event) : kstate W :=
  @handle_metrics W (kube_objects (pr_core pr) (pr_kube pr)) R G Encode (pr_clusterName pr) evs (pr_metric pr).

End Main.

(** What an informer reports. *)
Definition dispatch {W} `{M : MetricPlatform W} (pr : program W) (r : nat * event) : list (controller * event) :=
  if decide (r.1 ∈ pr_running pr)
  then map (fun h => (h.2, r.2)) (List.filter (fun h => Nat.eqb h.1 r.1) (pr_handlers pr)) else [].

(** ** Lemmas *)

Lemma metric_config_loaded (env : string -> string) fs :
  Forall2 (loaded env) config_fields fs ->
  text_field "Namespace" fs = env "NAMESPACE" /\ env "NAMESPACE" <> EmptyString
  /\ flag_field "UseInsecureKubernetesPort" fs
     = (String.eqb (env "USE_INSECURE_KUBERNETES_PORT") "true" || String.eqb (env "USE_INSECURE_KUBERNETES_PORT") "1").
Proof.
  intros Hf. inversion Hf as [|f f' ? l (Hn & _ & Hv) Hl]; subst. inversion Hl as [|g g' ? l' (Hn' & _ & Hv') Hl']; subst.
  inversion Hl'; subst. change (env_var _) with "NAMESPACE" in Hv.
  change (env_var _) with "USE_INSECURE_KUBERNETES_PORT" in Hv'. cbn [field_name value] in Hn, Hv, Hn', Hv'.
  unfold text_field, flag_field. cbn. destruct f' as [n1 t1 v1], g' as [n2 t2 v2]. cbn in *. subst n1 n2. cbn.
  destruct (String.eqb_spec (env "NAMESPACE") EmptyString) as [E|Hne]; [by destruct Hv|]. rewrite Hv.
  split; [done|]. split; [done|].
  destruct (String.eqb_spec (env "USE_INSECURE_KUBERNETES_PORT") EmptyString) as [->|]; [by destruct Hv' as [_ ->]|by rewrite Hv'].
Qed.

Section MainLemmas.
Context {W : Type} `{M : MetricPlatform W} `{L : ClientLibrary} `{R : MapRange} `{S : SliceSort}.

Lemma metric_start_informers_ok client core kube ns clusterName insecure p p' (pr : program W) :
  start_informers client core kube ns clusterName insecure p = (p', Ok pr) ->
  p' = p /\ pr_client pr = client /\ pr_namespace pr = ns /\ pr_clusterName pr = clusterName
  /\ (mc_heap (pr_cluster pr), mc_sc (pr_cluster pr)) = NewConfig ∅ clusterName [KubernetesDefault insecure]
  /\ mc_world (pr_cluster pr) = p_world p /\ mc_logs (pr_cluster pr) = p_logs p
  /\ pr_metric pr = MkKstate (p_world p) (p_logs p)
  /\ pr_handlers pr = [(0, ClusterMetricSinkController); (1, MetricSinkController)] /\ pr_running pr = [1; 0]
  /\ exists i j, heap (pr_factory pr) = [i; j]
       /\ watches "clustermetricsinks" ClusterMetricSink_type i /\ watches "metricsinks" MetricSink_type j.
Proof.
  unfold start_informers. destruct (NewConfig _ _ _) as [h c] eqn:Ec. set (q := clusterMetricSinkInformer_Informer _ _).
  destruct (first_informer ClusterMetricSink_type (fun r => NewFilteredClusterMetricSinkInformer EmptyString r true None) resync q eq_refl)
    as (Eq & Hh & Hi & Hc & Hd & Hn & Ht).
  rewrite Eq. clearbody q. destruct q as [q1 f]. cbn [snd] in *. clear Eq q1.
  unfold metricSinkInformer_Informer, InformerFor. rewrite Hi, Hc, Hd, Hh.
  rewrite lookup_singleton_ne by done. rewrite lookup_empty. intros [= <- <-]. cbn.
  split_and!; try done. eexists _, _. split_and!; [reflexivity| |]; split; cbn; rewrite ?Hn, ?Ht; done.
Qed.

End MainLemmas.

(** The start of the metric controller: a [main] that ends in an error, and one
    that gets through, have changed no config map; the informers are of all
    cluster metric sinks and of all metric sinks, each with the controller of
    its kind; and the configuration has no sinks and the kubernetes input the
    flag asks for, so that [cluster_metrics_refine_api] and
    [metric_sinks_refine_api] are about what the program does from there. *)
Lemma metric_controller_starts {W} `{M : MetricPlatform W} `{!PlatformLaws W} `{ClientLibrary} `{R : MapRange} `{S : SliceSort}
    p p' r :
  main p = (p', r) ->
  same_maps (p_world p) (p_world p')
  /\ match r with
     | Err _ => True
     | Ok pr =>
         (forall i n, dispatch pr (i, n) = match i with
                                           | 0 => [(ClusterMetricSinkController, n)]
                                           | 1 => [(MetricSinkController, n)]
                                           | _ => []
                                           end)
         /\ (exists i j, heap (pr_factory pr) = [i; j]
               /\ watches "clustermetricsinks" ClusterMetricSink_type i /\ watches "metricsinks" MetricSink_type j)
         /\ pr_namespace pr = Getenv "NAMESPACE"
         /\ mc_world (pr_cluster pr) = p_world p' /\ pr_metric pr = MkKstate (p_world p') (mc_logs (pr_cluster pr))
         /\ cluster_inv (pr_cluster pr) /\ clusterSinks (mc_sc (pr_cluster pr)) = ∅
         /\ MetricConfig.clusterName (mc_sc (pr_cluster pr)) = pr_clusterName pr
         /\ read (mc_heap (pr_cluster pr)) <$> defaultInputs (mc_sc (pr_cluster pr))
            = {["kubernetes" :=
                  [if String.eqb (Getenv "USE_INSECURE_KUBERNETES_PORT") "true"
                      || String.eqb (Getenv "USE_INSECURE_KUBERNETES_PORT") "1"
                   then insecure_row else secure_row]]}
     end.
Proof.
  intros Hmain. split.
  - replace p' with (main p).1 by (by rewrite Hmain). generalize p. clear.
    change (calm (main (W := W))). unfold main.
    apply calm_bind; [done|]. intros fs. apply calm_bind; [apply write_report_calm|]. intros _.
    apply calm_bind; [apply InClusterConfig_calm|]. intros cfg. apply calm_bind; [apply on_limiters_calm|]. intros cl.
    apply calm_bind; [apply on_limiters_calm|]. intros c. apply calm_bind; [apply on_limiters_calm|]. intros k.
    apply calm_bind; [apply list_nodes_calm|]. intros nodes. apply calm_bind; [apply cluster_name_calm|]. intros name.
    apply calm_bind; [done|]. intros c' p.
    unfold start_informers. by repeat case_match.
  - destruct r as [pr|]; [|done]. revert Hmain. unfold main.
    intros (p1 & fs & [_ Hfs]%load_settings_ok & Hb)%bind_ok. do 8 apply bind_ok in Hb as (? & ? & _ & Hb).
    destruct (metric_config_loaded _ _ Hfs) as (Ens & _ & Eflag). rewrite Ens, Eflag in Hb.
    apply metric_start_informers_ok in Hb as (-> & _ & En & Ecn & Ec & Ew & Elg & Em & Eh & Er & Hinf).
    split; [intros i n; unfold dispatch; rewrite Eh, Er; by destruct i as [|[|i]]|].
    split; [exact Hinf|]. split; [done|]. split; [done|]. split; [by rewrite Em, Elg|].
    pose proof (NewConfig_defaults ∅ (pr_clusterName pr)
      [String.eqb (Getenv "USE_INSECURE_KUBERNETES_PORT") "true"
       || String.eqb (Getenv "USE_INSECURE_KUBERNETES_PORT") "1"]) as Hd.
    cbn [map] in Hd. rewrite Ecn in Hd. rewrite <- Ec in Hd.
    destruct Hd as (Hf & Hn & Hs & Hr & _). rewrite Ecn. by split_and!.
Qed.
