(* ===== verification/MetricEndToEnd.v ===== *)
(** * From the API server to telegraf

    What [MetricInformers] is for: the metric controller, from its start on,
    with its informers and handlers at work, against any API server. *)

From stdpp Require Import base gmap strings list relations.
From Stdlib Require Import Ascii Lia ZArith.
From S2P Require Import Prelude Utf8 GoStd GoJson GoPath GoUrl Types SinkController MetricConfig KubeApi MetricController MetricSystem Cache DeltaFifo SharedInformer Listers InformerFactory RestRequest RestConfig TypedClients Clientset Reflector InformerSystem InformerKinds InformerSide EnvStruct Startup MetricInformers MetricMain.

(** ** Telegraf at rest *)

Lemma app_key_elsewhere ns i k : app_key i k <> telegraf_key ns.
Proof. unfold app_key, telegraf_key, TelegrafConfigMapName. intros E. apply (f_equal snd) in E. discriminate E. Qed.

Section Rest.
Context {W : Type} {ns : string} `{MW : MetricWorld W ns} `{R : MapRange} `{G : SliceGrow}.
Context (Encode : telegrafConfig -> res string string) (clusterName : string).

(** What the API server has told the informers of each kind. *)
Definition told_metrics (d : duo plan cluster_phase (cluster_state W)) : metric_api := objects_of (sd_told (duo_left d)).

Definition told_clusters (d : duo plan cluster_phase (cluster_state W)) : gmap string ClusterMetricSink :=
  objects_of (sd_told (duo_right d)).

(** The calls that have changed the cluster's configuration. *)
Definition cluster_changed (d : duo plan cluster_phase (cluster_state W)) : Prop :=
  Exists (fun n => is_Some (cluster_change (event_of n))) (sd_reported (duo_right d)).

Lemma telegraf_at_rest resync t1 t2 n1 n2 b r1 r2 (st : cluster_state W) d :
  both_begin resync t1 t2 n1 n2 b r1 r2 -> cluster_inv st -> clusterSinks (mc_sc st) = ∅ ->
  rtc (ms_step Encode clusterName) (ms_start r1 r2 st) d -> ms_rest d -> lists_clean d = true -> none_missed d = true ->
  mc_logs (duo_state d) = mc_logs st ->
  let objs := objects (mc_world (duo_state d)) in
  (forall i s, told_metrics d !! i = Some s -> metric_id s = i /\ deployed Encode clusterName objs s)
  /\ (forall key, key <> telegraf_key ns -> (forall i s k, told_metrics d !! i = Some s -> key <> app_key i k) ->
      objs !! key = objects (mc_world st) !! key)
  /\ (forall n, option_Forall2 cluster_kept (clusterSinks (mc_sc (duo_state d)) !! n) (told_clusters d !! n))
  /\ defaultInputs (mc_sc (duo_state d)) = defaultInputs (mc_sc st)
  /\ (cluster_changed d ->
      exists R, telegraf_conf (mc_world (duo_state d)) = Some (to_valid (cluster_text Encode R (duo_state d)))).
Proof.
  intros Hb Hinv Hempty Hrun Hrest Hclean Hmiss Hlog. cbn zeta.
  destruct (ms_run_ok _ _ _ _ _ _ _ _ _ _ _ _ Hb Hinv Hempty Hrun) as [Hr Hok].
  destruct (duo_rest_known (Φ1 := plan) [] NoHandler _ _ _ _ _ _ _ _ _ Hb Hr Hrest Hclean) as (_ & _ & Hknow).
  destruct (Hknow Hmiss) as [E1 E2]. apply andb_true_iff in Hmiss as [M1 M2].
  destruct Hrest as [[P1 _] [P2 _]].
  pose proof (mo_metric _ _ _ _ Hok M1 Hlog) as Hm. rewrite E1, P1 in Hm. apply progress_done in Hm as [Hid Hs _ Hf].
  pose proof (mo_mirror _ _ _ _ Hok M2) as [Hc _]. rewrite E2 in Hc.
  pose proof (mo_text _ _ _ _ Hok Hlog) as Ht. rewrite P2 in Ht.
  split_and!; [| |exact Hc|exact (proj1 (mo_rest _ _ _ _ Hok))|exact Ht].
  - intros i s Hi. split; [by apply Hid|]. eapply deployed_frame; [|by eapply Hs].
    intros k. unfold sink_side. rewrite lookup_delete_ne; [done|]. intros E. by eapply app_key_elsewhere.
  - intros key Hne Hkey. specialize (Hf key Hkey). unfold sink_side in Hf. by rewrite !lookup_delete_ne in Hf.
Qed.

End Rest.

(** ** The platform of both controllers *)

(** What the platform's documentation says of objects and requests. *)
Class MetricPlatformLaws (W : Type) `{M : MetricPlatform W} `{L : !PlatformLaws W} := {
  platform_objects : forall c k, @KubeStore W (kube_objects c k);
  platform_world : forall c k ns,
    @MetricWorld W (kube_objects c k) (platform_objects c k) (core_namespace c ns) (namespace_server c ns) ns;
}.

Lemma watches_begins `{R : MapRange} res rt i t n r :
  watches res rt i -> begins (resyncPeriod i) t n (namespace_index i) r -> begins resync t n true r.
Proof. intros Hi. by rewrite (wa_resync _ _ _ Hi), (wa_index _ _ _ Hi). Qed.

(** ** Properties *)

(** End to end, from the start of the program.  After a [main] that gets
    through, the two informers of its factory run, list and watch, and the
    requests of their handlers interleave in any way.  From every state the
    program can come to rest without hearing from the API server.  At rest, once
    the last lists were clean, no deletion was missed and nothing was logged:
    the metric sinks that the server has told of have telegraf's four objects,
    with the configuration of their specs; no other object has changed since the
    start, but the config map of the cluster's own telegraf; the cluster's
    configuration has exactly the cluster metric sinks that the server has told
    of; and that config map has its text, in some order of the sinks, once a
    report has changed it. *)
Lemma telegraf_after_start {W} `{MetricPlatformLaws W} `{ClientLibrary} `{R : MapRange} `{S : SliceSort} `{G : SliceGrow}
    Encode p p' (pr : program W) :
  main p = (p', Ok pr) ->
  exists i j, heap (pr_factory pr) = [i; j] /\ objectType i = ClusterMetricSink_type /\ objectType j = MetricSink_type
    /\ pr_metric pr = kstate_of (pr_cluster pr) /\ pr_namespace pr = Getenv "NAMESPACE"
    /\ forall t1 t2 n1 n2 r1 r2 d,
      begins (resyncPeriod j) t1 n1 (namespace_index j) r1 -> begins (resyncPeriod i) t2 n2 (namespace_index i) r2 ->
      let KA := kube_objects (pr_core pr) (pr_kube pr) in
      let KW := core_namespace (pr_core pr) (pr_namespace pr) in
      let KS := platform_objects (pr_core pr) (pr_kube pr) in
      let PS := namespace_server (pr_core pr) (pr_namespace pr) in
      let step := @ms_step W KA KW R G Encode (pr_clusterName pr) in
      rtc step (ms_start r1 r2 (pr_cluster pr)) d ->
      (exists d', rtc step d d' /\ ms_rest d' /\ told_metrics d' = told_metrics d /\ told_clusters d' = told_clusters d
        /\ lists_clean d' = lists_clean d)
      /\ (ms_rest d -> lists_clean d = true -> none_missed d = true -> mc_logs (duo_state d) = mc_logs (pr_cluster pr) ->
          let objs := @objects W KA KS (mc_world (duo_state d)) in
          (forall i s, told_metrics d !! i = Some s ->
             metric_id s = i /\ deployed Encode (pr_clusterName pr) objs s)
          /\ (forall key, key <> telegraf_key (pr_namespace pr) ->
              (forall i s k, told_metrics d !! i = Some s -> key <> app_key i k) ->
              objs !! key = @objects W KA KS (mc_world (pr_cluster pr)) !! key)
          /\ (forall n, option_Forall2 cluster_kept (clusterSinks (mc_sc (duo_state d)) !! n) (told_clusters d !! n))
          /\ (cluster_changed d -> exists R, @telegraf_conf W KW PS (mc_world (duo_state d))
              = Some (to_valid (cluster_text Encode R (duo_state d))))).
Proof.
  intros Hmain.
  destruct (metric_controller_starts _ _ _ Hmain) as (_ & _ & (i & j & Hheap & Hi & Hj) & Hns & Hw & Hk & Hinv & Hempty & _).
  exists i, j. split_and!; [done|apply Hi|apply Hj|rewrite Hk; unfold kstate_of; by rewrite Hw|done|].
  intros t1 t2 n1 n2 r1 r2 d B1%(watches_begins _ _ _ _ _ _ Hj) B2%(watches_begins _ _ _ _ _ _ Hi) KA KW KS PS step Hrun.
  pose proof (platform_world (pr_core pr) (pr_kube pr) (pr_namespace pr)) as MW.
  assert (both_begin resync t1 t2 n1 n2 true r1 r2) as Hb by by split.
  split.
  - destruct (@ms_run_ok W _ _ _ _ _ MW R G Encode (pr_clusterName pr) _ _ _ _ _ _ _ _ _ _ Hb Hinv Hempty Hrun) as [Hr _].
    destruct (duo_settles (@metric_handler W KA R G Encode (pr_clusterName pr)) (@cluster_handler W KW G Encode)
      (metric_handler_ok _ _) (cluster_handler_ok _) (any_answer MetricSink) (any_answer ClusterMetricSink)
      _ _ _ _ _ _ _ _ false _ (fun _ => I) (fun _ => I) Hb Hr) as (d' & Hrun' & Hrest & E1 & E2 & Hc).
    exists d'. unfold told_metrics, told_clusters. rewrite E1, E2. by split_and!.
  - intros Hrest Hclean Hmiss Hlog.
    destruct (@telegraf_at_rest W _ _ _ _ _ MW R G Encode (pr_clusterName pr) _ _ _ _ _ _ _ _ _ _ Hb Hinv Hempty Hrun
      Hrest Hclean Hmiss Hlog) as (H1 & H2 & H3 & _ & H5). by split_and!.
Qed.

(** ** A platform that stores the objects *)

Definition store_patch (ns name ptype data : string) (w : store) : store * option string :=
  if negb (String.eqb ptype JSONPatchType) then (w, Some "unsupported patch type")
  else match w !! (ConfigMapKind, ns, name), unmarshal_patches data with
       | Some (AConfigMap c), Some [MkPatch op path v] =>
           let k := str_drop 6 path in
           if String.eqb op "replace" && HasPrefix path "/data/" && str_forall pointer_char k
              && bool_decide (is_Some (Data c !! k))
           then (<[(ConfigMapKind, ns, name) := AConfigMap {| cm_ObjectMeta := cm_ObjectMeta c; Data := <[k := v]> (Data c) |}]> w,
                 None)
           else (w, Some "invalid patch")
       | _, _ => (w, Some "invalid patch")
       end.

Definition store_world (ns : string) : KubeWorld store :=
  {| draw_order := fun w => (w, map_order); Patch := store_patch ns; DeleteCollection := fun _ w => (w, None) |}.

Definition store_map (ns : string) (w : store) (name : string) : option (gmap string string) :=
  match w !! (ConfigMapKind, ns, name) with Some (AConfigMap c) => Some (Data c) | _ => None end.

Lemma store_patch_elsewhere ns name ptype data w key :
  key <> (ConfigMapKind, ns, name) -> (store_patch ns name ptype data w).1 !! key = w !! key.
Proof.
  intros Hne. unfold store_patch, store in *. repeat case_match; try done. cbn [fst]. by rewrite lookup_insert_ne.
Qed.

(** A patch that succeeds has replaced its key. *)
Lemma store_patch_replaces ns name data k v w w' :
  store_patch ns name JSONPatchType data w = (w', None) ->
  unmarshal_patches data = Some [MkPatch "replace" ("/data/" +:+ k) v] ->
  exists m, store_map ns w name = Some m /\ is_Some (m !! k) /\ store_map ns w' name = Some (<[k := v]> m).
Proof.
  intros HP Hd. unfold store_patch in HP. rewrite Hd in HP. cbn [negb String.eqb] in HP.
  unfold store_map, store in *. destruct (w !! (ConfigMapKind, ns, name)) as [[| |c|]|] eqn:Ec; try done.
  change (str_drop 6 ("/data/" +:+ k)) with k in HP. exists (Data c).
  destruct (_ && bool_decide _) eqn:Hb in HP; [|done]. apply andb_true_iff in Hb as [_ Hb].
  apply bool_decide_eq_true_1 in Hb. injection HP as <-. by rewrite lookup_insert_eq.
Qed.

Lemma store_patch_fails ns name ptype data e w w' : store_patch ns name ptype data w = (w', Some e) -> w' = w.
Proof. unfold store_patch. intros HP. repeat case_match; by simplify_eq. Qed.

#[refine] Definition store_server (ns : string) : @PatchServer store (store_world ns) :=
  {| config_map := store_map ns |}.
Proof.
  - intros w w' name data k v HP Hd _. exact (store_patch_replaces ns name data k v w w' HP Hd).
  - intros w w' name ptype data e HP n. by rewrite (store_patch_fails _ _ _ _ _ _ _ HP).
  - done.
  - done.
Defined.

(** A request changes the object it is about. *)
Lemma store_request_elsewhere r (w : store) key :
  request_key r <> Some key -> ((do_request r w).1 : store) !! key = w !! key.
Proof.
  intros Hkey. assert (forall k, request_key r = Some k -> k <> key) as Hne by congruence. clear Hkey.
  destruct r as [ns o|ns o|k ns name|ns sel]; cbn [do_request store_api request_key] in *; unfold store in *;
    try specialize (Hne _ eq_refl); repeat case_match; cbn [fst]; by rewrite ?lookup_insert_ne, ?lookup_delete_ne.
Qed.

Definition store_metric_world (ns : string) :
  @MetricWorld store store_api store_laws (store_world ns) (store_server ns) ns.
Proof.
  split.
  - intros ptype data w key Hne. by apply store_patch_elsewhere.
  - done.
  - done.
  - intros r w Hr. cbn [config_map store_server]. unfold store_map. by rewrite store_request_elsewhere.
Qed.

#[export] Instance store_platform : Platform store :=
  {| Getenv := fun v => if String.eqb v "NAMESPACE" then "knative-observability"
                        else if String.eqb v "KUBERNETES_SERVICE_HOST" then "10.0.0.1"
                        else if String.eqb v "KUBERNETES_SERVICE_PORT" then "443" else EmptyString;
     WriteReport := fun _ w => (w, None); ReadToken := fun _ => None; ReadRootCA := fun _ => None;
     CoreV1Client := unit; coreV1_NewForConfig := fun _ ls => (Ok tt, ls);
     KubeClient := unit; kubernetes_NewForConfig := fun _ ls => (Ok tt, ls);
     Nodes_List := fun _ w => (w, Ok [{[NodeLabel := "prod"]}]);
     core_namespace := fun _ ns => store_world ns |}.

#[export, refine] Instance store_platform_laws : PlatformLaws store := {| namespace_server := fun _ ns => store_server ns |}.
Proof. all: done. Defined.

#[export] Instance store_metric_platform : MetricPlatform store := {| kube_objects := fun _ _ => store_api |}.

#[export] Instance store_metric_platform_laws : MetricPlatformLaws store :=
  {| platform_objects := fun _ _ => store_laws; platform_world := fun _ _ ns => store_metric_world ns |}.

(** ** A run of the program *)

Definition metric_library : ClientLibrary :=
  {| TransportFor := fun _ => Ok (Some 0); createSerializers := fun _ _ => None;
     DefaultKubernetesUserAgent := "metric-controller" |}.

(** The cluster's telegraf before the start. *)
Definition telegraf_store : store :=
  {[telegraf_key "knative-observability" :=
      AConfigMap {| cm_ObjectMeta := ms_ObjectMeta metric_v1; Data := {["cluster-metric-sinks.conf" := EmptyString]} |}]}.

Definition metric_start : proc store * res start_error (program store) :=
  @main store _ _ metric_library map_order insertion_slice_sort {| p_world := telegraf_store; p_logs := []; p_limiters := [] |}.

Definition on_metric (a : action) : duo_label := OnLeft (DoInformer a).
Definition on_cluster (a : action) : duo_label := OnRight (DoInformer a).

(** Both informers list and watch; the requests of the handlers interleave,
    and the metric sink changes between them. *)
Definition metric_schedule : list duo_label :=
  [on_metric (DoList (Ok ([AMetricSink metric_v1], "1"))); on_cluster (DoList (Ok ([AClusterMetricSink discard_sink], "1")));
   on_metric (DoWatch None); on_cluster (DoWatch None); on_metric DoProcess; on_cluster DoProcess;
   OnLeft (DoReport 0); OnLeft DoHandle; OnRight (DoReport 0); OnLeft DoHandle; OnRight DoHandle; OnLeft DoHandle;
   on_metric (DoEvent (MkEvent WatchModified (AMetricSink metric_v2))); on_metric DoProcess; OnLeft DoHandle; OnRight DoHandle;
   OnLeft (DoReport 0); OnLeft DoHandle; OnLeft DoHandle].

Definition metric_exec (pr : program store) : option (duo plan cluster_phase (cluster_state store)) :=
  @duo_exec map_order _ _ MetricSink ClusterMetricSink _ _ _ _ _
    (@metric_handler store store_api map_order double show_types (pr_clusterName pr))
    (@cluster_handler store (store_world (pr_namespace pr)) double show_types) false metric_schedule
    (ms_start sample_informer sample_informer (pr_cluster pr)).

Definition metric_end : option (program store * duo plan cluster_phase (cluster_state store)) :=
  match metric_start with
  | (_, Ok pr) => option_map (pair pr) (metric_exec pr)
  | (_, Err _) => None
  end.
Definition quiet_end (pr : program store) (d : duo plan cluster_phase (cluster_state store)) : bool :=
  rest_b (fun p : plan => match p with [] => true | _ => false end) (duo_left d)
  && rest_b (fun ph => match ph with NoHandler => true | _ => false end) (duo_right d)
  && lists_clean d && none_missed d
  && bool_decide (mc_logs (duo_state d) = mc_logs (pr_cluster pr))
  && existsb (fun n => match cluster_change (event_of n) with Some _ => true | None => false end) (sd_reported (duo_right d))
  && match told_metrics d !! ("ns1", "web") with Some s => MetricSinkSpec_DeepEqual (ms_Spec s) (ms_Spec metric_v2) | None => false end.

Example metric_ends : match metric_end with Some (pr, d) => quiet_end pr d | None => false end = true.
Proof. vm_compute. reflexivity. Qed.

Lemma metric_labels_ok : Forall (duo_label_ok MetricSink ClusterMetricSink) metric_schedule.
Proof.
  repeat constructor; try by intros.
  - by eexists.
  - by eexists.
  - intros _. by eexists.
Qed.

Lemma metric_both_begin : @both_begin map_order sample_resync 0 0 0 0 true sample_informer sample_informer.
Proof. split; apply sample_begins. Qed.

(** The run ends at rest, with clean lists, no deletion missed, no failed call,
    a changed configuration and a metric sink. *)
Lemma metric_run_ends :
  exists p' pr d s, metric_start = (p', Ok pr)
    /\ rtc (@ms_step store store_api (store_world (pr_namespace pr)) map_order double show_types (pr_clusterName pr))
         (ms_start sample_informer sample_informer (pr_cluster pr)) d
    /\ ms_rest d /\ lists_clean d = true /\ none_missed d = true /\ mc_logs (duo_state d) = mc_logs (pr_cluster pr)
    /\ cluster_changed d /\ told_metrics d !! ("ns1", "web") = Some s.
Proof.
  pose proof metric_ends as Hend. unfold metric_end in Hend.
  destruct metric_start as [p' [pr|e]] eqn:Emain; [|discriminate Hend].
  destruct (metric_exec pr) as [d|] eqn:Ed; [|discriminate Hend].
  cbn [option_map] in Hend. unfold quiet_end in Hend. rewrite !andb_true_iff in Hend.
  destruct Hend as [[[[[[R1 R2] C] M] L%bool_decide_eq_true] X] T].
  destruct (told_metrics d !! ("ns1", "web")) as [s|] eqn:Es; [|discriminate T].
  exists p', pr, d, s.
  assert (rtc (@ms_step store store_api (store_world (pr_namespace pr)) map_order double show_types (pr_clusterName pr))
    (ms_start sample_informer sample_informer (pr_cluster pr)) d) as Hrun.
  { refine (duo_exec_run _ _ (metric_handler_ok _ _) (cluster_handler_ok _) false _ _ _ metric_labels_ok Ed). }
  split_and!; [done|exact Hrun| |done|done|done| |done].
  - refine (duo_rest_b (T1 := MetricSink) (T2 := ClusterMetricSink) _ _ (@metric_handler_ok store store_api map_order double show_types (pr_clusterName pr))
      (@cluster_handler_ok store (store_world (pr_namespace pr)) double show_types)
      _ _ _ _ _ _ _ _ d metric_both_begin _ _); [|exact (andb_true_intro (conj R1 R2))].
    eapply duo_run_reaches; [|exact Hrun]. apply duo_start_reaches.
  - apply existsb_exists in X as (n & Hn & Hc). apply Exists_exists. exists n. split; [by apply list_elem_of_In|].
    by destruct (cluster_change (event_of n)).
Qed.

Lemma telegraf_after_start_witness :
  exists (pr : program store) (d : duo plan cluster_phase (cluster_state store)) s,
    @deployed map_order double show_types (pr_clusterName pr) (mc_world (duo_state d)) s
    /\ exists R, @telegraf_conf store (store_world (pr_namespace pr)) (store_server (pr_namespace pr)) (mc_world (duo_state d))
       = Some (to_valid (@cluster_text store double show_types R (duo_state d))).
Proof.
  destruct metric_run_ends as (p' & pr & d & s & Hmain & Hrun & Hrest & Hclean & Hmiss & Hlog & Hch & Hs).
  destruct (@telegraf_after_start store _ _ _ _ metric_library map_order insertion_slice_sort double show_types _ _ _ Hmain)
    as (i & j & Hheap & _ & _ & _ & _ & Hend).
  exists pr, d, s.
  destruct (@metric_controller_starts store _ _ _ metric_library map_order insertion_slice_sort _ _ _ Hmain)
    as (_ & _ & (i' & j' & Hheap' & Hi & Hj) & _).
  rewrite Hheap in Hheap'. injection Hheap' as <- <-.
  destruct (Hend 0%Z 0%Z 0%Z 0%Z sample_informer sample_informer d) as [_ Hat]; [| |exact Hrun|].
  - rewrite (wa_resync _ _ _ Hj), (wa_index _ _ _ Hj). exact sample_begins.
  - rewrite (wa_resync _ _ _ Hi), (wa_index _ _ _ Hi). exact sample_begins.
  - destruct (Hat Hrest Hclean Hmiss Hlog) as (H1 & _ & _ & H4). split; [exact (proj2 (H1 _ _ Hs))|exact (H4 Hch)].
Defined.
