(* ===== verification/MetricCluster.v ===== *)
(** * The metric controller and the API server

    [MetricEndToEnd] with a server whose objects have a history ([ApiServer]):
    telegraf's objects and configuration are those of the metric sinks that
    exist. *)

From stdpp Require Import base gmap strings list relations pretty.
From Stdlib Require Import Ascii Lia ZArith.
From S2P Require Import Prelude Utf8 GoStd GoJson GoPath GoUrl Types SinkController MetricConfig KubeApi MetricController MetricSystem Cache DeltaFifo SharedInformer Listers InformerFactory RestRequest RestConfig TypedClients Clientset Reflector InformerSystem InformerKinds InformerSide ApiServer EnvStruct Startup InformerRequests MetricInformers MetricMain MetricEndToEnd.

(** The metric sinks that exist after a history. *)
Definition server_metrics (l : history) : metric_api := objects_of (current MetricSink_type l).
Definition server_clusters (l : history) : gmap string ClusterMetricSink := objects_of (current ClusterMetricSink_type l).

Section Cluster.
Context {W : Type} `{KA : KubeAPI W} `{KW : KubeWorld W} `{R : MapRange} `{G : SliceGrow} `{V : Revisions}.
Context (Encode : telegrafConfig -> res string string) (clusterName : string).

Definition metric_cluster_step (Q : obj -> Prop)
    : cluster (duo plan cluster_phase (cluster_state W)) -> cluster (duo plan cluster_phase (cluster_state W)) -> Prop :=
  duo_cluster_step MetricSink ClusterMetricSink (metric_handler Encode clusterName) (cluster_handler Encode) Q false.

End Cluster.

(** ** Properties *)

(** The informers of the program are such as [informers_ask_server] is about. *)
Lemma metric_informers_served {W} `{M : MetricPlatform W} `{L : ClientLibrary} `{R : MapRange} `{S : SliceSort}
    p p' (pr : program W) :
  main p = (p', Ok pr) ->
  str_forall server_char (Getenv "KUBERNETES_SERVICE_HOST") = true ->
  str_forall server_char (Getenv "KUBERNETES_SERVICE_PORT") = true ->
  at_root (group_client (pr_client pr)) /\ exists i j, heap (pr_factory pr) = [i; j]
    /\ watches (served_name ClusterMetricSink) (served_type ClusterMetricSink) i
    /\ watches (served_name MetricSink) (served_type MetricSink) j.
Proof.
  intros Hmain Hh Hp. revert Hmain. unfold main.
  intros (p1 & fs & _ & H)%bind_ok. apply bind_ok in H as (p2 & ? & _ & H).
  apply bind_ok in H as (p3 & cfg & [-> [ca ->]]%InClusterConfig_ok & H).
  apply bind_ok in H as (p4 & client & (_ & _ & Hc)%versioned_client_ok & H).
  do 5 apply bind_ok in H as (? & ? & _ & H).
  apply metric_start_informers_ok in H as (_ & -> & _ & _ & _ & _ & _ & _ & _ & _ & Hinf).
  split; [|exact Hinf]. apply clientset_throttles in Hc as [Hroot _]. exact (Hroot (cluster_config_bare _ _ _ Hh Hp)).
Qed.

(** The objects of the sinks that exist are there, and those of an identity
    that had none at the start only if its sink exists. *)
Lemma deployed_exactly `{R : MapRange} `{G : SliceGrow} (Encode : telegrafConfig -> res string string)
    (clusterName ns : string) (a : metric_api)
    (objs0 objs : gmap obj_key kobj) :
  (forall i s, a !! i = Some s -> metric_id s = i /\ deployed Encode clusterName objs s) ->
  (forall key, key <> telegraf_key ns -> (forall i s k, a !! i = Some s -> key <> app_key i k) -> objs !! key = objs0 !! key) ->
  forall i k, objs0 !! app_key i k = None -> (is_Some (objs !! app_key i k) <-> is_Some (a !! i)).
Proof.
  intros Hs Hframe i k Hnone. split.
  - intros [o Ho]. destruct (a !! i) as [s|] eqn:Ea; [by eexists|].
    rewrite Hframe in Ho; [by rewrite Hnone in Ho|apply app_key_elsewhere|].
    intros i' s k' Hi' [E _]%app_key_inj. congruence.
  - intros [s Ea]. destruct (Hs _ _ Ea) as [<- [(v & _ & H1 & H2 & H3) (u & c & _ & H4 & _)]].
    destruct k; rewrite ?H1, ?H2, ?H3, ?H4; by eexists.
Qed.

(** C2: End to end, from the API server to telegraf.  The server's objects
    have any history, before and after the start of the program; it lists the
    objects at any version, sends the changes after the version of a watch in
    order, ends watches and fails at any time; and the requests of the two
    handlers interleave in any way.  From every state of the program, a server
    that only answers can have it come to rest with clean lists, its handlers
    having been told of all metric sinks that exist.  And in every state where
    the program is at rest (no report and no handler under way), the last lists
    were clean, no handler was told of a deletion that its informer had missed,
    both informers have seen the last change of their resources, and nothing has
    been logged since the start (so every request and encoding has succeeded):
    every metric sink that exists in the API server has telegraf's four
    objects, with the configuration of its spec; every object of no existing
    sink, but the config map of the cluster's own telegraf, is as it was when
    the program started, so that the objects of a sink that was deleted before
    the start stay, and an identity without objects at the start has them just
    when its sink exists; the cluster's configuration has exactly the cluster
    metric sinks that exist; and that config map has its text, in some order
    of the sinks, once a report has changed the configuration. *)
Theorem telegraf_mirrors_api_server {W} `{MetricPlatformLaws W} `{ClientLibrary} `{R : MapRange} `{S : SliceSort}
    `{G : SliceGrow} `{V : Revisions} Encode p p' (pr : program W) :
  main p = (p', Ok pr) ->
  exists i j, heap (pr_factory pr) = [i; j] /\ objectType i = ClusterMetricSink_type /\ objectType j = MetricSink_type
    /\ forall Q t1 t2 n1 n2 r1 r2 l0 l d,
      let KA := kube_objects (pr_core pr) (pr_kube pr) in
      let KW := core_namespace (pr_core pr) (pr_namespace pr) in
      let KS := platform_objects (pr_core pr) (pr_kube pr) in
      let PS := namespace_server (pr_core pr) (pr_namespace pr) in
      let step := @metric_cluster_step W KA KW R G V Encode (pr_clusterName pr) Q in
      accepts MetricSink Q -> accepts ClusterMetricSink Q ->
      begins (resyncPeriod j) t1 n1 (namespace_index j) r1 -> begins (resyncPeriod i) t2 n2 (namespace_index i) r2 ->
      history_ok Q l0 -> rtc step (MkCluster l0 (ms_start r1 r2 (pr_cluster pr))) (MkCluster l d) ->
      (exists d', rtc step (MkCluster l d) (MkCluster l d') /\ ms_rest d' /\ lists_clean d' = true
         /\ told_metrics d' = server_metrics l /\ told_clusters d' = server_clusters l
         /\ current MetricSink_type l ⊆ known (sd_reported (duo_left d'))
         /\ current ClusterMetricSink_type l ⊆ known (sd_reported (duo_right d')))
      /\ (ms_rest d -> lists_clean d = true -> none_missed d = true -> mc_logs (duo_state d) = mc_logs (pr_cluster pr) ->
          duo_up_to_date MetricSink ClusterMetricSink l d ->
          let objs := @objects W KA KS (mc_world (duo_state d)) in
          (forall i s, server_metrics l !! i = Some s -> metric_id s = i /\ deployed Encode (pr_clusterName pr) objs s)
          /\ (forall key, key <> telegraf_key (pr_namespace pr) ->
              (forall i s k, server_metrics l !! i = Some s -> key <> app_key i k) ->
              objs !! key = @objects W KA KS (mc_world (pr_cluster pr)) !! key)
          /\ (forall n, option_Forall2 cluster_kept (clusterSinks (mc_sc (duo_state d)) !! n) (server_clusters l !! n))
          /\ (forall i k, @objects W KA KS (mc_world (pr_cluster pr)) !! app_key i k = None ->
              (is_Some (objs !! app_key i k) <-> is_Some (server_metrics l !! i)))
          /\ (cluster_changed d -> exists R, @telegraf_conf W KW PS (mc_world (duo_state d))
              = Some (to_valid (cluster_text Encode R (duo_state d))))).
Proof.
  intros Hmain. destruct (telegraf_after_start Encode _ _ _ Hmain) as (i & j & Hheap & Hi & Hj & _ & _ & Hend).
  destruct (metric_controller_starts _ _ _ Hmain) as (_ & _ & (i' & j' & Hheap' & Wi & Wj) & _).
  rewrite Hheap in Hheap'. injection Hheap' as <- <-.
  exists i, j. split_and!; [done..|]. intros Q t1 t2 n1 n2 r1 r2 l0 l d KA KW KS PS step HQ1 HQ2 B1 B2 Hl0 Hrun.
  assert (both_begin resync t1 t2 n1 n2 true r1 r2) as Hb by 
    by (split; [exact (watches_begins _ _ _ _ _ _ Wj B1)|exact (watches_begins _ _ _ _ _ _ Wi B2)]).
  set (mh := @metric_handler W KA R G Encode (pr_clusterName pr)). set (ch := @cluster_handler W KW G Encode).
  destruct (duo_cluster_run mh ch Q HQ1 HQ2 _ _ _ _ _ _ _ _ _ _ _ _ _ Hb Hl0 Hrun) as (Hl & Hsync & Hr & Hbase).
  destruct (Hend t1 t2 n1 n2 r1 r2 d B1 B2 Hbase) as [_ Hat]. split.
  - destruct (duo_cluster_catches_up mh ch Q HQ1 HQ2 (metric_handler_ok _ _) (cluster_handler_ok _) ltac:(done) ltac:(done)
      _ _ _ _ _ _ _ _ false l d Hb Hl Hr) as (d' & Hrun' & Hbase' & Hrest & Hclean & E1 & E2).
    pose proof (duo_run_reaches mh ch false r1 r2 d d' Hr Hbase') as Hr'.
    destruct (duo_rest_known _ _ _ _ _ _ _ _ _ _ _ Hb Hr' Hrest Hclean) as (K1 & K2 & _).
    rewrite E1 in K1. rewrite E2 in K2. exists d'. unfold told_metrics, told_clusters. rewrite E1, E2. by split_and!.
  - intros Hrest Hclean Hmiss Hlog Hup. destruct (duo_current l d Hsync Hup) as [E1 E2].
    unfold server_metrics, server_clusters. change MetricSink_type with (kind_type MetricSink).
    change ClusterMetricSink_type with (kind_type ClusterMetricSink). rewrite <- E1, <- E2.
    destruct (Hat Hrest Hclean Hmiss Hlog) as (H1 & H2 & H3 & H4). split_and!; [done..| |done].
    exact (deployed_exactly _ _ _ _ _ _ H1 H2).
Qed.

(** ** A run of the cluster *)

Definition valid_metric (o : obj) : Prop :=
  (TypeOf o = MetricSink_type -> is_object MetricSink o) /\ (TypeOf o = ClusterMetricSink_type -> is_object ClusterMetricSink o).

Definition metric_at (n : nat) (m : MetricSink) : obj :=
  AMetricSink {| ms_TypeMeta := ms_TypeMeta m; ms_ObjectMeta := versioned n (ms_ObjectMeta m); ms_Spec := ms_Spec m;
                 ms_Status := ms_Status m |}.

Definition cluster_metric_at (n : nat) (m : ClusterMetricSink) : obj :=
  AClusterMetricSink {| cms_TypeMeta := cms_TypeMeta m; cms_ObjectMeta := versioned n (cms_ObjectMeta m);
                        cms_Spec := cms_Spec m; cms_Status := cms_Status m |}.

Definition left_works (n : nat) : list cluster_label := replicate n (LeftDoes Works).

(** A metric sink exists before the start; a cluster metric sink is made and the
    metric sink changes while the informers watch, one of them from an old
    version; the requests of the handlers interleave. *)
Definition metric_cluster_schedule : list cluster_label :=
  [LeftDoes (Informs (ReplyList 1)); RightDoes (Informs (ReplyList 0));
   LeftDoes (Informs (NoReply (DoWatch None))); RightDoes (Informs (NoReply (DoWatch None)));
   Commits (Reflector.MkEvent WatchAdded (cluster_metric_at 2 discard_sink)); LeftDoes (Informs (NoReply DoProcess));
   LeftDoes (Hands 0); LeftDoes Works; RightDoes (Informs ReplyEvent); RightDoes (Informs (NoReply DoProcess));
   RightDoes (Hands 0); LeftDoes Works; RightDoes Works; LeftDoes Works;
   Commits (Reflector.MkEvent WatchModified (metric_at 3 metric_v2)); LeftDoes (Informs ReplyEvent); LeftDoes Works;
   RightDoes Works; LeftDoes (Informs (NoReply DoProcess)); LeftDoes (Hands 0); LeftDoes Works; LeftDoes Works].

Definition metric_before : history := [Reflector.MkEvent WatchAdded (metric_at 1 metric_v1)].

Definition metric_cluster_end : option (program store * cluster (duo plan cluster_phase (cluster_state store))) :=
  match metric_start with
  | (_, Ok pr) =>
      option_map (pair pr)
        (@cluster_exec decimal_revisions map_order _ _ MetricSink ClusterMetricSink _ _ _ _ _
           (@metric_handler store store_api map_order double show_types (pr_clusterName pr))
           (@cluster_handler store (store_world (pr_namespace pr)) double show_types) false metric_cluster_schedule
           (MkCluster metric_before (ms_start sample_informer sample_informer (pr_cluster pr))))
  | (_, Err _) => None
  end.

Definition metric_settled (pr : program store) (c : cluster (duo plan cluster_phase (cluster_state store))) : bool :=
  quiet_end pr (cl_program c)
  && up_to_dateb MetricSink_type (cl_history c) (sd_running (duo_left (cl_program c)))
  && up_to_dateb ClusterMetricSink_type (cl_history c) (sd_running (duo_right (cl_program c))).

Example metric_cluster_settles : match metric_cluster_end with Some (pr, c) => metric_settled pr c | None => false end = true.
Proof. vm_compute. reflexivity. Qed.

Lemma accepts_metrics : accepts MetricSink valid_metric.
Proof. by intros o [Ho _]. Qed.

Lemma accepts_cluster_metrics : accepts ClusterMetricSink valid_metric.
Proof. by intros o [_ Ho]. Qed.

Lemma valid_metric_at n m :
  Namespace (ms_ObjectMeta m) <> EmptyString /\ str_forall (not_char "/") (Namespace (ms_ObjectMeta m)) = true ->
  valid_metric (metric_at n m).
Proof. intros Hm. split; [|discriminate]. intros _. eexists. split; [reflexivity|exact Hm]. Qed.

Lemma valid_cluster_metric_at n m : Namespace (cms_ObjectMeta m) = EmptyString -> valid_metric (cluster_metric_at n m).
Proof. intros Hm. split; [discriminate|]. intros _. eexists. split; [reflexivity|exact Hm]. Qed.

Lemma metric_cluster_accepted : Forall (accepted valid_metric) metric_cluster_schedule.
Proof. repeat constructor; first [by apply valid_metric_at|by apply valid_cluster_metric_at]. Qed.

Lemma metric_before_ok : history_ok valid_metric metric_before.
Proof. intros [|n] e He; [|done]. injection He as <-. by apply (change_okb_true valid_metric []), valid_metric_at. Qed.

(** The run ends at rest and up to date, with clean lists, no deletion missed,
    no failed call, a changed configuration and a metric sink. *)
Lemma metric_cluster_ends :
  exists p' pr l d s, metric_start = (p', Ok pr)
    /\ rtc (@metric_cluster_step store store_api (store_world (pr_namespace pr)) map_order double decimal_revisions
              show_types (pr_clusterName pr) valid_metric)
         (MkCluster metric_before (ms_start sample_informer sample_informer (pr_cluster pr))) (MkCluster l d)
    /\ ms_rest d /\ lists_clean d = true /\ none_missed d = true /\ mc_logs (duo_state d) = mc_logs (pr_cluster pr)
    /\ cluster_changed d /\ duo_up_to_date MetricSink ClusterMetricSink l d /\ server_metrics l !! ("ns1", "web") = Some s.
Proof.
  pose proof metric_cluster_settles as Hend. unfold metric_cluster_end in Hend.
  destruct metric_start as [p' [pr|e]] eqn:Emain; [|discriminate Hend].
  destruct (@cluster_exec _ _ _ _ MetricSink ClusterMetricSink _ _ _ _ _ _ _ false metric_cluster_schedule _) as [[l d]|] eqn:Es;
    [|discriminate Hend].
  cbn [option_map] in Hend. unfold metric_settled, quiet_end in Hend. cbn [cl_program cl_history] in Hend.
  rewrite !andb_true_iff in Hend. destruct Hend as [[[[[[[[R1 R2] C] M] L%bool_decide_eq_true] X] T] U1%up_to_dateb_true] U2%up_to_dateb_true].
  set (mh := @metric_handler store store_api map_order double show_types (pr_clusterName pr)) in *.
  set (ch := @cluster_handler store (store_world (pr_namespace pr)) double show_types) in *.
  apply (cluster_exec_run _ _ valid_metric (metric_handler_ok _ _) (cluster_handler_ok _) false _ _ _ metric_cluster_accepted) in Es.
  destruct (duo_cluster_run mh ch valid_metric accepts_metrics accepts_cluster_metrics _ _ _ _ _ _ _ _ _ _ _ _ _
    metric_both_begin metric_before_ok Es) as (_ & Hsync & Hr & _).
  assert (duo_up_to_date MetricSink ClusterMetricSink l d) as Hup by by split.
  destruct (duo_current l d Hsync Hup) as [E1 _].
  destruct (told_metrics d !! ("ns1", "web")) as [s|] eqn:Es'; [|discriminate T].
  exists p', pr, l, d, s. split_and!; [done|exact Es| |done|done|done| |exact Hup|].
  - refine (duo_rest_b (T1 := MetricSink) (T2 := ClusterMetricSink) mh ch (metric_handler_ok _ _) (cluster_handler_ok _)
      _ _ _ _ _ _ _ _ d metric_both_begin Hr (andb_true_intro (conj R1 R2))).
  - apply existsb_exists in X as (n & Hn & Hc). apply Exists_exists. exists n. split; [by apply list_elem_of_In|].
    by destruct (cluster_change (event_of n)).
  - unfold told_metrics in Es'. by rewrite E1 in Es'.
Qed.

Lemma telegraf_mirrors_api_server_witness :
  exists (pr : program store) (d : duo plan cluster_phase (cluster_state store)) l s,
    server_metrics l !! ("ns1", "web") = Some s
    /\ @deployed map_order double show_types (pr_clusterName pr) (mc_world (duo_state d)) s
    /\ exists R, @telegraf_conf store (store_world (pr_namespace pr)) (store_server (pr_namespace pr)) (mc_world (duo_state d))
       = Some (to_valid (@cluster_text store double show_types R (duo_state d))).
Proof.
  destruct metric_cluster_ends as (p' & pr & l & d & s & Hmain & Hrun & Hrest & Hclean & Hmiss & Hlog & Hch & Hup & Hs).
  destruct (@telegraf_mirrors_api_server store _ _ _ _ metric_library map_order insertion_slice_sort double decimal_revisions
    show_types _ _ _ Hmain) as (i & j & Hheap & _ & _ & Hend).
  exists pr, d, l, s. split; [exact Hs|].
  destruct (@metric_controller_starts store _ _ _ metric_library map_order insertion_slice_sort _ _ _ Hmain)
    as (_ & _ & (i' & j' & Hheap' & Hi & Hj) & _).
  rewrite Hheap in Hheap'. injection Hheap' as <- <-.
  destruct (Hend valid_metric 0%Z 0%Z 0%Z 0%Z sample_informer sample_informer metric_before l d) as [_ Hat];
    [exact accepts_metrics|exact accepts_cluster_metrics| | |exact metric_before_ok|exact Hrun|].
  - rewrite (wa_resync _ _ _ Hj), (wa_index _ _ _ Hj). exact sample_begins.
  - rewrite (wa_resync _ _ _ Hi), (wa_index _ _ _ Hi). exact sample_begins.
  - destruct (Hat Hrest Hclean Hmiss Hlog Hup) as (H1 & _ & _ & _ & H5). split; [exact (proj2 (H1 _ _ Hs))|exact (H5 Hch)].
Defined.
