(* ===== verification/EventMain.v ===== *)
(** * The start of the event controller ([cmd/event-controller/main.go])

    [main] serves the counters over HTTP from a goroutine, connects to
    fluent-bit and runs an informer of all Kubernetes events until the process
    is told to stop; then it closes the connection. *)

From stdpp Require Import base gmap strings list.
From Stdlib Require Import Ascii ZArith Lia.
From S2P Require Import Prelude Utf8 GoStd EventController RestRequest RestConfig EnvStruct Startup.

Definition config_fields : list field :=
  [MkField "Host" "FORWARDER_HOST,required,report" (VString EmptyString);
   MkField "MetricsPort" "METRICS_PORT,report" (VString "6060");
   MkField "BufferLimit" "SEND_BUFFER_SIZE,report" (VInt 8192)].

(** The fields of [fluent.Config] that are set; the timeout is in nanoseconds. *)
Record fluent_config : Type := MkFluentConfig {
  FluentHost : string; WriteTimeout : Z; Async : bool; BufferLimit : Z;
}.

(** [fluent.New] and the logger's [Close]. *)
Class FluentPlatform (W : Type) := {
  Logger : Type;
  fluent_New : fluent_config -> W -> W * res string Logger;
  logger : Logger -> Forwarder W;
  fluent_Close : Logger -> W -> W * option string;
}.

(** What is left when [main] runs its informer: the address where the counters
    are served (the process ends when that fails), the connection, the state of
    the controller, and the resync period of the informer. *)
Record program (W : Type) `{F : FluentPlatform W} : Type := MkProgram {
  pr_http : string;
  pr_logger : Logger;
  pr_state : estate W;
  pr_resync : Z;
}.
Arguments MkProgram {W F}.
Arguments pr_http {W F}.
Arguments pr_logger {W F}.
Arguments pr_state {W F}.
Arguments pr_resync {W F}.

(** The messages of [log.Fatalf] differ from the errors' own. *)
Definition forwarder_error (e : string) : start_error :=
  ForwarderError (Sprintf "unable to create fluent logger client: %s" [FStr e]).

Section Main.
Context {W : Type} `{P : Platform W} `{F : FluentPlatform W} `{R : MapRange} `{S : SliceSort}.

Definition new_logger (c : fluent_config) : boot W Logger :=
  on_world (fun w => let '(w, f) := fluent_New c w in (w, map_err forwarder_error f)).

(** The events an informer reports go to the controller. *)
Definition start_informer (http : string) (f : Logger) : boot W (program W) := fun p =>
  (p, Ok {| pr_http := http; pr_logger := f;
            pr_state := {| cnt := counters_zero; fwd := p_world p; e_logs := p_logs p |};
            pr_resync := resync |}).

Definition main : boot W (program W) :=
  conf ← load_settings config_fields;
  _ ← write_report conf;
  let http := JoinHostPort EmptyString (text_field "MetricsPort" conf) in
  cfg ← InClusterConfig;
  kclientset ← kubernetes_client cfg;
  f ← new_logger {| FluentHost := text_field "Host" conf; WriteTimeout := 500000000; Async := true;
                    BufferLimit := number_field "BufferLimit" conf |};
  start_informer http f.

(** The handlers of the running program, and its end. *)
Definition run (pr : program W) (rs : list report) : estate W :=
  @handle_events W (logger (pr_logger pr)) rs (pr_state pr).

Definition stop (pr : program W) (st : estate W) : estate W * option string :=
  let '(w, err) := fluent_Close (pr_logger pr) (fwd st) in
  ({| cnt := cnt st; fwd := w; e_logs := e_logs st |},
   option_map (fun e => Sprintf ("error closing fluent connection: %s" +:+ nl) [FStr e]) err).

End Main.

(** ** Lemmas *)

(** The value of a variable, or the default of its field. *)
Definition or_default (v d : string) : string := if String.eqb v EmptyString then d else v.

Lemma event_config_loaded (env : string -> string) fs :
  Forall2 (loaded env) config_fields fs ->
  text_field "Host" fs = env "FORWARDER_HOST" /\ env "FORWARDER_HOST" <> EmptyString
  /\ text_field "MetricsPort" fs = or_default (env "METRICS_PORT") "6060"
  /\ (env "SEND_BUFFER_SIZE" = EmptyString -> number_field "BufferLimit" fs = 8192%Z)
  /\ (env "SEND_BUFFER_SIZE" <> EmptyString -> ParseInt (env "SEND_BUFFER_SIZE") = Ok (number_field "BufferLimit" fs)).
Proof.
  intros Hf. inversion Hf as [|f f' ? l (Hn & _ & Hv) Hl]; subst. inversion Hl as [|g g' ? l' (Hn' & _ & Hv') Hl']; subst.
  inversion Hl' as [|k k' ? l2 (Hn2 & _ & Hv2) Hl2]; subst. inversion Hl2; subst.
  change (env_var _) with "FORWARDER_HOST" in Hv. change (env_var _) with "METRICS_PORT" in Hv'.
  change (env_var _) with "SEND_BUFFER_SIZE" in Hv2. cbn [field_name value] in Hn, Hv, Hn', Hv', Hn2, Hv2.
  unfold text_field, number_field, or_default. cbn.
  destruct f' as [n1 t1 v1], g' as [n2 t2 v2], k' as [n3 t3 v3]. cbn in *. subst n1 n2 n3. cbn.
  destruct (String.eqb_spec (env "FORWARDER_HOST") EmptyString) as [E|Hne]; [by destruct Hv|]. rewrite Hv.
  split; [done|]. split; [done|]. split.
  { destruct (String.eqb_spec (env "METRICS_PORT") EmptyString); [by destruct Hv' as [_ ->]|by rewrite Hv']. }
  destruct (String.eqb_spec (env "SEND_BUFFER_SIZE") EmptyString) as [|Hs]; [destruct Hv2 as [_ ->]|destruct Hv2 as (z & Hz & ->)];
    by split.
Qed.

(** The start of the event controller: the counters are zero, nothing has been
    sent, and the logger is the one fluent made for the host of the
    environment, asynchronous, with the buffer size of the environment, an
    [int], or 8192. *)
Lemma event_controller_starts {W} `{P : Platform W} `{F : FluentPlatform W} `{R : MapRange} `{S : SliceSort}
    p p' (pr : program W) :
  main p = (p', Ok pr) ->
  Getenv "FORWARDER_HOST" <> EmptyString
  /\ cnt (pr_state pr) = counters_zero /\ fwd (pr_state pr) = p_world p'
  /\ pr_http pr = ":" +:+ or_default (Getenv "METRICS_PORT") "6060"
  /\ exists size w w', fluent_New {| FluentHost := Getenv "FORWARDER_HOST"; WriteTimeout := 500000000; Async := true;
                                     BufferLimit := size |} w = (w', Ok (pr_logger pr)) /\ p_world p' = w'
       /\ (Getenv "SEND_BUFFER_SIZE" = EmptyString -> size = 8192%Z)
       /\ (Getenv "SEND_BUFFER_SIZE" <> EmptyString ->
            ParseInt (Getenv "SEND_BUFFER_SIZE") = Ok size /\ (- 2 ^ 63 <= size < 2 ^ 63)%Z).
Proof.
  unfold main. intros (p1 & fs & [-> Hfs]%load_settings_ok & Hb)%bind_ok. apply bind_ok in Hb as (p2 & ? & _ & Hb).
  apply bind_ok in Hb as (p3 & cfg & _ & Hb). apply bind_ok in Hb as (p4 & k & _ & Hb).
  apply bind_ok in Hb as (p5 & f & Hf & Hb). unfold start_informer in Hb. injection Hb as <- <-.
  destruct (event_config_loaded _ _ Hfs) as (Eh & Hne & Em & Hd & Hs). rewrite Eh in Hf. cbn [pr_state cnt fwd pr_http pr_logger].
  split; [done|]. split; [done|]. split; [done|]. split; [by rewrite Em|].
  unfold new_logger, on_world in Hf. destruct (fluent_New _ (p_world p4)) as [w [f'|]] eqn:En; [|done].
  injection Hf as <- <-. eexists _, _, _. split; [exact En|]. split; [done|]. split; [exact Hd|].
  intros Hset. specialize (Hs Hset). split; [done|]. by eapply ParseInt_range.
Qed.
