(* ===== verification/EventInformers.v ===== *)
(** * From the API server's events to fluent-bit

    The event controller behind its informer: the informer of all events that
    [cmd/event-controller/main.go] runs lists, watches and resyncs on its own
    goroutines, and hands its notifications to the controller one at a time.
    An event is posted once for each time it appears. *)

From stdpp Require Import base gmap strings list relations.
From Stdlib Require Import Ascii Lia ZArith.
From S2P Require Import Prelude Utf8 GoStd Types RingGrowing Cache DeltaFifo SharedInformer InformerFactory Reflector InformerSystem InformerKinds InformerSide EventController RestRequest RestConfig EnvStruct Startup EventMain.

(** ** The kind of the events *)

Definition event_id (e : CoreEvent) : string * string := (Namespace (ev_ObjectMeta e), Name (ev_ObjectMeta e)).

(** Events are in namespaces, whose names have no separator. *)
#[export] Instance event_object : ObjectKind (string * string) CoreEvent :=
  {| wrap := ACoreEvent; unwrap := fun o => match o with ACoreEvent e => Some e | _ => None end; kind_id := event_id;
     named := fun e => Namespace (ev_ObjectMeta e) <> EmptyString
                /\ str_forall (not_char "/") (Namespace (ev_ObjectMeta e)) = true;
     kind_type := Event_type |}.

Lemma event_key e : key_of (ACoreEvent e) = meta_key (ev_ObjectMeta e).
Proof. done. Qed.

#[export] Instance event_object_laws : ObjectKindLaws (string * string) CoreEvent.
Proof.
  split.
  - intros o e. destruct o; naive_solver.
  - done.
  - by eexists.
  - intros e d (He & He') (Hd & Hd').
    change (key_of (ACoreEvent e) = key_of (ACoreEvent d) <-> event_id e = event_id d).
    rewrite !event_key. unfold meta_key, event_id.
    destruct (String.eqb_spec (Namespace (ev_ObjectMeta e)) EmptyString); [done|].
    destruct (String.eqb_spec (Namespace (ev_ObjectMeta d)) EmptyString); [done|]. cbn [negb].
    split; [|by intros [= -> ->]]. intros E. by apply sep_split in E as [-> ->].
Qed.

(** ** The handler *)

(** The fields of an event that the controller reads. *)
Definition to_event (e : CoreEvent) : EventController.Event :=
  {| Message := ev_Message e; SourceHost := ev_SourceHost e; InvolvedName := ev_InvolvedName e;
     InvolvedNamespace := ev_InvolvedNamespace e |}.

(** The type of the object in the log line; other objects have no name here. *)
Definition type_name (o : obj) : string :=
  match o with
  | ALogSinkList _ => "*v1alpha1.LogSinkList"
  | AClusterLogSinkList _ => "*v1alpha1.ClusterLogSinkList"
  | AMetricSinkList _ => "*v1alpha1.MetricSinkList"
  | AClusterMetricSinkList _ => "*v1alpha1.ClusterMetricSinkList"
  | DeletedFinalState _ _ => "cache.DeletedFinalStateUnknown"
  | _ => TypeOf o
  end.

(** The type assertion to [*v1.Event]. *)
Definition assert_event (o : obj) : eobj :=
  match o with ACoreEvent e => AnEvent (to_event e) | _ => NotEvent (type_name o) end.

(** The call that the listener's goroutine makes for a notification. *)
Definition report_of (n : notification) : report :=
  match n with
  | addNotification o => EAdd (assert_event o)
  | updateNotification o o' => EUpdate (assert_event o) (assert_event o')
  | deleteNotification o => EDelete (assert_event o)
  end.

(** The controller is called by one goroutine, and its only shared state is its
    own: a call is one step. *)
Definition event_handler {W} (F : Forwarder W) : handler unit (estate W) :=
  {| idle := tt; is_idle := fun _ => true; takes := fun n st => (tt, handle_event (report_of n) st);
     works := fun _ _ => None |}.

Lemma event_handler_ok {W} (F : Forwarder W) : handler_ok (event_handler F) (fun _ => 0).
Proof. split; cbn; [by intros []|by intros []|done]. Qed.

(** The events that were reported as added. *)
Definition added (ns : list notification) : list CoreEvent :=
  flat_map (fun n => match n with addNotification (ACoreEvent e) => [e] | _ => [] end) ns.

(** How often the key was added, and deleted. *)
Definition adds (k : string) (ns : list notification) : nat :=
  length (List.filter (fun n => match n with addNotification o => String.eqb (key_of o) k | _ => false end) ns).
Definition deletes (k : string) (ns : list notification) : nat :=
  length (List.filter (fun n => match n with deleteNotification o => String.eqb (key_of o) k | _ => false end) ns).

Definition present (its : gmap string obj) (k : string) : nat := match its !! k with Some _ => 1 | None => 0 end.

(** Events posted one after the other, whatever the answers. *)
Definition posted {W} (F : Forwarder W) (es : list EventController.Event) (w : W) : W :=
  foldl (fun w e => (Post ("k8s.event._" +:+ InvolvedNamespace e +:+ "_") (event_record e) w).1) w es.

(** ** Lemmas *)

Lemma present_insert its k o : present (<[k := o]> its) k = 1.
Proof. unfold present. by rewrite lookup_insert_eq. Qed.

Lemma present_delete its k : present (delete k its) k = 0.
Proof. unfold present. by rewrite lookup_delete_eq. Qed.

(** Additions and deletions of a key take turns. *)
Lemma note_step_count its n its' k :
  note_step its n its' -> adds k [n] + present its k = deletes k [n] + present its' k.
Proof.
  destruct 1 as [its o Ho|its old o Ho|its o [x Ho]]; unfold adds, deletes; cbn [List.filter].
  - destruct (String.eqb_spec (key_of o) k) as [<-|Hne]; cbn [length].
    + rewrite present_insert. unfold present. by rewrite Ho.
    + unfold present. by rewrite lookup_insert_ne.
  - cbn [length]. destruct (decide (key_of o = k)) as [<-|Hne].
    + rewrite present_insert. unfold present. by rewrite Ho.
    + unfold present. by rewrite lookup_insert_ne.
  - destruct (String.eqb_spec (key_of o) k) as [<-|Hne]; cbn [length].
    + rewrite present_delete. unfold present. by rewrite Ho.
    + unfold present. by rewrite lookup_delete_ne.
Qed.

Lemma adds_cons k n ns : adds k (n :: ns) = adds k [n] + adds k ns.
Proof. unfold adds. change (n :: ns) with ([n] ++ ns). by rewrite List.filter_app, length_app. Qed.

Lemma deletes_cons k n ns : deletes k (n :: ns) = deletes k [n] + deletes k ns.
Proof. unfold deletes. change (n :: ns) with ([n] ++ ns). by rewrite List.filter_app, length_app. Qed.

Lemma note_run_count its ns its' k :
  note_run its ns its' -> adds k ns + present its k = deletes k ns + present its' k.
Proof.
  induction 1 as [its|its its1 its' n ns Hs _ IH]; [done|]. rewrite adds_cons, deletes_cons.
  pose proof (note_step_count _ _ _ k Hs). lia.
Qed.

Lemma present_empty k : present ∅ k = 0.
Proof. unfold present. by rewrite lookup_empty. Qed.

Lemma present_le its k : present its k <= 1.
Proof. unfold present. destruct (its !! k); lia. Qed.

Lemma handle_events_posted {W} (F : Forwarder W) rs (st : estate W) :
  fwd (handle_events rs st) = posted F (added_events rs) (fwd st).
Proof.
  revert st. induction rs as [|r rs IH]; intros st; [done|]. unfold handle_events in *. cbn [foldl]. rewrite IH. clear IH.
  destruct r as [[e|t]|o n|o]; try done. cbn [added_events flat_map app]. unfold posted. cbn [foldl].
  change (flat_map _ rs) with (added_events rs). f_equal. cbn [handle_event]. unfold OnAdd, sendToFluent.
  change (Sprintf "k8s.event._%s_" [FStr (InvolvedNamespace e)]) with ("k8s.event._" +:+ InvolvedNamespace e +:+ "_").
  cbn [set_cnt fwd]. destruct (Post _ _ (fwd st)) as [w [er|]]; [|done]. cbn [cnt fst].
  by destruct (_ =? 0)%Z.
Qed.

Lemma added_reports ns : added_events (map report_of ns) = map to_event (added ns).
Proof.
  induction ns as [|n ns IH]; [done|]. cbn [map]. destruct n as [o o'|o|o]; cbn [report_of added_events flat_map added];
    try exact IH. destruct o; cbn [assert_event app map]; try exact IH. by f_equal.
Qed.

(** Only events are reported. *)
Lemma reports_are_events ns : Forall (note_ok (is_object CoreEvent)) ns -> count is_other (map report_of ns) = 0%Z.
Proof.
  induction 1 as [|n ns Hn _ IH]; [done|]. cbn [map]. rewrite count_cons, IH.
  destruct n as [o o'|o|o]; try done. cbn in Hn. by destruct Hn as (e & -> & _).
Qed.

Lemma received_events ns :
  Forall (note_ok (is_object CoreEvent)) ns -> count is_add (map report_of ns) = Z.of_nat (length (added ns)).
Proof.
  induction 1 as [|n ns Hn _ IH]; [done|]. cbn [map]. rewrite count_cons, IH.
  destruct n as [o o'|o|o]; try done. cbn in Hn. destruct Hn as (e & -> & _).
  cbn [report_of is_add assert_event wrap event_object added flat_map app length]. unfold added. lia.
Qed.

(** ** Runs of the program *)

Section Runs.
Context {W : Type} `{P : Platform W} `{F : FluentPlatform W} `{R : MapRange}.

(** The informer of the running program with its handler. *)
Definition events_step (pr : program W) : side unit * estate W -> side unit * estate W -> Prop :=
  side_step CoreEvent (event_handler (logger (pr_logger pr))) True.

Definition events_start (pr : program W) (r : running) : side unit * estate W :=
  (side_start tt r, pr_state pr).

Lemma events_run (pr : program W) r sd st :
  rtc (events_step pr) (events_start pr r) (sd, st) ->
  side_reaches CoreEvent r sd /\ st = run pr (map report_of (sd_reported sd)).
Proof.
  apply (side_run_ind (T := CoreEvent) (event_handler (logger (pr_logger pr)))
    (fun x => x.2 = run pr (map report_of (sd_reported x.1)))); [done|].
  cbn [fst snd]. intros d s d' s' _ -> Hs. inversion Hs as [| |]; subst; cbn [sd_reported] in *; [done| |done].
  match goal with Ht : takes _ _ _ = _ |- _ => injection Ht as <- end.
  unfold run, handle_events. by rewrite map_app, foldl_app.
Qed.

End Runs.

(** ** Properties *)

(** End to end, from the start of the program.  After a [main] that gets
    through, however its informer's goroutines are interleaved and whatever
    the server lists and sends: the controller's state is the one after
    the calls for the notifications reported so far; the forwarder was given
    exactly the events reported as added, each once, in order, under the tag of
    its namespace, whatever it answered; each of them was counted as sent or as
    failed and none as something other than an event; and a key was
    added at most once more than it was deleted, so that no update, resync or
    new list posts an event again.  Left alone, the program comes to rest; and
    at rest, if the last list was clean, the events that the server has told of
    are exactly those that were added once more than deleted, so that each of
    them was posted. *)
Lemma events_reach_fluent {W} `{P : Platform W} `{F : FluentPlatform W} `{R : MapRange} `{S : SliceSort}
    p p' (pr : program W) t n b r sd st :
  main p = (p', Ok pr) -> begins (pr_resync pr) t n b r -> rtc (events_step pr) (events_start pr r) (sd, st) ->
  let ns := sd_reported sd in
  st = run pr (map report_of ns)
  /\ fwd st = posted (logger (pr_logger pr)) (map to_event (added ns)) (p_world p')
  /\ ForwarderReceived (cnt st) = int64 (Z.of_nat (length (added ns)))
  /\ ForwarderReceived (cnt st) = int64 (ForwarderSent (cnt st) + ForwarderFailed (cnt st))
  /\ ForwarderConvertFailed (cnt st) = 0%Z
  /\ (forall k, adds k ns <= deletes k ns + 1)
  /\ (exists sd' st', rtc (events_step pr) (sd, st) (sd', st') /\ side_rest tt sd' /\ sd_told sd' = sd_told sd
        /\ sd_clean sd' = sd_clean sd)
  /\ (side_rest tt sd -> sd_clean sd = true -> forall k, adds k ns = deletes k ns + present (sd_told sd) k).
Proof.
  intros Hmain Hb Hrun ns. destruct (event_controller_starts _ _ _ Hmain) as (_ & Hc & Hf & _).
  destruct (events_run _ _ _ _ Hrun) as [Hr Hst].
  destruct (side_history (T := CoreEvent) _ _ _ _ _ _ Hb Hr) as (its & Hh & Hok). fold ns in Hst, Hh, Hok.
  assert (shows (cnt (pr_state pr)) counters_zero) as H0 by by rewrite Hc.
  pose proof (@handle_events_counts _ (logger (pr_logger pr)) (map report_of ns) _ _ H0) as Hs.
  unfold run in Hst. rewrite <- Hst in Hs. destruct Hs as (Hrec & _ & _ & Hsent & Hfail & Hconv).
  unfold plus_counts, exact_counts in Hrec, Hsent, Hfail, Hconv. cbn in Hrec, Hsent, Hfail, Hconv.
  rewrite (reports_are_events _ Hok) in Hsent, Hconv. rewrite (received_events _ Hok) in Hrec, Hsent.
  split_and!.
  - exact Hst.
  - by rewrite Hst, handle_events_posted, added_reports, Hf.
  - exact Hrec.
  - rewrite Hrec, Hsent, Hfail. set (f := failures _ _). pose proof (int64_sum (Z.of_nat (length (added ns)) - 0 - f) f 0) as Hsum.
    change (int64 0) with 0%Z in Hsum. rewrite !Z.add_0_r in Hsum. rewrite !Z.add_0_l, <- Hsum. f_equal. lia.
  - exact Hconv.
  - intros k. pose proof (note_run_count _ _ _ k Hh) as Hk. pose proof (present_le its k). rewrite present_empty in Hk. lia.
  - exact (side_settles _ (event_handler_ok (logger (pr_logger pr))) _ _ _ _ _ _ _ st (fun _ => I) Hb Hr).
  - intros Hrest Hclean k. pose proof (rest_history (T := CoreEvent) tt _ _ _ _ _ _ Hb Hr Hrest Hclean) as Hhist.
    pose proof (note_run_count _ _ _ k Hhist) as Hk. rewrite present_empty in Hk. fold ns in Hk. lia.
Qed.

(** ** A run of the program *)

(** The records that fluent-bit was given; the first one is lost. *)
Notation sent_records := (list (string * record)).

Definition lossy : Forwarder sent_records :=
  recording_forwarder (fun w => match w with [] => Some "no connection" | _ => None end).

#[export] Instance no_config_maps : SinkController.KubeWorld sent_records :=
  {| SinkController.draw_order := fun w => (w, map_order); SinkController.Patch := fun _ _ _ w => (w, None); SinkController.DeleteCollection := fun _ w => (w, None) |}.

Definition event_env (v : string) : string :=
  if String.eqb v "FORWARDER_HOST" then "fluent-bit"
  else if String.eqb v "SEND_BUFFER_SIZE" then "1024"
  else if String.eqb v "KUBERNETES_SERVICE_HOST" then "10.0.0.1"
  else if String.eqb v "KUBERNETES_SERVICE_PORT" then "443" else EmptyString.

#[export] Instance event_platform : Platform sent_records :=
  {| Getenv := event_env; WriteReport := fun _ w => (w, None); ReadToken := fun _ => None; ReadRootCA := fun _ => None;
     CoreV1Client := unit; coreV1_NewForConfig := fun _ ls => (Ok tt, ls);
     KubeClient := unit; kubernetes_NewForConfig := fun _ ls => (Ok tt, ls);
     Nodes_List := fun _ w => (w, Ok []); core_namespace := fun _ _ => no_config_maps |}.

#[export] Instance event_fluent : FluentPlatform sent_records :=
  {| Logger := unit; fluent_New := fun _ w => (w, Ok tt); logger := fun _ => lossy; fluent_Close := fun _ w => (w, None) |}.

Definition event_main : proc sent_records * res start_error (program sent_records) :=
  @main sent_records _ _ map_order insertion_slice_sort {| p_world := []; p_logs := []; p_limiters := [] |}.

Definition pulled (name version : string) : CoreEvent :=
  {| ev_ObjectMeta := MkObjectMeta name EmptyString "ns1" EmptyString EmptyString version 0 0
                        None None None None None None None EmptyString;
     ev_Message := "Pulled image"; ev_SourceHost := "node-1"; ev_InvolvedName := "web-0"; ev_InvolvedNamespace := "ns1" |}.

(** Two events are listed; one occurs again, which is an update; the watch ends
    and the store is resynced and listed once more. *)
Definition event_schedule : list side_label :=
  [DoInformer (DoList (Ok ([ACoreEvent (pulled "a" "1"); ACoreEvent (pulled "b" "2")], "2")));
   DoInformer (DoWatch None); DoInformer DoProcess; DoInformer DoProcess; DoReport 0;
   DoInformer (DoEvent (Reflector.MkEvent WatchModified (ACoreEvent (pulled "a" "3")))); DoReport 0; DoInformer DoProcess; DoReport 0;
   DoInformer (DoTick sample_resync); DoInformer DoResync; DoInformer DoProcess; DoInformer DoProcess; DoReport 0; DoReport 0;
   DoInformer DoClose; DoInformer (DoWatch (Some (WatchFailed "too old resource version")));
   DoInformer (DoList (Ok ([ACoreEvent (pulled "a" "3"); ACoreEvent (pulled "b" "2")], "4")));
   DoInformer DoProcess; DoInformer DoProcess; DoReport 0; DoReport 0].

Definition event_end : option (program sent_records * (side unit * estate sent_records)) :=
  match event_main with
  | (_, Ok pr) =>
      option_map (pair pr)
        (@side_schedule map_order _ CoreEvent _ _ _ (event_handler lossy) event_schedule
           (side_start tt sample_informer) (pr_state pr))
  | (_, Err _) => None
  end.

Definition quiet_end (sd : side unit) : bool :=
  rest_b (fun _ => true) sd && sd_clean sd
  && (length (List.filter (fun n => match n with updateNotification _ _ => true | _ => false end) (sd_reported sd)) =? 5)
  && bool_decide (added (sd_reported sd) = [pulled "a" "1"; pulled "b" "2"]).

Example event_ends :
  match event_end with Some (_, (sd, st)) => quiet_end sd && (ForwarderFailed (cnt st) =? 1)%Z | None => false end = true.
Proof. vm_compute. reflexivity. Qed.

Lemma event_labels_ok : Forall (label_ok CoreEvent) event_schedule.
Proof.
  repeat constructor; try by intros.
  - eexists. split; [reflexivity|]. by split.
  - eexists. split; [reflexivity|]. by split.
  - intros _. eexists. split; [reflexivity|]. by split.
  - eexists. split; [reflexivity|]. by split.
  - eexists. split; [reflexivity|]. by split.
Qed.

(** The run ends at rest, with a clean list; five updates were reported, and
    the first of the two posts failed. *)
Lemma event_run_ends :
  exists p' pr sd st, event_main = (p', Ok pr) /\ pr_resync pr = sample_resync
    /\ rtc (@events_step sent_records event_fluent map_order pr) (events_start pr sample_informer) (sd, st)
    /\ side_rest tt sd /\ sd_clean sd = true
    /\ map to_event (added (sd_reported sd)) = [to_event (pulled "a" "1"); to_event (pulled "b" "2")]
    /\ ForwarderFailed (cnt st) = 1%Z.
Proof.
  pose proof event_ends as Hend. unfold event_end in Hend.
  destruct event_main as [p' [pr|e]] eqn:Emain; [|discriminate Hend].
  destruct (@side_schedule map_order _ CoreEvent _ _ _ (event_handler lossy) event_schedule _ _) as [[sd st]|] eqn:Es;
    [|discriminate Hend].
  cbn [option_map] in Hend. unfold quiet_end in Hend. rewrite !andb_true_iff in Hend.
  destruct Hend as [[[[R1 C] _] A%bool_decide_eq_true] Fl%Z.eqb_eq].
  apply (side_schedule_run (T := CoreEvent) (event_handler lossy) (event_handler_ok lossy) _ _ _ _ _ event_labels_ok) in Es.
  exists p', pr, sd, st. split_and!; [done| |exact Es| |done|by rewrite A|done].
  - vm_compute in Emain. by injection Emain as <- <-.
  - destruct (@events_run sent_records event_fluent map_order pr _ _ _ Es) as [Hr _].
    exact (rest_b_true (T := CoreEvent) (event_handler lossy) (event_handler_ok lossy) _ _ _ _ _ _ sample_begins Hr R1).
Qed.

Lemma events_reach_fluent_witness :
  exists (sd : side unit) (st : estate sent_records),
    fwd st = posted lossy [to_event (pulled "a" "1"); to_event (pulled "b" "2")] []
    /\ ForwarderFailed (cnt st) = 1%Z
    /\ forall k, adds k (sd_reported sd) = deletes k (sd_reported sd) + present (sd_told sd) k.
Proof.
  destruct event_run_ends as (p' & pr & sd & st & Hmain & Hre & Hrun & Hrest & Hclean & Hadded & Hfail).
  pose proof sample_begins as Hb. rewrite <- Hre in Hb.
  destruct (@events_reach_fluent sent_records event_platform event_fluent map_order insertion_slice_sort
    _ _ _ _ _ _ _ _ _ Hmain Hb Hrun) as (_ & Hpost & _ & _ & _ & _ & _ & Hexact).
  exists sd, st. split; [|split; [exact Hfail|exact (Hexact Hrest Hclean)]].
  rewrite Hpost, Hadded. vm_compute in Hmain. by injection Hmain as <- <-.
Defined.
