(* ===== verification/EventCluster.v ===== *)
(** * The event controller and the API server

    [EventInformers] with a server whose objects have a history ([ApiServer]):
    the events that exist have been posted, as far as their keys tell. *)

From stdpp Require Import base gmap strings list relations pretty.
From Stdlib Require Import Ascii Lia ZArith.
From S2P Require Import Prelude Utf8 GoStd Types RingGrowing Cache DeltaFifo SharedInformer InformerFactory Reflector InformerSystem InformerKinds InformerSide ApiServer EventController RestRequest RestConfig EnvStruct Startup EventMain EventInformers.

Definition events_cluster_step {W} `{F : FluentPlatform W} `{R : MapRange} `{V : Revisions}
    (pr : program W) (Q : obj -> Prop) : cluster (side unit * estate W) -> cluster (side unit * estate W) -> Prop :=
  side_cluster_step CoreEvent (event_handler (logger (pr_logger pr))) Q.

(** C3: End to end, from the API server to fluent-bit, for events.  The
    server's events have any history, before and after the start of the program;
    it lists them at any version, sends the changes after the version of a watch
    in order, ends watches and fails at any time.  In every state the forwarder
    was given, once for each time the informer has reported an event as added
    and in that order, that event under the tag of its namespace, whatever it
    answered, and the counters show what happened to these calls; updates and
    deletions are not posted.  An event is told by its key, namespace and name:
    no key is posted again unless a deletion of it was reported in between, so
    that an event which was deleted and made again between two lists comes as
    an update and is not posted.  From every state, a server that only answers
    can have the program come to rest (nothing queued, nothing under way) after
    a clean list and told of exactly the events that exist.  In that state, and
    whenever the program is at rest, its last list was clean and its informer
    has seen the last change, the key of every event that exists has been posted
    once more than it was reported deleted, and so at least once, and every
    other key as often as it was reported deleted. *)
Theorem events_mirror_api_server {W} `{P : Platform W} `{F : FluentPlatform W} `{R : MapRange} `{S : SliceSort} `{V : Revisions}
    p p' (pr : program W) Q t n b r l0 l sd st :
  main p = (p', Ok pr) -> accepts CoreEvent Q -> begins (pr_resync pr) t n b r -> history_ok Q l0 ->
  rtc (events_cluster_step pr Q) (MkCluster l0 (events_start pr r)) (MkCluster l (sd, st)) ->
  let ns := sd_reported sd in
  fwd st = posted (logger (pr_logger pr)) (map to_event (added ns)) (p_world p')
  /\ ForwarderReceived (cnt st) = int64 (Z.of_nat (length (added ns)))
  /\ ForwarderReceived (cnt st) = int64 (ForwarderSent (cnt st) + ForwarderFailed (cnt st))
  /\ (forall k, adds k ns <= deletes k ns + 1)
  /\ (exists sd' st', rtc (events_cluster_step pr Q) (MkCluster l (sd, st)) (MkCluster l (sd', st'))
        /\ side_rest tt sd' /\ sd_clean sd' = true /\ sd_told sd' = current Event_type l
        /\ fwd st' = posted (logger (pr_logger pr)) (map to_event (added (sd_reported sd'))) (p_world p')
        /\ forall k, adds k (sd_reported sd') = deletes k (sd_reported sd') + present (current Event_type l) k)
  /\ (side_rest tt sd -> sd_clean sd = true -> up_to_date Event_type l (sd_running sd) ->
      forall k, adds k ns = deletes k ns + present (current Event_type l) k).
Proof.
  intros Hmain HQ Hb Hl0 Hrun ns.
  destruct (side_cluster_run (event_handler (logger (pr_logger pr))) Q HQ _ _ _ _ _ _ _ _ _ _ Hb Hl0 Hrun)
    as (Hl & Hsync & Hr & Hbase).
  destruct (events_reach_fluent _ _ _ _ _ _ _ _ _ Hmain Hb Hbase) as (_ & Hpost & Hrec & Hsum & _ & Honce & _ & Hexact).
  split_and!; [done..| |].
  - destruct (side_cluster_catches_up (event_handler (logger (pr_logger pr))) Q HQ (event_handler_ok _) ltac:(done)
      _ _ _ _ _ l sd st Hb Hl Hr) as (sd' & st' & Hrun' & Hbase' & Hrest & Hclean & Ht).
    assert (rtc (events_step pr) (events_start pr r) (sd', st')) as Hall by (etransitivity; [exact Hbase|exact Hbase']).
    destruct (events_reach_fluent _ _ _ _ _ _ _ _ _ Hmain Hb Hall) as (_ & Hpost' & _ & _ & _ & _ & _ & Hexact').
    exists sd', st'. split_and!; [exact Hrun'|done..|]. intros k. by rewrite (Hexact' Hrest Hclean k), Ht.
  - intros Hrest Hclean Hup k. pose proof (in_sync_current _ _ _ _ Hsync Hup) as E.
    change (kind_type CoreEvent) with Event_type in E. rewrite <- E. exact (Hexact Hrest Hclean k).
Qed.

(** ** A run of the cluster *)

Definition valid_event (o : obj) : Prop := TypeOf o = Event_type -> is_object CoreEvent o.

Definition event_at (n : nat) (name : string) : obj := ACoreEvent (pulled name (revision n)).

(** An event exists before the start; two more are made, one of them occurs again
    and is deleted. *)
Definition event_cluster_schedule : list cluster_label :=
  [LeftDoes (Informs (ReplyList 0)); LeftDoes (Informs (NoReply (DoWatch None))); LeftDoes (Informs ReplyEvent);
   LeftDoes (Informs (NoReply DoProcess)); LeftDoes (Hands 0);
   Commits (Reflector.MkEvent WatchAdded (event_at 2 "b")); Commits (Reflector.MkEvent WatchModified (event_at 3 "a"));
   LeftDoes (Informs ReplyEvent); LeftDoes (Informs ReplyEvent);
   Commits (Reflector.MkEvent WatchDeleted (event_at 4 "a"));
   LeftDoes (Informs (NoReply DoProcess)); LeftDoes (Hands 0); LeftDoes (Informs (NoReply DoProcess)); LeftDoes (Hands 0);
   LeftDoes (Informs ReplyEvent); LeftDoes (Informs (NoReply DoProcess)); LeftDoes (Hands 0)].

Definition before_start : history := [Reflector.MkEvent WatchAdded (event_at 1 "a")].

Definition event_cluster_end : option (program sent_records * cluster (side unit * estate sent_records)) :=
  match event_main with
  | (_, Ok pr) =>
      option_map (pair pr)
        (@side_cluster_exec decimal_revisions map_order _ CoreEvent _ _ _ (event_handler lossy) event_cluster_schedule
           (MkCluster before_start (side_start tt sample_informer, pr_state pr)))
  | (_, Err _) => None
  end.

Definition event_settled (c : cluster (side unit * estate sent_records)) : bool :=
  let '(sd, st) := cl_program c in
  rest_b (fun _ => true) sd && sd_clean sd && up_to_dateb Event_type (cl_history c) (sd_running sd)
  && bool_decide (map fst (map_to_list (current Event_type (cl_history c))) = ["ns1/b"])
  && bool_decide (map event_id (added (sd_reported sd)) = [("ns1", "a"); ("ns1", "b")]).

Example event_cluster_settles : match event_cluster_end with Some (_, c) => event_settled c | None => false end = true.
Proof. vm_compute. reflexivity. Qed.

Lemma valid_event_accepts : accepts CoreEvent valid_event.
Proof. by intros o Ho. Qed.

Lemma valid_event_at n name : valid_event (event_at n name).
Proof. intros _. eexists. split; [reflexivity|]. by split. Qed.

Lemma event_cluster_accepted : Forall (accepted valid_event) event_cluster_schedule.
Proof. repeat constructor; apply valid_event_at. Qed.

Lemma before_start_ok : history_ok valid_event before_start.
Proof. intros [|n] e He; [|done]. injection He as <-. by apply (change_okb_true valid_event []), valid_event_at. Qed.

Lemma event_cluster_ends :
  exists p' pr l sd st, event_main = (p', Ok pr) /\ pr_resync pr = sample_resync
    /\ rtc (@events_cluster_step sent_records event_fluent map_order decimal_revisions pr valid_event)
         (MkCluster before_start (events_start pr sample_informer)) (MkCluster l (sd, st))
    /\ side_rest tt sd /\ sd_clean sd = true /\ up_to_date Event_type l (sd_running sd)
    /\ map fst (map_to_list (current Event_type l)) = ["ns1/b"].
Proof.
  pose proof event_cluster_settles as Hend. unfold event_cluster_end in Hend.
  destruct event_main as [p' [pr|e]] eqn:Emain; [|discriminate Hend].
  destruct (@side_cluster_exec _ _ _ CoreEvent _ _ _ _ event_cluster_schedule _) as [[l [sd st]]|] eqn:Es; [|discriminate Hend].
  cbn [option_map] in Hend. unfold event_settled in Hend. cbn [cl_program cl_history] in Hend. rewrite !andb_true_iff in Hend.
  destruct Hend as [[[[R1 C] U] A%bool_decide_eq_true] _].
  apply (side_cluster_exec_run _ valid_event (event_handler_ok lossy) _ _ _ event_cluster_accepted) in Es.
  exists p', pr, l, sd, st. split_and!; [done| |exact Es| |done|by apply up_to_dateb_true|exact A].
  - vm_compute in Emain. by injection Emain as <- <-.
  - destruct (side_cluster_run (event_handler lossy) valid_event valid_event_accepts _ _ _ _ _ _ _ _ _ _
      sample_begins before_start_ok Es) as (_ & _ & Hr & _).
    exact (rest_b_true (T := CoreEvent) (event_handler lossy) (event_handler_ok lossy) _ _ _ _ _ _ sample_begins Hr R1).
Qed.

Lemma events_mirror_api_server_witness :
  exists l (sd : side unit), adds "ns1/a" (sd_reported sd) = deletes "ns1/a" (sd_reported sd)
    /\ adds "ns1/b" (sd_reported sd) = deletes "ns1/b" (sd_reported sd) + 1
    /\ map fst (map_to_list (current Event_type l)) = ["ns1/b"].
Proof.
  destruct event_cluster_ends as (p' & pr & l & sd & st & Hmain & Hre & Hrun & Hrest & Hclean & Hup & Hcur).
  pose proof sample_begins as Hb. rewrite <- Hre in Hb.
  destruct (@events_mirror_api_server sent_records event_platform event_fluent map_order insertion_slice_sort decimal_revisions
    _ _ _ valid_event _ _ _ _ _ _ _ _ Hmain valid_event_accepts Hb before_start_ok Hrun) as (_ & _ & _ & _ & _ & Hexact).
  assert (forall k, is_Some (current Event_type l !! k) <-> k = "ns1/b") as Hk.
  { intros k. split.
    - intros [o Ho%elem_of_map_to_list]. apply (list_elem_of_fmap_2 fst) in Ho. 
      change (fst <$> map_to_list (current Event_type l)) with (map fst (map_to_list (current Event_type l))) in Ho.
      rewrite Hcur in Ho. by apply list_elem_of_singleton in Ho.
    - intros ->. assert ("ns1/b" ∈ map fst (map_to_list (current Event_type l))) as Hin by (rewrite Hcur; by left).
      apply list_elem_of_fmap in Hin as ([k o] & -> & Hin%elem_of_map_to_list). by exists o. }
  exists l, sd. rewrite !(Hexact Hrest Hclean Hup). unfold present. split_and!; [| |exact Hcur].
  - destruct (current Event_type l !! "ns1/a") eqn:E; [|lia].
    assert (("ns1/a" : string) = "ns1/b") by (apply Hk; by rewrite E). done.
  - destruct (proj2 (Hk "ns1/b") eq_refl) as [o ->]. done.
Defined.

Lemma informer_follows_server_witness :
  exists l (sd : side unit), store_items (sd_running sd) = current Event_type l
    /\ map fst (map_to_list (current Event_type l)) = ["ns1/b"].
Proof.
  destruct event_cluster_ends as (p' & pr & l & sd & st & _ & _ & Hrun & (_ & Hq & _) & Hclean & Hup & Hcur).
  exists l, sd. split; [|exact Hcur]. assert (kind_type CoreEvent <> EmptyString) as Hty by done.
  destruct (informer_follows_server (T := CoreEvent) (event_handler lossy) (fun _ => 0) valid_event _ _ _ _ _ _ _ _ _ _
    (event_handler_ok lossy) valid_event_accepts Hty sample_begins before_start_ok Hrun) as (_ & Hstore & _).
  exact (Hstore Hup Hclean Hq).
Defined.
