(* ===== verification/ValidatorMain.v ===== *)
(** * The start of the webhook ([cmd/validator/main.go])

    [main] loads its key pair and runs the server of [WebhookServer]. *)

From stdpp Require Import base gmap strings list relations.
From Stdlib Require Import Ascii ZArith Lia.
From S2P Require Import Prelude Utf8 GoStd WebhookServer RestRequest RestConfig EnvStruct Startup.

Definition config_fields : list field :=
  [MkField "HTTPAddr" "HTTP_ADDR, required, report" (VString EmptyString);
   MkField "Cert" "VALIDATOR_CERT, required, report" (VString "/etc/validator-certs/tls.crt");
   MkField "Key" "VALIDATOR_KEY, required, report" (VString "/etc/validator-certs/tls.key")].

(** [tls.LoadX509KeyPair]: a reference to a certificate. *)
Class CertificatePlatform (W : Type) := { LoadX509KeyPair : string -> string -> W -> res string nat }.

Section Main.
Context {W : Type} `{P : Platform W} `{C : CertificatePlatform W} `{R : MapRange} `{S : SliceSort}.

Definition load_certificate (cert key : string) : boot W nat :=
  on_world (fun w => (w, map_err CertificateError (LoadX509KeyPair cert key w))).

(** A report that cannot be written is only logged. *)
Definition report_settings (t : list field) : boot W unit := fun p =>
  let '(w, err) := WriteReport t (p_world p) in
  let p := {| p_world := w; p_logs := p_logs p; p_limiters := p_limiters p |} in
  match err with
  | Some e => log_line (Sprintf "Unable to write envstruct report: %s" [FStr e]) p
  | None => (p, Ok tt)
  end.

(** The server, which [Run(true)] then runs in place. *)
Definition main : boot W Server :=
  cfg ← load_settings config_fields;
  cert ← load_certificate (text_field "Cert" cfg) (text_field "Key" cfg);
  _ ← report_settings cfg;
  mret (NewServer (text_field "HTTPAddr" cfg) [WithTLSConfig cert]).

(** The process [Run] starts from. *)
Definition run_blocking (s : Server) (p : proc W) : process W :=
  {| server := s; phase := NotRun; net := p_world p; lines := p_logs p |}.

End Main.

(** ** Lemmas *)

Lemma validator_config_loaded (env : string -> string) fs :
  Forall2 (loaded env) config_fields fs ->
  (text_field "HTTPAddr" fs = env "HTTP_ADDR" /\ text_field "Cert" fs = env "VALIDATOR_CERT"
   /\ text_field "Key" fs = env "VALIDATOR_KEY")
  /\ env "HTTP_ADDR" <> EmptyString /\ env "VALIDATOR_CERT" <> EmptyString /\ env "VALIDATOR_KEY" <> EmptyString.
Proof.
  intros Hf. inversion Hf as [|f f' ? l (Hn & _ & Hv) Hl]; subst. inversion Hl as [|g g' ? l' (Hn' & _ & Hv') Hl']; subst.
  inversion Hl' as [|k k' ? l2 (Hn2 & _ & Hv2) Hl2]; subst. inversion Hl2; subst.
  change (env_var _) with "HTTP_ADDR" in Hv. change (env_var _) with "VALIDATOR_CERT" in Hv'.
  change (env_var _) with "VALIDATOR_KEY" in Hv2. cbn [field_name value] in Hn, Hv, Hn', Hv', Hn2, Hv2.
  unfold text_field. cbn.
  destruct f' as [n1 t1 v1], g' as [n2 t2 v2], k' as [n3 t3 v3]. cbn in *. subst n1 n2 n3. cbn.
  destruct (String.eqb_spec (env "HTTP_ADDR") EmptyString) as [E|H1]; [by destruct Hv|].
  destruct (String.eqb_spec (env "VALIDATOR_CERT") EmptyString) as [E|H2]; [by destruct Hv'|].
  destruct (String.eqb_spec (env "VALIDATOR_KEY") EmptyString) as [E|H3]; [by destruct Hv2|].
  by rewrite Hv, Hv', Hv2.
Qed.

(** The start of the webhook: the server has the address and the key pair that
    the environment names.  Its settings are all required, so the paths that
    [main] puts into them are never used: without the variables it ends with an
    error. *)
Lemma validator_starts {W} `{P : Platform W} `{C : CertificatePlatform W} `{R : MapRange} `{S : SliceSort} p :
  (forall p' s, main p = (p', Ok s) ->
     exists cert, LoadX509KeyPair (Getenv "VALIDATOR_CERT") (Getenv "VALIDATOR_KEY") (p_world p) = Ok cert
       /\ s = {| lis := None; srv := None; addr := Getenv "HTTP_ADDR"; tlsConfig := Some cert |})
  /\ (Getenv "VALIDATOR_CERT" = EmptyString \/ Getenv "VALIDATOR_KEY" = EmptyString ->
      exists vars, main p = (p, Err (EnvError (MissingRequired vars)))).
Proof.
  unfold main. split.
  - intros p' s (p1 & fs & [-> Hfs]%load_settings_ok & Hb)%bind_ok. apply bind_ok in Hb as (p2 & cert & Hc & Hb).
    apply bind_ok in Hb as (p3 & ? & _ & Hb). injection Hb as <- <-.
    destruct (validator_config_loaded _ _ Hfs) as ((-> & E2 & E3) & _). rewrite E2, E3 in Hc.
    unfold load_certificate, on_world in Hc. destruct (LoadX509KeyPair _ _ _) as [c|] eqn:Ec; [|done].
    injection Hc as _ <-. by exists c.
  - intros Hempty. assert (exists vars, Load Getenv config_fields = Err (MissingRequired vars)) as [vars Hl].
    { unfold Load. destruct (load_no_int Getenv config_fields eq_refl) as [[fs missing] El]. rewrite El.
      destruct missing as [|v m]; [|by eexists]. exfalso.
      apply load_ok, validator_config_loaded in El as (_ & _ & H2 & H3). by destruct Hempty. }
    exists vars. unfold mbind, boot_bind, load_settings. by rewrite Hl.
Qed.
